(** * StreamHub: a shallow embedding of the relay core

    The development follows the TypeScript sources module by module:

    - [JsString], [JsNumber], [JsValue]
                       the JavaScript strings, numbers and untyped
                       values the sources compute with
    - [Lifecycle]      src/core/lifecycle/ModuleLifecycle.ts
    - [Regex], [StatsParser]
                       src/services/StreamStatisticsParser.ts
    - [RTMPServer]     src/stream/RTMPServer.ts (the publish hooks)
    - [Relay], [StreamManager]
                       stream/StreamManager.ts (the relay supervisor)
                       and the adapters of src/platforms
    - [Config]         config/Config.ts (the YAML store), with the
                       destination filters of main.ts and of the API
    - [Exec]           methods with state, exceptions and effects
    - [Ingest]         src/stream/RTMPServer.ts as a module and as the
                       stream provider
    - [Supervisor]     stream/StreamManager.ts as a module: activation,
                       the listeners on the ingest, the bulk start and
                       stop
    - [Registry]       src/core/registry/ModuleRegistry.ts
    - [WebSocketService]
                       src/services/WebSocketService.ts (the broadcast
                       queue)
    - [ConfigEdge], [Sessions]
                       vocabulary of further statements

    JavaScript exceptions are modelled by explicit results, mutable
    objects by explicit state passing, [Map]s by [gmap] (by association
    lists where the order of insertion is used), and the
    insertion-ordered [Set] by a duplicate-free list.  The modules come
    first; the properties proved about them follow, in modules whose
    names end in [Props]. *)

From Stdlib Require Import ZArith String Ascii List Lia Bool.
From stdpp Require Import gmap strings list fin_maps pretty.

Local Open Scope string_scope.

(** [o !== null] for a match result. *)
Definition is_Some_bool {A} (o : option A) : bool :=
  match o with Some _ => true | None => false end.

(** ** Exceptions *)

(** [new Error(msg)] thrown by a method. *)
Inductive exn : Type := Error (msg : string).

(** Result of a method that may throw. *)
Inductive result (A : Type) : Type :=
| Ok (a : A)
| Throw (e : exn).
Arguments Ok {A} a.
Arguments Throw {A} e.

#[global] Instance result_ret : MRet result := fun A a => Ok a.

#[global] Instance result_bind : MBind result := fun A B f r =>
  match r with
  | Ok a => f a
  | Throw e => Throw e
  end.

#[global] Instance result_fmap : FMap result := fun A B f r =>
  match r with
  | Ok a => Ok (f a)
  | Throw e => Throw e
  end.

(* ================================================================= *)
(** ** JavaScript strings

    Strings are sequences of 8-bit characters; the transcoder output,
    URLs and keys handled here are ASCII.  Only the [String.prototype]
    methods the sources call are modelled. *)

Module JsString.

Definition slash : ascii := "/"%char.

(** [p] is an initial segment of [s]. *)
Fixpoint is_prefix (p s : string) : bool :=
  match p, s with
  | EmptyString, _ => true
  | String a p', String b s' => Ascii.eqb a b && is_prefix p' s'
  | String _ _, EmptyString => false
  end.

(** [s.startsWith(p)] *)
Definition startsWith (s p : string) : bool := is_prefix p s.

(** [s.endsWith(p)]: some tail of [s] is [p]. *)
Fixpoint endsWith (s p : string) : bool :=
  String.eqb s p ||
  match s with
  | EmptyString => false
  | String _ s' => endsWith s' p
  end.

(** [s.includes(p)]: [p] is a prefix of some tail of [s]. *)
Fixpoint includes (s p : string) : bool :=
  is_prefix p s ||
  match s with
  | EmptyString => false
  | String _ s' => includes s' p
  end.

(** [s.replace(/\/$/, '')]: remove one trailing slash, if there is one.
    Without the [m] flag, [$] only matches at the end of the input. *)
Fixpoint removeTrailingSlash (s : string) : string :=
  match s with
  | EmptyString => EmptyString
  | String c EmptyString => if Ascii.eqb c slash then EmptyString else s
  | String c s' => String c (removeTrailingSlash s')
  end.

(** White space recognised by [trim()] and by the regex class [\s],
    restricted to ASCII: TAB, LF, VT, FF, CR and SPACE. *)
Definition is_space (c : ascii) : bool :=
  let n := nat_of_ascii c in
  ((9 <=? n) && (n <=? 13))%nat || (n =? 32)%nat.

(** [s.trim()] is the empty string exactly when every character of [s]
    is white space; the sources only test the trimmed string for
    truthiness. *)
Fixpoint all_space (s : string) : bool :=
  match s with
  | EmptyString => true
  | String c s' => is_space c && all_space s'
  end.

Definition trim_truthy (s : string) : bool := negb (all_space s).

(** [s.split('/')]: the pieces between slashes; [cur] accumulates the
    current piece.  A string without slash yields one piece. *)
Fixpoint split_on (sep : ascii) (s : string) (cur : string) : list string :=
  match s with
  | EmptyString => [cur]
  | String c s' =>
      if Ascii.eqb c sep then cur :: split_on sep s' EmptyString
      else split_on sep s' (cur ++ String c EmptyString)
  end.

Definition split (sep : ascii) (s : string) : list string :=
  split_on sep s EmptyString.

(** [c.toLowerCase()] on ASCII letters. *)
Definition lower (c : ascii) : ascii :=
  let n := nat_of_ascii c in
  if ((65 <=? n) && (n <=? 90))%nat then ascii_of_nat (n + 32) else c.

(** [s.toLowerCase()] *)
Fixpoint toLowerCase (s : string) : string :=
  match s with
  | EmptyString => EmptyString
  | String c s' => String (lower c) (toLowerCase s')
  end.

(** [s.replace(pat, by)] with a string pattern: the first occurrence. *)
Fixpoint replace (s pat by_ : string) : string :=
  if is_prefix pat s then by_ ++ String.substring (String.length pat) (String.length s) s
  else match s with
       | EmptyString => EmptyString
       | String c s' => String c (replace s' pat by_)
       end.

(** A string is truthy when it is not empty. *)
Definition truthy (s : string) : bool := negb (String.eqb s EmptyString).

(** The last character of a string. *)
Fixpoint last_char (s : string) : option ascii :=
  match s with
  | EmptyString => None
  | String c EmptyString => Some c
  | String _ s' => last_char s'
  end.

(** [l.join(sep)] *)
Fixpoint join (sep : string) (l : list string) : string :=
  match l with
  | [] => EmptyString
  | [x] => x
  | x :: l' => x ++ sep ++ join sep l'
  end.

End JsString.

(* ================================================================= *)
(** ** ModuleLifecycle.ts *)

Module Lifecycle.

Inductive LifecycleState : Type :=
| CREATED | INITIALIZING | INITIALIZED | ACTIVATING | ACTIVE
| DEACTIVATING | DEACTIVATED | DESTROYING | DESTROYED | ERROR.

#[global] Instance LifecycleState_eq_dec : EqDecision LifecycleState.
Proof. solve_decision. Defined.

(** The string values of the enum, used in error messages. *)
Definition state_name (s : LifecycleState) : string :=
  match s with
  | CREATED => "created" | INITIALIZING => "initializing"
  | INITIALIZED => "initialized" | ACTIVATING => "activating"
  | ACTIVE => "active" | DEACTIVATING => "deactivating"
  | DEACTIVATED => "deactivated" | DESTROYING => "destroying"
  | DESTROYED => "destroyed" | ERROR => "error"
  end.

(** The object: [private state] and [private moduleName]. *)
Record ModuleLifecycle : Type := mkLifecycle {
  state : LifecycleState;
  moduleName : string
}.

(** [constructor(moduleName)] *)
Definition new (name : string) : ModuleLifecycle :=
  {| state := CREATED; moduleName := name |}.

Definition set_state (l : ModuleLifecycle) (s : LifecycleState) : ModuleLifecycle :=
  {| state := s; moduleName := moduleName l |}.

Definition in_state (l : ModuleLifecycle) (s : LifecycleState) : bool :=
  bool_decide (state l = s).

Definition canInitialize (l : ModuleLifecycle) : bool := in_state l CREATED.

Definition canActivate (l : ModuleLifecycle) : bool :=
  in_state l INITIALIZED || in_state l DEACTIVATED.

Definition canDeactivate (l : ModuleLifecycle) : bool :=
  in_state l ACTIVE || in_state l ACTIVATING.

Definition canDestroy (l : ModuleLifecycle) : bool :=
  in_state l CREATED || in_state l INITIALIZED || in_state l DEACTIVATED || in_state l ERROR.

(** A [mark*] method returns the object after the call together with the
    exception it threw, if any. *)
Definition effect : Type := (ModuleLifecycle * option exn)%type.

Definition markInitializing (l : ModuleLifecycle) : effect :=
  if negb (canInitialize l) then
    (l, Some (Error ("Cannot initialize module " ++ moduleName l ++ " in state " ++ state_name (state l))))
  else (set_state l INITIALIZING, None).

Definition markInitialized (l : ModuleLifecycle) : effect :=
  if negb (in_state l INITIALIZING) then
    (l, Some (Error ("Cannot mark as initialized in state " ++ state_name (state l))))
  else (set_state l INITIALIZED, None).

Definition markActivating (l : ModuleLifecycle) : effect :=
  if negb (canActivate l) then
    (l, Some (Error ("Cannot activate module " ++ moduleName l ++ " in state " ++ state_name (state l))))
  else (set_state l ACTIVATING, None).

Definition markActive (l : ModuleLifecycle) : effect :=
  if negb (in_state l ACTIVATING) then
    (l, Some (Error ("Cannot mark as active in state " ++ state_name (state l))))
  else (set_state l ACTIVE, None).

Definition markDeactivating (l : ModuleLifecycle) : effect :=
  if negb (canDeactivate l) then
    (l, Some (Error ("Cannot deactivate module " ++ moduleName l ++ " in state " ++ state_name (state l))))
  else (set_state l DEACTIVATING, None).

Definition markDeactivated (l : ModuleLifecycle) : effect :=
  if negb (in_state l DEACTIVATING) then
    (l, Some (Error ("Cannot mark as deactivated in state " ++ state_name (state l))))
  else (set_state l DEACTIVATED, None).

Definition markDestroying (l : ModuleLifecycle) : effect :=
  if negb (canDestroy l) then
    (l, Some (Error ("Cannot destroy module " ++ moduleName l ++ " in state " ++ state_name (state l))))
  else (set_state l DESTROYING, None).

Definition markDestroyed (l : ModuleLifecycle) : effect :=
  if negb (in_state l DESTROYING) then
    (l, Some (Error ("Cannot mark as destroyed in state " ++ state_name (state l))))
  else (set_state l DESTROYED, None).

Definition markError (l : ModuleLifecycle) : effect :=
  (set_state l ERROR, None).

(** The eight guarded transition methods, as a datatype, so that
    statements can quantify over them. *)
Inductive Transition : Type :=
| MarkInitializing | MarkInitialized | MarkActivating | MarkActive
| MarkDeactivating | MarkDeactivated | MarkDestroying | MarkDestroyed.

Definition call (t : Transition) : ModuleLifecycle -> effect :=
  match t with
  | MarkInitializing => markInitializing
  | MarkInitialized => markInitialized
  | MarkActivating => markActivating
  | MarkActive => markActive
  | MarkDeactivating => markDeactivating
  | MarkDeactivated => markDeactivated
  | MarkDestroying => markDestroying
  | MarkDestroyed => markDestroyed
  end.

(** The state a transition method installs when it succeeds. *)
Definition target (t : Transition) : LifecycleState :=
  match t with
  | MarkInitializing => INITIALIZING
  | MarkInitialized => INITIALIZED
  | MarkActivating => ACTIVATING
  | MarkActive => ACTIVE
  | MarkDeactivating => DEACTIVATING
  | MarkDeactivated => DEACTIVATED
  | MarkDestroying => DESTROYING
  | MarkDestroyed => DESTROYED
  end.

(** The transition table: the states from which each method is
    permitted.  The table is written out here independently of the
    guards above; [transitions_guarded] shows the guards implement it. *)
Definition permitted_from (t : Transition) : list LifecycleState :=
  match t with
  | MarkInitializing => [CREATED]
  | MarkInitialized => [INITIALIZING]
  | MarkActivating => [INITIALIZED; DEACTIVATED]
  | MarkActive => [ACTIVATING]
  | MarkDeactivating => [ACTIVE; ACTIVATING]
  | MarkDeactivated => [DEACTIVATING]
  | MarkDestroying => [CREATED; INITIALIZED; DEACTIVATED; ERROR]
  | MarkDestroyed => [DESTROYING]
  end.

Definition permitted (t : Transition) (s : LifecycleState) : Prop :=
  In s (permitted_from t).

(** [getInfo()] *)
Record LifecycleInfo : Type := mkLifecycleInfo {
  info_module : string;
  info_state : LifecycleState;
  info_canInitialize : bool;
  info_canActivate : bool;
  info_canDeactivate : bool;
  info_canDestroy : bool
}.

Definition getInfo (l : ModuleLifecycle) : LifecycleInfo :=
  {| info_module := moduleName l; info_state := state l;
     info_canInitialize := canInitialize l; info_canActivate := canActivate l;
     info_canDeactivate := canDeactivate l; info_canDestroy := canDestroy l |}.

(** Every method that writes the state: the eight guarded ones and
    [markError]. *)
Inductive Method : Type :=
| Transit (t : Transition)
| MarkError.

Definition invoke (m : Method) (l : ModuleLifecycle) : effect :=
  match m with
  | Transit t => call t l
  | MarkError => markError l
  end.

(** A sequence of calls on the same object, the caller going on after
    an exception. *)
Fixpoint invokeAll (ms : list Method) (l : ModuleLifecycle) : ModuleLifecycle :=
  match ms with
  | [] => l
  | m :: ms' => invokeAll ms' (fst (invoke m l))
  end.

End Lifecycle.

(* ================================================================= *)
(** ** JavaScript numbers

    Numbers are modelled exactly, as decimal fractions [m / 10^e], with a
    separate [NaN]; the rounding of IEEE doubles is not modelled.
    [parseFloat] covers digits, one decimal point and a sign, which is
    all that the captured text [[\d.]+] can contain. *)

Module JsNumber.

Inductive number : Type :=
| NaN
| Dec (m : Z) (e : nat).

Definition of_Z (z : Z) : number := Dec z 0.

Definition digit_val (c : ascii) : option Z :=
  let n := nat_of_ascii c in
  if ((48 <=? n) && (n <=? 57))%nat then Some (Z.of_nat (n - 48)) else None.

Definition hex_val (c : ascii) : option Z :=
  let n := nat_of_ascii c in
  if ((48 <=? n) && (n <=? 57))%nat then Some (Z.of_nat (n - 48))
  else if ((97 <=? n) && (n <=? 102))%nat then Some (Z.of_nat (n - 87))
  else if ((65 <=? n) && (n <=? 70))%nat then Some (Z.of_nat (n - 55))
  else None.

(** Read the longest run of digits: accumulated value, number of digits
    read, and the rest of the input. *)
Fixpoint read_digits (val : ascii -> option Z) (radix : Z) (s : string) (acc : Z) (n : nat)
  : Z * nat * string :=
  match s with
  | String a s' =>
      match val a with
      | Some d => read_digits val radix s' (acc * radix + d)%Z (S n)
      | None => (acc, n, s)
      end
  | EmptyString => (acc, n, s)
  end.

Fixpoint skip_space (s : string) : string :=
  match s with
  | String a s' => if JsString.is_space a then skip_space s' else s
  | EmptyString => s
  end.

(** An optional sign: the factor and the rest of the input. *)
Definition read_sign (s : string) : Z * string :=
  match s with
  | String "-"%char s' => ((-1)%Z, s')
  | String "+"%char s' => (1%Z, s')
  | _ => (1%Z, s)
  end.

(** [parseInt(s, 10)]; [None] is [NaN]. *)
Definition parseInt10 (s : string) : option Z :=
  let '(sg, s1) := read_sign (skip_space s) in
  let '(v, n, _) := read_digits digit_val 10 s1 0%Z 0 in
  if (n =? 0)%nat then None else Some (sg * v)%Z.

(** [parseInt(s)] without radix: a [0x] prefix selects base 16.  The
    value is exact (JavaScript rounds to a double above [2^53]), and
    the white space skipped is that of [JsString.is_space]. *)
Definition parseInt (s : string) : option Z :=
  let '(sg, s1) := read_sign (skip_space s) in
  match s1 with
  | String "0"%char (String x s2) =>
      if Ascii.eqb x "x"%char || Ascii.eqb x "X"%char then
        let '(v, n, _) := read_digits hex_val 16 s2 0%Z 0 in
        if (n =? 0)%nat then None else Some (sg * v)%Z
      else
        let '(v, n, _) := read_digits digit_val 10 s1 0%Z 0 in
        if (n =? 0)%nat then None else Some (sg * v)%Z
  | _ =>
      let '(v, n, _) := read_digits digit_val 10 s1 0%Z 0 in
      if (n =? 0)%nat then None else Some (sg * v)%Z
  end.

(** [parseFloat(s)]: the longest prefix of the form [ddd], [ddd.],
    [ddd.ddd] or [.ddd]. *)
Definition parseFloat (s : string) : number :=
  let '(sg, s1) := read_sign (skip_space s) in
  let '(v, n, rest) := read_digits digit_val 10 s1 0%Z 0 in
  match rest with
  | String "."%char rest' =>
      let '(v', k, _) := read_digits digit_val 10 rest' v 0 in
      if ((n + k) =? 0)%nat then NaN else Dec (sg * v') k
  | _ => if (n =? 0)%nat then NaN else Dec (sg * v) 0
  end.

Definition of_parseInt (o : option Z) : number :=
  match o with Some z => of_Z z | None => NaN end.

(** [a + b] and [a * b] on exact decimals. *)
Definition add (a b : number) : number :=
  match a, b with
  | Dec m1 e1, Dec m2 e2 =>
      Dec (m1 * 10 ^ Z.of_nat (e2 - e1) + m2 * 10 ^ Z.of_nat (e1 - e2))%Z (Nat.max e1 e2)
  | _, _ => NaN
  end.

Definition mul (a b : number) : number :=
  match a, b with
  | Dec m1 e1, Dec m2 e2 => Dec (m1 * m2)%Z (e1 + e2)
  | _, _ => NaN
  end.

End JsNumber.

(* ================================================================= *)
(** ** JavaScript values

    Untyped data: what the YAML parser returns, what [any]-typed code
    manipulates, and the opaque [metadata] of a destination.  Objects
    are association lists in key insertion order. *)

Module JsValue.

#[local] Set Warnings "-register-all".

Inductive jsval : Type :=
| JUndefined
| JNull
| JBool (b : bool)
| JNum (z : Z)
| JNaN
| JStr (s : string)
| JArr (items : list jsval)
| JObj (fields : list (string * jsval)).

(** Truthiness, as tested by [if], [!], [||] and [&&]. *)
Definition truthy (v : jsval) : bool :=
  match v with
  | JUndefined | JNull | JNaN => false
  | JBool b => b
  | JNum z => negb (z =? 0)%Z
  | JStr s => JsString.truthy s
  | JArr _ | JObj _ => true
  end.

(** [a || b] *)
Definition or (a b : jsval) : jsval := if truthy a then a else b.

(** [a ?? b] *)
Definition nullish (a b : jsval) : jsval :=
  match a with
  | JUndefined | JNull => b
  | _ => a
  end.

(** Own property lookup in a field list. *)
Fixpoint lookup (k : string) (fields : list (string * jsval)) : option jsval :=
  match fields with
  | [] => None
  | (k', v) :: rest => if String.eqb k k' then Some v else lookup k rest
  end.

(** Assignment [o[k] = v]: an existing key keeps its position. *)
Fixpoint set (k : string) (v : jsval) (fields : list (string * jsval)) : list (string * jsval) :=
  match fields with
  | [] => [(k, v)]
  | (k', v') :: rest =>
      if String.eqb k k' then (k, v) :: rest else (k', v') :: set k v rest
  end.

(** [{...a, ...b}] on field lists: the fields of [b] are assigned onto
    [a], in order. *)
Definition assign (a b : list (string * jsval)) : list (string * jsval) :=
  fold_left (fun acc kv => set (fst kv) (snd kv) acc) b a.

(** Absent properties read as [undefined]. *)
Definition field (fields : list (string * jsval)) (k : string) : jsval :=
  match lookup k fields with Some v => v | None => JUndefined end.

(** Property access [v.k] for the property names used in Config.ts
    (none of them an index, [length] or a method): it throws on
    [undefined] and [null], and is [undefined] on other non-objects. *)
Definition getProp (v : jsval) (k : string) : result jsval :=
  match v with
  | JUndefined => Throw (Error ("TypeError: Cannot read properties of undefined (reading '" ++ k ++ "')"))
  | JNull => Throw (Error ("TypeError: Cannot read properties of null (reading '" ++ k ++ "')"))
  | JObj fields => Ok (field fields k)
  | _ => Ok JUndefined
  end.

(** The own enumerable properties copied by a spread [...v]. *)
Definition spread (v : jsval) : list (string * jsval) :=
  match v with
  | JObj fields => fields
  | JArr items => imap (fun i x => (pretty i, x)) items
  | JStr s => imap (fun i c => (pretty i, JStr (String c EmptyString))) (list_ascii_of_string s)
  | _ => []
  end.

(** [{...a, ...b}] for arbitrary values. *)
Definition merge (a b : jsval) : list (string * jsval) :=
  assign (assign [] (spread a)) (spread b).

(** What survives serialisation: a property whose value is [undefined]
    is left out, and [undefined] in an array is written as [null]. *)
Fixpoint prune (v : jsval) : jsval :=
  match v with
  | JObj fields =>
      JObj ((fix go (l : list (string * jsval)) : list (string * jsval) :=
               match l with
               | [] => []
               | (k, x) :: rest =>
                   match x with
                   | JUndefined => go rest
                   | _ => (k, prune x) :: go rest
                   end
               end) fields)
  | JArr items =>
      JArr ((fix go (l : list jsval) : list jsval :=
               match l with
               | [] => []
               | x :: rest =>
                   match x with
                   | JUndefined => JNull
                   | _ => prune x
                   end :: go rest
               end) items)
  | _ => v
  end.

(** The two inner loops of [prune], by name. *)
Definition prune_fields : list (string * jsval) -> list (string * jsval) :=
  fix go (l : list (string * jsval)) : list (string * jsval) :=
    match l with
    | [] => []
    | (k, x) :: rest =>
        match x with
        | JUndefined => go rest
        | _ => (k, prune x) :: go rest
        end
    end.

Definition prune_items : list jsval -> list jsval :=
  fix go (l : list jsval) : list jsval :=
    match l with
    | [] => []
    | x :: rest =>
        match x with
        | JUndefined => JNull
        | _ => prune x
        end :: go rest
    end.

End JsValue.

(* ================================================================= *)
(** ** Regular expressions

    The fragment of JavaScript regular expressions that
    StreamStatisticsParser.ts uses: literals, character classes,
    concatenation, alternation (for bounded repetition), greedy and lazy
    repetition of a character class, and numbered capture groups.  The
    matcher is the usual backtracking one, written with a continuation
    for the rest of the pattern; quantifiers only ever range over a
    single character class, so it is structurally recursive. *)

Module Regex.

Inductive re : Type :=
| Eps
| Chr (p : ascii -> bool)
| Lit (l : string)
| Seq (r1 r2 : re)
| Alt (r1 r2 : re)
| Star (greedy : bool) (p : ascii -> bool)
| Group (n : nat) (r : re).

(** Captures: group number and captured text, most recent first. *)
Definition caps : Type := list (nat * string).

Fixpoint group (c : caps) (n : nat) : option string :=
  match c with
  | [] => None
  | (i, s) :: c' => if (i =? n)%nat then Some s else group c' n
  end.

(** [match[n]] for a group that took part in the match. *)
Definition group_text (c : caps) (n : nat) : string :=
  match group c n with Some s => s | None => EmptyString end.

(** Remove the literal [l] from the front of [s]. *)
Fixpoint strip_prefix (l s : string) : option string :=
  match l, s with
  | EmptyString, _ => Some s
  | String a l', String b s' => if Ascii.eqb a b then strip_prefix l' s' else None
  | String _ _, EmptyString => None
  end.

(** Greedy repetition: take as many characters as possible, give back
    one at a time. *)
Fixpoint star_greedy {A} (p : ascii -> bool) (s : string) (k : string -> option A) : option A :=
  match s with
  | String a s' =>
      if p a then
        match star_greedy p s' k with
        | Some x => Some x
        | None => k s
        end
      else k s
  | EmptyString => k s
  end.

(** Lazy repetition: try the continuation first, then take one more. *)
Fixpoint star_lazy {A} (p : ascii -> bool) (s : string) (k : string -> option A) : option A :=
  match k s with
  | Some x => Some x
  | None =>
      match s with
      | String a s' => if p a then star_lazy p s' k else None
      | EmptyString => None
      end
  end.

(** The text consumed between input [s] and its tail [s']. *)
Definition consumed (s s' : string) : string :=
  String.substring 0 (String.length s - String.length s') s.

(** [run r s c k]: match [r] at the start of [s] with captures [c], then
    continue with [k] on the remaining input. *)
Fixpoint run (r : re) (s : string) (c : caps) (k : string -> caps -> option caps) : option caps :=
  match r with
  | Eps => k s c
  | Chr p =>
      match s with
      | String a s' => if p a then k s' c else None
      | EmptyString => None
      end
  | Lit l =>
      match strip_prefix l s with
      | Some s' => k s' c
      | None => None
      end
  | Seq r1 r2 => run r1 s c (fun s' c' => run r2 s' c' k)
  | Alt r1 r2 =>
      match run r1 s c k with
      | Some x => Some x
      | None => run r2 s c k
      end
  | Star true p => star_greedy p s (fun s' => k s' c)
  | Star false p => star_lazy p s (fun s' => k s' c)
  | Group n r1 => run r1 s c (fun s' c' => k s' ((n, consumed s s') :: c'))
  end.

(** A match anchored at the start of [s]. *)
Definition match_here (r : re) (s : string) : option caps :=
  run r s [] (fun _ c => Some c).

(** [s.match(r)] without the [g] flag: the leftmost match. *)
Fixpoint search (r : re) (s : string) : option caps :=
  match match_here r s with
  | Some c => Some c
  | None =>
      match s with
      | String _ s' => search r s'
      | EmptyString => None
      end
  end.

(** *** Character classes and derived forms *)

Definition digit (c : ascii) : bool :=
  let n := nat_of_ascii c in ((48 <=? n) && (n <=? 57))%nat.

(** [[\d.]] *)
Definition digit_or_dot (c : ascii) : bool := digit c || Ascii.eqb c "."%char.

(** [\w]: letters, digits and underscore. *)
Definition word (c : ascii) : bool :=
  let n := nat_of_ascii c in
  digit c || ((65 <=? n) && (n <=? 90))%nat || ((97 <=? n) && (n <=? 122))%nat
  || (n =? 95)%nat.

(** [.]: any character but a line terminator. *)
Definition any (c : ascii) : bool :=
  let n := nat_of_ascii c in negb ((n =? 10)%nat || (n =? 13)%nat).

Definition space : ascii -> bool := JsString.is_space.

(** [p+] *)
Definition plus (p : ascii -> bool) : re := Seq (Chr p) (Star true p).

(** [r?] *)
Definition opt (r : re) : re := Alt r Eps.

(** [\s*] and [.*?] *)
Definition spaces : re := Star true space.
Definition lazy_any : re := Star false any.

(** [\d{2}] and [\d{2,5}] *)
Definition digit2 : re := Seq (Chr digit) (Chr digit).
Definition digit2to5 : re :=
  Seq digit2 (opt (Seq (Chr digit) (opt (Seq (Chr digit) (opt (Chr digit)))))).

(** Concatenation of a list of patterns. *)
Fixpoint seqs (l : list re) : re :=
  match l with
  | [] => Eps
  | [r] => r
  | r :: l' => Seq r (seqs l')
  end.

End Regex.

(* ================================================================= *)
(** ** StreamStatisticsParser.ts *)

Module StatsParser.
Import Regex.

Record ParsedStatistics : Type := mkStats {
  frame : option JsNumber.number;
  fps : option JsNumber.number;
  bitrate : option JsNumber.number;
  size : option JsNumber.number;
  time : option JsNumber.number;
  speed : option JsNumber.number;
  quality : option JsNumber.number;
  resolution : option string;
  codec : option string
}.

(** [/frame=\s*(\d+)/] *)
Definition FRAME_REGEX : re :=
  seqs [Lit "frame="; spaces; Group 1 (plus digit)].

(** [/fps=\s*([\d.]+)/] *)
Definition FPS_REGEX : re :=
  seqs [Lit "fps="; spaces; Group 1 (plus digit_or_dot)].

(** [/bitrate=\s*([\d.]+)\s*kbits\/s/] *)
Definition BITRATE_REGEX : re :=
  seqs [Lit "bitrate="; spaces; Group 1 (plus digit_or_dot); spaces; Lit "kbits/s"].

(** [/time=(\d{2}):(\d{2}):(\d{2}\.\d{2})/] *)
Definition TIME_REGEX : re :=
  seqs [Lit "time="; Group 1 digit2; Lit ":"; Group 2 digit2; Lit ":";
        Group 3 (seqs [digit2; Lit "."; digit2])].

(** [/(\d{2,5}x\d{2,5})/] *)
Definition RESOLUTION_REGEX : re :=
  Group 1 (seqs [digit2to5; Lit "x"; digit2to5]).

(** [/Video:\s*(\w+)/] *)
Definition CODEC_REGEX : re :=
  seqs [Lit "Video:"; spaces; Group 1 (plus word)].

(** The fused statistics line:
    [/frame=\s*(\d+).*?fps=\s*([\d.]+).*?q=([\d.]+).*?size=\s*(\d+)\s*kB.*?time=(\d{2}):(\d{2}):(\d{2}\.\d{2}).*?bitrate=\s*([\d.]+)\s*kbits\/s.*?speed=\s*([\d.]+)x/] *)
Definition STATS_REGEX : re :=
  seqs [Lit "frame="; spaces; Group 1 (plus digit); lazy_any;
        Lit "fps="; spaces; Group 2 (plus digit_or_dot); lazy_any;
        Lit "q="; Group 3 (plus digit_or_dot); lazy_any;
        Lit "size="; spaces; Group 4 (plus digit); spaces; Lit "kB"; lazy_any;
        Lit "time="; Group 5 digit2; Lit ":"; Group 6 digit2; Lit ":";
        Group 7 (seqs [digit2; Lit "."; digit2]); lazy_any;
        Lit "bitrate="; spaces; Group 8 (plus digit_or_dot); spaces; Lit "kbits/s"; lazy_any;
        Lit "speed="; spaces; Group 9 (plus digit_or_dot); Lit "x"].

Definition SECONDS_PER_HOUR : JsNumber.number := JsNumber.of_Z 3600.
Definition SECONDS_PER_MINUTE : JsNumber.number := JsNumber.of_Z 60.

Definition parseIntGroup (c : caps) (n : nat) : JsNumber.number :=
  JsNumber.of_parseInt (JsNumber.parseInt10 (group_text c n)).

Definition parseFloatGroup (c : caps) (n : nat) : JsNumber.number :=
  JsNumber.parseFloat (group_text c n).

(** [hours * 3600 + minutes * 60 + seconds], in the exact arithmetic of
    [JsNumber]: the sum of doubles in the code can differ from it in
    the last digits. *)
Definition time_of (hours minutes seconds : JsNumber.number) : JsNumber.number :=
  JsNumber.add
    (JsNumber.add (JsNumber.mul hours SECONDS_PER_HOUR)
                  (JsNumber.mul minutes SECONDS_PER_MINUTE))
    seconds.

(** The fallback path: each field on its own; [hasStats] is raised by
    frame, fps, bitrate and time only. *)
Definition parseFields (line : string) : option ParsedStatistics :=
  let frameMatch := search FRAME_REGEX line in
  let fpsMatch := search FPS_REGEX line in
  let bitrateMatch := search BITRATE_REGEX line in
  let timeMatch := search TIME_REGEX line in
  let resolutionMatch := search RESOLUTION_REGEX line in
  let codecMatch := search CODEC_REGEX line in
  let hasStats :=
    is_Some_bool frameMatch || is_Some_bool fpsMatch
    || is_Some_bool bitrateMatch || is_Some_bool timeMatch in
  let stats :=
    {| frame := (fun c => parseIntGroup c 1) <$> frameMatch;
       fps := (fun c => parseFloatGroup c 1) <$> fpsMatch;
       bitrate := (fun c => parseFloatGroup c 1) <$> bitrateMatch;
       size := None;
       time := (fun c => time_of (parseIntGroup c 1) (parseIntGroup c 2)
                                 (parseFloatGroup c 3)) <$> timeMatch;
       speed := None;
       quality := None;
       resolution := (fun c => group_text c 1) <$> resolutionMatch;
       codec := (fun c => group_text c 1) <$> codecMatch |} in
  if hasStats then Some stats else None.

(** [static parseStderrLine(line)]; [None] is [null]. *)
Definition parseStderrLine (line : string) : option ParsedStatistics :=
  match search STATS_REGEX line with
  | Some c =>
      let hours := parseIntGroup c 5 in
      let minutes := parseIntGroup c 6 in
      let seconds := parseFloatGroup c 7 in
      Some {| frame := Some (parseIntGroup c 1);
              fps := Some (parseFloatGroup c 2);
              quality := Some (parseFloatGroup c 3);
              size := Some (parseIntGroup c 4);
              time := Some (time_of hours minutes seconds);
              bitrate := Some (parseFloatGroup c 8);
              speed := Some (parseFloatGroup c 9);
              resolution := None;
              codec := None |}
  | None => parseFields line
  end.

(** [static parseStderrLines(lines)]: the records of the lines that
    parse, in order. *)
Definition parseStderrLines (lines : list string) : list ParsedStatistics :=
  omap parseStderrLine lines.

(** [static getLatest(parsed)] *)
Definition getLatest (parsed : list ParsedStatistics) : option ParsedStatistics :=
  last parsed.

(** *** Sample input *)

(** A progress line followed by a resolution. *)
Definition progress_line : string :=
  "frame=  456 fps= 29.9 q=28.0 size=    2048kB time=00:00:15.20 bitrate=2048.0kbits/s speed=1.00x 1280x720".

(** The record parsed from it. *)
Definition progress_record : ParsedStatistics :=
  {| frame := Some (JsNumber.Dec 456 0); fps := Some (JsNumber.Dec 299 1);
     bitrate := Some (JsNumber.Dec 20480 1); size := Some (JsNumber.Dec 2048 0);
     time := Some (JsNumber.Dec 1520 2); speed := Some (JsNumber.Dec 100 2);
     quality := Some (JsNumber.Dec 280 1); resolution := None; codec := None |}.

(** A stream-information line carrying both a codec and a resolution. *)
Definition stream_info_line : string :=
  "  Stream #0:0: Video: h264 (High), yuv420p, 1920x1080, 30 tbr".

End StatsParser.

(* ================================================================= *)
(** ** IStreamProvider.ts and RTMPServer.ts

    The ingest object and the four publish hooks it installs on the
    embedded media server.  A hook maps the object to the object after
    the call and the list of effects it performed, in order. *)

Module RTMPServer.

Inductive StreamStatus : Type :=
| IDLE | CONNECTING | CONNECTED | STREAMING | ERROR | DISCONNECTED.

#[global] Instance StreamStatus_eq_dec : EqDecision StreamStatus.
Proof. solve_decision. Defined.

Record StreamInfo : Type := mkStreamInfo {
  info_streamKey : string;
  rtmpUrl : string;
  info_status : StreamStatus
}.

Record RTMPServerConfig : Type := mkRTMPServerConfig {
  host : string;
  port : Z;
  appName : string;
  streamKey : string;
  enabled : bool
}.

(** The fields of the [RTMPServer] object that the hooks read or write.
    [subscriptionCallbacks] keeps the subscription ids in insertion
    order; the callbacks themselves are opaque, and calling one is
    recorded as an effect. *)
Record RTMPServer : Type := mkRTMPServer {
  config : RTMPServerConfig;
  status : StreamStatus;
  connected : bool;
  streamInfo : option StreamInfo;
  actualStreamPath : option string;
  subscriptionCallbacks : list string
}.

(** [constructor(config)] *)
Definition new (cfg : RTMPServerConfig) : RTMPServer :=
  {| config := cfg; status := IDLE; connected := false; streamInfo := None;
     actualStreamPath := None; subscriptionCallbacks := [] |}.

Inductive effect : Type :=
| SessionReject (id : string)          (* [getSession(id).reject()] *)
| Warn (msg : string)                  (* [console.warn] *)
| Callback (subscription : string) (s : StreamStatus)
| EmitStatusChange (s : StreamStatus)  (* [emit('statusChange', s)] *)
| EmitStreaming (path : string)        (* [emit('streaming', ...)] *)
| EmitDonePublish (path : string).     (* [emit('donePublish', ...)] *)

(** [StreamPath.split('/').filter(part => part.length > 0)] *)
Definition pathParts (StreamPath : string) : list string :=
  filter (fun part => JsString.truthy part = true) (JsString.split JsString.slash StreamPath).

(** [pathParts[pathParts.length - 1]]; [None] is [undefined]. *)
Definition trailingSegment (StreamPath : string) : option string :=
  last (pathParts StreamPath).

(** String interpolation of a possibly undefined key. *)
Definition show_key (k : option string) : string :=
  match k with Some s => s | None => "undefined" end.

(** The [prePublish] hook. *)
Definition onPrePublish (srv : RTMPServer) (id StreamPath : string) : RTMPServer * list effect :=
  let key := trailingSegment StreamPath in
  let expected := streamKey (config srv) in
  if JsString.truthy expected && negb (bool_decide (key = Some expected)) then
    (srv, [SessionReject id;
           Warn ("[RTMP Server] Invalid stream key: " ++ show_key key
                 ++ " (expected: " ++ expected ++ ")")])
  else
    ({| config := config srv; status := CONNECTING; connected := connected srv;
        streamInfo := streamInfo srv; actualStreamPath := actualStreamPath srv;
        subscriptionCallbacks := subscriptionCallbacks srv |},
     [EmitStatusChange CONNECTING]).

(** [0.0.0.0] is shown as [localhost]. *)
Definition displayHost (cfg : RTMPServerConfig) : string :=
  if String.eqb (host cfg) "0.0.0.0" then "localhost" else host cfg.

(** The [postPublish] hook. *)
Definition onPostPublish (srv : RTMPServer) (id StreamPath : string) : RTMPServer * list effect :=
  let url := "rtmp://" ++ displayHost (config srv) ++ ":" ++ pretty (port (config srv)) ++ StreamPath in
  ({| config := config srv; status := STREAMING; connected := true;
      streamInfo := Some {| info_streamKey := streamKey (config srv); rtmpUrl := url;
                            info_status := STREAMING |};
      actualStreamPath := Some StreamPath;
      subscriptionCallbacks := subscriptionCallbacks srv |},
   (map (fun sub => Callback sub STREAMING) (subscriptionCallbacks srv)
    ++ [EmitStreaming StreamPath; EmitStatusChange STREAMING])%list).

(** The [donePublish] hook. *)
Definition onDonePublish (srv : RTMPServer) (id StreamPath : string) : RTMPServer * list effect :=
  ({| config := config srv; status := IDLE; connected := connected srv;
      streamInfo :=
        (fun i => {| info_streamKey := info_streamKey i; rtmpUrl := rtmpUrl i;
                     info_status := IDLE |}) <$> streamInfo srv;
      actualStreamPath := None;
      subscriptionCallbacks := subscriptionCallbacks srv |},
   [EmitDonePublish StreamPath; EmitStatusChange IDLE]).

(** [getStreamPath()] *)
Definition getStreamPath (srv : RTMPServer) : string :=
  match actualStreamPath srv with
  | Some p => if JsString.truthy p then p
              else "/" ++ appName (config srv) ++ "/" ++ streamKey (config srv)
  | None => "/" ++ appName (config srv) ++ "/" ++ streamKey (config srv)
  end.

(** Whether a hook rejected the publishing session. *)
Definition rejected (id : string) (effs : list effect) : bool :=
  existsb (fun e => match e with
                    | SessionReject id' => String.eqb id id'
                    | _ => false
                    end) effs.

(** The media server's side of a publish request (node-media-server,
    [onPublish]): it fires [prePublish], and goes on to [postPublish]
    only if no listener rejected the session meanwhile. *)
Definition publish (srv : RTMPServer) (id StreamPath : string) : RTMPServer * list effect :=
  let '(srv1, effs1) := onPrePublish srv id StreamPath in
  if rejected id effs1 then (srv1, effs1)
  else
    let '(srv2, effs2) := onPostPublish srv1 id StreamPath in
    (srv2, (effs1 ++ effs2)%list).

(** Subscribers told that the ingest is streaming. *)
Definition notifiesStreaming (e : effect) : bool :=
  match e with
  | Callback _ STREAMING | EmitStatusChange STREAMING | EmitStreaming _ => true
  | _ => false
  end.

(** *** Sample ingests *)

(** An ingest configured with an empty stream key. *)
Definition open_ingest : RTMPServer :=
  new {| host := "localhost"; port := 1935; appName := "live"; streamKey := EmptyString;
         enabled := true |}.

(** The default ingest: key [obs], idle. *)
Definition default_ingest : RTMPServer :=
  new {| host := "localhost"; port := 1935; appName := "live"; streamKey := "obs";
         enabled := true |}.

End RTMPServer.

(* ================================================================= *)
(** ** StreamManager.ts: destinations and the relay child's command line *)

Module Relay.

(** [PlatformConfig] of IPlatformAdapter.ts; optional fields are
    options, [None] being [undefined]. *)
Record PlatformConfig : Type := mkPlatformConfig {
  id : option string;
  name : string;
  displayName : option string;
  rtmpUrl : string;
  streamKey : string;
  enabled : option bool;
  metadata : option JsValue.jsval
}.

(** [platformConfig.id || platformConfig.name] *)
Definition platformIdentifier (pc : PlatformConfig) : string :=
  match id pc with
  | Some i => if JsString.truthy i then i else name pc
  | None => name pc
  end.

(** [!platformConfig.enabled] is true for [undefined] as well. *)
Definition isEnabled (pc : PlatformConfig) : bool :=
  match enabled pc with Some b => b | None => false end.

Definition rtmpsProtocol : string := "rtmps://".
Definition appPath : string := "/app".
Definition appPathWithSlash : string := "/app/".
Definition pathSeparator : string := "/".

Definition isRTMPS (rtmpUrl : string) : bool :=
  JsString.startsWith rtmpUrl rtmpsProtocol.

(** The [outputUrl] computed at the head of
    [startPlatformStreamInternal]. *)
Definition outputUrl (pc : PlatformConfig) : string :=
  let rtmpUrl := rtmpUrl pc in
  if isRTMPS rtmpUrl then
    if JsString.endsWith rtmpUrl appPath then
      rtmpUrl ++ pathSeparator ++ streamKey pc
    else if JsString.endsWith rtmpUrl appPathWithSlash then
      rtmpUrl ++ streamKey pc
    else
      let baseUrl := JsString.removeTrailingSlash rtmpUrl in
      baseUrl ++ appPath ++ pathSeparator ++ streamKey pc
  else
    rtmpUrl ++ pathSeparator ++ streamKey pc.

(** The argument vector handed to [spawn('ffmpeg', ffmpegArgs)]. *)
Definition ffmpegArgs (inputStream : string) (pc : PlatformConfig) : list string :=
  (["-i"; inputStream; "-c:v"; "copy"; "-c:a"; "copy"; "-f"; "flv"; "-threads"; "2"]
   ++ ["-loglevel"; "info"]
   ++ (if isRTMPS (rtmpUrl pc) then
         ["-protocol_whitelist"; "rtmp,rtmps,file,http,https,tcp,tls";
          "-reconnect"; "1"; "-reconnect_at_eof"; "1"; "-reconnect_streamed"; "1";
          "-reconnect_delay_max"; "2"; "-rtmp_live"; "live"; "-bufsize"; "384k"]
       else [])
   ++ [outputUrl pc])%list.

(** *** The composition rule as the specification words it

    [composes url key out]: [out] is the publish URL the specification
    prescribes for base URL [url] and stream key [key]. *)

(** [ends_with s suffix]: [s] ends with [suffix]. *)
Definition ends_with (s suffix : string) : Prop := exists pre, s = pre ++ suffix.

(** [stripped url base]: [base] is [url] without its trailing slash, if
    it has one. *)
Definition stripped (url base : string) : Prop :=
  url = base ++ "/" \/ (~ ends_with url "/" /\ base = url).

Inductive composes (url key : string) : string -> Prop :=
| compose_rtmp rest :
    url = "rtmp://" ++ rest ->
    composes url key (url ++ "/" ++ key)
| compose_rtmps_app rest :
    url = "rtmps://" ++ rest ->
    ends_with url "/app" ->
    composes url key (url ++ "/" ++ key)
| compose_rtmps_app_slash rest :
    url = "rtmps://" ++ rest ->
    ends_with url "/app/" ->
    composes url key (url ++ key)
| compose_rtmps_other rest base :
    url = "rtmps://" ++ rest ->
    ~ ends_with url "/app" ->
    ~ ends_with url "/app/" ->
    stripped url base ->
    composes url key (base ++ "/app/" ++ key).

(** *** A sample destination *)

(** A destination whose base URL names only the host. *)
Definition kick : PlatformConfig :=
  {| id := Some "k1"; name := "kick"; displayName := None;
     rtmpUrl := "rtmps://fa723.global-contribute.live-video.net";
     streamKey := "sk_abc"; enabled := Some true; metadata := None |}.

End Relay.

(* ================================================================= *)
(** ** StreamManager.ts: the relay supervisor

    The supervisor is a state record; its methods and the handlers it
    attaches to a relay child are computations in a state-and-exception
    monad that also logs the effects performed (spawning or signalling a
    child, messages handed to the WebSocket service, writes of parsed
    statistics).  A method or handler runs to completion, as on the
    Node.js event loop; interleaving at [await] points is not modelled.
    Covered: [configure], [getPlatformConfig], [startPlatformStream],
    [stopPlatformStream], [startPlatformStreamInternal] with the child's
    stdout, stderr, [close] and [error] handlers, [getStatus], and the
    statistics broadcast with its debounce timer.  The bulk
    [startStream]/[stopStream] and the module lifecycle methods are not. *)

Module StreamManager.
Import Relay.
Export StatsParser.

Record StreamState : Type := mkStreamState {
  state_connected : bool;
  state_streaming : bool
}.

(** A spawned relay child: the variables its handlers close over, the
    fields of the [ChildProcess] object that are read, and whether the
    handlers are still attached. *)
Record ChildProcess : Type := mkChild {
  child_platform : string;
  child_rtmps : bool;
  child_args : list string;
  killed : bool;
  exitCode : option Z;
  listening : bool;
  stdoutBufferSize : Z;
  stderrBufferSize : Z
}.

(** A platform adapter: its [validateConfig] ([None] is success, [Some]
    the error text) and the configuration it last accepted. *)
Record Adapter : Type := mkAdapter {
  platformName : string;
  validateConfig : PlatformConfig -> option string;
  adapterConfig : option PlatformConfig
}.

Record StreamManagerConfig : Type := mkStreamManagerConfig {
  obsHost : string;
  obsPort : Z;
  obsPassword : option string;
  autoReconnect : bool;
  reconnectDelay : Z;
  maxReconnectAttempts : Z;
  platforms : list PlatformConfig
}.

Record StreamManager : Type := mkStreamManager {
  lifecycle : Lifecycle.ModuleLifecycle;
  streamProvider : bool;                                (* non-null *)
  platformAdapters : gmap string Adapter;
  config : option StreamManagerConfig;
  platformConfigMap : gmap string PlatformConfig;
  streaming : bool;
  ffmpegProcesses : gmap string nat;                    (* handle of the child *)
  children : list ChildProcess;                         (* by handle *)
  platformStreamStates : gmap string StreamState;
  platformStatistics : gmap string ParsedStatistics;
  statisticsChanged : list string;                      (* a Set, in insertion order *)
  statisticsInterval : bool;                            (* interval running *)
  statisticsDebounceTimer : bool                        (* timeout pending *)
}.

(** [new StreamManager(registry)] *)
Definition new : StreamManager :=
  {| lifecycle := Lifecycle.new "stream_manager"; streamProvider := false;
     platformAdapters := ∅; config := None; platformConfigMap := ∅;
     streaming := false; ffmpegProcesses := ∅; children := [];
     platformStreamStates := ∅; platformStatistics := ∅; statisticsChanged := [];
     statisticsInterval := false; statisticsDebounceTimer := false |}.

(** What the supervisor finds around it when a method runs: whether the
    registry resolves the WebSocket service, the ingest module if
    registered, the registered platform adapters, the outcome of the
    FFmpeg probe ([None] when the binary is found, otherwise the probe's
    error), the installation guidance text, and whether [NODE_ENV] is
    [development]. *)
Record Env : Type := mkEnv {
  wsService : bool;
  rtmpServer : option RTMPServer.RTMPServer;
  adapters : list Adapter;
  ffmpegCheck : option string;
  installInstructions : string;
  development : bool
}.

Inductive StatusLabel : Type := idle | streaming_ | connected_.
Inductive LogLevel : Type := debug | info | warn | error.

(** One entry of [platformStatuses]; [connected] and [streaming] can be
    [undefined], as the source computes them with [&&]. *)
Record PlatformStatus : Type := mkPlatformStatus {
  ps_platform : string;
  ps_status : StatusLabel;
  ps_connected : option bool;
  ps_streaming : option bool;
  ps_name : string;
  ps_displayName : option string;
  ps_enabled : option bool
}.

Record Status : Type := mkStatus {
  st_status : StatusLabel;
  st_streaming : bool;
  st_lifecycle : Lifecycle.ModuleLifecycle;
  st_streamInfo : option RTMPServer.StreamInfo;
  st_platforms : gmap string PlatformStatus
}.

(** [StreamStatistics] of IWebSocketService.ts. *)
Record StreamStatistics : Type := mkStreamStatistics {
  ss_platformId : string;
  ss_platformName : string;
  ss_bitrate : option JsNumber.number;
  ss_fps : option JsNumber.number;
  ss_resolution : option string;
  ss_codec : option string;
  ss_status : StatusLabel;
  ss_uptime : option JsNumber.number;
  ss_errors : Z
}.

Inductive effect : Type :=
| Spawn (handle : nat) (args : list string)
| Kill (handle : nat)
| StoreStatistics (platformId : string) (stats : ParsedStatistics)
| BroadcastStatus (status : Status)
| BroadcastStatistics (statistics : list StreamStatistics)
| BroadcastLog (level : LogLevel) (message : string) (platformId : option string).

(** *** Field updates *)

Definition set_lifecycle (m : StreamManager) (v : Lifecycle.ModuleLifecycle) : StreamManager :=
  {| lifecycle := v; streamProvider := streamProvider m;
     platformAdapters := platformAdapters m; config := config m;
     platformConfigMap := platformConfigMap m; streaming := streaming m;
     ffmpegProcesses := ffmpegProcesses m; children := children m;
     platformStreamStates := platformStreamStates m;
     platformStatistics := platformStatistics m;
     statisticsChanged := statisticsChanged m;
     statisticsInterval := statisticsInterval m;
     statisticsDebounceTimer := statisticsDebounceTimer m |}.

Definition set_streamProvider (m : StreamManager) (v : bool) : StreamManager :=
  {| lifecycle := lifecycle m; streamProvider := v;
     platformAdapters := platformAdapters m; config := config m;
     platformConfigMap := platformConfigMap m; streaming := streaming m;
     ffmpegProcesses := ffmpegProcesses m; children := children m;
     platformStreamStates := platformStreamStates m;
     platformStatistics := platformStatistics m;
     statisticsChanged := statisticsChanged m;
     statisticsInterval := statisticsInterval m;
     statisticsDebounceTimer := statisticsDebounceTimer m |}.

Definition set_platformAdapters (m : StreamManager) (v : gmap string Adapter) : StreamManager :=
  {| lifecycle := lifecycle m; streamProvider := streamProvider m;
     platformAdapters := v; config := config m;
     platformConfigMap := platformConfigMap m; streaming := streaming m;
     ffmpegProcesses := ffmpegProcesses m; children := children m;
     platformStreamStates := platformStreamStates m;
     platformStatistics := platformStatistics m;
     statisticsChanged := statisticsChanged m;
     statisticsInterval := statisticsInterval m;
     statisticsDebounceTimer := statisticsDebounceTimer m |}.

Definition set_config (m : StreamManager) (v : option StreamManagerConfig) : StreamManager :=
  {| lifecycle := lifecycle m; streamProvider := streamProvider m;
     platformAdapters := platformAdapters m; config := v;
     platformConfigMap := platformConfigMap m; streaming := streaming m;
     ffmpegProcesses := ffmpegProcesses m; children := children m;
     platformStreamStates := platformStreamStates m;
     platformStatistics := platformStatistics m;
     statisticsChanged := statisticsChanged m;
     statisticsInterval := statisticsInterval m;
     statisticsDebounceTimer := statisticsDebounceTimer m |}.

Definition set_platformConfigMap (m : StreamManager) (v : gmap string PlatformConfig) : StreamManager :=
  {| lifecycle := lifecycle m; streamProvider := streamProvider m;
     platformAdapters := platformAdapters m; config := config m;
     platformConfigMap := v; streaming := streaming m;
     ffmpegProcesses := ffmpegProcesses m; children := children m;
     platformStreamStates := platformStreamStates m;
     platformStatistics := platformStatistics m;
     statisticsChanged := statisticsChanged m;
     statisticsInterval := statisticsInterval m;
     statisticsDebounceTimer := statisticsDebounceTimer m |}.

Definition set_ffmpegProcesses (m : StreamManager) (v : gmap string nat) : StreamManager :=
  {| lifecycle := lifecycle m; streamProvider := streamProvider m;
     platformAdapters := platformAdapters m; config := config m;
     platformConfigMap := platformConfigMap m; streaming := streaming m;
     ffmpegProcesses := v; children := children m;
     platformStreamStates := platformStreamStates m;
     platformStatistics := platformStatistics m;
     statisticsChanged := statisticsChanged m;
     statisticsInterval := statisticsInterval m;
     statisticsDebounceTimer := statisticsDebounceTimer m |}.

Definition set_children (m : StreamManager) (v : list ChildProcess) : StreamManager :=
  {| lifecycle := lifecycle m; streamProvider := streamProvider m;
     platformAdapters := platformAdapters m; config := config m;
     platformConfigMap := platformConfigMap m; streaming := streaming m;
     ffmpegProcesses := ffmpegProcesses m; children := v;
     platformStreamStates := platformStreamStates m;
     platformStatistics := platformStatistics m;
     statisticsChanged := statisticsChanged m;
     statisticsInterval := statisticsInterval m;
     statisticsDebounceTimer := statisticsDebounceTimer m |}.

Definition set_platformStreamStates (m : StreamManager) (v : gmap string StreamState) : StreamManager :=
  {| lifecycle := lifecycle m; streamProvider := streamProvider m;
     platformAdapters := platformAdapters m; config := config m;
     platformConfigMap := platformConfigMap m; streaming := streaming m;
     ffmpegProcesses := ffmpegProcesses m; children := children m;
     platformStreamStates := v;
     platformStatistics := platformStatistics m;
     statisticsChanged := statisticsChanged m;
     statisticsInterval := statisticsInterval m;
     statisticsDebounceTimer := statisticsDebounceTimer m |}.

Definition set_platformStatistics (m : StreamManager) (v : gmap string ParsedStatistics) : StreamManager :=
  {| lifecycle := lifecycle m; streamProvider := streamProvider m;
     platformAdapters := platformAdapters m; config := config m;
     platformConfigMap := platformConfigMap m; streaming := streaming m;
     ffmpegProcesses := ffmpegProcesses m; children := children m;
     platformStreamStates := platformStreamStates m;
     platformStatistics := v;
     statisticsChanged := statisticsChanged m;
     statisticsInterval := statisticsInterval m;
     statisticsDebounceTimer := statisticsDebounceTimer m |}.

Definition set_statisticsChanged (m : StreamManager) (v : list string) : StreamManager :=
  {| lifecycle := lifecycle m; streamProvider := streamProvider m;
     platformAdapters := platformAdapters m; config := config m;
     platformConfigMap := platformConfigMap m; streaming := streaming m;
     ffmpegProcesses := ffmpegProcesses m; children := children m;
     platformStreamStates := platformStreamStates m;
     platformStatistics := platformStatistics m;
     statisticsChanged := v;
     statisticsInterval := statisticsInterval m;
     statisticsDebounceTimer := statisticsDebounceTimer m |}.

Definition set_statisticsDebounceTimer (m : StreamManager) (v : bool) : StreamManager :=
  {| lifecycle := lifecycle m; streamProvider := streamProvider m;
     platformAdapters := platformAdapters m; config := config m;
     platformConfigMap := platformConfigMap m; streaming := streaming m;
     ffmpegProcesses := ffmpegProcesses m; children := children m;
     platformStreamStates := platformStreamStates m;
     platformStatistics := platformStatistics m;
     statisticsChanged := statisticsChanged m;
     statisticsInterval := statisticsInterval m;
     statisticsDebounceTimer := v |}.

(** *** The monad *)

Definition M (A : Type) : Type :=
  StreamManager -> result A * StreamManager * list effect.

#[global] Instance M_ret : MRet M := fun A a m => (Ok a, m, []).

#[global] Instance M_bind : MBind M := fun A B f c m =>
  match c m with
  | (Ok a, m1, effs1) =>
      let '(r, m2, effs2) := f a m1 in (r, m2, (effs1 ++ effs2)%list)
  | (Throw e, m1, effs1) => (Throw e, m1, effs1)
  end.

Definition throw {A} (msg : string) : M A := fun m => (Throw (Error msg), m, []).
Definition rethrow {A} (e : exn) : M A := fun m => (Throw e, m, []).
Definition get : M StreamManager := fun m => (Ok m, m, []).
Definition modify (f : StreamManager -> StreamManager) : M unit := fun m => (Ok tt, f m, []).
Definition perform (e : effect) : M unit := fun m => (Ok tt, m, [e]).

(** [try { body } catch (e) { handler(e) }] *)
Definition try_catch {A} (body : M A) (handler : exn -> M A) : M A := fun m =>
  match body m with
  | (Throw e, m1, effs1) =>
      let '(r, m2, effs2) := handler e m1 in (r, m2, (effs1 ++ effs2)%list)
  | ok => ok
  end.

(** [for (const x of l) body(x)] *)
Fixpoint for_each {A} (l : list A) (body : A -> M unit) : M unit :=
  match l with
  | [] => mret tt
  | x :: l' => body x ;; for_each l' body
  end.

Definition when (b : bool) (c : M unit) : M unit := if b then c else mret tt.

(** *** The adapters of src/platforms

    [validateConfig] of the YouTube and Twitch adapters (which accept
    [rtmp://] only) and of the Facebook and Kick adapters (which accept
    [rtmps://] too). *)

Definition validate (label : string) (allow_rtmps : bool) (pc : PlatformConfig) : option string :=
  if negb (JsString.truthy (rtmpUrl pc)) then Some "RTMP URL is required"
  else if negb (JsString.startsWith (rtmpUrl pc) "rtmp://")
          && negb (allow_rtmps && JsString.startsWith (rtmpUrl pc) "rtmps://")
  then Some (label ++ " RTMP URL must start with rtmp://"
             ++ (if allow_rtmps then " or rtmps://" else EmptyString))
  else if negb (JsString.truthy (streamKey pc)) then Some "Stream key is required"
  else None.

Definition adapter (platform label : string) (allow_rtmps : bool) : Adapter :=
  {| platformName := platform; validateConfig := validate label allow_rtmps;
     adapterConfig := None |}.

Definition YouTubeAdapter : Adapter := adapter "youtube" "YouTube" false.
Definition TwitchAdapter : Adapter := adapter "twitch" "Twitch" false.
Definition FacebookAdapter : Adapter := adapter "facebook" "Facebook" true.
Definition KickAdapter : Adapter := adapter "kick" "Kick" true.

(** *** [initialize] *)

Definition liftLifecycle (f : Lifecycle.ModuleLifecycle -> Lifecycle.effect) : M unit :=
  fun m =>
    match f (lifecycle m) with
    | (l, None) => (Ok tt, set_lifecycle m l, [])
    | (l, Some e) => (Throw e, set_lifecycle m l, [])
    end.

Definition initialize (env : Env) : M unit :=
  liftLifecycle Lifecycle.markInitializing;;
  match rtmpServer env with
  | None =>
      throw "No stream provider available. Please configure RTMP server or OBS WebSocket."
  | Some _ => modify (fun m => set_streamProvider m true)
  end;;
  for_each (adapters env) (fun a =>
    modify (fun m => set_platformAdapters m (<[platformName a := a]> (platformAdapters m))));;
  liftLifecycle Lifecycle.markInitialized.

(** *** Status projection: [getStatus] *)

(** [a && b] when [a] may be [undefined]: a falsy [a] is the result. *)
Definition js_and (a b : option bool) : option bool :=
  match a with Some true => b | _ => a end.

Definition js_truthy (a : option bool) : bool :=
  match a with Some true => true | _ => false end.

(** [this.ffmpegProcesses.get(platformId)] *)
Definition process_of (m : StreamManager) (platformId : string) : option ChildProcess :=
  match ffmpegProcesses m !! platformId with
  | Some h => children m !! h
  | None => None
  end.

(** [streamState?.f || false] *)
Definition state_flag (st : option StreamState) (f : StreamState -> bool) : bool :=
  match st with Some x => f x | None => false end.

Definition platformStatus (m : StreamManager) (pc : PlatformConfig) : PlatformStatus :=
  let platformId := platformIdentifier pc in
  let streamState := platformStreamStates m !! platformId in
  let isProcessAlive :=
    match process_of m platformId with
    | Some p => js_and (Some (negb (killed p))) (Some (bool_decide (exitCode p = None)))
    | None => None
    end in
  let stateSaysDisconnected : option bool :=
    (fun st => negb (state_streaming st) && negb (state_connected st)) <$> streamState in
  let notDisconnected := negb (js_truthy stateSaysDisconnected) in
  let isStreaming :=
    js_and (js_and (Some notDisconnected) isProcessAlive)
           (Some (state_flag streamState state_streaming)) in
  let isConnected :=
    js_and (js_and (Some notDisconnected) isProcessAlive)
           (Some (state_flag streamState state_connected)) in
  let finalStatus :=
    if js_truthy stateSaysDisconnected then idle
    else if js_truthy isStreaming then streaming_
    else if js_truthy isConnected then connected_
    else idle in
  {| ps_platform := name pc;
     ps_status := finalStatus;
     ps_connected := js_and isConnected (Some notDisconnected);
     ps_streaming := js_and isStreaming (Some notDisconnected);
     ps_name := name pc;
     ps_displayName := displayName pc;
     ps_enabled := enabled pc |}.

(** The loop filling [platformStatuses]: a later destination with the
    same identifier overwrites the entry. *)
Definition platformStatuses (m : StreamManager) : gmap string PlatformStatus :=
  match config m with
  | Some cfg =>
      fold_left (fun acc pc => <[platformIdentifier pc := platformStatus m pc]> acc)
                (platforms cfg) ∅
  | None => ∅
  end.

(** The stream info shown to clients: [0.0.0.0] becomes [localhost]. *)
Definition shownStreamInfo (env : Env) (m : StreamManager) : option RTMPServer.StreamInfo :=
  if streamProvider m then
    match rtmpServer env with
    | Some srv =>
        (fun i =>
           if JsString.truthy (RTMPServer.rtmpUrl i)
              && JsString.includes (RTMPServer.rtmpUrl i) "0.0.0.0"
           then {| RTMPServer.info_streamKey := RTMPServer.info_streamKey i;
                   RTMPServer.rtmpUrl :=
                     JsString.replace (RTMPServer.rtmpUrl i) "rtmp://0.0.0.0:" "rtmp://localhost:";
                   RTMPServer.info_status := RTMPServer.info_status i |}
           else i) <$> RTMPServer.streamInfo srv
    | None => None
    end
  else None.

Definition getStatus (env : Env) (m : StreamManager) : Status :=
  {| st_status := if streaming m then streaming_ else idle;
     st_streaming := streaming m;
     st_lifecycle := lifecycle m;
     st_streamInfo := shownStreamInfo env m;
     st_platforms := platformStatuses m |}.

(** *** Messages to the WebSocket service

    [registry.resolve] throws when the service is not registered; the
    callers swallow the exception. *)

Definition broadcastStatus (env : Env) : M unit :=
  m ← get;
  when (wsService env) (perform (BroadcastStatus (getStatus env m))).

Definition logMessage (env : Env) (level : LogLevel) (message : string)
    (platformId : option string) : M unit :=
  when (wsService env) (perform (BroadcastLog level message platformId)).

(** *** Destination lookup *)

Definition rebuildPlatformConfigMap (m : StreamManager) : StreamManager :=
  match config m with
  | None => m
  | Some cfg =>
      set_platformConfigMap m
        (fold_left
           (fun acc pc =>
              let acc1 := <[platformIdentifier pc := pc]> acc in
              match id pc with
              | Some i =>
                  if JsString.truthy i && negb (String.eqb i (name pc))
                  then <[name pc := pc]> acc1 else acc1
              | None => acc1
              end)
           (platforms cfg) ∅)
  end.

(** The map is rebuilt lazily when it is empty ([size === 0]) and a
    configuration is present. *)
Definition getPlatformConfig (platformIdOrName : string) : M (option PlatformConfig) :=
  m ← get;
  when (bool_decide (platformConfigMap m = ∅) && is_Some_bool (config m))
       (modify rebuildPlatformConfigMap);;
  m ← get;
  mret (platformConfigMap m !! platformIdOrName).

(** [adapter.configure(platformConfig)] of BasePlatformAdapter.ts, for
    the adapter registered under [key]; returns the validation error. *)
Definition adapterConfigure (key : string) (a : Adapter) (pc : PlatformConfig) : M (option string) :=
  match validateConfig a pc with
  | Some err => mret (Some err)
  | None =>
      modify (fun m => set_platformAdapters m
                (<[key := {| platformName := platformName a;
                             validateConfig := validateConfig a;
                             adapterConfig := Some pc |}]> (platformAdapters m)));;
      mret None
  end.

Definition configure (cfg : StreamManagerConfig) : M unit :=
  modify (fun m => set_config m (Some cfg));;
  modify rebuildPlatformConfigMap;;
  for_each (platforms cfg) (fun pc =>
    m ← get;
    match platformAdapters m !! name pc with
    | None => mret tt
    | Some a => adapterConfigure (name pc) a pc;; mret tt
    end).

(** *** Statistics broadcast *)

(** [Set.prototype.add] and [delete] on the insertion-ordered set. *)
Definition set_add (x : string) (l : list string) : list string :=
  if bool_decide (x ∈ l) then l else (l ++ [x])%list.

Definition set_delete (x : string) (l : list string) : list string :=
  filter (fun y => y <> x) l.

Definition statisticsEntry (m : StreamManager) (platformId : string) : option StreamStatistics :=
  match platformConfigMap m !! platformId with
  | None => None
  | Some pc =>
      let stats := platformStatistics m !! platformId in
      let streamState := platformStreamStates m !! platformId in
      let isStreaming :=
        match process_of m platformId with
        | Some p => negb (killed p) && state_flag streamState state_streaming
        | None => false
        end in
      Some {| ss_platformId := platformId;
              ss_platformName :=
                match displayName pc with
                | Some d => if JsString.truthy d then d else name pc
                | None => name pc
                end;
              ss_bitrate := stats ≫= bitrate;
              ss_fps := stats ≫= fps;
              ss_resolution := stats ≫= resolution;
              ss_codec := stats ≫= codec;
              ss_status := if isStreaming then streaming_ else idle;
              ss_uptime := stats ≫= time;
              ss_errors := 0 |}
  end.

Definition broadcastStatisticsUpdate (env : Env) : M unit :=
  m ← get;
  if negb (wsService env) then mret tt
  else if bool_decide (statisticsChanged m = []) then mret tt
  else
    let statistics :=
      match config m with
      | Some _ => omap (statisticsEntry m) (statisticsChanged m)
      | None => []
      end in
    modify (fun m => set_statisticsChanged m []);;
    when (negb (bool_decide (statistics = [])))
         (perform (BroadcastStatistics statistics)).

Definition scheduleStatisticsBroadcast : M unit :=
  modify (fun m => set_statisticsDebounceTimer m true).

(** The debounce timeout fires. *)
Definition onDebounceTimeout (env : Env) : M unit :=
  m ← get;
  when (statisticsDebounceTimer m)
       (broadcastStatisticsUpdate env;;
        modify (fun m => set_statisticsDebounceTimer m false)).

(** The four-second interval fires. *)
Definition onStatisticsInterval (env : Env) : M unit :=
  m ← get;
  when (statisticsInterval m) (broadcastStatisticsUpdate env).

(** *** Relay children *)

Definition update_child (h : nat) (f : ChildProcess -> ChildProcess) (m : StreamManager)
  : StreamManager :=
  set_children m (alter f h (children m)).

Definition with_killed (c : ChildProcess) : ChildProcess :=
  {| child_platform := child_platform c; child_rtmps := child_rtmps c;
     child_args := child_args c; killed := true; exitCode := exitCode c;
     listening := listening c; stdoutBufferSize := stdoutBufferSize c;
     stderrBufferSize := stderrBufferSize c |}.

Definition with_exitCode (code : option Z) (c : ChildProcess) : ChildProcess :=
  {| child_platform := child_platform c; child_rtmps := child_rtmps c;
     child_args := child_args c; killed := killed c; exitCode := code;
     listening := listening c; stdoutBufferSize := stdoutBufferSize c;
     stderrBufferSize := stderrBufferSize c |}.

Definition without_listeners (c : ChildProcess) : ChildProcess :=
  {| child_platform := child_platform c; child_rtmps := child_rtmps c;
     child_args := child_args c; killed := killed c; exitCode := exitCode c;
     listening := false; stdoutBufferSize := stdoutBufferSize c;
     stderrBufferSize := stderrBufferSize c |}.

Definition maxBufferResetSize : Z := 1024 * 1024.

(** [size += data.length; if (size > maxBufferResetSize) size = 0] *)
Definition count_bytes (size : Z) (data : string) : Z :=
  let size' := (size + Z.of_nat (String.length data))%Z in
  if (maxBufferResetSize <? size')%Z then 0%Z else size'.

Definition with_stdout (data : string) (c : ChildProcess) : ChildProcess :=
  {| child_platform := child_platform c; child_rtmps := child_rtmps c;
     child_args := child_args c; killed := killed c; exitCode := exitCode c;
     listening := listening c;
     stdoutBufferSize := count_bytes (stdoutBufferSize c) data;
     stderrBufferSize := stderrBufferSize c |}.

Definition with_stderr (data : string) (c : ChildProcess) : ChildProcess :=
  {| child_platform := child_platform c; child_rtmps := child_rtmps c;
     child_args := child_args c; killed := killed c; exitCode := exitCode c;
     listening := listening c; stdoutBufferSize := stdoutBufferSize c;
     stderrBufferSize := count_bytes (stderrBufferSize c) data |}.

(** [ffmpegProcess.kill('SIGTERM')]: the signal is delivered, and
    [killed] set, unless the child has already exited. *)
Definition kill (h : nat) : M unit :=
  modify (update_child h (fun c => match exitCode c with
                                   | None => with_killed c
                                   | Some _ => c
                                   end));;
  perform (Kill h).

Definition disconnected : StreamState :=
  {| state_connected := false; state_streaming := false |}.

Definition live : StreamState :=
  {| state_connected := true; state_streaming := true |}.

Definition setStreamState (platformId : string) (st : StreamState) : M unit :=
  modify (fun m => set_platformStreamStates m (<[platformId := st]> (platformStreamStates m))).

(** The three deletions shared by [stop], [close] and [error]. *)
Definition forgetProcess (platformId : string) : M unit :=
  modify (fun m => set_ffmpegProcesses m (delete platformId (ffmpegProcesses m))).

Definition clearStatistics (platformId : string) : M unit :=
  modify (fun m => set_platformStatistics m (delete platformId (platformStatistics m)));;
  modify (fun m => set_statisticsChanged m (set_delete platformId (statisticsChanged m))).

Definition tag (platformId : string) : string := "[FFmpeg " ++ platformId ++ "] ".

(** The [stdout] handler. *)
Definition onStdoutData (env : Env) (h : nat) (data : string) : M unit :=
  m ← get;
  match children m !! h with
  | Some c =>
      when (listening c)
           (modify (update_child h (with_stdout data));;
            when (development env)
                 (logMessage env info (tag (child_platform c) ++ data)
                             (Some (child_platform c))))
  | None => mret tt
  end.

Definition mentions_any (line : string) (words : list string) : bool :=
  existsb (JsString.includes line) words.

Definition isStatisticsLine (line : string) : bool :=
  mentions_any line ["frame="; "fps="; "bitrate="].

(** The body of the loop over the lines of a [stderr] chunk. *)
Definition onStderrLine (env : Env) (c : ChildProcess) (line : string) : M unit :=
  let platformIdentifier := child_platform c in
  when (child_rtmps c
        && mentions_any line ["Connection refused"; "SSL"; "TLS"; "certificate"; "handshake"])
       (logMessage env error (tag platformIdentifier ++ "RTMPS Error: " ++ line)
                   (Some platformIdentifier));;
  if isStatisticsLine line then
    match parseStderrLine line with
    | Some stats =>
        modify (fun m => set_platformStatistics m
                  (<[platformIdentifier := stats]> (platformStatistics m)));;
        perform (StoreStatistics platformIdentifier stats);;
        modify (fun m => set_statisticsChanged m
                  (set_add platformIdentifier (statisticsChanged m)));;
        scheduleStatisticsBroadcast
    | None => mret tt
    end
  else
    let isErrorOrWarning :=
      mentions_any line ["error"; "Error"; "failed"; "warning"; "Warning"; "WARN"; "Error"]
      || JsString.includes (JsString.toLowerCase line) "error" in
    if development env then
      logMessage env debug (tag platformIdentifier ++ line) (Some platformIdentifier)
    else if isErrorOrWarning then
      when (negb (mentions_any line ["Stream #"; "Input #"; "Output #"; "Duration:";
                                     "start:"; "bitrate:"; "frame="; "fps="]))
           (logMessage env
              (if mentions_any line ["error"; "Error"; "failed"] then error else warn)
              (tag platformIdentifier ++ line) (Some platformIdentifier))
    else mret tt.

(** [output.split('\n').filter(line => line.trim())] *)
Definition stderrLines (output : string) : list string :=
  filter (fun line => JsString.trim_truthy line = true)
         (JsString.split (ascii_of_nat 10) output).

(** The [stderr] handler. *)
Definition onStderrData (env : Env) (h : nat) (output : string) : M unit :=
  m ← get;
  match children m !! h with
  | Some c =>
      when (listening c)
           (modify (update_child h (with_stderr output));;
            for_each (stderrLines output) (onStderrLine env c))
  | None => mret tt
  end.

(** The [error] handler. *)
Definition onError (env : Env) (h : nat) (message : string) : M unit :=
  m ← get;
  match children m !! h with
  | Some c =>
      let platformIdentifier := child_platform c in
      when (listening c)
           (modify (update_child h without_listeners);;
            forgetProcess platformIdentifier;;
            clearStatistics platformIdentifier;;
            setStreamState platformIdentifier disconnected;;
            logMessage env error (tag platformIdentifier ++ "Error: " ++ message)
                       (Some platformIdentifier);;
            broadcastStatus env)
  | None => mret tt
  end.

Definition show_code (code : option Z) : string :=
  match code with Some z => pretty z | None => "null" end.

(** The child exits: Node records the exit code ([null] when a signal
    ended it), then the [close] handler runs. *)
Definition onClose (env : Env) (h : nat) (code : option Z) : M unit :=
  modify (update_child h (with_exitCode code));;
  m ← get;
  match children m !! h with
  | Some c =>
      let platformIdentifier := child_platform c in
      when (listening c)
           (modify (update_child h without_listeners);;
            forgetProcess platformIdentifier;;
            clearStatistics platformIdentifier;;
            setStreamState platformIdentifier disconnected;;
            (if bool_decide (code = Some 0%Z) then
               logMessage env info ("Stream stopped for platform " ++ platformIdentifier)
                          (Some platformIdentifier)
             else
               logMessage env error
                          ("Stream process exited with code " ++ show_code code
                           ++ " for platform " ++ platformIdentifier)
                          (Some platformIdentifier));;
            broadcastStatus env)
  | None => mret tt
  end.

(** [startPlatformStreamInternal]: probe for FFmpeg, spawn the child,
    attach the handlers, record the session. *)
Definition startPlatformStreamInternal (env : Env) (pc : PlatformConfig)
    (platformIdentifier inputStream : string) : M unit :=
  let args := ffmpegArgs inputStream pc in
  match ffmpegCheck env with
  | Some err =>
      logMessage env error ("FFmpeg not found: " ++ err) (Some platformIdentifier);;
      throw ("FFmpeg is not available: " ++ err ++ String (ascii_of_nat 10)
             (String (ascii_of_nat 10) (installInstructions env)))
  | None =>
      m ← get;
      let h := length (children m) in
      perform (Spawn h args);;
      modify (fun m => set_children m
                (children m ++ [{| child_platform := platformIdentifier;
                                   child_rtmps := isRTMPS (rtmpUrl pc);
                                   child_args := args; killed := false; exitCode := None;
                                   listening := true; stdoutBufferSize := 0;
                                   stderrBufferSize := 0 |}])%list);;
      modify (fun m => set_ffmpegProcesses m (<[platformIdentifier := h]> (ffmpegProcesses m)))
  end.

Definition unavailableMessage : string :=
  "RTMP stream is not available. Please ensure:" ++ String (ascii_of_nat 10)
  ("1. OBS Studio is running and streaming to rtmp://localhost:1935/live/obs" ++ String (ascii_of_nat 10)
  ("2. RTMP server is running and accessible" ++ String (ascii_of_nat 10)
   "3. Stream key matches the configured key")).

Definition startPlatformStream (env : Env) (platformIdOrName : string) : M bool :=
  m ← get;
  if negb (streamProvider m) then throw "Stream provider is not available"
  else if negb (is_Some_bool (config m)) then throw "Stream manager configuration is not set"
  else
    opc ← getPlatformConfig platformIdOrName;
    match opc with
    | None => throw ("Platform configuration not found: " ++ platformIdOrName)
    | Some platformConfig =>
        if negb (isEnabled platformConfig) then
          throw ("Platform " ++ platformIdOrName ++ " is disabled")
        else
          let platformIdentifier := platformIdentifier platformConfig in
          m ← get;
          if is_Some_bool (ffmpegProcesses m !! platformIdentifier) then mret true
          else
            match platformAdapters m !! name platformConfig with
            | None => throw ("Platform adapter not found: " ++ name platformConfig)
            | Some adapter =>
                try_catch
                  (configureResult ← adapterConfigure (name platformConfig) adapter platformConfig;
                   match configureResult with
                   | Some err => throw ("Failed to configure platform: " ++ err)
                   | None =>
                       match rtmpServer env with
                       | None => throw "Module rtmp_server not found"
                       | Some srv =>
                           let inputStream :=
                             "rtmp://localhost:1935" ++ RTMPServer.getStreamPath srv in
                           startPlatformStreamInternal env platformConfig
                                                       platformIdentifier inputStream;;
                           setStreamState platformIdentifier live;;
                           broadcastStatus env;;
                           mret true
                       end
                   end)
                  (fun e =>
                     setStreamState platformIdentifier disconnected;;
                     let 'Error errorMessage := e in
                     if mentions_any errorMessage
                          ["Connection refused"; "No such file"; "Input/output error"]
                     then throw unavailableMessage
                     else rethrow e)
            end
    end.

Definition stopPlatformStream (env : Env) (platformIdOrName : string) : M unit :=
  m ← get;
  if negb (is_Some_bool (config m)) then throw "Stream manager configuration is not set"
  else
    opc ← getPlatformConfig platformIdOrName;
    match opc with
    | None => throw ("Platform configuration not found: " ++ platformIdOrName)
    | Some platformConfig =>
        let platformIdentifier := platformIdentifier platformConfig in
        m ← get;
        match platformAdapters m !! name platformConfig with
        | None => throw ("Platform adapter not found: " ++ name platformConfig)
        | Some _ =>
            match ffmpegProcesses m !! platformIdentifier with
            | Some h =>
                match children m !! h with
                | Some c => when (negb (killed c)) (kill h)
                | None => mret tt
                end;;
                forgetProcess platformIdentifier
            | None => mret tt
            end;;
            setStreamState platformIdentifier disconnected;;
            clearStatistics platformIdentifier;;
            broadcastStatus env
        end
    end.

(** *** Runs

    What can happen to the supervisor: calls of its public methods, and
    the events of its children and timers. *)

Inductive event : Type :=
| Initialize
| Configure (cfg : StreamManagerConfig)
| StartPlatformStream (platformIdOrName : string)
| StopPlatformStream (platformIdOrName : string)
| StdoutData (h : nat) (data : string)
| StderrData (h : nat) (data : string)
| ChildError (h : nat) (message : string)
| ChildClose (h : nat) (code : option Z)
| DebounceTimeout
| StatisticsInterval.

Definition handle (env : Env) (ev : event) : M unit :=
  match ev with
  | Initialize => initialize env
  | Configure cfg => configure cfg
  | StartPlatformStream k => startPlatformStream env k;; mret tt
  | StopPlatformStream k => stopPlatformStream env k
  | StdoutData h d => onStdoutData env h d
  | StderrData h d => onStderrData env h d
  | ChildError h msg => onError env h msg
  | ChildClose h code => onClose env h code
  | DebounceTimeout => onDebounceTimeout env
  | StatisticsInterval => onStatisticsInterval env
  end.

(** The supervisor after an event, and the effects performed; an
    exception ends the method but keeps what it did before. *)
Definition step (env : Env) (ev : event) (m : StreamManager) : StreamManager * list effect :=
  let '(_, m', effs) := handle env ev m in (m', effs).

(** A run: each event happens in its own environment. *)
Fixpoint run (evs : list (Env * event)) (m : StreamManager) : StreamManager * list effect :=
  match evs with
  | [] => (m, [])
  | (env, ev) :: evs' =>
      let '(m1, effs1) := step env ev m in
      let '(m2, effs2) := run evs' m1 in
      (m2, (effs1 ++ effs2)%list)
  end.

(** *** Sample runs, and the vocabulary of the statements about
    statistics envelopes *)

(** The usual surroundings: WebSocket service and ingest registered,
    the four adapters, FFmpeg on the path, production mode. *)
Definition env0 : Env :=
  {| wsService := true; rtmpServer := Some RTMPServer.default_ingest;
     adapters := [YouTubeAdapter; TwitchAdapter; FacebookAdapter; KickAdapter];
     ffmpegCheck := None; installInstructions := EmptyString; development := false |}.

(** A Twitch destination. *)
Definition twitch (ident key : string) (on : bool) : PlatformConfig :=
  {| id := Some ident; name := "twitch"; displayName := None;
     rtmpUrl := "rtmp://live.twitch.tv/app"; streamKey := key;
     enabled := Some on; metadata := None |}.

(** The default supervisor configuration with the given destinations. *)
Definition with_platforms (l : list PlatformConfig) : StreamManagerConfig :=
  {| obsHost := "localhost"; obsPort := 4455; obsPassword := None;
     autoReconnect := true; reconnectDelay := 5; maxReconnectAttempts := 10;
     platforms := l |}.

(** Two destinations of the same name, [a] and [b]. *)
Definition two_twitch : StreamManagerConfig :=
  with_platforms [twitch "a" "X" true; twitch "b" "Y" true].

(** Both destinations started. *)
Definition both_started : StreamManager :=
  (run [(env0, Initialize); (env0, Configure two_twitch);
        (env0, StartPlatformStream "a"); (env0, StartPlatformStream "b")] new).1.

(** Then [b] is stopped. *)
Definition b_stopped : result unit * StreamManager * list effect :=
  stopPlatformStream env0 "b" both_started.

(** The destination [a] is started, then disabled by a new
    configuration while its session runs. *)
Definition a_running_disabled : StreamManager :=
  (run [(env0, Initialize); (env0, Configure (with_platforms [twitch "a" "X" true]));
        (env0, StartPlatformStream "a");
        (env0, Configure (with_platforms [twitch "a" "X" false]))] new).1.

(** The destination [a] alone, started. *)
Definition a_running : StreamManager :=
  (run [(env0, Initialize); (env0, Configure (with_platforms [twitch "a" "X" true]));
        (env0, StartPlatformStream "a")] new).1.

(** A YouTube destination whose identifier is [twitch]. *)
Definition youtube_twitch : PlatformConfig :=
  {| id := Some "twitch"; name := "youtube"; displayName := None;
     rtmpUrl := "rtmp://a.rtmp.youtube.com/live2"; streamKey := "K1";
     enabled := Some true; metadata := None |}.

(** That destination, followed by a Twitch destination [tw2]: in the
    lookup table the name of the second takes the key [twitch] from
    the identifier of the first. *)
Definition shadowed : StreamManagerConfig :=
  with_platforms [youtube_twitch; twitch "tw2" "K2" true].

(** The first destination started, under its name. *)
Definition shadowed_running : StreamManager :=
  (run [(env0, Initialize); (env0, Configure shadowed);
        (env0, StartPlatformStream "youtube")] new).1.

(** Destination [a] relays and reports one statistics line; then the
    debounce timer fires. *)
Definition stats_line : string :=
  "frame=  123 fps= 30 q=28.0 size=    1024kB time=00:00:04.10 bitrate=2048.0kbits/s speed=1.00x".

(** The run: start [a], one line on its stderr, the timer. *)
Definition one_report : list (Env * event) :=
  [(env0, Initialize); (env0, Configure two_twitch); (env0, StartPlatformStream "a");
   (env0, StderrData 0 stats_line); (env0, DebounceTimeout)].

(** The envelope entry that this run sends for [a]. *)
Definition entry_a : StreamStatistics :=
  {| ss_platformId := "a"; ss_platformName := "twitch";
     ss_bitrate := Some (JsNumber.Dec 20480 1); ss_fps := Some (JsNumber.Dec 30 0);
     ss_resolution := None; ss_codec := None; ss_status := streaming_;
     ss_uptime := Some (JsNumber.Dec 410 2); ss_errors := 0 |}.

(** No other destination of the list uses the identifier of [d], as its
    own identifier or as its name. *)
Definition owns_identifier (l : list PlatformConfig) (d : PlatformConfig) : Prop :=
  d ∈ l /\
  forall d', d' ∈ l ->
    platformIdentifier d' = platformIdentifier d \/ name d' = platformIdentifier d ->
    d' = d.

(** Events other than a call of [initialize], [configure] or
    [startPlatformStream]: what the children and the timers do, and
    further stops. *)
Definition passive (ev : event) : bool :=
  match ev with
  | Initialize | Configure _ | StartPlatformStream _ => false
  | _ => true
  end.

(** The supervisor holds configuration [cfg] and has the flags of
    [platformId] both off. *)
Definition stopped (cfg : StreamManagerConfig) (platformId : string) (m : StreamManager) : Prop :=
  config m = Some cfg /\ platformStreamStates m !! platformId = Some disconnected.

(** A computation keeps a property of the supervisor. *)
Definition keeps (I : StreamManager -> Prop) {A} (c : M A) : Prop :=
  forall m, I m -> I (c m).1.2.

(** The effect is a statistics envelope. *)
Definition is_envelope (e : effect) : bool :=
  match e with BroadcastStatistics _ => true | _ => false end.

(** [platformId] had its statistics stored after the last envelope of
    [trace] (or since the beginning, if there is none). *)
Definition updated_since_last_envelope (platformId : string) (trace : list effect) : Prop :=
  exists before stats after,
    trace = (before ++ StoreStatistics platformId stats :: after)%list /\
    Forall (fun e => is_envelope e = false) after.

(** Every envelope of [trace] lists only destinations updated since the
    envelope before it. *)
Definition envelopes_fresh (trace : list effect) : Prop :=
  forall pre envelope post,
    trace = (pre ++ BroadcastStatistics envelope :: post)%list ->
    forall entry, entry ∈ envelope ->
      updated_since_last_envelope (ss_platformId entry) pre.

(** The invariant: the changed set only holds freshly updated
    destinations, and the trace so far is fine. *)
Definition traced (changed : list string) (trace : list effect) : Prop :=
  (forall platformId, platformId ∈ changed ->
     updated_since_last_envelope platformId trace) /\
  envelopes_fresh trace.

(** A computation preserves the invariant. *)
Definition preserves {A} (c : M A) : Prop :=
  forall m trace,
    traced (statisticsChanged m) trace ->
    traced (statisticsChanged (c m).1.2) (trace ++ (c m).2).

End StreamManager.

(* ================================================================= *)
(** ** Config.ts: the configuration store

    The validated configuration is a record; what is read from the
    file and merged with the defaults is untyped ([jsval]), as in the
    source.  The YAML library is modelled at the level of documents: a
    file holds the document that [parse] returns, [stringify] writes the
    value without its [undefined] properties, and a file that does not
    parse is [Unparsable].  Numbers are integers.  The file system is a
    map from paths to files; the operations performed on it are logged. *)

Module Config.
Import JsValue.

(** *** The schema types ([z.infer]) *)

(** [z.string().nullable().optional()] *)
Inductive Password : Type :=
| PasswordUndefined
| PasswordNull
| PasswordString (s : string).

Record OBSConfig : Type := mkOBSConfig {
  obs_host : string;
  obs_port : Z;
  obs_password : Password
}.

Record PlatformConfig : Type := mkPlatformConfig {
  id : option string;
  name : string;
  displayName : option string;
  rtmpUrl : string;
  streamKey : string;
  enabled : bool;
  metadata : list (string * jsval)
}.

Record StreamManagerConfig : Type := mkStreamManagerConfig {
  obs : OBSConfig;
  rtmpServer : RTMPServer.RTMPServerConfig;
  autoReconnect : bool;
  reconnectDelay : Z;
  maxReconnectAttempts : Z;
  platforms : list PlatformConfig
}.

Record UIConfig : Type := mkUIConfig {
  ui_host : string;
  ui_port : Z;
  ui_debug : bool
}.

Record Config : Type := mkConfig {
  streamManager : StreamManagerConfig;
  ui : UIConfig;
  version : string
}.

(** *** Schema validation ([ConfigSchema.parse]); [None] is a
    [ZodError].  Unknown keys are stripped, [default] applies to
    [undefined] only. *)

Definition z_string (v : jsval) : option string :=
  match v with JStr s => Some s | _ => None end.

Definition z_number (v : jsval) : option Z :=
  match v with JNum z => Some z | _ => None end.

Definition z_boolean (v : jsval) : option bool :=
  match v with JBool b => Some b | _ => None end.

Definition z_default {A} (parse : jsval -> option A) (d : A) (v : jsval) : option A :=
  match v with JUndefined => Some d | _ => parse v end.

Definition z_optional {A} (parse : jsval -> option A) (v : jsval) : option (option A) :=
  match v with JUndefined => Some None | _ => Some <$> parse v end.

Definition z_password (v : jsval) : option Password :=
  match v with
  | JUndefined => Some PasswordUndefined
  | JNull => Some PasswordNull
  | JStr s => Some (PasswordString s)
  | _ => None
  end.

Definition z_object (v : jsval) : option (list (string * jsval)) :=
  match v with JObj fields => Some fields | _ => None end.

(** [z.array(item)] *)
Definition z_array {A} (item : jsval -> option A) (v : jsval) : option (list A) :=
  match v with JArr items => mapM item items | _ => None end.

Definition OBSConfigSchema (v : jsval) : option OBSConfig :=
  o ← z_object v;
  h ← z_default z_string "localhost" (field o "host");
  p ← z_default z_number 4455%Z (field o "port");
  pw ← z_password (field o "password");
  Some {| obs_host := h; obs_port := p; obs_password := pw |}.

Definition RTMPServerConfigSchema (v : jsval) : option RTMPServer.RTMPServerConfig :=
  o ← z_object v;
  h ← z_default z_string "localhost" (field o "host");
  p ← z_default z_number 1935%Z (field o "port");
  a ← z_default z_string "live" (field o "appName");
  k ← z_default z_string "obs" (field o "streamKey");
  e ← z_default z_boolean true (field o "enabled");
  Some {| RTMPServer.host := h; RTMPServer.port := p; RTMPServer.appName := a;
          RTMPServer.streamKey := k; RTMPServer.enabled := e |}.

Definition PlatformConfigSchema (v : jsval) : option PlatformConfig :=
  o ← z_object v;
  i ← z_optional z_string (field o "id");
  n ← z_string (field o "name");
  d ← z_optional z_string (field o "displayName");
  u ← z_string (field o "rtmpUrl");
  k ← z_string (field o "streamKey");
  e ← z_default z_boolean true (field o "enabled");
  md ← z_default z_object [] (field o "metadata");
  Some {| id := i; name := n; displayName := d; rtmpUrl := u; streamKey := k;
          enabled := e; metadata := md |}.

Definition StreamManagerConfigSchema (v : jsval) : option StreamManagerConfig :=
  o ← z_object v;
  ob ← OBSConfigSchema (field o "obs");
  r ← RTMPServerConfigSchema (field o "rtmpServer");
  a ← z_default z_boolean true (field o "autoReconnect");
  d ← z_default z_number 5%Z (field o "reconnectDelay");
  n ← z_default z_number 10%Z (field o "maxReconnectAttempts");
  ps ← z_default (z_array PlatformConfigSchema) [] (field o "platforms");
  Some {| obs := ob; rtmpServer := r; autoReconnect := a; reconnectDelay := d;
          maxReconnectAttempts := n; platforms := ps |}.

Definition UIConfigSchema (v : jsval) : option UIConfig :=
  o ← z_object v;
  h ← z_default z_string "0.0.0.0" (field o "host");
  p ← z_default z_number 8000%Z (field o "port");
  d ← z_default z_boolean false (field o "debug");
  Some {| ui_host := h; ui_port := p; ui_debug := d |}.

Definition ConfigSchema (v : jsval) : option Config :=
  o ← z_object v;
  sm ← StreamManagerConfigSchema (field o "streamManager");
  u ← UIConfigSchema (field o "ui");
  ver ← z_default z_string "1.0.0" (field o "version");
  Some {| streamManager := sm; ui := u; version := ver |}.

(** *** The world of the store *)

Inductive FileContent : Type :=
| Yaml (doc : jsval)
| Unparsable (raw : string).

Record File : Type := mkFile {
  content : FileContent;
  mtimeMs : Z
}.

Record CacheEntry : Type := mkCacheEntry {
  data : Config;
  timestamp : Z;
  mtime : Z
}.

(** [process.env], the variables the store reads. *)
Record ProcessEnv : Type := mkProcessEnv {
  OBS_HOST : option string;
  OBS_PORT : option string;
  OBS_PASSWORD : option string;
  UI_HOST : option string;
  UI_PORT : option string;
  UI_DEBUG : option string;
  CONFIG_PATH : option string
}.

Record World : Type := mkWorld {
  files : gmap string File;
  unwritable : list string;          (* paths on which [writeFile] fails *)
  configCache : option CacheEntry;
  globalConfigPath : option string;
  now : Z;                           (* [Date.now()] *)
  cwd : string;                      (* [process.cwd()] *)
  env : ProcessEnv
}.

Definition set_cache (w : World) (c : option CacheEntry) : World :=
  {| files := files w; unwritable := unwritable w; configCache := c;
     globalConfigPath := globalConfigPath w; now := now w; cwd := cwd w; env := env w |}.

Definition set_files (w : World) (f : gmap string File) : World :=
  {| files := f; unwritable := unwritable w; configCache := configCache w;
     globalConfigPath := globalConfigPath w; now := now w; cwd := cwd w; env := env w |}.

Inductive fs_op : Type :=
| MkdirP (dir : string)
| WriteFile (path : string) (c : FileContent)
| Rename (src dst : string).

Definition CACHE_TTL : Z := 1000.

(** An optional string that is present and not empty, hence truthy. *)
Definition nonempty (v : option string) : option string :=
  match v with
  | Some s => if JsString.truthy s then Some s else None
  | None => None
  end.

(** [join(a, b)] for a directory [a] and a relative file name [b] on
    which [path.join] has nothing to normalise: no [.] or [..] segment,
    no doubled slash. *)
Definition join (a b : string) : string := a ++ "/" ++ b.

(** [join(file, '..')]: the directory of [file], for a POSIX path
    without [.] or [..] segments and without a trailing slash. *)
Fixpoint dirname_aux (s : string) (acc cur : string) : string :=
  match s with
  | EmptyString => acc
  | String c s' =>
      if Ascii.eqb c JsString.slash then dirname_aux s' cur (cur ++ "/")
      else dirname_aux s' acc (cur ++ String c EmptyString)
  end.

Definition dirname (file : string) : string :=
  match dirname_aux file EmptyString EmptyString with
  | EmptyString => if JsString.startsWith file "/" then "/" else "."
  | d => d
  end.

(** The head of [loadConfig] and [saveConfig]: which file. *)
Definition configFileOf (w : World) (configPath : option string) : string :=
  match nonempty configPath with
  | Some p => p
  | None =>
      match nonempty (globalConfigPath w) with
      | Some p => p
      | None =>
          let path := match nonempty (CONFIG_PATH (env w)) with
                      | Some p => p
                      | None => "config.yaml"
                      end in
          join (cwd w) path
      end
  end.

(** [parse(fileContent)] *)
Definition parse (c : FileContent) : result jsval :=
  match c with
  | Yaml doc => Ok doc
  | Unparsable _ => Throw (Error "YAMLParseError")
  end.

(** [stringify(value)] *)
Definition stringify (v : jsval) : FileContent := Yaml (prune v).

(** *** [loadConfig] *)

Definition defaultOBS : list (string * jsval) :=
  [("host", JStr "localhost"); ("port", JNum 4455); ("password", JNull)].

Definition defaultRTMPServer : list (string * jsval) :=
  [("host", JStr "localhost"); ("port", JNum 1935); ("appName", JStr "live");
   ("streamKey", JStr "obs"); ("enabled", JBool true)].

Definition defaultStreamManager : list (string * jsval) :=
  [("obs", JObj defaultOBS); ("rtmpServer", JObj defaultRTMPServer);
   ("autoReconnect", JBool true); ("reconnectDelay", JNum 5);
   ("maxReconnectAttempts", JNum 10); ("platforms", JArr [])].

Definition defaultUI : list (string * jsval) :=
  [("host", JStr "0.0.0.0"); ("port", JNum 8000); ("debug", JBool false)].

Definition defaultConfig : list (string * jsval) :=
  [("version", JStr "1.0.0"); ("streamManager", JObj defaultStreamManager);
   ("ui", JObj defaultUI)].

(** [delete o[k]] *)
Fixpoint remove (k : string) (fields : list (string * jsval)) : list (string * jsval) :=
  match fields with
  | [] => []
  | (k', v) :: rest =>
      if String.eqb k k' then remove k rest else (k', v) :: remove k rest
  end.

(** The fields of a value known to be an object. *)
Definition fields_of (v : jsval) : list (string * jsval) :=
  match v with JObj fields => fields | _ => [] end.

(** The [try] block reading the file: the merged data and [fileMtime]. *)
Definition readAndMerge (w : World) (configFile : string) : list (string * jsval) * Z :=
  match files w !! configFile with
  | None => (defaultConfig, 0%Z)
  | Some f =>
      match parse (content f) with
      | Ok yamlData =>
          (assign (assign (assign [] defaultConfig) (assign [] defaultConfig))
                  (spread yamlData),
           mtimeMs f)
      | Throw _ => (defaultConfig, mtimeMs f)
      end
  end.

(** [array.map((p, index) => f(p, index))] for a callback that may
    throw. *)
Fixpoint mapWithIndex (f : jsval -> nat -> result jsval) (items : list jsval) (index : nat)
  : result (list jsval) :=
  match items with
  | [] => Ok []
  | p :: rest =>
      x ← f p index;
      xs ← mapWithIndex f rest (S index);
      Ok (x :: xs)
  end.

(** The callback mapping a snake_case destination. *)
Definition convertPlatform (now : Z) (p : jsval) (index : nat) : result jsval :=
  i ← getProp p "id";
  display_name ← getProp p "display_name";
  rtmp_url ← getProp p "rtmp_url";
  stream_key ← getProp p "stream_key";
  Ok (JObj (set "streamKey" stream_key
           (set "rtmpUrl" rtmp_url
           (set "displayName" display_name
           (set "id" (or i (JStr ("platform_" ++ pretty now ++ "_" ++ pretty index)))
           (assign [] (spread p))))))).

(** [(platforms || []).map(...)] *)
Definition convertPlatforms (now : Z) (v : jsval) : result jsval :=
  match or v (JArr []) with
  | JArr items => xs ← mapWithIndex (convertPlatform now) items 0; Ok (JArr xs)
  | _ => Throw (Error "TypeError: (intermediate value).map is not a function")
  end.

(** The block turning [stream_manager] into [streamManager]. *)
Definition convertSnakeCase (now : Z) (configData : list (string * jsval))
  : result (list (string * jsval)) :=
  let stream_manager := field configData "stream_manager" in
  if truthy stream_manager then
    obs_ ← getProp stream_manager "obs";
    rtmp_server ← getProp stream_manager "rtmp_server";
    rtmpServer_ ←
      (if truthy rtmp_server then
         app_name ← getProp rtmp_server "app_name";
         stream_key ← getProp rtmp_server "stream_key";
         Ok (JObj (set "streamKey" (or stream_key (field defaultRTMPServer "streamKey"))
                  (set "appName" (or app_name (field defaultRTMPServer "appName"))
                  (merge (JObj defaultRTMPServer) rtmp_server))))
       else Ok (JObj defaultRTMPServer));
    auto_reconnect ← getProp stream_manager "auto_reconnect";
    reconnect_delay ← getProp stream_manager "reconnect_delay";
    max_reconnect_attempts ← getProp stream_manager "max_reconnect_attempts";
    platforms_ ← getProp stream_manager "platforms";
    converted ← convertPlatforms now platforms_;
    Ok (remove "stream_manager"
          (set "streamManager"
             (JObj (set "platforms" converted
                   (set "maxReconnectAttempts"
                        (nullish max_reconnect_attempts (field defaultStreamManager "maxReconnectAttempts"))
                   (set "reconnectDelay"
                        (nullish reconnect_delay (field defaultStreamManager "reconnectDelay"))
                   (set "autoReconnect"
                        (nullish auto_reconnect (field defaultStreamManager "autoReconnect"))
                   (set "rtmpServer" rtmpServer_
                   (set "obs" (JObj (merge (JObj defaultOBS) (or obs_ (JObj []))))
                   (merge (JObj defaultStreamManager) stream_manager))))))))
             configData))
  else Ok configData.

(** The block ensuring [streamManager], [ui] and [version]. *)
Definition ensureRequired (configData : list (string * jsval))
  : result (list (string * jsval)) :=
  let sm := field configData "streamManager" in
  withStreamManager ←
    (if negb (truthy sm) then Ok (set "streamManager" (JObj defaultStreamManager) configData)
     else
       obs_ ← getProp sm "obs";
       rtmpServer_ ← getProp sm "rtmpServer";
       platforms_ ← getProp sm "platforms";
       Ok (set "streamManager"
             (JObj (set "platforms" (or platforms_ (field defaultStreamManager "platforms"))
                   (set "rtmpServer" (JObj (merge (JObj defaultRTMPServer) (or rtmpServer_ (JObj []))))
                   (set "obs" (JObj (merge (JObj defaultOBS) (or obs_ (JObj []))))
                   (merge (JObj defaultStreamManager) sm)))))
             configData));
  let ui_ := field withStreamManager "ui" in
  let withUI :=
    if negb (truthy ui_) then set "ui" (JObj defaultUI) withStreamManager
    else set "ui" (JObj (merge (JObj defaultUI) ui_)) withStreamManager in
  Ok (if negb (truthy (field withUI "version"))
      then set "version" (field defaultConfig "version") withUI
      else withUI).

(** [configData.a.b.c = v], all of [a] and [a.b] being objects. *)
Definition setNested (a b c : string) (v : jsval) (configData : list (string * jsval))
  : list (string * jsval) :=
  let oa := fields_of (or (field configData a) (JObj [])) in
  let ob := fields_of (or (field oa b) (JObj [])) in
  set a (JObj (set b (JObj (set c v ob)) oa)) configData.

(** [configData.a.b = v] *)
Definition setInner (a b : string) (v : jsval) (configData : list (string * jsval))
  : list (string * jsval) :=
  let oa := fields_of (or (field configData a) (JObj [])) in
  set a (JObj (set b v oa)) configData.

Definition number_of (o : option Z) : jsval :=
  match o with Some z => JNum z | None => JNaN end.

Definition override (v : option string) (f : string -> list (string * jsval) -> list (string * jsval))
    (configData : list (string * jsval)) : list (string * jsval) :=
  match nonempty v with
  | Some s => f s configData
  | None => configData
  end.

(** The environment overrides. *)
Definition applyEnv (e : ProcessEnv) (configData : list (string * jsval))
  : list (string * jsval) :=
  let c1 := override (OBS_HOST e)
              (fun s => setNested "streamManager" "obs" "host" (JStr s)) configData in
  let c2 := override (OBS_PORT e)
              (fun s => setNested "streamManager" "obs" "port" (number_of (JsNumber.parseInt s))) c1 in
  let c3 := override (OBS_PASSWORD e)
              (fun s => setNested "streamManager" "obs" "password" (JStr s)) c2 in
  let c4 := override (UI_HOST e) (fun s => setInner "ui" "host" (JStr s)) c3 in
  let c5 := override (UI_PORT e)
              (fun s => setInner "ui" "port" (number_of (JsNumber.parseInt s))) c4 in
  override (UI_DEBUG e) (fun s => setInner "ui" "debug" (JBool (String.eqb s "true"))) c5.

(** From the file to the validated configuration and [fileMtime]. *)
Definition readConfig (w : World) (configFile : string) : result (Config * Z) :=
  let '(merged, fileMtime) := readAndMerge w configFile in
  converted ← convertSnakeCase (now w) merged;
  ensured ← ensureRequired converted;
  match ConfigSchema (JObj (applyEnv (env w) ensured)) with
  | Some config => Ok (config, fileMtime)
  | None => Throw (Error "ZodError")
  end.

(** The cache check at the head of [loadConfig]. *)
Definition cacheHit (w : World) (configFile : string) : option Config :=
  match configCache w with
  | None => None
  | Some c =>
      let fresh := (now w - timestamp c <? CACHE_TTL)%Z in
      match files w !! configFile with
      | Some f => if (mtimeMs f =? mtime c)%Z && fresh then Some (data c) else None
      | None => if fresh then Some (data c) else None
      end
  end.

Definition loadConfig (w : World) (configPath : option string) : result Config * World :=
  let configFile := configFileOf w configPath in
  match cacheHit w configFile with
  | Some config => (Ok config, w)
  | None =>
      match readConfig w configFile with
      | Ok (config, fileMtime) =>
          (Ok config,
           set_cache w (Some {| data := config; timestamp := now w; mtime := fileMtime |}))
      | Throw e => (Throw e, w)
      end
  end.

(** [invalidateConfigCache()] *)
Definition invalidateConfigCache (w : World) : World := set_cache w None.

(** *** [saveConfig] *)

Definition optional_string (o : option string) : jsval :=
  match o with Some s => JStr s | None => JUndefined end.

Definition password_value (p : Password) : jsval :=
  match p with
  | PasswordUndefined => JUndefined
  | PasswordNull => JNull
  | PasswordString s => JStr s
  end.

Definition platformYaml (p : PlatformConfig) : jsval :=
  JObj [("id", optional_string (id p)); ("name", JStr (name p));
        ("display_name", optional_string (displayName p));
        ("rtmp_url", JStr (rtmpUrl p)); ("stream_key", JStr (streamKey p));
        ("enabled", JBool (enabled p)); ("metadata", JObj (metadata p))].

(** The [yamlData] object: camelCase to snake_case. *)
Definition yamlData (config : Config) : jsval :=
  let sm := streamManager config in
  JObj [("version", JStr (version config));
        ("stream_manager",
         JObj [("obs", JObj [("host", JStr (obs_host (obs sm)));
                             ("port", JNum (obs_port (obs sm)));
                             ("password", password_value (obs_password (obs sm)))]);
               ("rtmp_server",
                JObj [("host", JStr (RTMPServer.host (rtmpServer sm)));
                      ("port", JNum (RTMPServer.port (rtmpServer sm)));
                      ("app_name", JStr (RTMPServer.appName (rtmpServer sm)));
                      ("stream_key", JStr (RTMPServer.streamKey (rtmpServer sm)));
                      ("enabled", JBool (RTMPServer.enabled (rtmpServer sm)))]);
               ("auto_reconnect", JBool (autoReconnect sm));
               ("reconnect_delay", JNum (reconnectDelay sm));
               ("max_reconnect_attempts", JNum (maxReconnectAttempts sm));
               ("platforms", JArr (map platformYaml (platforms sm)))]);
        ("ui", JObj [("host", JStr (ui_host (ui config)));
                     ("port", JNum (ui_port (ui config)));
                     ("debug", JBool (ui_debug (ui config)))])].

(** [saveConfig]: create the directory, write the file, invalidate the
    cache.  A failing [writeFile] rejects before the cache is touched. *)
Definition saveConfig (w : World) (config : Config) (configPath : option string)
  : result unit * World * list fs_op :=
  let configFile := configFileOf w configPath in
  let dir := dirname configFile in
  let text := stringify (yamlData config) in
  if bool_decide (configFile ∈ unwritable w) then
    (Throw (Error ("EACCES: permission denied, open '" ++ configFile ++ "'")), w, [MkdirP dir])
  else
    (Ok tt,
     invalidateConfigCache
       (set_files w (<[configFile := {| content := text; mtimeMs := now w |}]> (files w))),
     [MkdirP dir; WriteFile configFile text]).

(** *** Handing the destinations to the supervisor *)

Definition toRelay (p : PlatformConfig) : Relay.PlatformConfig :=
  {| Relay.id := id p; Relay.name := name p; Relay.displayName := displayName p;
     Relay.rtmpUrl := rtmpUrl p; Relay.streamKey := streamKey p;
     Relay.enabled := Some (enabled p);
     Relay.metadata := Some (JObj (metadata p)) |}.

(** [setupRegistry] of main.ts:
    [if (p.rtmpUrl && p.streamKey && p.streamKey.trim())]. *)
Definition setupPlatforms (config : Config) : list Relay.PlatformConfig :=
  toRelay <$>
    filter (fun p => JsString.truthy (rtmpUrl p) && JsString.truthy (streamKey p)
                     && JsString.trim_truthy (streamKey p) = true)
           (platforms (streamManager config)).

(** [POST /config] of the API routes: the same test, and a name. *)
Definition validPlatforms (config : Config) : list Relay.PlatformConfig :=
  toRelay <$>
    filter (fun p => JsString.truthy (name p) && JsString.truthy (rtmpUrl p)
                     && JsString.truthy (streamKey p)
                     && JsString.trim_truthy (streamKey p) = true)
           (platforms (streamManager config)).

(** [GET /config] without [includeKeys]: the stream keys are masked in
    the response only. *)
Definition mask (key : string) : string := if JsString.truthy key then "***" else EmptyString.

Definition safeConfig (config : Config) : Config :=
  let sm := streamManager config in
  {| streamManager :=
       {| obs := obs sm;
          rtmpServer :=
            {| RTMPServer.host := RTMPServer.host (rtmpServer sm);
               RTMPServer.port := RTMPServer.port (rtmpServer sm);
               RTMPServer.appName := RTMPServer.appName (rtmpServer sm);
               RTMPServer.streamKey := mask (RTMPServer.streamKey (rtmpServer sm));
               RTMPServer.enabled := RTMPServer.enabled (rtmpServer sm) |};
          autoReconnect := autoReconnect sm;
          reconnectDelay := reconnectDelay sm;
          maxReconnectAttempts := maxReconnectAttempts sm;
          platforms :=
            map (fun p => {| id := id p; name := name p; displayName := displayName p;
                             rtmpUrl := rtmpUrl p; streamKey := mask (streamKey p);
                             enabled := enabled p; metadata := metadata p |})
                (platforms sm) |};
     ui := ui config;
     version := version config |}.

(** *** Sample worlds, and the vocabulary of the statements about
    saving and loading *)

(** No environment variable set. *)
Definition no_env : ProcessEnv :=
  {| OBS_HOST := None; OBS_PORT := None; OBS_PASSWORD := None; UI_HOST := None;
     UI_PORT := None; UI_DEBUG := None; CONFIG_PATH := None |}.

(** A fresh process: no file, nothing cached. *)
Definition empty_world : World :=
  {| files := ∅; unwritable := []; configCache := None; globalConfigPath := None;
     now := 1700000000000; cwd := "/srv/streamhub"; env := no_env |}.

(** A Twitch destination with the given id and stream key. *)
Definition sample_platform (i : option string) (key : string) : PlatformConfig :=
  {| id := i; name := "twitch"; displayName := None;
     rtmpUrl := "rtmp://live.twitch.tv/app"; streamKey := key; enabled := true;
     metadata := [] |}.

(** The default configuration with the given destinations. *)
Definition sample_config (ps : list PlatformConfig) : Config :=
  {| streamManager :=
       {| obs := {| obs_host := "localhost"; obs_port := 4455; obs_password := PasswordNull |};
          rtmpServer := {| RTMPServer.host := "localhost"; RTMPServer.port := 1935;
                           RTMPServer.appName := "live"; RTMPServer.streamKey := "obs";
                           RTMPServer.enabled := true |};
          autoReconnect := true; reconnectDelay := 5; maxReconnectAttempts := 10;
          platforms := ps |};
     ui := {| ui_host := "0.0.0.0"; ui_port := 8000; ui_debug := false |};
     version := "1.0.0" |}.

(** A world whose cache holds the defaults. *)
Definition cached_world : World := (loadConfig empty_world None).2.

(** A file listing one destination with an empty stream key. *)
Definition keyless_file : File :=
  {| content :=
       Yaml (JObj [("stream_manager",
                    JObj [("platforms",
                           JArr [JObj [("id", JStr "a"); ("name", JStr "twitch");
                                       ("rtmp_url", JStr "rtmp://live.twitch.tv/app");
                                       ("stream_key", JStr EmptyString)]])])]);
     mtimeMs := 1699999999000 |}.

(** A file that sets the ingest key, in camelCase, to the empty string. *)
Definition open_ingest_world : World :=
  set_files empty_world
    {[ "/srv/streamhub/config.yaml" :=
         {| content :=
              Yaml (JObj [("streamManager",
                           JObj [("rtmpServer", JObj [("streamKey", JStr EmptyString)])])]);
            mtimeMs := 1699999999000 |} ]}.

(** The world whose configuration file is [keyless_file]. *)
Definition keyless_world : World :=
  set_files empty_world {[ "/srv/streamhub/config.yaml" := keyless_file ]}.

(** A save that replaces the target atomically: the text goes to some
    other file, which is then renamed over the target, and the target
    itself is never written. *)
Definition atomic_save (target : string) (ops : list fs_op) : Prop :=
  (exists tmp text before between after,
      tmp <> target /\
      ops = (before ++ WriteFile tmp text :: between ++ Rename tmp target :: after)%list) /\
  (forall text, WriteFile target text ∉ ops).

(** The destination has a URL and a stream key that is not blank. *)
Definition has_url_and_key (p : Relay.PlatformConfig) : Prop :=
  Relay.rtmpUrl p <> EmptyString /\ Relay.streamKey p <> EmptyString /\
  JsString.all_space (Relay.streamKey p) = false.

(** Saving and loading back on the same path. *)
Definition saveThenLoad (w : World) (config : Config) (configPath : option string)
  : result Config :=
  (loadConfig (saveConfig w config configPath).1.2 configPath).1.

(** A destination as it stands in the written document. *)
Definition savedPlatform (p : PlatformConfig) : jsval := prune (platformYaml p).

(** A destination that survives the round trip: it has a non-empty id,
    and its metadata holds no [undefined]. *)
Definition stable_platform (p : PlatformConfig) : Prop :=
  (exists i, id p = Some i /\ i <> EmptyString) /\ prune_fields (metadata p) = metadata p.

(** A configuration that survives the round trip. *)
Definition stable (config : Config) : Prop :=
  version config <> EmptyString /\
  RTMPServer.appName (rtmpServer (streamManager config)) <> EmptyString /\
  RTMPServer.streamKey (rtmpServer (streamManager config)) <> EmptyString /\
  obs_password (obs (streamManager config)) <> PasswordUndefined /\
  Forall stable_platform (platforms (streamManager config)).

(** None of the overriding environment variables is set. *)
Definition no_overrides (e : ProcessEnv) : Prop :=
  nonempty (OBS_HOST e) = None /\ nonempty (OBS_PORT e) = None /\
  nonempty (OBS_PASSWORD e) = None /\ nonempty (UI_HOST e) = None /\
  nonempty (UI_PORT e) = None /\ nonempty (UI_DEBUG e) = None.

End Config.


(* ================================================================= *)
(** ** Methods with state, exceptions and effects

    The shape shared by the objects modelled below: a method maps the
    object to its result (or the exception thrown), the object
    afterwards, and the effects it performed, in order. *)

Module Exec.

Definition Eff (S E A : Type) : Type := S -> result A * S * list E.

#[export] Instance Eff_ret {S E} : MRet (Eff S E) | 100 := fun A a s => (Ok a, s, []).

#[export] Instance Eff_bind {S E} : MBind (Eff S E) | 100 := fun A B f c s =>
  match c s with
  | (Ok a, s1, effs1) =>
      let '(r, s2, effs2) := f a s1 in (r, s2, (effs1 ++ effs2)%list)
  | (Throw e, s1, effs1) => (Throw e, s1, effs1)
  end.

Definition throw {S E A} (msg : string) : Eff S E A := fun s => (Throw (Error msg), s, []).
Definition rethrow {S E A} (e : exn) : Eff S E A := fun s => (Throw e, s, []).
Definition get {S E} : Eff S E S := fun s => (Ok s, s, []).
Definition modify {S E} (f : S -> S) : Eff S E unit := fun s => (Ok tt, f s, []).
Definition perform {S E} (e : E) : Eff S E unit := fun s => (Ok tt, s, [e]).

(** [try { body } catch (e) { handler(e) }] *)
Definition try_catch {S E A} (body : Eff S E A) (handler : exn -> Eff S E A) : Eff S E A :=
  fun s =>
    match body s with
    | (Throw e, s1, effs1) =>
        let '(r, s2, effs2) := handler e s1 in (r, s2, (effs1 ++ effs2)%list)
    | ok => ok
    end.

(** [for (const x of l) body(x)] *)
Fixpoint for_each {S E A} (l : list A) (body : A -> Eff S E unit) : Eff S E unit :=
  match l with
  | [] => mret tt
  | x :: l' => body x ;; for_each l' body
  end.

Definition when {S E} (b : bool) (c : Eff S E unit) : Eff S E unit :=
  if b then c else mret tt.

(** The object after a call, and the effects of the call. *)
Definition after {S E A} (c : Eff S E A) (s : S) : S := (c s).1.2.
Definition effects {S E A} (c : Eff S E A) (s : S) : list E := (c s).2.
Definition outcome {S E A} (c : Eff S E A) (s : S) : result A := (c s).1.1.

(** A call keeps the property [I] of the object and performs only
    effects that satisfy [P]. *)
Definition respects {S E A} (I : S -> Prop) (P : E -> Prop) (c : Eff S E A) : Prop :=
  forall s, I s -> I (c s).1.2 /\ Forall P (c s).2.

End Exec.

(* ================================================================= *)
(** ** RTMPServer.ts: the module and the stream provider

    The ingest as a registered module: the object of [RTMPServer] with
    its lifecycle and the embedded media server it owns ([nms], here
    whether one is held).  The media server is outside the sources;
    what matters of it is whether constructing, running or stopping it
    throws, and when it runs the hooks attached to it.  It keeps the
    listeners of all its instances on one event bus: the hooks that an
    earlier [startServer] attached stay attached when that media server
    is stopped, so that after [n] activations an event of the media
    server runs each hook [n] times.  One run of a hook is one event
    here; when and how often the hooks run is up to the media server. *)

Module Ingest.
Import Exec.

(** [hooks] counts how often [startServer] has attached the publish
    hooks to the media server's event bus. *)
Record Ingest : Type := mkIngest {
  server : RTMPServer.RTMPServer;
  lifecycle : Lifecycle.ModuleLifecycle;
  nms : bool;
  hooks : nat
}.

(** [new RTMPServer(config)] *)
Definition new (cfg : RTMPServer.RTMPServerConfig) : Ingest :=
  {| server := RTMPServer.new cfg; lifecycle := Lifecycle.new "rtmp_server"; nms := false;
     hooks := 0 |}.

(** How the embedded media server behaves when it is constructed, run,
    stopped and asked for a session.  For the three calls [None] is a
    normal return, [Some] the message of the exception.  [stop()] ends
    the sessions of the media server; a session that publishes fires
    [donePublish] as it ends, inside [stop()]: [stopFires] lists the
    runs of the [donePublish] hook that [stop()] sets off, by the id
    and the path each is passed.  [sessionFound] tells whether
    [getSession(id)] returns a session. *)
Record MediaServer : Type := mkMediaServer {
  constructorThrows : option string;
  runThrows : option string;
  stopThrows : option string;
  stopFires : list (string * string);
  sessionFound : bool
}.

(** What the object tells a subscriber, a listener or the media
    server, and the object as it is at that moment: callbacks and
    listeners run inside the call that tells them. *)
Definition Heard : Type := RTMPServer.effect * RTMPServer.RTMPServer.

Definition M (A : Type) : Type := Eff Ingest Heard A.

Definition set_server (i : Ingest) (v : RTMPServer.RTMPServer) : Ingest :=
  {| server := v; lifecycle := lifecycle i; nms := nms i; hooks := hooks i |}.

Definition set_lifecycle (i : Ingest) (v : Lifecycle.ModuleLifecycle) : Ingest :=
  {| server := server i; lifecycle := v; nms := nms i; hooks := hooks i |}.

Definition set_nms (i : Ingest) (v : bool) : Ingest :=
  {| server := server i; lifecycle := lifecycle i; nms := v; hooks := hooks i |}.

Definition set_hooks (i : Ingest) (v : nat) : Ingest :=
  {| server := server i; lifecycle := lifecycle i; nms := nms i; hooks := v |}.

(** [this.lifecycle.markX()] *)
Definition mark (f : Lifecycle.ModuleLifecycle -> Lifecycle.effect) : M unit :=
  fun i =>
    match f (lifecycle i) with
    | (l, None) => (Ok tt, set_lifecycle i l, [])
    | (l, Some e) => (Throw e, set_lifecycle i l, [])
    end.

(** [updateConfig(newConfig)] *)
Definition updateConfig (newConfig : RTMPServer.RTMPServerConfig) : M unit :=
  modify (fun i =>
    set_server i
      {| RTMPServer.config := newConfig;
         RTMPServer.status := RTMPServer.status (server i);
         RTMPServer.connected := RTMPServer.connected (server i);
         RTMPServer.streamInfo := RTMPServer.streamInfo (server i);
         RTMPServer.actualStreamPath := RTMPServer.actualStreamPath (server i);
         RTMPServer.subscriptionCallbacks := RTMPServer.subscriptionCallbacks (server i) |}).

Definition initialize : M unit :=
  mark Lifecycle.markInitializing;;
  mark Lifecycle.markInitialized.

(** A hook runs on the object; its callbacks and emits come when it
    has updated the object. *)
Definition hook (h : RTMPServer.RTMPServer -> RTMPServer.RTMPServer * list RTMPServer.effect)
  : M unit :=
  fun i =>
    let '(srv, effs) := h (server i) in
    (Ok tt, set_server i srv, map (fun e => (e, srv)) effs).

(** No hook runs before [startServer] has attached the hooks. *)
Definition whenAttached (c : M unit) : M unit :=
  i ← get;
  when (negb (hooks i =? 0)%nat) c.

(** One run of the [prePublish] hook.  To reject the publish it calls
    [this.nms!.getSession(id).reject()], which throws a [TypeError]
    when no media server is held or the session is not found. *)
Definition prePublishHook (ms : MediaServer) (id StreamPath : string) : M unit :=
  i ← get;
  if RTMPServer.rejected id (RTMPServer.onPrePublish (server i) id StreamPath).2
     && negb (nms i && sessionFound ms)
  then throw "Cannot read properties of undefined (reading 'reject')"
  else hook (fun srv => RTMPServer.onPrePublish srv id StreamPath).

(** [startServer()]: nothing to do when a media server is held;
    otherwise one is constructed, the hooks are attached, and it is
    run. *)
Definition startServer (ms : MediaServer) : M unit :=
  i ← get;
  if nms i then mret tt
  else
    match constructorThrows ms with
    | Some msg => throw msg
    | None =>
        modify (fun i => set_nms i true);;
        modify (fun i => set_hooks i (S (hooks i)));;
        match runThrows ms with
        | Some msg => throw msg
        | None => mret tt
        end
    end.

(** [stopServer()]: [stop()] sets off the [donePublish] hook for the
    publishes it ends; an exception of [stop()] is logged, and the
    media server kept. *)
Definition stopServer (ms : MediaServer) : M unit :=
  i ← get;
  if negb (nms i) then mret tt
  else
    for_each (stopFires ms) (fun fired =>
      whenAttached (hook (fun srv => RTMPServer.onDonePublish srv fired.1 fired.2)));;
    match stopThrows ms with
    | Some _ => mret tt
    | None => modify (fun i => set_nms i false)
    end.

Definition notRunningMessage : string :=
  "RTMP server is not running. Please start the server first." ++ String (ascii_of_nat 10)
  "The server should start automatically when the application starts.".

(** The object after a successful [connect()]: status and flag are
    set, and the stream info is created, or updated in its URL and
    status. *)
Definition connected_server (srv : RTMPServer.RTMPServer) : RTMPServer.RTMPServer :=
  let cfg := RTMPServer.config srv in
  let rtmpUrl :=
    "rtmp://" ++ RTMPServer.displayHost cfg ++ ":" ++ pretty (RTMPServer.port cfg)
    ++ "/" ++ RTMPServer.appName cfg ++ "/" ++ RTMPServer.streamKey cfg in
  {| RTMPServer.config := cfg;
     RTMPServer.status := RTMPServer.CONNECTED;
     RTMPServer.connected := true;
     RTMPServer.streamInfo :=
       Some {| RTMPServer.info_streamKey :=
                 match RTMPServer.streamInfo srv with
                 | Some info => RTMPServer.info_streamKey info
                 | None => RTMPServer.streamKey cfg
                 end;
               RTMPServer.rtmpUrl := rtmpUrl;
               RTMPServer.info_status := RTMPServer.CONNECTED |};
     RTMPServer.actualStreamPath := RTMPServer.actualStreamPath srv;
     RTMPServer.subscriptionCallbacks := RTMPServer.subscriptionCallbacks srv |}.

(** [connect()] *)
Definition connect : M bool :=
  i ← get;
  if RTMPServer.connected (server i) then mret true
  else if negb (nms i) then throw notRunningMessage
  else
    modify (fun i => set_server i (connected_server (server i)));;
    mret true.

(** The object after [disconnect()] has gone through: the stream info
    is kept, with its status updated. *)
Definition disconnected_server (srv : RTMPServer.RTMPServer) : RTMPServer.RTMPServer :=
  {| RTMPServer.config := RTMPServer.config srv;
     RTMPServer.status := RTMPServer.DISCONNECTED;
     RTMPServer.connected := false;
     RTMPServer.streamInfo :=
       (fun info =>
          {| RTMPServer.info_streamKey := RTMPServer.info_streamKey info;
             RTMPServer.rtmpUrl := RTMPServer.rtmpUrl info;
             RTMPServer.info_status := RTMPServer.DISCONNECTED |})
         <$> RTMPServer.streamInfo srv;
     RTMPServer.actualStreamPath := RTMPServer.actualStreamPath srv;
     RTMPServer.subscriptionCallbacks := RTMPServer.subscriptionCallbacks srv |}.

(** [disconnect()] *)
Definition disconnect : M unit :=
  i ← get;
  if negb (RTMPServer.connected (server i)) then mret tt
  else modify (fun i => set_server i (disconnected_server (server i))).

Definition activate (ms : MediaServer) : M unit :=
  i ← get;
  if negb (Lifecycle.canActivate (lifecycle i)) then
    throw ("Cannot activate RTMP server in state: "
           ++ Lifecycle.state_name (Lifecycle.state (lifecycle i)))
  else
    mark Lifecycle.markActivating;;
    try_catch
      (startServer ms;; mark Lifecycle.markActive)
      (fun e => mark Lifecycle.markError;; rethrow e).

Definition deactivate (ms : MediaServer) : M unit :=
  i ← get;
  if negb (Lifecycle.canDeactivate (lifecycle i)) then mret tt
  else
    mark Lifecycle.markDeactivating;;
    stopServer ms;;
    disconnect;;
    mark Lifecycle.markDeactivated.

Definition destroy (ms : MediaServer) : M unit :=
  i ← get;
  if negb (Lifecycle.canDestroy (lifecycle i)) then mret tt
  else
    mark Lifecycle.markDestroying;;
    stopServer ms;;
    disconnect;;
    mark Lifecycle.markDestroyed.

(** [getStreamInfo()] *)
Definition getStreamInfo (i : Ingest) : option RTMPServer.StreamInfo :=
  RTMPServer.streamInfo (server i).

Definition with_subscriptions (srv : RTMPServer.RTMPServer) (subs : list string)
  : RTMPServer.RTMPServer :=
  {| RTMPServer.config := RTMPServer.config srv;
     RTMPServer.status := RTMPServer.status srv;
     RTMPServer.connected := RTMPServer.connected srv;
     RTMPServer.streamInfo := RTMPServer.streamInfo srv;
     RTMPServer.actualStreamPath := RTMPServer.actualStreamPath srv;
     RTMPServer.subscriptionCallbacks := subs |}.

(** [subscribe(callback)]: [subscriptionId] is the identifier drawn from
    the clock and the random generator; setting a key that is present
    keeps its place. *)
Definition subscribe (subscriptionId : string) : M string :=
  modify (fun i =>
    let srv := server i in
    set_server i
      (with_subscriptions srv
         (if bool_decide (subscriptionId ∈ RTMPServer.subscriptionCallbacks srv)
          then RTMPServer.subscriptionCallbacks srv
          else (RTMPServer.subscriptionCallbacks srv ++ [subscriptionId])%list)));;
  mret subscriptionId.

(** [unsubscribe(subscriptionId)] *)
Definition unsubscribe (subscriptionId : string) : M unit :=
  modify (fun i =>
    let srv := server i in
    set_server i
      (with_subscriptions srv
         (filter (fun s => s <> subscriptionId) (RTMPServer.subscriptionCallbacks srv)))).

(** *** Runs: method calls, and runs of the hooks *)

Inductive event : Type :=
| Initialize
| Activate
| Deactivate
| Destroy
| UpdateConfig (newConfig : RTMPServer.RTMPServerConfig)
| Connect
| Disconnect
| Subscribe (subscriptionId : string)
| Unsubscribe (subscriptionId : string)
| PrePublish (id StreamPath : string)
| PostPublish (id StreamPath : string)
| DonePublish (id StreamPath : string).

Definition handle (ms : MediaServer) (ev : event) : M unit :=
  match ev with
  | Initialize => initialize
  | Activate => activate ms
  | Deactivate => deactivate ms
  | Destroy => destroy ms
  | UpdateConfig cfg => updateConfig cfg
  | Connect => connect;; mret tt
  | Disconnect => disconnect
  | Subscribe s => subscribe s;; mret tt
  | Unsubscribe s => unsubscribe s
  | PrePublish id path => whenAttached (prePublishHook ms id path)
  | PostPublish id path =>
      whenAttached (hook (fun srv => RTMPServer.onPostPublish srv id path))
  | DonePublish id path =>
      whenAttached (hook (fun srv => RTMPServer.onDonePublish srv id path))
  end.

(** A run, and what the object told its subscribers, its listeners and
    the media server: the callers catch exceptions; each event meets
    the media server in its own mood. *)
Fixpoint run (evs : list (MediaServer * event)) (i : Ingest) : Ingest * list RTMPServer.effect :=
  match evs with
  | [] => (i, [])
  | (ms, ev) :: evs' =>
      let '(_, i1, heard) := handle ms ev i in
      let '(i2, effs2) := run evs' i1 in
      (i2, (heard.*1 ++ effs2)%list)
  end.

(** A media server that never throws, ends no publish when it is
    stopped, and finds every session. *)
Definition cooperative : MediaServer :=
  {| constructorThrows := None; runThrows := None; stopThrows := None;
     stopFires := []; sessionFound := true |}.

(** The same, ending the publish of session [id] on [StreamPath] when
    it is stopped, the [donePublish] hook running [n] times. *)
Definition ending (id StreamPath : string) (n : nat) : MediaServer :=
  {| constructorThrows := None; runThrows := None; stopThrows := None;
     stopFires := replicate n (id, StreamPath); sessionFound := true |}.

(** The object says it is streaming, and then holds what a relay
    needs. *)
Definition streaming_consistent (srv : RTMPServer.RTMPServer) : Prop :=
  RTMPServer.status srv = RTMPServer.STREAMING ->
  RTMPServer.connected srv = true /\
  (exists info, RTMPServer.streamInfo srv = Some info /\
                RTMPServer.info_status info = RTMPServer.STREAMING) /\
  is_Some (RTMPServer.actualStreamPath srv).

(** The effect is not a call of the callback of subscription [s], and
    if it calls a callback at all, it passes STREAMING. *)
Definition spares (s : string) (e : RTMPServer.effect) : Prop :=
  match e with
  | RTMPServer.Callback s' st => s' <> s /\ st = RTMPServer.STREAMING
  | _ => True
  end.

(** The path built from the configuration. *)
Definition configuredPath (cfg : RTMPServer.RTMPServerConfig) : string :=
  "/" ++ RTMPServer.appName cfg ++ "/" ++ RTMPServer.streamKey cfg.

(** The object once the [donePublish] hook has run for each of
    [fires]. *)
Definition ended (fires : list (string * string)) (srv : RTMPServer.RTMPServer)
  : RTMPServer.RTMPServer :=
  fold_left (fun srv fired => (RTMPServer.onDonePublish srv fired.1 fired.2).1) fires srv.

(** What the [donePublish] hook emits in these runs. *)
Definition endings (fires : list (string * string)) : list RTMPServer.effect :=
  flat_map (fun fired => [RTMPServer.EmitDonePublish fired.2;
                          RTMPServer.EmitStatusChange RTMPServer.IDLE]) fires.

(** The call tells nobody anything. *)
Definition silent {A} (c : M A) : Prop := forall i, (c i).2 = [].

(** All that the call tells is what at most [n] runs of the
    [donePublish] hook emit. *)
Definition tells_endings {A} (n : nat) (c : M A) : Prop :=
  forall i, exists fires, length fires <= n /\ (c i).2.*1 = endings fires.

(** The runs of a hook in an event: the event itself if it is one, the
    runs that [stop()] sets off in [deactivate] and [destroy], and none
    in the other methods. *)
Definition hookRuns (ms : MediaServer) (ev : event) : nat :=
  match ev with
  | PrePublish _ _ | PostPublish _ _ | DonePublish _ _ => 1
  | Deactivate | Destroy => length (stopFires ms)
  | _ => 0
  end.

(** An ingest to which a publish on [/studio/obs] is under way. *)
Definition on_air : Ingest :=
  (run [(cooperative, Initialize); (cooperative, Activate);
        (cooperative, PrePublish "c1" "/studio/obs");
        (cooperative, PostPublish "c1" "/studio/obs")]
       (new (RTMPServer.config RTMPServer.default_ingest))).1.

(** A sample ingest: subscriptions [s1] and [s2], then [s1] withdrawn. *)
Definition s2_only : Ingest :=
  (run [(cooperative, Initialize); (cooperative, Activate);
        (cooperative, Subscribe "s1"); (cooperative, Subscribe "s2");
        (cooperative, Unsubscribe "s1")]
       (new (RTMPServer.config RTMPServer.default_ingest))).1.

End Ingest.

(* ================================================================= *)
(** ** StreamManager.ts: the module side of the supervisor

    [activate], [deactivate], [destroy] and the bulk [startStream] and
    [stopStream], with the listeners that [activate] attaches to the
    ingest.  The supervisor of [StreamManager] is extended by the two
    fields these methods use.  Calls of [emit] on the supervisor itself
    are left out: nothing in the sources listens to them.  [connect]
    and [disconnect], which only pass on to the stream provider, are
    not modelled. *)

Module Supervisor.
Import Exec Relay StreamManager.

(** The three closures that [activate] registers on the stream
    provider, by the event each is registered for. *)
Inductive Listener : Type :=
| StreamingListener        (* on 'streaming' *)
| DonePublishListener      (* on 'donePublish' *)
| StatusChangeListener.    (* on 'statusChange' *)

#[global] Instance Listener_eq_dec : EqDecision Listener.
Proof. solve_decision. Defined.

Record Supervisor : Type := mkSupervisor {
  manager : StreamManager;
  lastOBSStatus : option RTMPServer.StreamStatus;
  eventListeners : list Listener
}.

(** [new StreamManager(registry)] *)
Definition new : Supervisor :=
  {| manager := StreamManager.new; lastOBSStatus := None; eventListeners := [] |}.

Definition set_manager (s : Supervisor) (v : StreamManager) : Supervisor :=
  {| manager := v; lastOBSStatus := lastOBSStatus s; eventListeners := eventListeners s |}.

Definition set_lastOBSStatus (s : Supervisor) (v : option RTMPServer.StreamStatus) : Supervisor :=
  {| manager := manager s; lastOBSStatus := v; eventListeners := eventListeners s |}.

Definition set_eventListeners (s : Supervisor) (v : list Listener) : Supervisor :=
  {| manager := manager s; lastOBSStatus := lastOBSStatus s; eventListeners := v |}.

Definition set_streaming (m : StreamManager) (v : bool) : StreamManager :=
  {| lifecycle := lifecycle m; streamProvider := streamProvider m;
     platformAdapters := platformAdapters m; config := config m;
     platformConfigMap := platformConfigMap m; streaming := v;
     ffmpegProcesses := ffmpegProcesses m; children := children m;
     platformStreamStates := platformStreamStates m;
     platformStatistics := platformStatistics m;
     statisticsChanged := statisticsChanged m;
     statisticsInterval := statisticsInterval m;
     statisticsDebounceTimer := statisticsDebounceTimer m |}.

Definition set_statisticsInterval (m : StreamManager) (v : bool) : StreamManager :=
  {| lifecycle := lifecycle m; streamProvider := streamProvider m;
     platformAdapters := platformAdapters m; config := config m;
     platformConfigMap := platformConfigMap m; streaming := streaming m;
     ffmpegProcesses := ffmpegProcesses m; children := children m;
     platformStreamStates := platformStreamStates m;
     platformStatistics := platformStatistics m;
     statisticsChanged := statisticsChanged m;
     statisticsInterval := v;
     statisticsDebounceTimer := statisticsDebounceTimer m |}.

(** Methods of the extended object. *)
Definition S (A : Type) : Type := Exec.Eff Supervisor effect A.

(** A method of [StreamManager] run on the extended object. *)
Definition lift {A} (c : M A) : S A :=
  fun s => let '(r, m, effs) := c (manager s) in (r, set_manager s m, effs).

(** *** The bulk [stopStream]

    The session table is walked entry by entry.  (A [Map] is walked in
    insertion order, which [gmap] does not record: the kills are
    listed in the order of [map_to_list]; the entries being for
    different keys and children, the object after the call does not
    depend on the order.) *)
Definition stopSession (kv : string * nat) : M unit :=
  kill kv.2;;
  forgetProcess kv.1;;
  setStreamState kv.1 disconnected.

Definition stopStream : M unit :=
  m ← get;
  if negb (streaming m) then mret tt
  else
    for_each (map_to_list (ffmpegProcesses m)) stopSession;;
    modify (fun m => set_streaming m false).

(** *** The bulk [startStream] *)

(** [Array.from(this.platformAdapters.values())].  The table is filled
    by [initialize] and [activate] from the adapters of the registry,
    which does not change once it is set up: the insertion order of
    the table is the order of the registry's adapters. *)
Definition adapterValues (env : Env) (m : StreamManager) : list Adapter :=
  omap (fun platform => platformAdapters m !! platform)
       (fold_left (fun keys adapter => set_add (platformName adapter) keys) (adapters env) []).

(** [this.config.platforms.find(p => p.name === adapter.platformName)?.enabled] *)
Definition isActive (cfg : StreamManagerConfig) (adapter : Adapter) : bool :=
  match List.find (fun p => String.eqb (name p) (platformName adapter)) (platforms cfg) with
  | Some p => isEnabled p
  | None => false
  end.

(** [this.config.platforms.filter(p => p.name === platform.platformName && p.enabled)] *)
Definition enabledConfigs (cfg : StreamManagerConfig) (platform : Adapter) : list PlatformConfig :=
  List.filter (fun p => String.eqb (name p) (platformName platform) && isEnabled p)
              (platforms cfg).

(** The inner loop, over the destinations of one adapter: the
    identifiers pushed to [successPlatforms], and whether the loop was
    left by an exception (caught by the [try] around it).  A
    destination that the adapter rejects is skipped. *)
Fixpoint startConfigs (env : Env) (platform : Adapter) (inputStream : string)
    (platformConfigs : list PlatformConfig) : M (list string * bool) :=
  match platformConfigs with
  | [] => mret ([], false)
  | platformConfig :: rest =>
      let platformIdentifier := platformIdentifier platformConfig in
      configureResult ← adapterConfigure (platformName platform) platform platformConfig;
      match configureResult with
      | Some _ => startConfigs env platform inputStream rest
      | None =>
          started ←
            try_catch
              (startPlatformStreamInternal env platformConfig platformIdentifier inputStream;;
               setStreamState platformIdentifier live;;
               mret true)
              (fun _ => mret false);
          if started : bool then
            more ← startConfigs env platform inputStream rest;
            mret (platformIdentifier :: more.1, more.2)
          else mret ([], true)
      end
  end.

(** The outer loop, over the active adapters: [successPlatforms] and
    [failedPlatforms]. *)
Fixpoint startPlatforms (env : Env) (inputStream : string) (activePlatforms : list Adapter)
  : M (list string * list string) :=
  match activePlatforms with
  | [] => mret ([], [])
  | platform :: rest =>
      m ← get;
      let platformConfigs :=
        match config m with
        | Some cfg => enabledConfigs cfg platform
        | None => []
        end in
      here ← startConfigs env platform inputStream platformConfigs;
      there ← startPlatforms env inputStream rest;
      mret ((here.1 ++ there.1)%list,
            ((if here.2 : bool then [platformName platform] else []) ++ there.2)%list)
  end.

Definition noActiveMessage : string :=
  "No active platforms configured." ++ String (ascii_of_nat 10)
  "Please configure at least one platform in the web interface.".

Definition allFailedMessage (failedPlatforms : list string) : string :=
  "Failed to start stream on all platforms." ++ String (ascii_of_nat 10)
  ("Failed platforms: " ++ JsString.join ", " failedPlatforms).

Definition startStream (env : Env) : M bool :=
  m ← get;
  if negb (streamProvider m) then throw "Stream provider is not available"
  else
    match config m with
    | None => throw "Stream manager configuration is not set"
    | Some cfg =>
        let activePlatforms := List.filter (isActive cfg) (adapterValues env m) in
        if bool_decide (activePlatforms = []) then throw noActiveMessage
        else
          match rtmpServer env with
          | None => throw "Module rtmp_server not found"
          | Some srv =>
              let inputStream := "rtmp://localhost:1935" ++ RTMPServer.getStreamPath srv in
              started ← startPlatforms env inputStream activePlatforms;
              if bool_decide (started.1 = []) then throw (allFailedMessage started.2)
              else
                modify (fun m => set_streaming m true);;
                mret true
          end
    end.

(** *** The statistics interval *)

Definition startStatisticsBroadcast : M unit :=
  modify (fun m => set_statisticsInterval m true).

Definition stopStatisticsBroadcast : M unit :=
  m ← get;
  when (statisticsInterval m) (modify (fun m => set_statisticsInterval m false)).

(** *** The listeners on the ingest *)

Definition streamingListener (env : Env) : S unit :=
  Exec.modify (fun s => set_lastOBSStatus s (Some RTMPServer.STREAMING));;
  lift (broadcastStatus env).

Definition donePublishListener (env : Env) : S unit :=
  Exec.modify (fun s => set_lastOBSStatus s (Some RTMPServer.IDLE));;
  lift (broadcastStatus env).

Definition statusChangeListener (env : Env) (status : RTMPServer.StreamStatus) : S unit :=
  s ← Exec.get;
  if bool_decide (lastOBSStatus s = Some status) then mret tt
  else
    let previousStatus := lastOBSStatus s in
    Exec.modify (fun s => set_lastOBSStatus s (Some status));;
    lift (broadcastStatus env);;
    if bool_decide (status = RTMPServer.STREAMING)
       && negb (bool_decide (previousStatus = Some RTMPServer.STREAMING))
    then lift (logMessage env info "OBS stream started" None)
    else if (bool_decide (status = RTMPServer.IDLE)
             || bool_decide (status = RTMPServer.DISCONNECTED))
            && bool_decide (previousStatus = Some RTMPServer.STREAMING)
    then lift (logMessage env info "OBS stream stopped" None)
    else mret tt.

(** *** [activate], [deactivate], [destroy] *)

Definition activate (env : Env) : S unit :=
  s ← Exec.get;
  if negb (Lifecycle.canActivate (lifecycle (manager s))) then
    Exec.throw ("Cannot activate stream manager in state: "
                ++ Lifecycle.state_name (Lifecycle.state (lifecycle (manager s))))
  else
    lift (liftLifecycle Lifecycle.markActivating);;
    match rtmpServer env with
    | Some _ =>
        lift (modify (fun m => set_streamProvider m true));;
        Exec.modify (fun s =>
          set_eventListeners s
            (eventListeners s
             ++ [StreamingListener; DonePublishListener; StatusChangeListener])%list)
    | None => mret tt
    end;;
    lift (for_each (adapters env) (fun a =>
            modify (fun m => set_platformAdapters m
                               (<[platformName a := a]> (platformAdapters m)))));;
    lift startStatisticsBroadcast;;
    lift (liftLifecycle Lifecycle.markActive).

Definition deactivate : S unit :=
  s ← Exec.get;
  if negb (Lifecycle.canDeactivate (lifecycle (manager s))) then mret tt
  else
    lift (liftLifecycle Lifecycle.markDeactivating);;
    Exec.modify (fun s => set_eventListeners s []);;
    lift stopStream;;
    lift stopStatisticsBroadcast;;
    lift (m ← get;
          when (statisticsDebounceTimer m)
               (modify (fun m => set_statisticsDebounceTimer m false)));;
    lift (liftLifecycle Lifecycle.markDeactivated).

Definition destroy : S unit :=
  s ← Exec.get;
  if negb (Lifecycle.canDestroy (lifecycle (manager s))) then mret tt
  else
    lift (liftLifecycle Lifecycle.markDestroying);;
    lift stopStream;;
    lift (liftLifecycle Lifecycle.markDestroyed).

(** *** The supervisor together with the ingest it listens to *)

Record System : Type := mkSystem {
  ingest : Ingest.Ingest;
  supervisor : Supervisor
}.

(** The surroundings of a method call: what the caller's [env] says,
    with the ingest of the system as the registered stream provider. *)
Definition envAt (env : Env) (srv : RTMPServer.RTMPServer) : Env :=
  {| wsService := wsService env; rtmpServer := Some srv;
     adapters := adapters env; ffmpegCheck := ffmpegCheck env;
     installInstructions := installInstructions env; development := development env |}.

Definition envOf (env : Env) (i : Ingest.Ingest) : Env := envAt env (Ingest.server i).

(** [emit] on the ingest: the listeners attached for the event run, in
    the order of their registration. *)
Definition deliver (env : Env) (e : RTMPServer.effect) : S unit :=
  s ← Exec.get;
  Exec.for_each (eventListeners s) (fun l =>
    match l, e with
    | StreamingListener, RTMPServer.EmitStreaming _ => streamingListener env
    | DonePublishListener, RTMPServer.EmitDonePublish _ => donePublishListener env
    | StatusChangeListener, RTMPServer.EmitStatusChange status =>
        statusChangeListener env status
    | _, _ => mret tt
    end).

Inductive event : Type :=
| OfManager (ev : StreamManager.event)     (* methods and events of [StreamManager] *)
| Activate
| Deactivate
| Destroy
| StartStream
| StopStream
| OfIngest (ms : Ingest.MediaServer) (ev : Ingest.event).

(** A method of the supervisor, or an event of its children and
    timers. *)
Definition call (env : Env) (ev : event) : S unit :=
  match ev with
  | OfManager mev => lift (handle env mev)
  | Activate => activate env
  | Deactivate => deactivate
  | Destroy => destroy
  | StartStream => lift (startStream env);; mret tt
  | StopStream => lift stopStream
  | OfIngest _ _ => mret tt
  end.

(** One event: the system afterwards and what the supervisor sent.  In
    an event of the ingest the listeners run inside each [emit]: their
    status snapshots read the ingest as it is at that moment.  (The
    ingest does not read the supervisor, so that the event can be run
    on the ingest first.) *)
Definition step (env : Env) (ev : event) (sys : System) : System * list effect :=
  match ev with
  | OfIngest ms iev =>
      let '(_, i, heard) := Ingest.handle ms iev (ingest sys) in
      let '(_, s, effs) :=
        Exec.for_each heard (fun told => deliver (envAt env told.2) told.1)
                      (supervisor sys) in
      ({| ingest := i; supervisor := s |}, effs)
  | _ =>
      let '(_, s, effs) := call (envOf env (ingest sys)) ev (supervisor sys) in
      ({| ingest := ingest sys; supervisor := s |}, effs)
  end.

Fixpoint run (evs : list (Env * event)) (sys : System) : System * list effect :=
  match evs with
  | [] => (sys, [])
  | (env, ev) :: evs' =>
      let '(sys1, effs1) := step env ev sys in
      let '(sys2, effs2) := run evs' sys1 in
      (sys2, (effs1 ++ effs2)%list)
  end.

(** The system as [setupRegistry] leaves it: both modules initialised
    and activated, the supervisor configured. *)
Definition started (cfg : StreamManagerConfig) : System :=
  (run [(env0, OfIngest Ingest.cooperative Ingest.Initialize);
        (env0, OfManager Initialize);
        (env0, OfIngest Ingest.cooperative Ingest.Activate);
        (env0, Activate);
        (env0, OfManager (Configure cfg))]
       {| ingest := Ingest.new (RTMPServer.config RTMPServer.default_ingest);
          supervisor := new |}).1.

(** A system in which destination [a] was started on its own. *)
Definition a_started : System :=
  (run [(env0, OfManager (StartPlatformStream "a"))]
       (started (with_platforms [twitch "a" "X" true]))).1.

(** Two destinations, and a bulk start. *)
Definition all_started : System :=
  (run [(env0, StartStream)] (started two_twitch)).1.

(** The module shut down: deactivated, then destroyed. *)
Definition shutdown (s : Supervisor) : Supervisor := (destroy (deactivate s).1.2).1.2.

(** What the supervisor sends while shutting down. *)
Definition shutdown_effects (s : Supervisor) : list effect :=
  ((deactivate s).2 ++ (destroy (deactivate s).1.2).2)%list.

(** Session table and children as given, the bulk flag off. *)
Definition untouched (processes : gmap string nat) (spawned : list ChildProcess)
    (m : StreamManager) : Prop :=
  streaming m = false /\ ffmpegProcesses m = processes /\ children m = spawned.

(** The kill signals for the sessions of a table. *)
Definition kills (processes : gmap string nat) : list effect :=
  map (fun kv => Kill kv.2) (map_to_list processes).

(** What a bulk start may do: spawn a relay child for an enabled
    destination of the configuration, reading from [inputStream], or
    send a log entry. *)
Definition relays (inputStream : string) (cfg : StreamManagerConfig) (e : effect) : Prop :=
  match e with
  | Spawn _ args =>
      exists d, d ∈ platforms cfg /\ isEnabled d = true /\ args = ffmpegArgs inputStream d
  | BroadcastLog _ _ _ => True
  | _ => False
  end.

(** The effect spawns a child. *)
Definition is_spawn (e : effect) : bool :=
  match e with Spawn _ _ => true | _ => false end.

(** The effect is a kill signal. *)
Definition is_kill (e : effect) : bool :=
  match e with Kill _ => true | _ => false end.

(** The effect is a status snapshot. *)
Definition is_snapshot (e : effect) : bool :=
  match e with BroadcastStatus _ => true | _ => false end.

(** The effect is a log entry. *)
Definition is_log (e : effect) : bool :=
  match e with BroadcastLog _ _ _ => true | _ => false end.

(** The listeners are those of one activation, attached while the
    module is activating or active, or there are none. *)
Definition attached (s : Supervisor) : Prop :=
  eventListeners s = [] \/
  (eventListeners s = [StreamingListener; DonePublishListener; StatusChangeListener] /\
   Lifecycle.canDeactivate (lifecycle (manager s)) = true).

(** Both objects as constructed. *)
Definition fresh (cfg : RTMPServer.RTMPServerConfig) : System :=
  {| ingest := Ingest.new cfg; supervisor := new |}.

(** The ingest is restarted while a publish is under way, the
    supervisor listening: the hooks are then attached twice, and the
    second [deactivate] runs the [donePublish] hook twice for the one
    publish that [stop()] ends. *)
Definition restarted_on_air : System :=
  (run [(env0, OfIngest Ingest.cooperative Ingest.Initialize);
        (env0, OfManager Initialize);
        (env0, OfIngest Ingest.cooperative Ingest.Activate);
        (env0, Activate);
        (env0, OfIngest Ingest.cooperative Ingest.Deactivate);
        (env0, OfIngest Ingest.cooperative Ingest.Activate);
        (env0, OfIngest Ingest.cooperative (Ingest.PrePublish "c1" "/live/obs"));
        (env0, OfIngest Ingest.cooperative (Ingest.PrePublish "c1" "/live/obs"));
        (env0, OfIngest Ingest.cooperative (Ingest.PostPublish "c1" "/live/obs"));
        (env0, OfIngest Ingest.cooperative (Ingest.PostPublish "c1" "/live/obs"))]
       (fresh (RTMPServer.config RTMPServer.default_ingest))).1.

End Supervisor.

(* ================================================================= *)
(** ** ModuleRegistry.ts: registration and resolution

    The registry that [main.ts] fills and from which the supervisor
    resolves the ingest, the adapters and the WebSocket service.  A
    module object is known by the registration it was made for and a
    serial number, its identity: a factory, as those of [main.ts], makes
    a new object at each call, or throws; it does not call the registry
    back.  The calls of factories and the warnings are the effects. *)

Module Registry.
Import Exec.

Record IModule : Type := mkModule {
  of_module : string;
  serial : nat
}.

#[global] Instance IModule_eq_dec : EqDecision IModule.
Proof. solve_decision. Defined.

Record ModuleRegistration : Type := mkRegistration {
  name : string;
  factoryThrows : option string;     (* the message, if the factory throws *)
  dependencies : list string;
  reg_exports : list string;
  singleton : bool;
  instance : option IModule
}.

(** [modules] is a [Map] walked by [resolveAll]: the entries are kept
    in insertion order. *)
Record ModuleRegistry : Type := mkRegistry {
  modules : list (string * ModuleRegistration);
  exports : gmap string (list string);
  resolutionCache : gmap string IModule;
  resolveAllCache : gmap string (list IModule);
  constructed : nat                  (* objects made so far *)
}.

Definition new : ModuleRegistry :=
  {| modules := []; exports := ∅; resolutionCache := ∅; resolveAllCache := ∅;
     constructed := 0 |}.

Inductive effect : Type :=
| FactoryCall (moduleName : string)  (* [registration.factory()] *)
| Warn (moduleName : string).        (* [console.warn] of [resolveAll] *)

Definition M (A : Type) : Type := Eff ModuleRegistry effect A.

(** [this.modules.get(name)] *)
Fixpoint get_module (name : string) (l : list (string * ModuleRegistration))
  : option ModuleRegistration :=
  match l with
  | [] => None
  | (k, registration) :: rest =>
      if String.eqb name k then Some registration else get_module name rest
  end.

Definition with_instance (registration : ModuleRegistration) (i : IModule)
  : ModuleRegistration :=
  {| name := name registration; factoryThrows := factoryThrows registration;
     dependencies := dependencies registration; reg_exports := reg_exports registration;
     singleton := singleton registration; instance := Some i |}.

(** [registration.instance = i], on the registration object held by
    the map under [name]. *)
Fixpoint set_instance (name : string) (i : IModule) (l : list (string * ModuleRegistration))
  : list (string * ModuleRegistration) :=
  match l with
  | [] => []
  | (k, registration) :: rest =>
      if String.eqb name k then (k, with_instance registration i) :: rest
      else (k, registration) :: set_instance name i rest
  end.

Definition set_modules (r : ModuleRegistry) (v : list (string * ModuleRegistration))
  : ModuleRegistry :=
  {| modules := v; exports := exports r; resolutionCache := resolutionCache r;
     resolveAllCache := resolveAllCache r; constructed := constructed r |}.

Definition set_resolutionCache (r : ModuleRegistry) (v : gmap string IModule)
  : ModuleRegistry :=
  {| modules := modules r; exports := exports r; resolutionCache := v;
     resolveAllCache := resolveAllCache r; constructed := constructed r |}.

Definition set_resolveAllCache (r : ModuleRegistry) (v : gmap string (list IModule))
  : ModuleRegistry :=
  {| modules := modules r; exports := exports r; resolutionCache := resolutionCache r;
     resolveAllCache := v; constructed := constructed r |}.

Definition set_constructed (r : ModuleRegistry) (v : nat) : ModuleRegistry :=
  {| modules := modules r; exports := exports r; resolutionCache := resolutionCache r;
     resolveAllCache := resolveAllCache r; constructed := v |}.

(** [registration.factory()] *)
Definition callFactory (registration : ModuleRegistration) : M IModule :=
  perform (FactoryCall (name registration));;
  match factoryThrows registration with
  | Some msg => throw msg
  | None =>
      r ← get;
      modify (fun r => set_constructed r (S (constructed r)));;
      mret {| of_module := name registration; serial := constructed r |}
  end.

(** The block shared by [resolve] and [resolveAll]: the instance of a
    registration, made if need be. *)
Definition instantiate (registration : ModuleRegistration) : M IModule :=
  if singleton registration then
    match instance registration with
    | Some i => mret i
    | None =>
        i ← callFactory registration;
        modify (fun r => set_modules r (set_instance (name registration) i (modules r)));;
        mret i
    end
  else callFactory registration.

(** [register(name, factory, dependencies, exports, singleton)] *)
Definition addExport (name exportName : string) (ex : gmap string (list string))
  : gmap string (list string) :=
  let moduleList := default [] (ex !! exportName) in
  <[exportName := if bool_decide (name ∈ moduleList) then moduleList
                  else (moduleList ++ [name])%list]> ex.

Definition register (name : string) (factoryThrows : option string)
    (dependencies exports_ : list string) (singleton : bool) : M unit :=
  r ← get;
  if is_Some_bool (get_module name (modules r)) then
    throw ("Module " ++ name ++ " is already registered")
  else
    modify (fun r =>
      {| modules :=
           (modules r ++ [(name, {| name := name; factoryThrows := factoryThrows;
                                    dependencies := dependencies; reg_exports := exports_;
                                    singleton := singleton; instance := None |})])%list;
         exports := fold_left (fun ex exportName => addExport name exportName ex)
                              exports_ (exports r);
         resolutionCache := ∅; resolveAllCache := ∅; constructed := constructed r |}).

(** The loop of [resolve] over the exporters of an interface: the
    first that is a singleton with an instance, else the first. *)
Definition preferred (r : ModuleRegistry) (exportedModules : list string) (first : string)
  : string :=
  match List.find (fun modName =>
                     match get_module modName (modules r) with
                     | Some registration =>
                         singleton registration && is_Some_bool (instance registration)
                     | None => false
                     end) exportedModules with
  | Some modName => modName
  | None => first
  end.

Definition cacheResolution (name : string) (i : IModule) : M unit :=
  modify (fun r => set_resolutionCache r (<[name := i]> (resolutionCache r))).

(** The second half of [resolve]: [name] as a module name. *)
Definition resolveModule (name : string) : M IModule :=
  r ← get;
  match get_module name (modules r) with
  | None => throw ("Module " ++ name ++ " not found")
  | Some registration =>
      i ← instantiate registration;
      cacheResolution name i;;
      mret i
  end.

(** [resolve(name)] *)
Definition resolve (name : string) : M IModule :=
  r ← get;
  match resolutionCache r !! name with
  | Some i => mret i
  | None =>
      match exports r !! name with
      | Some (first :: rest) =>
          match get_module (preferred r (first :: rest) first) (modules r) with
          | Some registration =>
              i ← instantiate registration;
              cacheResolution name i;;
              mret i
          | None => resolveModule name
          end
      | _ => resolveModule name
      end
  end.

(** The loops of [resolveAll]: a module whose factory throws is left
    out, with a warning. *)
Fixpoint collect (moduleNames : list string) : M (list IModule) :=
  match moduleNames with
  | [] => mret []
  | moduleName :: rest =>
      r ← get;
      here ←
        match get_module moduleName (modules r) with
        | None => mret []
        | Some registration =>
            try_catch (i ← instantiate registration; mret [i])
                      (fun _ => perform (Warn moduleName);; mret [])
        end;
      there ← collect rest;
      mret (here ++ there)%list
  end.

(** [resolveAll(interfaceName?)]; [None] is a call without argument. *)
Definition resolveAll (interfaceName : option string) : M (list IModule) :=
  r ← get;
  let given := match interfaceName with
               | Some s => if JsString.truthy s then Some s else None
               | None => None
               end in
  let cacheKey := match given with Some s => s | None => "__all__" end in
  match resolveAllCache r !! cacheKey with
  | Some instances => mret instances
  | None =>
      instances ←
        collect (match given with
                 | Some s => default [] (exports r !! s)
                 | None => (modules r).*1
                 end);
      modify (fun r => set_resolveAllCache r (<[cacheKey := instances]> (resolveAllCache r)));;
      mret instances
  end.

(** [has(name)] *)
Definition has (name : string) (r : ModuleRegistry) : bool :=
  is_Some_bool (get_module name (modules r))
  || match exports r !! name with
     | Some moduleList => negb (bool_decide (moduleList = []))
     | None => false
     end.

(** *** Runs *)

Inductive call : Type :=
| Register (name : string) (factoryThrows : option string)
           (dependencies exports_ : list string) (singleton : bool)
| Resolve (name : string)
| ResolveAll (interfaceName : option string).

Definition handle (c : call) : M unit :=
  match c with
  | Register name factoryThrows dependencies exports_ singleton =>
      register name factoryThrows dependencies exports_ singleton
  | Resolve name => resolve name;; mret tt
  | ResolveAll interfaceName => resolveAll interfaceName;; mret tt
  end.

(** A run: the callers catch the exceptions. *)
Fixpoint run (calls : list call) (r : ModuleRegistry) : ModuleRegistry * list effect :=
  match calls with
  | [] => (r, [])
  | c :: calls' =>
      let '(_, r1, effs1) := handle c r in
      let '(r2, effs2) := run calls' r1 in
      (r2, (effs1 ++ effs2)%list)
  end.

Definition is_register (c : call) : bool :=
  match c with Register _ _ _ _ _ => true | _ => false end.

(** Every name in an export list is a registered module, and every
    cached name is one that [has] reports. *)
Definition consistent (r : ModuleRegistry) : Prop :=
  (forall exportName moduleList moduleName,
      exports r !! exportName = Some moduleList -> moduleName ∈ moduleList ->
      is_Some (get_module moduleName (modules r))) /\
  (forall name i, resolutionCache r !! name = Some i -> has name r = true).

(** How often the factory of module [moduleName] was called. *)
Definition factoryCalls (moduleName : string) (effs : list effect) : nat :=
  length (List.filter (fun e => match e with
                                | FactoryCall m => String.eqb m moduleName
                                | Warn _ => false
                                end) effs).

(** Every registration is filed under its own name, and an instance it
    holds is one of its module, made by a factory that does not
    throw. *)
Definition filed (r : ModuleRegistry) : Prop :=
  forall k registration,
    get_module k (modules r) = Some registration ->
    name registration = k /\
    forall i, instance registration = Some i ->
              of_module i = k /\ factoryThrows registration = None.

(** From [r] to [r'], with [k] calls of the factory of [moduleName]:
    the module stays unregistered and its factory is not called; or it
    stays registered with the same flags, and if it is a singleton
    whose factory does not throw, its instance is kept without a call,
    or made by exactly one call. *)
Definition advances (moduleName : string) (r r' : ModuleRegistry) (k : nat) : Prop :=
  match get_module moduleName (modules r) with
  | None => k = 0%nat /\ get_module moduleName (modules r') = None
  | Some registration =>
      exists registration',
        get_module moduleName (modules r') = Some registration' /\
        singleton registration' = singleton registration /\
        factoryThrows registration' = factoryThrows registration /\
        (singleton registration = true -> factoryThrows registration = None ->
         match instance registration with
         | Some i => k = 0%nat /\ instance registration' = Some i
         | None => (k = 0%nat /\ instance registration' = None) \/
                   (k = 1%nat /\ is_Some (instance registration'))
         end)
  end.

(** The call [c], made on [r], keeps the table filed and advances it. *)
Definition tracks {A} (moduleName : string) (c : M A) (r : ModuleRegistry) : Prop :=
  filed r ->
  filed (c r).1.2 /\ advances moduleName r (c r).1.2 (factoryCalls moduleName (c r).2).

(** The table is filed, and a singleton whose factory does not throw
    has an instance exactly if its factory was called, once. *)
Definition accounted (moduleName : string) (r : ModuleRegistry) (k : nat) : Prop :=
  filed r /\
  match get_module moduleName (modules r) with
  | None => k = 0%nat
  | Some registration =>
      singleton registration = true -> factoryThrows registration = None ->
      k = match instance registration with Some _ => 1%nat | None => 0%nat end
  end.

(** The registrations of [setupRegistry] in [main.ts], the ingest
    being enabled. *)
Definition setup : list call :=
  [Register "rtmp_server" None [] ["IStreamProvider"] true;
   Register "youtube_adapter" None [] ["IPlatformAdapter"] true;
   Register "twitch_adapter" None [] ["IPlatformAdapter"] true;
   Register "facebook_adapter" None [] ["IPlatformAdapter"] true;
   Register "kick_adapter" None [] ["IPlatformAdapter"] true;
   Register "websocket_service" None [] ["IWebSocketService"] true;
   Register "stream_manager" None ["rtmp_server"] ["StreamManager"] true].

(** The calls of a start as [main.ts] makes it: the registrations,
    then the resolutions of [StreamManager.activate], [initializeAll]
    and [activateAll], with a resolution by module name. *)
Definition startup : list call :=
  (setup ++ [Resolve "IStreamProvider"; ResolveAll (Some "IPlatformAdapter");
             ResolveAll None; Resolve "rtmp_server"; ResolveAll None])%list.

(** The module table reduced to names and factories, in the order of
    the [Map]. *)
Definition table (r : ModuleRegistry) : list (string * option string) :=
  map (fun kv => (kv.1, factoryThrows kv.2)) (modules r).

(** The names of a table whose factories do not throw. *)
Definition constructible (t : list (string * option string)) : list string :=
  map fst (List.filter (fun kv => negb (is_Some_bool kv.2)) t).

(** The registrations of a list of calls that take effect, in call
    order: the first of each name. *)
Fixpoint registered (calls : list call) (seen : list (string * option string))
  : list (string * option string) :=
  match calls with
  | [] => seen
  | Register name factoryThrows _ _ _ :: rest =>
      registered rest (if existsb (String.eqb name) seen.*1 then seen
                       else (seen ++ [(name, factoryThrows)])%list)
  | _ :: rest => registered rest seen
  end.

(** The call is not [resolveAll('__all__')]. *)
Definition plain (c : call) : bool :=
  match c with
  | ResolveAll (Some s) => negb (String.eqb s "__all__")
  | _ => true
  end.

(** The table is filed and is [seen], no name is registered twice, and
    a cached answer of [resolveAll()] lists the constructible modules
    in table order. *)
Definition ordered (seen : list (string * option string)) (r : ModuleRegistry) : Prop :=
  filed r /\ table r = seen /\ NoDup seen.*1 /\
  forall instances, resolveAllCache r !! "__all__" = Some instances ->
                    map of_module instances = constructible seen.

(** A registry with one module registered as not a singleton. *)
Definition with_transient : ModuleRegistry :=
  (run [Register "probe" None [] ["IProbe"] false] new).1.

End Registry.

(* ================================================================= *)
(** ** WebSocketService.ts: the broadcast queue

    The service to which the supervisor hands its status snapshots,
    log entries and statistics envelopes.  A message carries its type,
    its payload (as text) and possibly a timestamp.  The sockets are
    outside the sources: of each, what matters is whether it is OPEN
    and whether [send] throws.  Timers are events: the 50 ms timeout
    of the queue, and the callbacks handed to [setImmediate].  The
    handler of client messages is not modelled. *)

Module WebSocketService.
Import Exec.

Record WebSocketMessage : Type := mkMessage {
  msg_type : string;
  msg_data : string;
  msg_timestamp : option Z
}.

Record Socket : Type := mkSocket {
  isOpen : bool;                     (* [readyState === WebSocket.OPEN] *)
  sendThrows : option string         (* the message, if [send] throws *)
}.

Record WebSocketService : Type := mkService {
  lifecycle : Lifecycle.ModuleLifecycle;
  wss : bool;                        (* non-null *)
  clients : list (string * Socket);  (* a [Map], in insertion order *)
  clientCounter : Z;
  messageQueue : list WebSocketMessage;
  isProcessingQueue : bool;
  queueTimer : bool;                 (* the timeout is pending *)
  immediates : nat                   (* callbacks of [setImmediate] pending *)
}.

(** [new WebSocketService(registry, httpServer)] *)
Definition new : WebSocketService :=
  {| lifecycle := Lifecycle.new "websocket_service"; wss := false; clients := [];
     clientCounter := 0; messageQueue := []; isProcessingQueue := false;
     queueTimer := false; immediates := 0%nat |}.

Inductive effect : Type :=
| Send (clientId : string) (message : WebSocketMessage)   (* [ws.send(JSON.stringify(..))] *)
| Close (clientId : string)                               (* [ws.close(1000, ..)] *)
| EmitMessageBroadcast (message : WebSocketMessage) (sentCount : nat)
| EmitClientConnected (clientId : string)
| EmitClientDisconnected (clientId : string).

Definition M (A : Type) : Type := Eff WebSocketService effect A.

Definition set_lifecycle (s : WebSocketService) (v : Lifecycle.ModuleLifecycle)
  : WebSocketService :=
  {| lifecycle := v; wss := wss s; clients := clients s; clientCounter := clientCounter s;
     messageQueue := messageQueue s; isProcessingQueue := isProcessingQueue s;
     queueTimer := queueTimer s; immediates := immediates s |}.

Definition set_wss (s : WebSocketService) (v : bool) : WebSocketService :=
  {| lifecycle := lifecycle s; wss := v; clients := clients s;
     clientCounter := clientCounter s; messageQueue := messageQueue s;
     isProcessingQueue := isProcessingQueue s; queueTimer := queueTimer s;
     immediates := immediates s |}.

Definition set_clients (s : WebSocketService) (v : list (string * Socket))
  : WebSocketService :=
  {| lifecycle := lifecycle s; wss := wss s; clients := v; clientCounter := clientCounter s;
     messageQueue := messageQueue s; isProcessingQueue := isProcessingQueue s;
     queueTimer := queueTimer s; immediates := immediates s |}.

Definition set_clientCounter (s : WebSocketService) (v : Z) : WebSocketService :=
  {| lifecycle := lifecycle s; wss := wss s; clients := clients s; clientCounter := v;
     messageQueue := messageQueue s; isProcessingQueue := isProcessingQueue s;
     queueTimer := queueTimer s; immediates := immediates s |}.

Definition set_messageQueue (s : WebSocketService) (v : list WebSocketMessage)
  : WebSocketService :=
  {| lifecycle := lifecycle s; wss := wss s; clients := clients s;
     clientCounter := clientCounter s; messageQueue := v;
     isProcessingQueue := isProcessingQueue s; queueTimer := queueTimer s;
     immediates := immediates s |}.

Definition set_isProcessingQueue (s : WebSocketService) (v : bool) : WebSocketService :=
  {| lifecycle := lifecycle s; wss := wss s; clients := clients s;
     clientCounter := clientCounter s; messageQueue := messageQueue s;
     isProcessingQueue := v; queueTimer := queueTimer s; immediates := immediates s |}.

Definition set_queueTimer (s : WebSocketService) (v : bool) : WebSocketService :=
  {| lifecycle := lifecycle s; wss := wss s; clients := clients s;
     clientCounter := clientCounter s; messageQueue := messageQueue s;
     isProcessingQueue := isProcessingQueue s; queueTimer := v; immediates := immediates s |}.

Definition set_immediates (s : WebSocketService) (v : nat) : WebSocketService :=
  {| lifecycle := lifecycle s; wss := wss s; clients := clients s;
     clientCounter := clientCounter s; messageQueue := messageQueue s;
     isProcessingQueue := isProcessingQueue s; queueTimer := queueTimer s; immediates := v |}.

(** [this.lifecycle.markX()] *)
Definition mark (f : Lifecycle.ModuleLifecycle -> Lifecycle.effect) : M unit :=
  fun s =>
    match f (lifecycle s) with
    | (l, None) => (Ok tt, set_lifecycle s l, [])
    | (l, Some e) => (Throw e, set_lifecycle s l, [])
    end.

(** [{...message, timestamp: message.timestamp || Date.now()}] *)
Definition stamped (now : Z) (message : WebSocketMessage) : WebSocketMessage :=
  {| msg_type := msg_type message; msg_data := msg_data message;
     msg_timestamp := Some match msg_timestamp message with
                           | Some t => if (t =? 0)%Z then now else t
                           | None => now
                           end |}.

(** [this.clients.set(clientId, ws)]: a key that is present keeps its
    place. *)
Definition with_client (clientId : string) (ws : Socket) (l : list (string * Socket))
  : list (string * Socket) :=
  if existsb (fun kv => String.eqb kv.1 clientId) l
  then map (fun kv => if String.eqb kv.1 clientId then (kv.1, ws) else kv) l
  else (l ++ [(clientId, ws)])%list.

(** [this.clients.delete(clientId)] *)
Definition without_client (clientId : string) (l : list (string * Socket))
  : list (string * Socket) :=
  List.filter (fun kv => negb (String.eqb kv.1 clientId)) l.

(** The loop of the timeout over the clients, for one message: a
    client whose [send] throws is deleted.  The result is
    [sentCount]. *)
Fixpoint sendToAll (messageStr : WebSocketMessage) (entries : list (string * Socket))
  : M nat :=
  match entries with
  | [] => mret 0%nat
  | (clientId, ws) :: rest =>
      here ←
        (if isOpen ws then
           match sendThrows ws with
           | Some _ =>
               modify (fun s => set_clients s (without_client clientId (clients s)));;
               mret 0%nat
           | None => perform (Send clientId messageStr);; mret 1%nat
           end
         else mret 0%nat);
      there ← sendToAll messageStr rest;
      mret (here + there)%nat
  end.

(** The body of the timeout's loop over the batch. *)
Definition broadcastOne (now : Z) (message : WebSocketMessage) : M unit :=
  s ← get;
  sentCount ← sendToAll (stamped now message) (clients s);
  when (0 <? sentCount)%nat (perform (EmitMessageBroadcast message sentCount)).

(** [processQueue()]: arm the timeout, clearing one that is pending. *)
Definition processQueue : M unit :=
  s ← get;
  if isProcessingQueue s || bool_decide (messageQueue s = []) then mret tt
  else modify (fun s => set_queueTimer s true).

(** [broadcast(message)] *)
Definition broadcast (message : WebSocketMessage) : M unit :=
  s ← get;
  if negb (wss s) then mret tt
  else
    modify (fun s => set_messageQueue s (messageQueue s ++ [message])%list);;
    processQueue.

Definition broadcastStatistics (statistics : string) : M unit :=
  broadcast {| msg_type := "statistics"; msg_data := statistics; msg_timestamp := None |}.

Definition broadcastLog (log : string) : M unit :=
  broadcast {| msg_type := "log"; msg_data := log; msg_timestamp := None |}.

Definition broadcastStatus (status : string) : M unit :=
  broadcast {| msg_type := "status"; msg_data := status; msg_timestamp := None |}.

(** The callback of the 50 ms timeout; [now] is what [Date.now()]
    returns while it runs. *)
Definition onQueueTimeout (now : Z) : M unit :=
  modify (fun s => set_isProcessingQueue s true);;
  s ← get;
  modify (fun s => set_messageQueue s (drop 10 (messageQueue s)));;
  for_each (take 10 (messageQueue s)) (broadcastOne now);;
  modify (fun s => set_isProcessingQueue s false);;
  modify (fun s => set_queueTimer s false);;
  s ← get;
  when (negb (bool_decide (messageQueue s = [])))
       (modify (fun s => set_immediates s (S (immediates s)))).

(** A callback handed to [setImmediate] runs. *)
Definition onImmediate : M unit :=
  modify (fun s => set_immediates s (pred (immediates s)));;
  processQueue.

(** [sendToClient(clientId, message)] *)
Definition sendToClient (now : Z) (clientId : string) (message : WebSocketMessage) : M unit :=
  s ← get;
  match List.find (fun kv => String.eqb kv.1 clientId) (clients s) with
  | Some (_, ws) =>
      if negb (isOpen ws) then mret tt
      else
        match sendThrows ws with
        | Some _ => modify (fun s => set_clients s (without_client clientId (clients s)))
        | None => perform (Send clientId (stamped now message))
        end
  | None => mret tt
  end.

Definition initialize : M unit :=
  s ← get;
  if negb (Lifecycle.canInitialize (lifecycle s)) then mret tt
  else
    mark Lifecycle.markInitializing;;
    mark Lifecycle.markInitialized.

(** [activate()]; [serverThrows] is the message of the exception of
    [new WebSocketServer], if it throws.  The HTTP server is the one
    [main.ts] passes in. *)
Definition activate (serverThrows : option string) : M unit :=
  s ← get;
  if negb (Lifecycle.canActivate (lifecycle s)) then mret tt
  else
    mark Lifecycle.markActivating;;
    try_catch
      (match serverThrows with
       | Some msg => throw msg
       | None => modify (fun s => set_wss s true)
       end;;
       mark Lifecycle.markActive)
      (fun e => mark Lifecycle.markError;; rethrow e).

(** The flush of [deactivate]: every open client is sent the message;
    an exception of [send] is logged. *)
Definition flushOne (now : Z) (message : WebSocketMessage) : M unit :=
  s ← get;
  for_each (clients s) (fun kv =>
    when (isOpen kv.2 && negb (is_Some_bool (sendThrows kv.2)))
         (perform (Send kv.1 (stamped now message)))).

Definition deactivate (now : Z) : M unit :=
  s ← get;
  if negb (Lifecycle.canDeactivate (lifecycle s)) then mret tt
  else
    mark Lifecycle.markDeactivating;;
    modify (fun s => set_queueTimer s false);;
    s ← get;
    when (negb (bool_decide (messageQueue s = [])))
         (modify (fun s => set_isProcessingQueue s true);;
          modify (fun s => set_messageQueue s []);;
          for_each (messageQueue s) (flushOne now);;
          modify (fun s => set_isProcessingQueue s false));;
    s ← get;
    for_each (clients s) (fun kv => perform (Close kv.1));;
    modify (fun s => set_clients s []);;
    modify (fun s => set_wss s false);;
    mark Lifecycle.markDeactivated.

Definition destroy (now : Z) : M unit :=
  s ← get;
  if negb (Lifecycle.canDestroy (lifecycle s)) then mret tt
  else
    mark Lifecycle.markDestroying;;
    deactivate now;;
    mark Lifecycle.markDestroyed.

(** [`client_${++this.clientCounter}_${Date.now()}`] *)
Definition nextClientId (now : Z) (s : WebSocketService) : string :=
  "client_" ++ pretty (clientCounter s + 1)%Z ++ "_" ++ pretty now.

(** The welcome message; its payload holds the id and the time. *)
Definition welcome (clientId : string) (now : Z) : WebSocketMessage :=
  {| msg_type := "connected";
     msg_data := "{clientId: " ++ clientId ++ ", timestamp: " ++ pretty now ++ "}";
     msg_timestamp := None |}.

(** The [connection] handler of the server: the client is given an id
    and kept, and is sent the welcome message; an exception of that
    [send] leaves the handler. *)
Definition onConnection (now : Z) (ws : Socket) : M unit :=
  s ← get;
  let clientId := nextClientId now s in
  modify (fun s => set_clientCounter s (clientCounter s + 1));;
  modify (fun s => set_clients s (with_client clientId ws (clients s)));;
  match sendThrows ws with
  | Some msg => throw msg
  | None => perform (Send clientId (welcome clientId now))
  end;;
  perform (EmitClientConnected clientId).

(** The [close] and the [error] handler of a client. *)
Definition onClientClose (clientId : string) : M unit :=
  modify (fun s => set_clients s (without_client clientId (clients s)));;
  perform (EmitClientDisconnected clientId).

Definition onClientError (clientId : string) : M unit :=
  modify (fun s => set_clients s (without_client clientId (clients s))).

(** The network changes the state of a client's socket. *)
Definition onSocketChange (clientId : string) (ws : Socket) : M unit :=
  modify (fun s => set_clients s
            (map (fun kv => if String.eqb kv.1 clientId then (kv.1, ws) else kv) (clients s))).

(** *** Runs *)

Inductive event : Type :=
| Initialize
| Activate (serverThrows : option string)
| Deactivate (now : Z)
| Destroy (now : Z)
| Broadcast (message : WebSocketMessage)
| SendToClient (now : Z) (clientId : string) (message : WebSocketMessage)
| QueueTimeout (now : Z)
| Immediate
| Connection (now : Z) (ws : Socket)
| ClientClose (clientId : string)
| ClientError (clientId : string)
| SocketChange (clientId : string) (ws : Socket).

(** The timeout fires only while it is pending, a callback of
    [setImmediate] runs only if one is pending, and connections arrive
    only while the server exists. *)
Definition handle (ev : event) : M unit :=
  match ev with
  | Initialize => initialize
  | Activate serverThrows => activate serverThrows
  | Deactivate now => deactivate now
  | Destroy now => destroy now
  | Broadcast message => broadcast message
  | SendToClient now clientId message => sendToClient now clientId message
  | QueueTimeout now => s ← get; when (queueTimer s) (onQueueTimeout now)
  | Immediate => s ← get; when (bool_decide (immediates s <> 0%nat)) onImmediate
  | Connection now ws => s ← get; when (wss s) (onConnection now ws)
  | ClientClose clientId => onClientClose clientId
  | ClientError clientId => onClientError clientId
  | SocketChange clientId ws => onSocketChange clientId ws
  end.

Definition step (ev : event) (s : WebSocketService) : WebSocketService * list effect :=
  let '(_, s', effs) := handle ev s in (s', effs).

Fixpoint run (evs : list event) (s : WebSocketService) : WebSocketService * list effect :=
  match evs with
  | [] => (s, [])
  | ev :: evs' =>
      let '(s1, effs1) := step ev s in
      let '(s2, effs2) := run evs' s1 in
      (s2, (effs1 ++ effs2)%list)
  end.

(** *** Vocabulary of the statements *)

(** The messages that the calls of [broadcast] in a run put on the
    queue: those made while the server exists. *)
Fixpoint accepted (evs : list event) (s : WebSocketService) : list WebSocketMessage :=
  match evs with
  | [] => []
  | ev :: evs' =>
      (match ev with
       | Broadcast message => if wss s then [message] else []
       | _ => []
       end ++ accepted evs' (step ev s).1)%list
  end.

(** Type and payload of a message: what is left when the timestamp is
    set aside. *)
Definition content (message : WebSocketMessage) : string * string :=
  (msg_type message, msg_data message).

(** What client [clientId] is sent, in order. *)
Definition sent_to (clientId : string) (effs : list effect) : list (string * string) :=
  omap (fun e => match e with
                 | Send c message => if String.eqb c clientId then Some (content message)
                                     else None
                 | _ => None
                 end) effs.

(** Client [clientId] is connected, its socket open, its [send] not
    throwing. *)
Definition receiving (clientId : string) (s : WebSocketService) : Prop :=
  exists ws, List.filter (fun kv => String.eqb kv.1 clientId) (clients s) = [(clientId, ws)] /\
             isOpen ws = true /\ sendThrows ws = None.

(** Between two events, with client [clientId] receiving and [queue]
    waiting. *)
Definition holding (clientId : string) (queue : list WebSocketMessage)
    (s : WebSocketService) : Prop :=
  receiving clientId s /\ isProcessingQueue s = false /\ messageQueue s = queue.

(** The effect sends nothing to client [clientId]. *)
Definition not_to (clientId : string) (e : effect) : Prop := sent_to clientId [e] = [].

(** The event does not concern client [clientId] and is not a
    shutdown: it is not [deactivate], nothing is sent to the client
    alone, its socket does not change, and a new connection gets
    another id. *)
Definition spares (clientId : string) (ev : event) (s : WebSocketService) : Prop :=
  match ev with
  | Deactivate _ => False
  | SendToClient _ c _ | ClientClose c | ClientError c | SocketChange c _ => c <> clientId
  | Connection now _ => nextClientId now s <> clientId
  | _ => True
  end.

Fixpoint undisturbed (clientId : string) (evs : list event) (s : WebSocketService) : Prop :=
  match evs with
  | [] => True
  | ev :: evs' => spares clientId ev s /\ undisturbed clientId evs' (step ev s).1
  end.

(** The entries of client [clientId] in a client table. *)
Definition entries_of (clientId : string) (l : list (string * Socket))
  : list (string * Socket) :=
  List.filter (fun kv => String.eqb kv.1 clientId) l.

(** Between two events: nothing is being processed, messages wait
    only while there is a server and while the timeout or a callback
    of [setImmediate] is pending, and no client id is held twice. *)
Definition settled (s : WebSocketService) : Prop :=
  isProcessingQueue s = false /\
  (messageQueue s <> [] -> queueTimer s = true \/ immediates s <> 0%nat) /\
  (wss s = false -> messageQueue s = []) /\
  (forall clientId, length (entries_of clientId (clients s)) <= 1).

(** [s'] differs from [s] at most in that clients were deleted. *)
Definition shrunk (s s' : WebSocketService) : Prop :=
  lifecycle s' = lifecycle s /\ wss s' = wss s /\ clientCounter s' = clientCounter s /\
  messageQueue s' = messageQueue s /\ isProcessingQueue s' = isProcessingQueue s /\
  queueTimer s' = queueTimer s /\ immediates s' = immediates s /\
  (forall clientId,
      length (entries_of clientId (clients s')) <= length (entries_of clientId (clients s))).

(** The service as [setupRegistry] leaves it, with one client. *)
Definition serving : WebSocketService :=
  (run [Initialize; Activate None;
        Connection 1700000000000 {| isOpen := true; sendThrows := None |}] new).1.

(** Twelve status messages. *)
Definition twelve : list event :=
  map (fun n => Broadcast {| msg_type := "status"; msg_data := pretty n;
                             msg_timestamp := None |})
      (seq 1 12).

(** The effect is a [send]. *)
Definition is_send (e : effect) : bool :=
  match e with Send _ _ => true | _ => false end.

(** The service with one client and twelve messages waiting. *)
Definition backlog : WebSocketService := (run twelve serving).1.

End WebSocketService.

(* ================================================================= *)
(** ** Config.ts: vocabulary of the statements on edge cases *)

Module ConfigEdge.
Import JsValue Config.

(** What [statSync] and [readFileSync] find gives no settings: there
    is no file, or it does not parse, or the parsed document has no
    properties (an empty file parses to [null]). *)
Definition without_settings (found : option File) : Prop :=
  match found with
  | None => True
  | Some f =>
      match content f with
      | Unparsable _ => True
      | Yaml doc => spread doc = []
      end
  end.

(** [fileMtime] *)
Definition mtime_of (found : option File) : Z :=
  match found with Some f => mtimeMs f | None => 0%Z end.

(** A world with a configuration file that does not parse. *)
Definition broken_world : World :=
  set_files empty_world
    {[ "/srv/streamhub/config.yaml" :=
         {| content := Unparsable "stream_manager: [unclosed"; mtimeMs := 1699999999000 |} ]}.

(** A fresh process started with [UI_PORT] set, and a configuration
    file that names port 8080. *)
Definition port_world (UI_PORT : string) : World :=
  {| files := {[ "/srv/streamhub/config.yaml" :=
                   {| content := Yaml (JObj [("ui", JObj [("port", JNum 8080)])]);
                      mtimeMs := 1699999999000 |} ]};
     unwritable := []; configCache := None; globalConfigPath := None;
     now := 1700000000000; cwd := "/srv/streamhub";
     env := {| OBS_HOST := None; OBS_PORT := None; OBS_PASSWORD := None; UI_HOST := None;
               UI_PORT := Some UI_PORT; UI_DEBUG := None; CONFIG_PATH := None |} |}.

(** The process of [port_world "9000"] half a second after its first
    [loadConfig]: the file is gone, the working directory and
    [UI_PORT] have changed. *)
Definition moved_world : World :=
  {| files := ∅; unwritable := [];
     configCache := configCache (loadConfig (port_world "9000") None).2;
     globalConfigPath := None;
     now := 1700000000500; cwd := "/tmp";
     env := {| OBS_HOST := None; OBS_PORT := None; OBS_PASSWORD := None; UI_HOST := None;
               UI_PORT := Some "7000"; UI_DEBUG := None; CONFIG_PATH := None |} |}.

End ConfigEdge.

(* ================================================================= *)
(** ** Sessions and their children: vocabulary of the statements *)

Module Sessions.
Import Relay StreamManager.

(** The event comes from child [h]. *)
Definition of_child (h : nat) (ev : event) : bool :=
  match ev with
  | StdoutData h' _ | StderrData h' _ | ChildError h' _ | ChildClose h' _ => Nat.eqb h h'
  | _ => false
  end.

(** The event is the [error] or the [close] of child [h]. *)
Definition ends_child (h : nat) (ev : event) : bool :=
  match ev with
  | ChildError h' _ | ChildClose h' _ => Nat.eqb h h'
  | _ => false
  end.

(** Child [h] exists, and its handlers are detached. *)
Definition detached (h : nat) (m : StreamManager) : Prop :=
  exists c, children m !! h = Some c /\ listening c = false.

(** The session tables: what [getStatus] and the statistics envelopes
    are computed from. *)
Definition tables (m : StreamManager)
  : gmap string nat * gmap string StreamState * gmap string ParsedStatistics * list string :=
  (ffmpegProcesses m, platformStreamStates m, platformStatistics m, statisticsChanged m).

(** Destination [a] is started, stopped, and started again: child 0 has
    been sent SIGTERM, child 1 relays. *)
Definition restarted : StreamManager :=
  (run [(env0, Initialize); (env0, Configure (with_platforms [twitch "a" "X" true]));
        (env0, StartPlatformStream "a"); (env0, StopPlatformStream "a");
        (env0, StartPlatformStream "a")] new).1.

End Sessions.

(* ================================================================= *)
(** ** The children of a destination: vocabulary of the statements *)

Module Children.
Import Relay StreamManager Supervisor.

(** The child belongs to a session: its handlers are attached (neither
    its [error] nor its [close] handler has run), the supervisor has
    not sent it a kill signal, and it has no exit code. *)
Definition relaying (c : ChildProcess) : bool :=
  listening c && negb (killed c) && negb (is_Some_bool (exitCode c)).

(** Every relaying child is the one the session table holds for its
    destination. *)
Definition tracked (m : StreamManager) : Prop :=
  forall h c, children m !! h = Some c -> relaying c = true ->
              ffmpegProcesses m !! child_platform c = Some h.

(** No relaying child belongs to destination [platformId]. *)
Definition vacant (platformId : string) (m : StreamManager) : Prop :=
  forall h c, children m !! h = Some c -> relaying c = true ->
              child_platform c <> platformId.





(** The call does not read the session table: run on another table it
    returns and sends the same, leaves the same supervisor otherwise,
    and updates the table it was given in a way [g] that does not
    depend on what the table holds. *)
Definition blind {A} (c : M A) : Prop :=
  forall m, exists g : gmap string nat -> gmap string nat,
    forall table,
      c (set_ffmpegProcesses m table)
      = ((c m).1.1, set_ffmpegProcesses (c m).1.2 (g table), (c m).2).


End Children.

(* ================================================================= *)
(** * Properties *)

Module LifecycleProps.
Import Lifecycle.

(** Successful transitions really move: no method targets a state it
    is permitted from. *)
Lemma target_not_source (t : Transition) (s : LifecycleState) :
  permitted t s -> target t <> s.
Proof. destruct t, s; cbv; intuition discriminate. Qed.

(** C9.  Every guarded transition method, called in any lifecycle state,
    behaves as the transition table [permitted_from] says: from a
    permitted source state it returns normally and installs its target
    state (which differs from the source); from any other state it
    throws an error and the stored state (indeed the whole object) is
    left unchanged, so a transition method mutates the state only when
    it is permitted.  [markError] never throws and installs ERROR from
    every state. *)
Theorem transitions_guarded :
  (forall (t : Transition) (l : ModuleLifecycle),
      (permitted t (state l) /\
       call t l = (set_state l (target t), None) /\
       state (fst (call t l)) <> state l)
      \/
      (~ permitted t (state l) /\
       (exists msg, call t l = (l, Some (Error msg))) /\
       state (fst (call t l)) = state l)) /\
  (forall l : ModuleLifecycle,
      snd (markError l) = None /\ state (fst (markError l)) = ERROR).
Proof.
  split; [| intros l; split; reflexivity].
  intros t [s n].
  destruct t, s; cbn;
    first [ left; split; [ cbv; tauto | split; [ reflexivity | discriminate ] ]
          | right; split; [ cbv; intuition discriminate
                          | split; [ eexists; reflexivity | reflexivity ] ] ].
Qed.

End LifecycleProps.

Module StatsParserProps.
Import Regex StatsParser.

Example stats_line_1 :
  parseStderrLine "frame=  123 fps= 30 q=28.0 size=    1024kB time=00:00:04.10 bitrate=2048.0kbits/s speed=1.00x"
  = Some {| frame := Some (JsNumber.Dec 123 0); fps := Some (JsNumber.Dec 30 0);
            bitrate := Some (JsNumber.Dec 20480 1); size := Some (JsNumber.Dec 1024 0);
            time := Some (JsNumber.Dec 410 2); speed := Some (JsNumber.Dec 100 2);
            quality := Some (JsNumber.Dec 280 1); resolution := None; codec := None |}.
Proof. vm_compute. reflexivity. Qed.

(** *** A longer pattern matches only where its prefix does *)

Section Monotone.
Context {A : Type}.

Lemma star_greedy_mono (p : ascii -> bool) (s : string) (k k' : string -> option A) :
  (forall s', is_Some (k s') -> is_Some (k' s')) ->
  is_Some (star_greedy p s k) -> is_Some (star_greedy p s k').
Proof.
  intros Hk. induction s as [| a s IH]; cbn; [apply Hk |].
  destruct (p a); [| apply Hk].
  destruct (star_greedy p s k) as [x |] eqn:E.
  - intros _. destruct IH as [y ->]; eauto.
  - intros H. destruct (star_greedy p s k'); eauto.
Qed.

Lemma star_lazy_mono (p : ascii -> bool) (s : string) (k k' : string -> option A) :
  (forall s', is_Some (k s') -> is_Some (k' s')) ->
  is_Some (star_lazy p s k) -> is_Some (star_lazy p s k').
Proof.
  intros Hk. induction s as [| a s IH]; cbn.
  - destruct (k EmptyString) eqn:E.
    + intros _. destruct (Hk EmptyString) as [y ->]; [rewrite E |]; eauto.
    + intros [? ?]; discriminate.
  - destruct (k (String a s)) eqn:E.
    + intros _. destruct (Hk (String a s)) as [y ->]; [rewrite E |]; eauto.
    + destruct (k' (String a s)); [eauto |].
      destruct (p a); [exact IH | intros [? ?]; discriminate].
Qed.
End Monotone.

Lemma run_mono (r : re) :
  forall (s : string) (c : caps) (k k' : string -> caps -> option caps),
    (forall s' c', is_Some (k s' c') -> is_Some (k' s' c')) ->
    is_Some (run r s c k) -> is_Some (run r s c k').
Proof.
  induction r as [| p | l | r1 IH1 r2 IH2 | r1 IH1 r2 IH2 | g p | n r IH];
    intros s c k k' Hk; cbn.
  - apply Hk.
  - destruct s as [| a s]; [intros [? ?]; discriminate |].
    destruct (p a); [apply Hk | intros [? ?]; discriminate].
  - destruct (strip_prefix l s); [apply Hk | intros [? ?]; discriminate].
  - apply IH1. intros s' c'. apply IH2. exact Hk.
  - destruct (run r1 s c k) as [x |] eqn:E.
    + intros _. destruct (IH1 s c k k' Hk) as [y ->]; [rewrite E |]; eauto.
    + intros H. destruct (run r1 s c k'); [eauto |]. eapply IH2; eauto.
  - destruct g.
    + apply star_greedy_mono. intros s'. apply Hk.
    + apply star_lazy_mono. intros s'. apply Hk.
  - apply IH. intros s' c'. apply Hk.
Qed.

Lemma search_mono (r r' : re) (s : string) :
  (forall t, is_Some (match_here r t) -> is_Some (match_here r' t)) ->
  is_Some (search r s) -> is_Some (search r' s).
Proof.
  intros H. induction s as [| a s IH]; cbn.
  - destruct (match_here r EmptyString) eqn:E.
    + intros _. destruct (H EmptyString) as [y ->]; [rewrite E |]; eauto.
    + intros [? ?]; discriminate.
  - destruct (match_here r (String a s)) eqn:E.
    + intros _. destruct (H (String a s)) as [y ->]; [rewrite E |]; eauto.
    + intros Hs. destruct (match_here r' (String a s)); [eauto |]. exact (IH Hs).
Qed.

(** Wherever the fused pattern matches, the frame pattern matches too:
    the fused pattern begins with it. *)
Lemma stats_match_frame_match (line : string) :
  is_Some (search STATS_REGEX line) -> is_Some (search FRAME_REGEX line).
Proof.
  apply search_mono. intros t. unfold match_here, STATS_REGEX, FRAME_REGEX.
  cbn [seqs run].
  destruct (strip_prefix "frame=" t) as [t1 |]; [| intros [? ?]; discriminate].
  apply (star_greedy_mono (A := caps)). intros s1.
  apply run_mono. intros s2 c2 _. eauto.
Qed.

(** C10.  A line in which none of the frame, fps, bitrate and time
    patterns matches parses to [null], whatever else it contains: a
    resolution or a codec on their own are not statistics. *)
Theorem resolution_codec_alone_is_null (line : string) :
  search FRAME_REGEX line = None ->
  search FPS_REGEX line = None ->
  search BITRATE_REGEX line = None ->
  search TIME_REGEX line = None ->
  parseStderrLine line = None.
Proof.
  intros Hframe Hfps Hbitrate Htime. unfold parseStderrLine.
  destruct (search STATS_REGEX line) as [c |] eqn:E.
  - destruct (stats_match_frame_match line) as [c' Hc']; [rewrite E; eauto |].
    congruence.
  - unfold parseFields. rewrite Hframe, Hfps, Hbitrate, Htime. reflexivity.
Qed.

Lemma resolution_codec_alone_is_null_witness :
  ((fun c => group_text c 1) <$> search RESOLUTION_REGEX stream_info_line = Some "1920x1080" /\
   (fun c => group_text c 1) <$> search CODEC_REGEX stream_info_line = Some "h264") /\
  parseStderrLine stream_info_line = None.
Proof.
  split.
  - split; vm_compute; reflexivity.
  - apply (resolution_codec_alone_is_null stream_info_line); vm_compute; reflexivity.
Defined.

(** Conversely, a result that carries a resolution or a codec was raised
    by one of the four numeric patterns. *)
Lemma resolution_codec_need_metric (line : string) (st : ParsedStatistics) :
  parseStderrLine line = Some st ->
  is_Some (resolution st) \/ is_Some (codec st) ->
  is_Some (search FRAME_REGEX line) \/ is_Some (search FPS_REGEX line) \/
  is_Some (search BITRATE_REGEX line) \/ is_Some (search TIME_REGEX line).
Proof.
  intros Hp _.
  destruct (search FRAME_REGEX line) eqn:E1; [eauto |].
  destruct (search FPS_REGEX line) eqn:E2; [eauto |].
  destruct (search BITRATE_REGEX line) eqn:E3; [eauto |].
  destruct (search TIME_REGEX line) eqn:E4; [eauto 6 |].
  exfalso. unfold parseStderrLine in Hp.
  destruct (search STATS_REGEX line) as [c |] eqn:E.
  - destruct (stats_match_frame_match line) as [c' Hc']; [rewrite E; eauto |].
    congruence.
  - unfold parseFields in Hp. rewrite E1, E2, E3, E4 in Hp. discriminate.
Qed.

Example fps_only_line :
  parseStderrLine "fps= 25 Video: hevc 1280x720"
  = Some {| frame := None; fps := Some (JsNumber.Dec 25 0); bitrate := None;
            size := None; time := None; speed := None; quality := None;
            resolution := Some "1280x720"; codec := Some "hevc" |}.
Proof. vm_compute. reflexivity. Qed.

End StatsParserProps.

Module RTMPServerProps.
Import RTMPServer.

Example trailing_live_obs : trailingSegment "/live/obs" = Some "obs".
Proof. reflexivity. Qed.

Example trailing_slash_only : trailingSegment "/" = None.
Proof. reflexivity. Qed.

Example trailing_after_slash : trailingSegment "/live/obs/" = Some "obs".
Proof. reflexivity. Qed.

Lemma truthy_nonempty (s : string) : s <> EmptyString -> JsString.truthy s = true.
Proof. destruct s; [congruence | reflexivity]. Qed.

(** With an empty configured key the check is switched off: a publish
    to [/live/abc], whose trailing segment differs from the configured
    key, is accepted and goes on to [postPublish]. *)
Lemma empty_key_accepts_mismatch :
  trailingSegment "/live/abc" <> Some (streamKey (config open_ingest)) /\
  rejected "s1" (snd (onPrePublish open_ingest "s1" "/live/abc")) = false /\
  status (fst (publish open_ingest "s1" "/live/abc")) = STREAMING.
Proof. split; [discriminate | split; reflexivity]. Qed.

(** With an empty configured key every publish is accepted. *)
Lemma empty_key_accepts_all (srv : RTMPServer) (id path : string) :
  streamKey (config srv) = EmptyString ->
  rejected id (snd (onPrePublish srv id path)) = false /\
  status (fst (onPrePublish srv id path)) = CONNECTING.
Proof. intros H. unfold onPrePublish. rewrite H. split; reflexivity. Qed.

(** A publish whose trailing segment is the configured key is accepted. *)
Lemma matching_key_accepted (srv : RTMPServer) (id path : string) :
  trailingSegment path = Some (streamKey (config srv)) ->
  rejected id (snd (onPrePublish srv id path)) = false /\
  status (fst (publish srv id path)) = STREAMING.
Proof.
  intros H. unfold publish, onPrePublish. rewrite H.
  rewrite bool_decide_eq_true_2 by reflexivity.
  rewrite andb_false_r. split; reflexivity.
Qed.

(** C4 (amended).  When a non-empty stream key is configured, a publish
    whose trailing path segment differs from it (or whose path has no
    segment at all) is rejected by the [prePublish] hook; the publish
    then stops there: [postPublish] is not run, the ingest object is
    unchanged (an IDLE status stays IDLE), the only effects are the
    rejection of the session and a warning, and no subscriber is told
    that the ingest is streaming. *)
Theorem mismatched_key_rejected (srv : RTMPServer) (id path : string) :
  streamKey (config srv) <> EmptyString ->
  trailingSegment path <> Some (streamKey (config srv)) ->
  rejected id (snd (onPrePublish srv id path)) = true /\
  (exists msg, publish srv id path = (srv, [SessionReject id; Warn msg])) /\
  status (fst (publish srv id path)) = status srv /\
  Forall (fun e => notifiesStreaming e = false) (snd (publish srv id path)).
Proof.
  intros Hkey Hne. unfold publish, onPrePublish.
  rewrite (truthy_nonempty _ Hkey).
  rewrite bool_decide_eq_false_2 by exact Hne.
  cbn. rewrite String.eqb_refl. cbn.
  split; [reflexivity |]. split; [eexists; reflexivity |].
  split; [reflexivity |]. repeat constructor.
Qed.

Lemma mismatched_key_rejected_witness :
  publish default_ingest "s1" "/live/wrongkey"
  = (default_ingest,
     [SessionReject "s1";
      Warn "[RTMP Server] Invalid stream key: wrongkey (expected: obs)"]) /\
  status (fst (publish default_ingest "s1" "/live/wrongkey")) = IDLE.
Proof.
  destruct (mismatched_key_rejected default_ingest "s1" "/live/wrongkey")
    as (_ & _ & Hst & _); [discriminate | discriminate |].
  split; [reflexivity | exact Hst].
Defined.

Example publish_good_key :
  snd (publish default_ingest "s1" "/live/obs")
  = [EmitStatusChange CONNECTING; EmitStreaming "/live/obs"; EmitStatusChange STREAMING].
Proof. reflexivity. Qed.

End RTMPServerProps.

Module JsStringProps.
Import JsString.

Lemma append_cons (a : ascii) (s t : string) : String a s ++ t = String a (s ++ t).
Proof. reflexivity. Qed.

Lemma append_nil (t : string) : EmptyString ++ t = t.
Proof. reflexivity. Qed.

Lemma append_not_empty (s : string) (c : ascii) (t : string) : s ++ String c t <> EmptyString.
Proof. destruct s; [rewrite append_nil | rewrite append_cons]; discriminate. Qed.

Lemma startsWith_spec (s p : string) :
  startsWith s p = true <-> exists rest, s = p ++ rest.
Proof.
  unfold startsWith. revert s. induction p as [| a p IH]; intros s; cbn.
  - split; [intros _; exists s; reflexivity | intros _; reflexivity].
  - destruct s as [| b s]; [split; [discriminate | intros [r Hr]; discriminate] |].
    destruct (Ascii.eqb_spec a b) as [-> | Hab]; cbn.
    + rewrite IH. split; intros [r Hr]; exists r; rewrite append_cons in *; congruence.
    + split; [discriminate | intros [r Hr]; rewrite append_cons in Hr; congruence].
Qed.

Lemma endsWith_nil (p : string) : endsWith EmptyString p = String.eqb EmptyString p.
Proof. unfold endsWith. apply orb_false_r. Qed.

Lemma endsWith_cons (a : ascii) (s p : string) :
  endsWith (String a s) p = String.eqb (String a s) p || endsWith s p.
Proof. reflexivity. Qed.

Lemma endsWith_spec (s p : string) :
  endsWith s p = true <-> exists pre, s = pre ++ p.
Proof.
  induction s as [| a s IH].
  - rewrite endsWith_nil, String.eqb_eq. split.
    + intros <-. exists EmptyString. reflexivity.
    + intros [[| b pre] H]; [exact H | discriminate].
  - rewrite endsWith_cons, orb_true_iff, String.eqb_eq, IH. split.
    + intros [<- | [pre ->]]; [exists EmptyString; reflexivity | exists (String a pre); reflexivity].
    + intros [[| b pre] H]; [left; exact H |].
      right; exists pre. rewrite append_cons in H. congruence.
Qed.

Lemma endsWith_false (s p : string) :
  endsWith s p = false <-> ~ exists pre, s = pre ++ p.
Proof. rewrite <- endsWith_spec. destruct (endsWith s p); intuition congruence. Qed.

Lemma last_char_cons (a : ascii) (s : string) :
  s <> EmptyString -> last_char (String a s) = last_char s.
Proof. destruct s; [congruence | reflexivity]. Qed.

Lemma last_char_app (pre : string) (c : ascii) (s : string) :
  last_char (pre ++ String c s) = last_char (String c s).
Proof.
  induction pre as [| a pre IH]; [reflexivity |].
  rewrite append_cons, last_char_cons by apply append_not_empty. exact IH.
Qed.

Lemma removeTrailingSlash_cons (a : ascii) (s : string) :
  s <> EmptyString -> removeTrailingSlash (String a s) = String a (removeTrailingSlash s).
Proof. destruct s; [congruence | reflexivity]. Qed.

Lemma removeTrailingSlash_app (base : string) :
  removeTrailingSlash (base ++ "/") = base.
Proof.
  induction base as [| a base IH]; [reflexivity |].
  rewrite append_cons, removeTrailingSlash_cons by apply append_not_empty.
  rewrite IH. reflexivity.
Qed.

Lemma removeTrailingSlash_id (s : string) :
  (~ exists pre, s = pre ++ "/") -> removeTrailingSlash s = s.
Proof.
  induction s as [| a s IH]; [reflexivity |]. intros H.
  destruct s as [| b s].
  - cbn. destruct (Ascii.eqb_spec a slash) as [-> | _]; [| reflexivity].
    exfalso. apply H. exists EmptyString. reflexivity.
  - rewrite removeTrailingSlash_cons by discriminate.
    f_equal. apply IH. intros [pre Hpre]. apply H.
    exists (String a pre). rewrite append_cons. congruence.
Qed.

End JsStringProps.

Module RelayProps.
Import Relay JsStringProps.

Lemma rtmp_is_not_rtmps (rest : string) : isRTMPS ("rtmp://" ++ rest) = false.
Proof. reflexivity. Qed.

Lemma rtmps_is_rtmps (rest : string) : isRTMPS ("rtmps://" ++ rest) = true.
Proof. unfold isRTMPS. apply startsWith_spec. exists rest. reflexivity. Qed.

Lemma app_slash_excludes_app (url : string) :
  ends_with url "/app/" -> ~ ends_with url "/app".
Proof.
  intros [p1 H1] [p2 H2].
  assert (E : JsString.last_char url = Some "/"%char) by (rewrite H1; apply last_char_app).
  rewrite H2, last_char_app in E. discriminate.
Qed.

(** The output URL is the last argument of the child's command line. *)
Lemma ffmpegArgs_last (inputStream : string) (pc : PlatformConfig) :
  last (ffmpegArgs inputStream pc) = Some (outputUrl pc).
Proof. unfold ffmpegArgs. rewrite !app_assoc. apply last_snoc. Qed.

(** C3.  The publish URL handed to the relay child follows the
    composition rule: for an [rtmp://] base it is [url/key]; for an
    [rtmps://] base it is [url/key] when the base ends with [/app],
    [url] followed by [key] when it ends with [/app/], and otherwise the
    base without its trailing slash (one slash, if present) followed by
    [/app/key].  That URL is the final argument of the command line. *)
Theorem output_url_composition (inputStream : string) (pc : PlatformConfig) (out : string) :
  composes (rtmpUrl pc) (streamKey pc) out ->
  outputUrl pc = out /\ last (ffmpegArgs inputStream pc) = Some out.
Proof.
  intros H.
  assert (E : outputUrl pc = out); [| split; [exact E | rewrite ffmpegArgs_last, E; reflexivity]].
  unfold outputUrl, appPath, appPathWithSlash, pathSeparator. cbv zeta.
  destruct H as [rest Hu | rest Hu Happ | rest Hu Happ | rest base Hu Hn1 Hn2 Hs].
  - replace (isRTMPS (rtmpUrl pc)) with false
      by (rewrite Hu; symmetry; apply rtmp_is_not_rtmps).
    reflexivity.
  - replace (isRTMPS (rtmpUrl pc)) with true
      by (rewrite Hu; symmetry; apply rtmps_is_rtmps).
    rewrite (proj2 (endsWith_spec _ _) Happ). reflexivity.
  - replace (isRTMPS (rtmpUrl pc)) with true
      by (rewrite Hu; symmetry; apply rtmps_is_rtmps).
    rewrite (proj2 (endsWith_false _ _) (app_slash_excludes_app _ Happ)).
    rewrite (proj2 (endsWith_spec _ _) Happ). reflexivity.
  - replace (isRTMPS (rtmpUrl pc)) with true
      by (rewrite Hu; symmetry; apply rtmps_is_rtmps).
    rewrite (proj2 (endsWith_false _ _) Hn1), (proj2 (endsWith_false _ _) Hn2).
    destruct Hs as [Hs | [Hs ->]].
    + rewrite Hs, removeTrailingSlash_app. reflexivity.
    + rewrite removeTrailingSlash_id by exact Hs. reflexivity.
Qed.

Lemma kick_composes :
  composes (rtmpUrl kick) (streamKey kick)
           "rtmps://fa723.global-contribute.live-video.net/app/sk_abc".
Proof.
  apply (compose_rtmps_other _ _ "fa723.global-contribute.live-video.net"
           "rtmps://fa723.global-contribute.live-video.net").
  - reflexivity.
  - apply endsWith_false. reflexivity.
  - apply endsWith_false. reflexivity.
  - right. split; [apply endsWith_false; reflexivity | reflexivity].
Defined.

Lemma output_url_composition_witness :
  outputUrl kick = "rtmps://fa723.global-contribute.live-video.net/app/sk_abc" /\
  last (ffmpegArgs "rtmp://localhost:1935/live/obs" kick)
  = Some "rtmps://fa723.global-contribute.live-video.net/app/sk_abc".
Proof.
  apply (output_url_composition "rtmp://localhost:1935/live/obs" kick).
  exact kick_composes.
Defined.

(** Only one trailing slash is removed. *)
Example double_slash_base :
  outputUrl {| id := None; name := "kick"; displayName := None;
               rtmpUrl := "rtmps://host//"; streamKey := "k";
               enabled := Some true; metadata := None |}
  = "rtmps://host//app/k".
Proof. reflexivity. Qed.

Example rtmps_command_line :
  ffmpegArgs "rtmp://localhost:1935/live/obs" kick
  = ["-i"; "rtmp://localhost:1935/live/obs"; "-c:v"; "copy"; "-c:a"; "copy";
     "-f"; "flv"; "-threads"; "2"; "-loglevel"; "info";
     "-protocol_whitelist"; "rtmp,rtmps,file,http,https,tcp,tls";
     "-reconnect"; "1"; "-reconnect_at_eof"; "1"; "-reconnect_streamed"; "1";
     "-reconnect_delay_max"; "2"; "-rtmp_live"; "live"; "-bufsize"; "384k";
     "rtmps://fa723.global-contribute.live-video.net/app/sk_abc"].
Proof. reflexivity. Qed.

End RelayProps.

Module StreamManagerProps.
Import Relay StreamManager.

#[local] Arguments rebuildPlatformConfigMap : simpl never.

(** Unfold the monadic plumbing of the methods and handlers. *)
Ltac munfold :=
  unfold handle, step, initialize, liftLifecycle, configure, adapterConfigure,
    startPlatformStream, startPlatformStreamInternal, stopPlatformStream,
    onStdoutData, onStderrData, onError, onClose, onDebounceTimeout,
    onStatisticsInterval, broadcastStatisticsUpdate, scheduleStatisticsBroadcast,
    getPlatformConfig, setStreamState, clearStatistics, forgetProcess,
    broadcastStatus, logMessage, kill, try_catch, when, throw, rethrow, get,
    modify, perform, mbind, M_bind, mret, M_ret in *.

(** Rebuilding the lookup map changes no other field. *)
Lemma rebuild_is_set (m : StreamManager) :
  exists pm, rebuildPlatformConfigMap m = set_platformConfigMap m pm.
Proof.
  unfold rebuildPlatformConfigMap. destruct (config m); [eauto |].
  exists (platformConfigMap m). destruct m; reflexivity.
Qed.

(** *** Looking a destination up by its identifier *)

(** One round of the loop of [rebuildPlatformConfigMap]. *)
Lemma rebuild_fold_lookup (l : list PlatformConfig) (d : PlatformConfig)
    (acc : gmap string PlatformConfig) :
  owns_identifier l d ->
  fold_left
    (fun acc pc =>
       let acc1 := <[platformIdentifier pc := pc]> acc in
       match id pc with
       | Some i =>
           if JsString.truthy i && negb (String.eqb i (name pc))
           then <[name pc := pc]> acc1 else acc1
       | None => acc1
       end) l acc !! platformIdentifier d = Some d.
Proof.
  revert acc. induction l as [| x l IH] using rev_ind; intros acc [Hin Hown].
  - inversion Hin.
  - rewrite fold_left_app. cbn [fold_left].
    set (below := fold_left _ l acc).
    assert (Hx : x ∈ (l ++ [x])%list) by (apply elem_of_app; right; constructor).
    destruct (decide (platformIdentifier x = platformIdentifier d)) as [E | NE].
    + assert (x = d) as -> by (apply Hown; auto).
      assert (H1 : <[platformIdentifier d := d]> below !! platformIdentifier d = Some d)
        by apply lookup_insert_eq.
      destruct (id d) as [i |]; [| exact H1].
      destruct (JsString.truthy i && negb (String.eqb i (name d))); [| exact H1].
      destruct (decide (name d = platformIdentifier d)) as [-> | Hn].
      * apply lookup_insert_eq.
      * rewrite lookup_insert_ne by exact Hn. exact H1.
    + assert (Hn : name x <> platformIdentifier d).
      { intros Hn. apply NE. f_equal. apply Hown; auto. }
      assert (Hd : d ∈ l).
      { apply elem_of_app in Hin as [Hin | Hin]; [exact Hin |].
        apply list_elem_of_singleton in Hin. subst. contradiction. }
      assert (Hbelow : below !! platformIdentifier d = Some d).
      { apply IH. split; [exact Hd |]. intros d' Hd' Hid. apply Hown; [| exact Hid].
        apply elem_of_app. left. exact Hd'. }
      assert (H1 : <[platformIdentifier x := x]> below !! platformIdentifier d = Some d)
        by (rewrite lookup_insert_ne by exact NE; exact Hbelow).
      destruct (id x) as [i |]; [| exact H1].
      destruct (JsString.truthy i && negb (String.eqb i (name x))); [| exact H1].
      rewrite lookup_insert_ne by exact Hn. exact H1.
Qed.

(** After [configure], a destination whose identifier no other
    destination uses is found under that identifier: [stop(d.id)] and
    [start(d.id)] resolve to [d]. *)
Lemma configure_resolves_identifier (cfg : StreamManagerConfig) (m : StreamManager)
    (d : PlatformConfig) :
  owns_identifier (platforms cfg) d ->
  (getPlatformConfig (platformIdentifier d) (configure cfg m).1.2).1.1 = Ok (Some d).
Proof.
  intros Hown.
  assert (Hmap : platformConfigMap (configure cfg m).1.2 !! platformIdentifier d = Some d
                 /\ config (configure cfg m).1.2 = Some cfg).
  { unfold configure.
    assert (Hloop : forall l m0,
               platformConfigMap (for_each l (fun pc =>
                   m1 ← get;
                   match platformAdapters m1 !! name pc with
                   | None => mret tt
                   | Some a => adapterConfigure (name pc) a pc;; mret tt
                   end) m0).1.2 = platformConfigMap m0 /\
               config (for_each l (fun pc =>
                   m1 ← get;
                   match platformAdapters m1 !! name pc with
                   | None => mret tt
                   | Some a => adapterConfigure (name pc) a pc;; mret tt
                   end) m0).1.2 = config m0).
    { induction l as [| pc l IHl]; intros m0; [split; reflexivity |].
      cbn [for_each]. munfold. cbn.
      destruct (platformAdapters m0 !! name pc) as [a |]; cbn.
      - destruct (validateConfig a pc); cbn.
        + destruct (IHl m0) as [H1 H2].
          destruct (for_each l _ m0) as [[[[] | e] m2] effs2]; cbn in *; auto.
        + set (m1 := set_platformAdapters m0 _).
          destruct (IHl m1) as [H1 H2].
          destruct (for_each l _ m1) as [[[[] | e] m2] effs2]; cbn in *; auto.
      - destruct (IHl m0) as [H1 H2].
        destruct (for_each l _ m0) as [[[[] | e] m2] effs2]; cbn in *; auto. }
    munfold. cbn.
    set (m0 := rebuildPlatformConfigMap (set_config m (Some cfg))).
    destruct (Hloop (platforms cfg) m0) as [H1 H2].
    destruct (for_each (platforms cfg) _ m0) as [[[[] | e] m2] effs2]; cbn in *;
      rewrite H1, H2; (split; [apply (rebuild_fold_lookup _ _ ∅ Hown) | reflexivity]). }
  destruct Hmap as [Hlookup Hcfg].
  revert Hlookup Hcfg. generalize ((configure cfg m).1.2). intros m' Hlookup Hcfg.
  munfold. cbn. rewrite Hcfg. cbn.
  destruct (bool_decide (platformConfigMap m' = ∅)) eqn:E; cbn.
  - apply bool_decide_eq_true_1 in E. rewrite E in Hlookup. discriminate.
  - rewrite Hlookup. reflexivity.
Qed.

(** *** Stop, then status *)

(** What a [stop] that returns has done to the tables. *)
Lemma stop_returned (env : Env) (key : string) (m m' : StreamManager) (effs : list effect) :
  stopPlatformStream env key m = (Ok tt, m', effs) ->
  exists d,
    (getPlatformConfig key m).1.1 = Ok (Some d) /\
    platformStreamStates m' !! platformIdentifier d = Some disconnected /\
    ffmpegProcesses m' !! platformIdentifier d = None /\
    config m' = config m.
Proof.
  intros H. munfold. cbn in H.
  destruct (rebuild_is_set m) as [pm Hpm].
  repeat case_match; simplify_eq; try rewrite Hpm in *.
  all: cbn in *.
  all: eexists; split; [f_equal; eassumption |].
  all: rewrite lookup_insert_eq.
  all: try rewrite lookup_delete_eq.
  all: auto.
Qed.

(** The snapshot has an entry for the identifier of every configured
    destination, computed from a destination with that identifier. *)
Lemma statuses_fold_lookup (m : StreamManager) (l : list PlatformConfig)
    (acc : gmap string PlatformStatus) (d : PlatformConfig) :
  d ∈ l ->
  exists d', d' ∈ l /\ platformIdentifier d' = platformIdentifier d /\
    fold_left (fun acc pc => <[platformIdentifier pc := platformStatus m pc]> acc) l acc
      !! platformIdentifier d = Some (platformStatus m d').
Proof.
  revert acc. induction l as [| x l IH] using rev_ind; intros acc Hd.
  - inversion Hd.
  - rewrite fold_left_app. cbn.
    destruct (decide (platformIdentifier x = platformIdentifier d)) as [E | NE].
    + exists x. split; [apply elem_of_app; right; constructor |].
      split; [exact E |]. rewrite <- E. apply lookup_insert_eq.
    + apply elem_of_app in Hd as [Hd | Hd].
      * destruct (IH acc Hd) as (d' & Hin & Hid & Hl).
        exists d'. split; [apply elem_of_app; left; exact Hin |].
        split; [exact Hid |]. rewrite lookup_insert_ne by exact NE. exact Hl.
      * apply list_elem_of_singleton in Hd. subst. contradiction.
Qed.

(** A destination whose flags are both off is reported idle, whatever
    the process table holds. *)
Lemma disconnected_reported_idle (m : StreamManager) (d : PlatformConfig) :
  platformStreamStates m !! platformIdentifier d = Some disconnected ->
  ps_status (platformStatus m d) = idle /\
  ps_connected (platformStatus m d) = Some false /\
  ps_streaming (platformStatus m d) = Some false.
Proof. intros H. unfold platformStatus. rewrite H. cbn. auto. Qed.

(** Once [stopPlatformStream] has returned for a key that the lookup
    table resolves to the configured destination [d], the status
    snapshot reports [d] idle, with [connected] and [streaming] false.
    The snapshot is taken with an arbitrary store of child processes in
    place of the current one, so the report cannot depend on whether
    the child has exited. *)
Theorem stop_then_idle (env env' : Env) (key : string) (m m' : StreamManager)
    (effs : list effect) (cfg : StreamManagerConfig) (d : PlatformConfig)
    (children' : list ChildProcess) :
  config m = Some cfg ->
  d ∈ platforms cfg ->
  (getPlatformConfig key m).1.1 = Ok (Some d) ->
  stopPlatformStream env key m = (Ok tt, m', effs) ->
  exists ps,
    st_platforms (getStatus env' (set_children m' children')) !! platformIdentifier d = Some ps /\
    ps_status ps = idle /\ ps_connected ps = Some false /\ ps_streaming ps = Some false.
Proof.
  intros Hcfg Hd Hkey Hstop.
  destruct (stop_returned _ _ _ _ _ Hstop) as (d0 & Hkey0 & Hst & _ & Hc).
  rewrite Hkey in Hkey0. injection Hkey0 as <-.
  cbn. unfold platformStatuses. cbn. rewrite Hc, Hcfg.
  destruct (statuses_fold_lookup (set_children m' children') (platforms cfg) ∅ d Hd)
    as (d' & _ & Hid & Hl).
  exists (platformStatus (set_children m' children') d'). split; [exact Hl |].
  apply disconnected_reported_idle. cbn. rewrite Hid. exact Hst.
Qed.

(** **** Until the destination is started again *)

Section Keeps.
Variable I : StreamManager -> Prop.

Lemma keeps_ret {A} (a : A) : keeps I (mret a).
Proof. intros m H. exact H. Qed.

Lemma keeps_get : keeps I get.
Proof. intros m H. exact H. Qed.

Lemma keeps_throw {A} (msg : string) : keeps I (@throw A msg).
Proof. intros m H. exact H. Qed.

Lemma keeps_perform (e : effect) : keeps I (perform e).
Proof. intros m H. exact H. Qed.

Lemma keeps_modify (f : StreamManager -> StreamManager) :
  (forall m, I m -> I (f m)) -> keeps I (modify f).
Proof. intros Hf m H. apply Hf, H. Qed.

Lemma keeps_bind {A B} (c : M A) (f : A -> M B) :
  keeps I c -> (forall a, keeps I (f a)) -> keeps I (c ≫= f).
Proof.
  intros Hc Hf m H. specialize (Hc m H). unfold mbind, M_bind.
  destruct (c m) as [[[a | e] m1] effs1]; cbn in *; [| exact Hc].
  specialize (Hf a m1 Hc). destruct (f a m1) as [[r m2] effs2]. exact Hf.
Qed.

Lemma keeps_when (b : bool) (c : M unit) : keeps I c -> keeps I (when b c).
Proof. destruct b; [auto | intros _; apply keeps_ret]. Qed.

Lemma keeps_for_each {A} (l : list A) (body : A -> M unit) :
  (forall x, keeps I (body x)) -> keeps I (for_each l body).
Proof.
  intros Hb. induction l as [| x l IH]; cbn.
  - apply keeps_ret.
  - apply keeps_bind; [apply Hb | intros _; exact IH].
Qed.

End Keeps.

Lemma stopped_rebuild (cfg : StreamManagerConfig) (platformId : string) (m : StreamManager) :
  stopped cfg platformId m -> stopped cfg platformId (rebuildPlatformConfigMap m).
Proof. destruct (rebuild_is_set m) as [pm ->]. auto. Qed.

(** The state updates of the passive handlers keep [stopped]. *)
Ltac keeps_stopped :=
  let m := fresh "m" in
  let H1 := fresh "H" in
  let H2 := fresh "H" in
  intros m [H1 H2];
  first [ apply stopped_rebuild; split; assumption
        | split; unfold update_child; cbn;
          [ exact H1
          | first [ exact H2
                  | match goal with
                    | |- <[?p := _]> _ !! ?q = _ =>
                        destruct (decide (p = q)) as [-> |];
                        [ apply lookup_insert_eq
                        | rewrite lookup_insert_ne by assumption; exact H2 ]
                    end ] ] ].

Ltac keeps_tac :=
  repeat first
    [ apply keeps_ret | apply keeps_get | apply keeps_throw
    | apply keeps_perform
    | apply keeps_modify; keeps_stopped
    | apply keeps_when
    | apply keeps_for_each; intros ?
    | apply keeps_bind; [| intros ?]
    | case_match ].

Lemma passive_keeps_stopped (cfg : StreamManagerConfig) (platformId : string)
    (env : Env) (ev : event) :
  passive ev = true -> keeps (stopped cfg platformId) (handle env ev).
Proof.
  destruct ev; cbn [passive handle]; try discriminate; intros _.
  - unfold stopPlatformStream, getPlatformConfig, kill, forgetProcess, setStreamState,
      clearStatistics, broadcastStatus. keeps_tac.
  - unfold onStdoutData, logMessage. keeps_tac.
  - unfold onStderrData, onStderrLine, scheduleStatisticsBroadcast, logMessage. keeps_tac.
  - unfold onError, forgetProcess, clearStatistics, setStreamState, logMessage,
      broadcastStatus. keeps_tac.
  - unfold onClose, forgetProcess, clearStatistics, setStreamState, logMessage,
      broadcastStatus. keeps_tac.
  - unfold onDebounceTimeout, broadcastStatisticsUpdate. keeps_tac.
  - unfold onStatisticsInterval, broadcastStatisticsUpdate. keeps_tac.
Qed.

(** After a stop, whatever the children and timers do next (the child
    exiting sooner or later, or never), the destination stays reported
    idle until it is started, or the supervisor reconfigured. *)
Lemma idle_until_restarted (env env' : Env) (key : string) (m m' : StreamManager)
    (effs : list effect) (cfg : StreamManagerConfig) (d : PlatformConfig)
    (evs : list (Env * event)) :
  config m = Some cfg ->
  d ∈ platforms cfg ->
  (getPlatformConfig key m).1.1 = Ok (Some d) ->
  stopPlatformStream env key m = (Ok tt, m', effs) ->
  Forall (fun ev => passive ev.2 = true) evs ->
  exists ps,
    st_platforms (getStatus env' (run evs m').1) !! platformIdentifier d = Some ps /\
    ps_status ps = idle /\ ps_connected ps = Some false /\ ps_streaming ps = Some false.
Proof.
  intros Hcfg Hd Hkey Hstop Hevs.
  destruct (stop_returned _ _ _ _ _ Hstop) as (d0 & Hkey0 & Hst & _ & Hc).
  rewrite Hkey in Hkey0. injection Hkey0 as <-.
  assert (H0 : stopped cfg (platformIdentifier d) m') by (split; congruence).
  assert (Hrun : stopped cfg (platformIdentifier d) (run evs m').1).
  { clear -H0 Hevs. revert m' H0. induction Hevs as [| [env ev] evs Hev _ IH]; intros m' H0.
    - exact H0.
    - cbn [run]. unfold step.
      pose proof (passive_keeps_stopped cfg (platformIdentifier d) env ev Hev m' H0) as H1.
      destruct (handle env ev m') as [[r m1] effs1]. cbn in H1.
      specialize (IH m1 H1). destruct (run evs m1) as [m2 effs2]. exact IH. }
  destruct Hrun as [Hcfg' Hst'].
  cbn. unfold platformStatuses. rewrite Hcfg'.
  destruct (statuses_fold_lookup (run evs m').1 (platforms cfg) ∅ d Hd)
    as (d' & _ & Hid & Hl).
  exists (platformStatus (run evs m').1 d'). split; [exact Hl |].
  apply disconnected_reported_idle. rewrite Hid. exact Hst'.
Qed.

(** [stop] returns whenever the destination is known and its adapter is
    registered, whether or not a session exists. *)
Lemma stop_returns (env : Env) (key : string) (m : StreamManager) (d : PlatformConfig) :
  is_Some (config m) ->
  (getPlatformConfig key m).1.1 = Ok (Some d) ->
  is_Some (platformAdapters m !! name d) ->
  exists m' effs, stopPlatformStream env key m = (Ok tt, m', effs).
Proof.
  intros [cfg Hcfg] Hkey [a Ha]. munfold. cbn in *. rewrite Hcfg in *. cbn in *.
  destruct (rebuild_is_set m) as [pm Hpm].
  destruct (bool_decide (platformConfigMap m = ∅)); cbn in *;
    repeat case_match; simplify_eq; try rewrite Hpm in *; cbn in *; simplify_eq; eauto.
  all: rewrite Hcfg in *; discriminate.
Qed.

(** *** A scenario: two destinations on the same platform *)

Lemma stop_then_idle_witness :
  (process_of both_started "b" = Some
     {| child_platform := "b"; child_rtmps := false;
        child_args := ffmpegArgs "rtmp://localhost:1935/live/obs" (twitch "b" "Y" true);
        killed := false; exitCode := None; listening := true;
        stdoutBufferSize := 0; stderrBufferSize := 0 |}) /\
  exists ps,
    st_platforms (getStatus env0 (set_children b_stopped.1.2 (children both_started)))
      !! "b" = Some ps /\
    ps_status ps = idle /\ ps_connected ps = Some false /\ ps_streaming ps = Some false.
Proof.
  split; [vm_compute; reflexivity |].
  apply (stop_then_idle env0 env0 "b" both_started b_stopped.1.2 b_stopped.2
           two_twitch (twitch "b" "Y" true) (children both_started)).
  - vm_compute; reflexivity.
  - right; left.
  - vm_compute; reflexivity.
  - vm_compute; reflexivity.
Defined.

(** C1.  [stopPlatformStream] called with the identifier of a
    configured destination can return without stopping it.  The lookup
    table is keyed by identifiers and, for compatibility, by names; the
    name [twitch] of the second destination of [shadowed] takes the key
    from the identifier [twitch] of the first.  With the first
    destination relaying, [stopPlatformStream("twitch")] resolves to
    the second, has no session to end, sends no kill signal and
    returns; the snapshot taken afterwards still reports the first
    destination as streaming, its session in the table. *)
Theorem stop_misses_shadowed_identifier :
  let stop := stopPlatformStream env0 "twitch" shadowed_running in
  youtube_twitch ∈ platforms shadowed /\
  platformIdentifier youtube_twitch = "twitch" /\
  (ps_status <$> st_platforms (getStatus env0 shadowed_running) !! "twitch")
  = Some streaming_ /\
  (getPlatformConfig "twitch" shadowed_running).1.1 = Ok (Some (twitch "tw2" "K2" true)) /\
  stop.1.1 = Ok tt /\
  Forall (fun e => match e with Kill _ => False | _ => True end) stop.2 /\
  ffmpegProcesses stop.1.2 !! "twitch" = Some 0%nat /\
  exists ps,
    st_platforms (getStatus env0 stop.1.2) !! "twitch" = Some ps /\
    ps_status ps = streaming_ /\ ps_connected ps = Some true /\ ps_streaming ps = Some true.
Proof.
  cbv zeta. split; [left |]. split; [reflexivity |].
  split; [vm_compute; reflexivity |]. split; [vm_compute; reflexivity |].
  split; [vm_compute; reflexivity |].
  split; [vm_compute; repeat constructor |]. split; [vm_compute; reflexivity |].
  eexists. split; [vm_compute; reflexivity |]. repeat split.
Qed.

(** Stopping [b] leaves [a] streaming and the session table with [a]
    only. *)
Example stop_b_only :
  let m := b_stopped.1.2 in
  ps_status <$> st_platforms (getStatus env0 m) !! "a" = Some streaming_ /\
  ps_status <$> st_platforms (getStatus env0 m) !! "b" = Some idle /\
  ffmpegProcesses m = {[ "a" := 0 ]} /\
  b_stopped.2 = [Kill 1; BroadcastStatus (getStatus env0 m)].
Proof. vm_compute. repeat split; reflexivity. Qed.

(** *** Starting twice *)

Lemma filter_key_absent (l : list (string * nat)) (k : string) :
  k ∉ l.*1 -> filter (fun kv => kv.1 = k) l = [].
Proof.
  induction l as [| [k' v] l IH]; [reflexivity |]. intros Hk.
  rewrite fmap_cons in Hk. apply not_elem_of_cons in Hk as [Hne Hk]. cbn in Hne.
  rewrite filter_cons_False by (cbn; congruence). exact (IH Hk).
Qed.

(** A session table has at most one entry for an identifier. *)
Lemma one_session_per_id (m : StreamManager) (platformId : string) :
  length (filter (fun kv => kv.1 = platformId) (map_to_list (ffmpegProcesses m))) <= 1.
Proof.
  pose proof (NoDup_fst_map_to_list (ffmpegProcesses m)) as Hnd.
  induction (map_to_list (ffmpegProcesses m)) as [| [k v] l IH]; [cbn; lia |].
  cbn in Hnd. apply NoDup_cons in Hnd as [Hk Hnd].
  rewrite filter_cons. case_decide as E; [| exact (IH Hnd)].
  cbn in E. subst k. cbn. rewrite filter_key_absent by exact Hk. cbn. lia.
Qed.

(** Starting it again does not return success: the enabled check comes
    before the check for an existing session. *)
Lemma start_disabled_session_throws :
  ffmpegProcesses a_running_disabled !! "a" = Some 0 /\
  (startPlatformStream env0 "a" a_running_disabled).1.1
  = Throw (Error "Platform a is disabled").
Proof. vm_compute. split; reflexivity. Qed.

(** The session table holds at most one session for an identifier,
    and starting an enabled destination whose session
    already exists (the stream provider and a configuration being
    present) returns [true] at once: no child is spawned, no message is
    sent, and the supervisor is unchanged but for the lazily rebuilt
    lookup map, so the existing session, its flags and its statistics
    are untouched. *)
Theorem start_existing_session (env : Env) (key : string) (m : StreamManager)
    (d : PlatformConfig) (h : nat) :
  streamProvider m = true ->
  is_Some (config m) ->
  (getPlatformConfig key m).1.1 = Ok (Some d) ->
  isEnabled d = true ->
  ffmpegProcesses m !! platformIdentifier d = Some h ->
  exists m',
    startPlatformStream env key m = (Ok true, m', []) /\
    (exists pm, m' = set_platformConfigMap m pm) /\
    ffmpegProcesses m' = ffmpegProcesses m /\
    children m' = children m /\
    platformStreamStates m' = platformStreamStates m /\
    platformStatistics m' = platformStatistics m /\
    length (filter (fun kv => kv.1 = platformIdentifier d)
                   (map_to_list (ffmpegProcesses m'))) <= 1.
Proof.
  intros Hsp [cfg Hcfg] Hkey Hen Hh.
  assert (Hstart : exists pm,
             startPlatformStream env key m = (Ok true, set_platformConfigMap m pm, [])).
  { munfold. cbn in *. rewrite Hsp. cbn. rewrite Hcfg in *. cbn in *.
    destruct (rebuild_is_set m) as [pm Hpm].
    destruct (bool_decide (platformConfigMap m = ∅)); cbn in *;
      rewrite ?Hcfg in *; cbn in *; rewrite ?Hpm in *; cbn in *;
      injection Hkey as Hkey; rewrite Hkey; cbn; rewrite Hen; cbn; rewrite Hh; cbn.
    - eauto.
    - exists (platformConfigMap m). destruct m; reflexivity. }
  destruct Hstart as [pm Hstart].
  exists (set_platformConfigMap m pm). split; [exact Hstart |].
  split; [eauto |]. repeat (split; [reflexivity |]). apply one_session_per_id.
Qed.

Lemma start_existing_session_witness :
  exists m',
    startPlatformStream env0 "a" a_running = (Ok true, m', []) /\
    children m'
    = [{| child_platform := "a"; child_rtmps := false;
          child_args := ffmpegArgs "rtmp://localhost:1935/live/obs" (twitch "a" "X" true);
          killed := false; exitCode := None; listening := true;
          stdoutBufferSize := 0; stderrBufferSize := 0 |}].
Proof.
  destruct (start_existing_session env0 "a" a_running (twitch "a" "X" true) 0)
    as (m' & Hstart & _ & _ & Hchildren & _); try (vm_compute; reflexivity).
  - exists (with_platforms [twitch "a" "X" true]). vm_compute; reflexivity.
  - exists m'. split; [exact Hstart |]. rewrite Hchildren. vm_compute; reflexivity.
Defined.

(** *** Statistics envelopes *)

Lemma updated_snoc (platformId : string) (trace : list effect) (e : effect) :
  is_envelope e = false ->
  updated_since_last_envelope platformId trace ->
  updated_since_last_envelope platformId (trace ++ [e]).
Proof.
  intros He (before & stats & after & -> & Hafter).
  exists before, stats, (after ++ [e])%list. split.
  - rewrite <- app_assoc. reflexivity.
  - apply Forall_app. split; [exact Hafter | repeat constructor; exact He].
Qed.

(** Splitting a trace extended by one effect at an envelope. *)
Lemma snoc_split (trace pre post : list effect) (e x : effect) :
  (trace ++ [e] = pre ++ x :: post)%list ->
  (exists post', post = (post' ++ [e])%list /\ trace = (pre ++ x :: post')%list) \/
  (post = [] /\ x = e /\ trace = pre).
Proof.
  intros H. destruct post as [| y post _] using rev_ind.
  - right. apply (app_inj_tail trace pre e x) in H as [-> ->]. auto.
  - left. exists post.
    change (pre ++ x :: post ++ [y])%list with (pre ++ (x :: post) ++ [y])%list in H.
    rewrite app_assoc in H. apply app_inj_tail in H as [-> ->]. auto.
Qed.

Lemma fresh_snoc (trace : list effect) (e : effect) :
  is_envelope e = false -> envelopes_fresh trace -> envelopes_fresh (trace ++ [e]).
Proof.
  intros He Hf pre envelope post Heq entry Hin.
  apply snoc_split in Heq as [(post' & -> & ->) | (_ & <- & _)].
  - eapply Hf; eauto.
  - discriminate.
Qed.

Lemma preserves_ret {A} (a : A) : preserves (mret a).
Proof. intros m trace H. cbn. rewrite app_nil_r. exact H. Qed.

Lemma preserves_get : preserves get.
Proof. intros m trace H. cbn. rewrite app_nil_r. exact H. Qed.

Lemma preserves_throw {A} (msg : string) : preserves (@throw A msg).
Proof. intros m trace H. cbn. rewrite app_nil_r. exact H. Qed.

Lemma preserves_rethrow {A} (e : exn) : preserves (@rethrow A e).
Proof. intros m trace H. cbn. rewrite app_nil_r. exact H. Qed.

Lemma preserves_bind {A B} (c : M A) (f : A -> M B) :
  preserves c -> (forall a, preserves (f a)) -> preserves (c ≫= f).
Proof.
  intros Hc Hf m trace H. specialize (Hc m trace H).
  unfold mbind, M_bind. destruct (c m) as [[[a | e] m1] effs1]; cbn in *.
  - specialize (Hf a m1 _ Hc). destruct (f a m1) as [[r m2] effs2]; cbn in *.
    rewrite app_assoc. exact Hf.
  - exact Hc.
Qed.

Lemma preserves_try_catch {A} (c : M A) (handler : exn -> M A) :
  preserves c -> (forall e, preserves (handler e)) -> preserves (try_catch c handler).
Proof.
  intros Hc Hh m trace H. specialize (Hc m trace H).
  unfold try_catch. destruct (c m) as [[[a | e] m1] effs1]; cbn in *.
  - exact Hc.
  - specialize (Hh e m1 _ Hc). destruct (handler e m1) as [[r m2] effs2]; cbn in *.
    rewrite app_assoc. exact Hh.
Qed.

Lemma preserves_when (b : bool) (c : M unit) : preserves c -> preserves (when b c).
Proof. destruct b; [auto | intros _; apply preserves_ret]. Qed.

Lemma preserves_for_each {A} (l : list A) (body : A -> M unit) :
  (forall x, preserves (body x)) -> preserves (for_each l body).
Proof.
  intros Hb. induction l as [| x l IH]; cbn.
  - apply preserves_ret.
  - apply preserves_bind; [apply Hb | intros _; exact IH].
Qed.

(** A state update that adds nothing to the changed set. *)
Lemma preserves_modify (f : StreamManager -> StreamManager) :
  (forall m platformId,
      platformId ∈ statisticsChanged (f m) -> platformId ∈ statisticsChanged m) ->
  preserves (modify f).
Proof.
  intros Hf m trace [Hc Hfresh]. cbn. rewrite app_nil_r. split; [| exact Hfresh].
  intros platformId Hin. apply Hc, Hf, Hin.
Qed.

(** Any effect other than an envelope. *)
Lemma preserves_perform (e : effect) : is_envelope e = false -> preserves (perform e).
Proof.
  intros He m trace [Hc Hfresh]. cbn. split.
  - intros platformId Hin. apply updated_snoc; auto.
  - apply fresh_snoc; auto.
Qed.

(** Storing statistics and marking the destination changed. *)
Lemma preserves_store (platformId : string) (stats : ParsedStatistics) (c : M unit) :
  preserves c ->
  preserves (perform (StoreStatistics platformId stats);;
             modify (fun m => set_statisticsChanged m
                        (set_add platformId (statisticsChanged m)));;
             c).
Proof.
  intros Hc m trace [Hch Hfresh].
  unfold mbind, M_bind, perform, modify. cbn.
  set (m1 := set_statisticsChanged m (set_add platformId (statisticsChanged m))).
  assert (H1 : traced (statisticsChanged m1) (trace ++ [StoreStatistics platformId stats])).
  { split; [| apply fresh_snoc; auto].
    intros p Hin. cbn in Hin. unfold set_add in Hin. case_bool_decide.
    - apply updated_snoc; auto.
    - apply elem_of_app in Hin as [Hin | Hin]; [apply updated_snoc; auto |].
      apply list_elem_of_singleton in Hin. subst p.
      exists trace, stats, []. split; [reflexivity | constructor]. }
  specialize (Hc m1 _ H1). destruct (c m1) as [[r m2] effs2]. cbn in *.
  rewrite <- app_assoc in Hc. exact Hc.
Qed.

Lemma entry_platformId (m : StreamManager) (platformId : string) (entry : StreamStatistics) :
  statisticsEntry m platformId = Some entry -> ss_platformId entry = platformId.
Proof.
  unfold statisticsEntry. destruct (platformConfigMap m !! platformId); [| discriminate].
  intros [= <-]. reflexivity.
Qed.

(** The broadcast: the envelope is drawn from the changed set, which
    is then emptied. *)
Lemma preserves_broadcastStatisticsUpdate (env : Env) :
  preserves (broadcastStatisticsUpdate env).
Proof.
  intros m trace [Hch Hfresh]. unfold broadcastStatisticsUpdate.
  unfold mbind, M_bind, get, modify, perform, when, mret, M_ret. cbn.
  destruct (wsService env); cbn; [| rewrite app_nil_r; split; assumption].
  case_bool_decide as Hempty; cbn; [rewrite app_nil_r; split; assumption |].
  case_bool_decide as Hnone; cbn.
  - rewrite app_nil_r. split; [| exact Hfresh]. intros p Hin. inversion Hin.
  - split; [intros p Hin; inversion Hin |].
    intros pre envelope post Heq entry Hin.
    apply snoc_split in Heq as [(post' & -> & ->) | (_ & Henv & <-)].
    + eapply Hfresh; eauto.
    + injection Henv as ->. destruct (config m); [| inversion Hin].
      apply list_elem_of_omap in Hin as (p & Hp & Hentry).
      rewrite (entry_platformId _ _ _ Hentry). apply Hch, Hp.
Qed.

Lemma changed_rebuild (m : StreamManager) :
  statisticsChanged (rebuildPlatformConfigMap m) = statisticsChanged m.
Proof. destruct (rebuild_is_set m) as [pm ->]. reflexivity. Qed.

Lemma set_delete_subset (x p : string) (l : list string) : p ∈ set_delete x l -> p ∈ l.
Proof. unfold set_delete. intros H. apply list_elem_of_filter in H as [_ H]. exact H. Qed.

(** The side condition of [preserves_modify] for the updates at hand. *)
Ltac keeps_changed :=
  let m := fresh "m" in
  let p := fresh "p" in
  let H := fresh "H" in
  intros m p H; unfold update_child in H; cbn in H;
  first [ exact H
        | rewrite changed_rebuild in H; exact H
        | apply set_delete_subset in H; exact H
        | inversion H ].

Ltac pres :=
  repeat first
    [ apply preserves_ret | apply preserves_get
    | apply preserves_throw | apply preserves_rethrow
    | apply preserves_broadcastStatisticsUpdate
    | apply preserves_store
    | apply preserves_perform; reflexivity
    | apply preserves_modify; keeps_changed
    | apply preserves_when
    | apply preserves_for_each; intros ?
    | apply preserves_try_catch; [| intros ?]
    | apply preserves_bind; [| intros ?]
    | case_match ].

Lemma preserves_liftLifecycle (f : Lifecycle.ModuleLifecycle -> Lifecycle.effect) :
  preserves (liftLifecycle f).
Proof.
  intros m trace H. unfold liftLifecycle.
  destruct (f (lifecycle m)) as [l [e |]]; cbn; rewrite app_nil_r; exact H.
Qed.

(** Every method and every handler preserves the invariant. *)
Lemma preserves_handle (env : Env) (ev : event) : preserves (handle env ev).
Proof.
  destruct ev; cbn [handle].
  - unfold initialize. pres; apply preserves_liftLifecycle.
  - unfold configure, adapterConfigure. pres.
  - unfold startPlatformStream, getPlatformConfig, adapterConfigure,
      startPlatformStreamInternal, setStreamState, broadcastStatus, logMessage. pres.
  - unfold stopPlatformStream, getPlatformConfig, kill, forgetProcess, setStreamState,
      clearStatistics, broadcastStatus. pres.
  - unfold onStdoutData, logMessage. pres.
  - unfold onStderrData, onStderrLine, scheduleStatisticsBroadcast, logMessage. pres.
  - unfold onError, forgetProcess, clearStatistics, setStreamState, logMessage,
      broadcastStatus. pres.
  - unfold onClose, forgetProcess, clearStatistics, setStreamState, logMessage,
      broadcastStatus. pres.
  - unfold onDebounceTimeout. pres.
  - unfold onStatisticsInterval. pres.
Qed.

Lemma run_traced (evs : list (Env * event)) :
  forall m trace,
    traced (statisticsChanged m) trace ->
    traced (statisticsChanged (run evs m).1) (trace ++ (run evs m).2).
Proof.
  induction evs as [| [env ev] evs IH]; intros m trace H; cbn.
  - rewrite app_nil_r. exact H.
  - pose proof (preserves_handle env ev m trace H) as H1.
    unfold step. destruct (handle env ev m) as [[r m1] effs1]. cbn in H1.
    specialize (IH m1 _ H1). destruct (run evs m1) as [m2 effs2]. cbn in *.
    rewrite app_assoc. exact IH.
Qed.

(** C7.  In any run of the supervisor that starts with an empty changed
    set, every statistics envelope handed to the WebSocket service
    lists only destinations whose statistics were stored (by a parsed
    stderr line) after the previous envelope of the run, or since its
    start when there is none.  So a destination never appears in two
    consecutive envelopes without a statistics update in between. *)
Theorem statistics_only_changed (evs : list (Env * event)) (m : StreamManager)
    (pre post : list effect) (envelope : list StreamStatistics) (entry : StreamStatistics) :
  statisticsChanged m = [] ->
  (run evs m).2 = (pre ++ BroadcastStatistics envelope :: post)%list ->
  entry ∈ envelope ->
  updated_since_last_envelope (ss_platformId entry) pre.
Proof.
  intros Hinit Hrun Hin.
  assert (H0 : traced (statisticsChanged m) []).
  { rewrite Hinit. split.
    - intros p Hp. inversion Hp.
    - intros pre' envelope' post' Heq. destruct pre'; discriminate. }
  destruct (run_traced evs m [] H0) as [_ Hfresh].
  eapply Hfresh; eauto.
Qed.

Lemma statistics_only_changed_witness :
  (run one_report new).2
  = (take 3 (run one_report new).2 ++ [BroadcastStatistics [entry_a]])%list /\
  updated_since_last_envelope "a" (take 3 (run one_report new).2).
Proof.
  assert (H : (run one_report new).2
              = (take 3 (run one_report new).2 ++ [BroadcastStatistics [entry_a]])%list)
    by (vm_compute; reflexivity).
  split; [exact H |].
  apply (statistics_only_changed one_report new
           (take 3 (run one_report new).2) [] [entry_a] entry_a).
  - reflexivity.
  - exact H.
  - left.
Defined.

(** A second timer with nothing new in between sends nothing, and a
    new line for [a] is needed before [a] is listed again. *)
Example quiet_interval_sends_nothing :
  (run (one_report ++ [(env0, StatisticsInterval); (env0, DebounceTimeout)]) new).2
  = (run one_report new).2.
Proof. vm_compute. reflexivity. Qed.

End StreamManagerProps.

Module ConfigProps.
Import JsValue Config.

(** *** A sample world *)

Example load_without_file :
  (loadConfig empty_world None).1 = Ok (sample_config []).
Proof. vm_compute. reflexivity. Qed.

Example dirname_examples :
  dirname "/srv/streamhub/config.yaml" = "/srv/streamhub" /\
  dirname "/config.yaml" = "/" /\ dirname "config.yaml" = ".".
Proof. repeat split; reflexivity. Qed.

(** *** Saving *)

(** Saving the sample configuration writes the target file itself; no
    temporary file is written and nothing is renamed. *)
Lemma save_writes_in_place :
  (saveConfig empty_world (sample_config []) (Some "/data/config.yaml")).2
  = [MkdirP "/data";
     WriteFile "/data/config.yaml" (stringify (yamlData (sample_config [])))] /\
  ~ atomic_save "/data/config.yaml"
      (saveConfig empty_world (sample_config []) (Some "/data/config.yaml")).2.
Proof.
  split; [reflexivity |].
  intros [_ Hno]. apply (Hno (stringify (yamlData (sample_config [])))).
  right; left.
Qed.

(** C5 (amended).  For every configuration and path, a save whose write
    succeeds creates the containing directory, writes the serialised
    YAML directly to the target file (one write, no temporary file, no
    rename), and afterwards the in-memory cache is empty; other files
    are untouched. *)
Theorem save_writes_target_and_invalidates (w : World) (config : Config)
    (configPath : option string) :
  configFileOf w configPath ∉ unwritable w ->
  let target := configFileOf w configPath in
  let text := stringify (yamlData config) in
  exists w',
    saveConfig w config configPath
    = (Ok tt, w', [MkdirP (dirname target); WriteFile target text]) /\
    files w' !! target = Some {| content := text; mtimeMs := now w |} /\
    (forall other, other <> target -> files w' !! other = files w !! other) /\
    configCache w' = None.
Proof.
  intros Hw target text. unfold saveConfig. fold target. fold text.
  rewrite bool_decide_eq_false_2 by exact Hw.
  eexists. split; [reflexivity |]. cbn. split; [apply lookup_insert_eq |].
  split; [| reflexivity]. intros other Hne. apply lookup_insert_ne. congruence.
Qed.

Lemma save_writes_target_and_invalidates_witness :
  is_Some (configCache cached_world) /\
  exists w',
    saveConfig cached_world (sample_config [sample_platform (Some "a") "X"]) None
    = (Ok tt, w',
       [MkdirP "/srv/streamhub";
        WriteFile "/srv/streamhub/config.yaml"
          (stringify (yamlData (sample_config [sample_platform (Some "a") "X"])))]) /\
    configCache w' = None.
Proof.
  split; [vm_compute; eauto |].
  destruct (save_writes_target_and_invalidates cached_world
              (sample_config [sample_platform (Some "a") "X"]) None)
    as (w' & Hsave & _ & _ & Hcache).
  - vm_compute. intros H. inversion H.
  - exists w'. split; [exact Hsave | exact Hcache].
Defined.

(** *** Destinations without URL or key *)

(** [loadConfig] returns that destination, empty key and all. *)
Lemma load_keeps_keyless_destination :
  (loadConfig keyless_world None).1
  = Ok (sample_config [sample_platform (Some "a") EmptyString]).
Proof. vm_compute. reflexivity. Qed.

Lemma truthy_not_empty (s : string) : JsString.truthy s = true -> s <> EmptyString.
Proof. destruct s; [discriminate | discriminate]. Qed.

(** C8 (amended).  For every on-disk configuration that loads, the
    destination list built from it for the supervisor, at startup
    ([setupRegistry]) and when a configuration is posted, contains no
    destination whose URL is empty or whose stream key is empty or
    blank: those are silently left out there.  ([loadConfig] itself
    returns them.) *)
Theorem supervisor_destinations_complete (w : World) (configPath : option string)
    (config : Config) :
  (loadConfig w configPath).1 = Ok config ->
  Forall has_url_and_key (setupPlatforms config) /\
  Forall has_url_and_key (validPlatforms config).
Proof.
  intros _. unfold setupPlatforms, validPlatforms.
  split; apply Forall_fmap, Forall_forall; intros p Hp;
    apply list_elem_of_filter in Hp as [Hp _];
    repeat (apply andb_prop in Hp as [Hp ?] || apply andb_true_iff in Hp as [Hp ?]);
    unfold has_url_and_key, JsString.trim_truthy in *; cbn;
    repeat split; try (apply truthy_not_empty; assumption);
    try (apply negb_true_iff; assumption).
Qed.

Lemma supervisor_destinations_complete_witness :
  (loadConfig keyless_world None).1 = Ok (sample_config [sample_platform (Some "a") EmptyString]) /\
  setupPlatforms (sample_config [sample_platform (Some "a") EmptyString]) = [] /\
  Forall has_url_and_key (setupPlatforms (sample_config [sample_platform (Some "a") EmptyString])).
Proof.
  split; [vm_compute; reflexivity |].
  split; [reflexivity |].
  apply (supervisor_destinations_complete keyless_world None).
  vm_compute; reflexivity.
Defined.

(** An empty ingest key is a valid configuration, and the ingest built
    from it is the one that accepts every publish. *)
Example empty_ingest_key_loads :
  (fun c => RTMPServer.new (rtmpServer (streamManager c)))
    <$> (loadConfig open_ingest_world None).1
  = Ok RTMPServer.open_ingest.
Proof. vm_compute. reflexivity. Qed.

(** *** Save, then load *)

(** A destination saved without an id comes back with a generated one. *)
Lemma generated_id_breaks_round_trip :
  saveThenLoad empty_world (sample_config [sample_platform None "X"]) None
  = Ok (sample_config [sample_platform (Some "platform_1700000000000_0") "X"]).
Proof. vm_compute. reflexivity. Qed.

(** An empty ingest application name comes back as the default. *)
Example empty_app_name_defaulted :
  let cfg (app : string) :=
    {| streamManager :=
         {| obs := obs (streamManager (sample_config []));
            rtmpServer := {| RTMPServer.host := "localhost"; RTMPServer.port := 1935;
                             RTMPServer.appName := app; RTMPServer.streamKey := "obs";
                             RTMPServer.enabled := true |};
            autoReconnect := true; reconnectDelay := 5; maxReconnectAttempts := 10;
            platforms := [] |};
       ui := ui (sample_config []); version := "1.0.0" |} in
  saveThenLoad empty_world (cfg EmptyString) None = Ok (cfg "live").
Proof. vm_compute. reflexivity. Qed.

(** **** What is written *)

Lemma prune_JObj (fields : list (string * jsval)) :
  prune (JObj fields) = JObj (prune_fields fields).
Proof. reflexivity. Qed.

Lemma prune_JArr (items : list jsval) : prune (JArr items) = JArr (prune_items items).
Proof. reflexivity. Qed.

Lemma prune_fields_cons (k : string) (x : jsval) (rest : list (string * jsval)) :
  prune_fields ((k, x) :: rest)
  = match x with
    | JUndefined => prune_fields rest
    | _ => (k, prune x) :: prune_fields rest
    end.
Proof. reflexivity. Qed.

Lemma prune_fields_nil : prune_fields [] = [].
Proof. reflexivity. Qed.

Lemma prune_items_platforms (ps : list PlatformConfig) :
  prune_items (map platformYaml ps) = map savedPlatform ps.
Proof.
  induction ps as [| p ps IH]; [reflexivity |]. cbn [map]. rewrite <- IH. reflexivity.
Qed.

(** The stream key is in the document as it is, never masked. *)
Lemma saved_stream_key (p : PlatformConfig) :
  getProp (savedPlatform p) "stream_key" = Ok (JStr (streamKey p)).
Proof.
  destruct p as [[i |] n [d |] u sk e md]; unfold savedPlatform, platformYaml;
    rewrite prune_JObj; cbn [id name displayName rtmpUrl streamKey enabled metadata
                             optional_string];
    rewrite !prune_fields_cons, prune_fields_nil; reflexivity.
Qed.

(** **** What comes back *)

Lemma platform_round_trip (now : Z) (p : PlatformConfig) (index : nat) :
  stable_platform p ->
  exists v, convertPlatform now (savedPlatform p) index = Ok v /\
            PlatformConfigSchema v = Some p.
Proof.
  destruct p as [i n d u sk e md]. intros [(i' & Hi & Hne) Hmd]. cbn in Hi, Hmd. subst i.
  destruct i' as [| a i']; [congruence |].
  unfold savedPlatform, platformYaml. rewrite prune_JObj.
  cbn [id name displayName rtmpUrl streamKey enabled metadata optional_string].
  destruct d as [d |]; rewrite !prune_fields_cons, prune_fields_nil, (prune_JObj md), Hmd;
    cbn; eexists; (split; [reflexivity |]); reflexivity.
Qed.

Lemma platforms_round_trip (now : Z) (ps : list PlatformConfig) (index : nat) :
  Forall stable_platform ps ->
  exists vs,
    mapWithIndex (convertPlatform now) (map savedPlatform ps) index = Ok vs /\
    mapM PlatformConfigSchema vs = Some ps.
Proof.
  intros H. revert index. induction H as [| p ps Hp _ IH]; intros index.
  - exists []. split; reflexivity.
  - destruct (platform_round_trip now p index Hp) as (v & Hv & Hpv).
    destruct (IH (S index)) as (vs & Hvs & Hpvs).
    exists (v :: vs). split.
    + rewrite map_cons.
      change (mapWithIndex (convertPlatform now) (savedPlatform p :: map savedPlatform ps) index)
        with (x ← convertPlatform now (savedPlatform p) index;
              xs ← mapWithIndex (convertPlatform now) (map savedPlatform ps) (S index);
              Ok (x :: xs)).
      rewrite Hv, Hvs. reflexivity.
    + change (mapM PlatformConfigSchema (v :: vs))
        with (y ← PlatformConfigSchema v; ys ← mapM PlatformConfigSchema vs; mret (y :: ys)).
      rewrite Hpv, Hpvs. reflexivity.
Qed.

(** Reading a file that holds a saved stable configuration. *)
Lemma read_saved (w : World) (config : Config) (target : string) (mt : Z) :
  files w !! target = Some {| content := stringify (yamlData config); mtimeMs := mt |} ->
  no_overrides (env w) ->
  stable config ->
  readConfig w target = Ok (config, mt).
Proof.
  intros Hfile (E1 & E2 & E3 & E4 & E5 & E6) (Hver & Happ & Hkey & Hpw & Hps).
  unfold readConfig, readAndMerge. rewrite Hfile. clear Hfile.
  cbn [content mtimeMs stringify parse].
  destruct config as [[[oh op opw] [rh rp ra rk re] ar rd mra ps] [uh up ud] ver].
  cbn in Hver, Happ, Hkey, Hpw, Hps.
  destruct ver as [| v0 ver]; [congruence |].
  destruct ra as [| a0 ra]; [congruence |].
  destruct rk as [| k0 rk]; [congruence |].
  destruct (platforms_round_trip (now w) ps 0 Hps) as (vs & Hvs & Hpvs).
  unfold yamlData.
  cbn [streamManager ui version obs rtmpServer autoReconnect reconnectDelay
       maxReconnectAttempts platforms obs_host obs_port obs_password ui_host ui_port
       ui_debug RTMPServer.host RTMPServer.port RTMPServer.appName RTMPServer.streamKey
       RTMPServer.enabled].
  rewrite prune_JObj.
  repeat (rewrite ?prune_fields_cons, ?prune_fields_nil, ?prune_JObj, ?prune_JArr;
          cbn [prune password_value]).
  rewrite prune_items_platforms.
  unfold convertSnakeCase, convertPlatforms.
  destruct opw as [| | pw]; [congruence | |].
  all: cbn -[mapWithIndex mapM savedPlatform].
  all: rewrite Hvs.
  all: cbn -[mapWithIndex mapM savedPlatform].
  all: unfold applyEnv, override; rewrite E1, E2, E3, E4, E5, E6.
  all: cbn -[mapWithIndex mapM savedPlatform].
  all: rewrite Hpvs; reflexivity.
Qed.

(** C6 (amended).  Saving a configuration and loading it back on the
    same path returns the same configuration, provided the write
    succeeds, no overriding environment variable is set, and the
    configuration is stable under the store's defaulting: its version,
    ingest application name and ingest stream key are not empty, the
    OBS password is a string or [null] (not [undefined]), every
    destination has a non-empty id, and no destination metadata holds
    [undefined].  The file holds the serialised configuration with the
    stream keys as they are; masking is applied by the API only. *)
Theorem save_load_round_trip (w : World) (config : Config) (configPath : option string) :
  configFileOf w configPath ∉ unwritable w ->
  no_overrides (env w) ->
  stable config ->
  saveThenLoad w config configPath = Ok config /\
  files (saveConfig w config configPath).1.2 !! configFileOf w configPath
  = Some {| content := stringify (yamlData config); mtimeMs := now w |}.
Proof.
  intros Hw Henv Hst. unfold saveThenLoad, saveConfig.
  rewrite bool_decide_eq_false_2 by exact Hw. cbn [fst snd].
  set (target := configFileOf w configPath).
  set (w' := invalidateConfigCache _).
  assert (Hfile : files w' !! target
                  = Some {| content := stringify (yamlData config); mtimeMs := now w |})
    by apply lookup_insert_eq.
  split; [| exact Hfile].
  unfold loadConfig.
  change (configFileOf w' configPath) with target.
  change (cacheHit w' target) with (@None Config).
  rewrite (read_saved w' config target (now w) Hfile Henv Hst). reflexivity.
Qed.

Lemma save_load_round_trip_witness :
  saveThenLoad empty_world (sample_config [sample_platform (Some "a") "X"]) None
  = Ok (sample_config [sample_platform (Some "a") "X"]) /\
  getProp (savedPlatform (sample_platform (Some "a") "X")) "stream_key" = Ok (JStr "X").
Proof.
  split; [| reflexivity].
  apply (save_load_round_trip empty_world
           (sample_config [sample_platform (Some "a") "X"]) None).
  - apply not_elem_of_nil.
  - repeat split; reflexivity.
  - repeat split; try discriminate.
    constructor; [| constructor].
    split; [exists "a"; split; [reflexivity | discriminate] | reflexivity].
Defined.

(** The API masks what the file keeps. *)
Example masked_only_in_response :
  platforms (streamManager (safeConfig (sample_config [sample_platform (Some "a") "X"])))
  = [sample_platform (Some "a") "***"].
Proof. reflexivity. Qed.

End ConfigProps.

Module LifecycleRunProps.
Import Lifecycle.

(** No method installs CREATED. *)
Lemma invoke_not_created (m : Method) (l : ModuleLifecycle) :
  state l <> CREATED -> state (fst (invoke m l)) <> CREATED.
Proof.
  destruct l as [s n]. destruct m as [t |]; [| discriminate].
  destruct t, s; vm_compute; congruence.
Qed.

Lemma invokeAll_not_created (ms : list Method) (l : ModuleLifecycle) :
  state l <> CREATED -> state (invokeAll ms l) <> CREATED.
Proof.
  revert l. induction ms as [| m ms IH]; intros l H; [exact H |].
  cbn. apply IH, invoke_not_created, H.
Qed.

(** X1.  A module is initialised at most once: once [markInitializing]
    has succeeded, no sequence of further calls (guarded transitions
    and [markError], exceptions caught) brings the object back to a
    state in which [canInitialize] holds, and every later
    [markInitializing] throws and leaves the object as it is. *)
Theorem initialized_at_most_once (l : ModuleLifecycle) (ms : list Method) :
  snd (markInitializing l) = None ->
  let l' := invokeAll ms (fst (markInitializing l)) in
  canInitialize l' = false /\
  info_canInitialize (getInfo l') = false /\
  exists msg, markInitializing l' = (l', Some (Error msg)).
Proof.
  intros Hok l'.
  assert (H : state l' <> CREATED).
  { apply invokeAll_not_created. destruct l as [s n]. destruct s; vm_compute in Hok |- *; congruence. }
  assert (Hc : canInitialize l' = false).
  { unfold canInitialize, in_state. apply bool_decide_eq_false_2. exact H. }
  split; [exact Hc |]. split; [exact Hc |].
  unfold markInitializing. rewrite Hc. eexists. reflexivity.
Qed.

Lemma initialized_at_most_once_witness :
  let l' := invokeAll [Transit MarkInitialized; Transit MarkActivating; MarkError;
                       Transit MarkDestroying; Transit MarkDestroyed; MarkError]
                      (fst (markInitializing (new "rtmp_server"))) in
  state l' = ERROR /\ canInitialize l' = false /\
  exists msg, markInitializing l' = (l', Some (Error msg)).
Proof.
  destruct (initialized_at_most_once (new "rtmp_server")
              [Transit MarkInitialized; Transit MarkActivating; MarkError;
               Transit MarkDestroying; Transit MarkDestroyed; MarkError])
    as (Hcan & _ & msg & Hmsg); [reflexivity |].
  split; [reflexivity |]. split; [exact Hcan |]. exists msg. exact Hmsg.
Defined.

Lemma guarded_keep_destroyed (ts : list Transition) (l : ModuleLifecycle) :
  state l = DESTROYED -> invokeAll (map Transit ts) l = l.
Proof.
  intros H. induction ts as [| t ts IH]; [reflexivity |].
  cbn. destruct l as [s n]. cbn in H. subst s.
  destruct t; cbn; exact IH.
Qed.

(** X2.  Teardown is always possible and, without [markError], final:
    from every state the calls [markError], [markDestroying],
    [markDestroyed] end in DESTROYED, and in DESTROYED every sequence
    of guarded transition methods leaves the object unchanged (each of
    them throws). *)
Theorem teardown_reachable_and_final :
  (forall l : ModuleLifecycle,
      state (invokeAll [MarkError; Transit MarkDestroying; Transit MarkDestroyed] l)
      = DESTROYED) /\
  (forall (l : ModuleLifecycle) (ts : list Transition),
      state l = DESTROYED ->
      invokeAll (map Transit ts) l = l /\
      Forall (fun t => exists msg, call t l = (l, Some (Error msg))) ts).
Proof.
  split.
  - intros [s n]. reflexivity.
  - intros l ts H. split; [apply guarded_keep_destroyed, H |].
    apply Forall_forall. intros t _. destruct l as [s n]. cbn in H. subst s.
    destruct t; cbn; eexists; reflexivity.
Qed.

End LifecycleRunProps.

Module StatsLinesProps.
Import Regex StatsParser.

Lemma parseStderrLines_app (a b : list string) :
  parseStderrLines (a ++ b) = (parseStderrLines a ++ parseStderrLines b)%list.
Proof. apply omap_app. Qed.

(** X3.  The latest record of a batch of lines is the record of the
    last line that parses: appending a line that parses makes its
    record the latest, appending one that does not changes nothing; and
    there is no latest record exactly when no line of the batch parses.
    Parsing a batch in two chunks gives the same records. *)
Theorem latest_is_last_parsed (lines : list string) (line : string) :
  getLatest (parseStderrLines (lines ++ [line]))
  = match parseStderrLine line with
    | Some stats => Some stats
    | None => getLatest (parseStderrLines lines)
    end /\
  (getLatest (parseStderrLines lines) = None <->
   Forall (fun l => parseStderrLine l = None) lines) /\
  (forall more, parseStderrLines (lines ++ more)
                = (parseStderrLines lines ++ parseStderrLines more)%list).
Proof.
  split; [| split].
  - rewrite parseStderrLines_app. unfold getLatest, parseStderrLines at 2. cbn.
    destruct (parseStderrLine line) as [stats |]; cbn.
    + apply last_snoc.
    + rewrite app_nil_r. reflexivity.
  - unfold getLatest. rewrite last_None. unfold parseStderrLines. split.
    + intros H. apply Forall_forall. intros l Hl.
      destruct (parseStderrLine l) as [st |] eqn:E; [| reflexivity].
      assert (Hin : st ∈ omap parseStderrLine lines)
        by (apply list_elem_of_omap; eauto).
      rewrite H in Hin. inversion Hin.
    + intros H. induction H as [| l ls Hl _ IH]; [reflexivity |].
      cbn. rewrite Hl. exact IH.
  - intros more. apply parseStderrLines_app.
Qed.

(** X4.  [size], [speed] and [quality] are only ever reported by the
    fused pattern: a record that carries one of them carries all seven
    numeric fields, and neither a resolution nor a codec. *)
Theorem size_speed_quality_only_in_full_records (line : string) (st : ParsedStatistics) :
  parseStderrLine line = Some st ->
  is_Some (size st) \/ is_Some (speed st) \/ is_Some (quality st) ->
  (is_Some (frame st) /\ is_Some (fps st) /\ is_Some (bitrate st) /\ is_Some (size st) /\
   is_Some (time st) /\ is_Some (speed st) /\ is_Some (quality st)) /\
  resolution st = None /\ codec st = None.
Proof.
  unfold parseStderrLine. destruct (search STATS_REGEX line) as [c |].
  - intros [= <-] _. cbn. repeat split; eauto.
  - unfold parseFields. case_match; [| discriminate].
    intros [= <-]. cbn. intros [[? Hx] | [[? Hx] | [? Hx]]]; discriminate.
Qed.

Lemma size_speed_quality_only_in_full_records_witness :
  parseStderrLine progress_line = Some progress_record /\
  is_Some (search RESOLUTION_REGEX progress_line) /\
  resolution progress_record = None /\ codec progress_record = None.
Proof.
  assert (E : parseStderrLine progress_line = Some progress_record)
    by (vm_compute; reflexivity).
  split; [exact E |]. split; [vm_compute; eauto |].
  apply (size_speed_quality_only_in_full_records progress_line progress_record E).
  left. eexists. reflexivity.
Defined.

End StatsLinesProps.

Module ExecProps.
Import Exec.

Section Respects.
Context {S E : Type}.
Variable I : S -> Prop.
Variable P : E -> Prop.

Lemma respects_ret {A} (a : A) : respects I P (mret a : Eff S E A).
Proof. intros s H. split; [exact H | constructor]. Qed.

Lemma respects_get : respects I P (get : Eff S E S).
Proof. intros s H. split; [exact H | constructor]. Qed.

Lemma respects_throw {A} (msg : string) : respects I P (throw msg : Eff S E A).
Proof. intros s H. split; [exact H | constructor]. Qed.

Lemma respects_rethrow {A} (e : exn) : respects I P (rethrow e : Eff S E A).
Proof. intros s H. split; [exact H | constructor]. Qed.

Lemma respects_modify (f : S -> S) :
  (forall s, I s -> I (f s)) -> respects I P (modify f : Eff S E unit).
Proof. intros Hf s H. split; [apply Hf, H | constructor]. Qed.

Lemma respects_perform (e : E) : P e -> respects I P (perform e : Eff S E unit).
Proof. intros He s H. split; [exact H | repeat constructor; exact He]. Qed.

Lemma respects_bind {A B} (c : Eff S E A) (f : A -> Eff S E B) :
  respects I P c -> (forall a, respects I P (f a)) -> respects I P (c ≫= f).
Proof.
  intros Hc Hf s H. destruct (Hc s H) as [H1 H2]. unfold mbind, Eff_bind.
  destruct (c s) as [[[a | e] s1] effs1]; cbn in *; [| auto].
  destruct (Hf a s1 H1) as [H3 H4]. destruct (f a s1) as [[r s2] effs2]; cbn in *.
  split; [exact H3 | apply Forall_app; auto].
Qed.

Lemma respects_try_catch {A} (c : Eff S E A) (handler : exn -> Eff S E A) :
  respects I P c -> (forall e, respects I P (handler e)) -> respects I P (try_catch c handler).
Proof.
  intros Hc Hh s H. destruct (Hc s H) as [H1 H2]. unfold try_catch.
  destruct (c s) as [[[a | e] s1] effs1]; cbn in *; [auto |].
  destruct (Hh e s1 H1) as [H3 H4]. destruct (handler e s1) as [[r s2] effs2]; cbn in *.
  split; [exact H3 | apply Forall_app; auto].
Qed.

Lemma respects_when (b : bool) (c : Eff S E unit) :
  respects I P c -> respects I P (when b c).
Proof. destruct b; [auto | intros _; apply respects_ret]. Qed.

Lemma respects_for_each {A} (l : list A) (body : A -> Eff S E unit) :
  (forall x, respects I P (body x)) -> respects I P (for_each l body).
Proof.
  intros Hb. induction l as [| x l IH]; cbn.
  - apply respects_ret.
  - apply respects_bind; [apply Hb | intros _; exact IH].
Qed.

End Respects.

(** A call that starts with a step whose outcome is known. *)
Lemma after_bind {S E A B : Type} (I : S -> Prop) (c : Eff S E A) (f : A -> Eff S E B)
    (s s1 : S) (a : A) (effs1 : list E) :
  c s = (Ok a, s1, effs1) -> I (f a s1).1.2 -> I ((c ≫= f) s).1.2.
Proof.
  intros Hc. unfold mbind, Eff_bind. rewrite Hc.
  destruct (f a s1) as [[r s2] effs2]. auto.
Qed.

Lemma all_true {E : Type} (effs : list E) : Forall (fun _ => True) effs.
Proof. apply Forall_forall. auto. Qed.

(** One step of a proof that a method respects an invariant, chosen by
    the head of the method's body; [side] proves the obligation of a
    state update. *)
Ltac respects_step side :=
  lazymatch goal with
  | |- respects _ _ (mret _) => apply respects_ret
  | |- respects _ _ get => apply respects_get
  | |- respects _ _ (throw _) => apply respects_throw
  | |- respects _ _ (rethrow _) => apply respects_rethrow
  | |- respects _ _ (modify _) => apply respects_modify; side
  | |- respects _ _ (when _ _) => apply respects_when
  | |- respects _ _ (for_each _ _) => apply respects_for_each; intros ?
  | |- respects _ _ (try_catch _ _) => apply respects_try_catch; [| intros ?]
  | |- respects _ _ (mbind _ _) => apply respects_bind; [| intros ?]
  | |- respects _ _ (match ?x with _ => _ end) => destruct x eqn:?
  end.

Ltac respects_with side := repeat (respects_step side).

(** Unfold the plumbing of a method, to run it. *)
Ltac exec_unfold :=
  unfold try_catch, when, throw, rethrow, get, modify, perform, mbind, Eff_bind,
    mret, Eff_ret in *.

End ExecProps.

Module IngestProps.
Import Exec ExecProps Ingest.

Lemma respects_mark (I : Ingest -> Prop) (P : Heard -> Prop)
    (f : Lifecycle.ModuleLifecycle -> Lifecycle.effect) :
  (forall i l, I i -> I (set_lifecycle i l)) -> respects I P (mark f).
Proof.
  intros HI i H. unfold mark. destruct (f (lifecycle i)) as [l [e |]]; cbn;
    (split; [apply HI, H | constructor]).
Qed.

Lemma respects_hook (I : Ingest -> Prop) (P : RTMPServer.effect -> Prop)
    (h : RTMPServer.RTMPServer -> RTMPServer.RTMPServer * list RTMPServer.effect) :
  (forall i, I i -> I (set_server i (h (server i)).1) /\ Forall P (h (server i)).2) ->
  respects I (fun told : Heard => P told.1) (hook h).
Proof.
  intros Hh i H. unfold hook. specialize (Hh i H). destruct (h (server i)) as [srv effs].
  cbn in *. split; [exact (proj1 Hh) |]. apply List.Forall_map. exact (proj2 Hh).
Qed.

Lemma run_respects (I : Ingest -> Prop) (P : RTMPServer.effect -> Prop)
    (Q : event -> Prop) :
  (forall ms ev, Q ev -> respects I (fun told : Heard => P told.1) (handle ms ev)) ->
  forall evs i, Forall (fun ev => Q ev.2) evs -> I i ->
    I (run evs i).1 /\ Forall P (run evs i).2.
Proof.
  intros Hh evs. induction evs as [| [ms ev] evs IH]; intros i HQ H; cbn.
  - split; [exact H | constructor].
  - apply Forall_cons in HQ as [Hev HQ].
    destruct (Hh ms ev Hev i H) as [H1 H2].
    destruct (handle ms ev i) as [[r i1] heard]; cbn in *.
    destruct (IH i1 HQ H1) as [H3 H4]. destruct (run evs i1) as [i2 effs2]; cbn in *.
    split; [exact H3 |]. apply Forall_app. split; [| exact H4].
    apply Forall_fmap. exact H2.
Qed.

(** *** Streaming implies stream info *)

Ltac consistent_side :=
  let i := fresh "i" in
  let H := fresh "H" in
  let Hs := fresh "Hs" in
  intros i H; unfold streaming_consistent in *; cbn in *;
  first [ exact H | intros Hs; discriminate Hs ].

Lemma streaming_consistent_handle (ms : MediaServer) (ev : event) :
  respects (fun i => streaming_consistent (server i)) (fun _ => True) (handle ms ev).
Proof.
  assert (Hl : forall i l, streaming_consistent (server i) ->
                           streaming_consistent (server (set_lifecycle i l)))
    by (intros i l H; exact H).
  destruct ev; cbn [handle];
    unfold initialize, activate, deactivate, destroy, startServer, stopServer,
      whenAttached, prePublishHook, updateConfig, connect, disconnect, subscribe,
      unsubscribe, connected_server, disconnected_server;
    respects_with ltac:(consistent_side);
    try (apply respects_mark; exact Hl).
  all: apply (respects_hook _ (fun _ => True)); intros i0 H0;
    (split; [| apply Forall_forall; auto]).
  all: unfold streaming_consistent in *; cbn.
  all: first
    [ discriminate
    | unfold RTMPServer.onPrePublish; case_match; cbn; [exact H0 | discriminate]
    | intros _; split; [reflexivity |]; split; [eexists; split; reflexivity | eauto] ].
Qed.

(** X5.  In every run of the ingest from its construction (method calls
    of the module and of the stream provider, hooks fired by the media
    server in any order, exceptions caught by the callers), whenever
    the object's status is STREAMING it is marked connected, its stream
    info is present with status STREAMING, and the path of the publish
    is recorded. *)
Theorem streaming_has_stream_info (cfg : RTMPServer.RTMPServerConfig)
    (evs : list (MediaServer * event)) :
  streaming_consistent (server (run evs (new cfg)).1).
Proof.
  apply (run_respects (fun i => streaming_consistent (server i)) (fun _ => True)
           (fun _ => True)).
  - intros ms ev _. apply streaming_consistent_handle.
  - apply Forall_forall. auto.
  - discriminate.
Qed.

(** *** The published path *)

(** X6.  A publish that the key check accepts makes the ingest
    STREAMING; the relay then reads from the path that was published
    (from the configured path if the published one is empty), and the
    stream info names that path on the display host and the configured
    port.  When a publish ends the status is IDLE, the relay falls back
    to the configured path, and the stream info keeps its URL with
    status IDLE; the object stays marked connected. *)
Theorem relay_reads_published_path (srv : RTMPServer.RTMPServer) (id StreamPath : string) :
  RTMPServer.rejected id (RTMPServer.onPrePublish srv id StreamPath).2 = false ->
  let cfg := RTMPServer.config srv in
  let url := "rtmp://" ++ RTMPServer.displayHost cfg ++ ":" ++ pretty (RTMPServer.port cfg)
             ++ StreamPath in
  let srv1 := (RTMPServer.publish srv id StreamPath).1 in
  RTMPServer.status srv1 = RTMPServer.STREAMING /\
  RTMPServer.getStreamPath srv1
  = (if JsString.truthy StreamPath then StreamPath else configuredPath cfg) /\
  RTMPServer.streamInfo srv1
  = Some {| RTMPServer.info_streamKey := RTMPServer.streamKey cfg;
            RTMPServer.rtmpUrl := url; RTMPServer.info_status := RTMPServer.STREAMING |} /\
  forall id' StreamPath',
    let srv2 := (RTMPServer.onDonePublish srv1 id' StreamPath').1 in
    RTMPServer.status srv2 = RTMPServer.IDLE /\
    RTMPServer.getStreamPath srv2 = configuredPath cfg /\
    RTMPServer.streamInfo srv2
    = Some {| RTMPServer.info_streamKey := RTMPServer.streamKey cfg;
              RTMPServer.rtmpUrl := url; RTMPServer.info_status := RTMPServer.IDLE |} /\
    RTMPServer.connected srv2 = true.
Proof.
  intros Hacc cfg url srv1. subst srv1. unfold RTMPServer.publish.
  destruct (RTMPServer.onPrePublish srv id StreamPath) as [srv0 effs0] eqn:E.
  cbn [snd] in Hacc. rewrite Hacc.
  assert (Hcfg : RTMPServer.config srv0 = RTMPServer.config srv).
  { unfold RTMPServer.onPrePublish in E. case_match; injection E as <- <-; reflexivity. }
  unfold RTMPServer.getStreamPath, configuredPath. cbn. rewrite Hcfg. fold cfg.
  repeat split.
Qed.

Lemma relay_reads_published_path_witness :
  RTMPServer.getStreamPath (RTMPServer.publish RTMPServer.default_ingest "s1" "/studio/obs").1
  = "/studio/obs" /\
  RTMPServer.rtmpUrl <$>
    RTMPServer.streamInfo (RTMPServer.publish RTMPServer.default_ingest "s1" "/studio/obs").1
  = Some "rtmp://localhost:1935/studio/obs".
Proof.
  destruct (relay_reads_published_path RTMPServer.default_ingest "s1" "/studio/obs")
    as (_ & Hpath & Hinfo & _); [reflexivity |].
  split; [exact Hpath |]. rewrite Hinfo. vm_compute. reflexivity.
Defined.

(** *** Subscriptions *)

Ltac spares_side :=
  let i := fresh "i" in
  let H := fresh "H" in
  intros i H; cbn in *;
  first [ exact H
        | intros Hin; apply list_elem_of_filter in Hin as [_ Hin]; exact (H Hin) ].

Lemma spares_handle (s : string) (ms : MediaServer) (ev : event) :
  ev <> Subscribe s ->
  respects (fun i => s ∉ RTMPServer.subscriptionCallbacks (server i))
           (fun told : Heard => spares s told.1) (handle ms ev).
Proof.
  intros Hev.
  destruct ev; cbn [handle];
    unfold initialize, activate, deactivate, destroy, startServer, stopServer,
      whenAttached, prePublishHook, updateConfig, connect, disconnect, subscribe,
      unsubscribe, connected_server, disconnected_server;
    respects_with ltac:(spares_side);
    try (apply respects_mark; intros ? ? Hx; exact Hx).
  all: first
    [ apply respects_modify; intros i H; cbn; case_bool_decide; [exact H |];
      intros Hin; apply elem_of_app in Hin as [Hin | Hin]; [exact (H Hin) |];
      apply list_elem_of_singleton in Hin; congruence
    | apply (respects_hook _ (spares s)); intros i H; unfold RTMPServer.onPrePublish;
      case_match; cbn; (split; [exact H | repeat constructor])
    | apply (respects_hook _ (spares s)); intros i H; cbn; split; [exact H |];
      apply Forall_app; split; [| repeat constructor];
      apply Forall_forall; intros e He; apply list_elem_of_fmap in He as (s' & -> & Hs');
      cbn; split; [congruence | reflexivity]
    | apply (respects_hook _ (spares s)); intros i H; cbn;
      split; [exact H | repeat constructor] ].
Qed.

(** X7.  Once a subscription is withdrawn its callback is never called
    again: in every run after [unsubscribe(s)] in which [s] is not
    subscribed anew, no effect is a call of the callback of [s]; and
    callbacks are only ever called with STREAMING. *)
Theorem unsubscribed_never_called (s : string) (i : Ingest)
    (evs : list (MediaServer * event)) :
  Forall (fun ev => ev.2 <> Subscribe s) evs ->
  Forall (spares s) (run evs (unsubscribe s i).1.2).2.
Proof.
  intros Hevs.
  apply (run_respects (fun i => s ∉ RTMPServer.subscriptionCallbacks (server i)) (spares s)
           (fun ev => ev <> Subscribe s)).
  - intros ms ev. apply spares_handle.
  - exact Hevs.
  - cbn. intros Hin. apply list_elem_of_filter in Hin as [Hne _]. congruence.
Qed.

Lemma unsubscribed_never_called_witness :
  RTMPServer.subscriptionCallbacks (server s2_only) = ["s2"] /\
  (run [(cooperative, PrePublish "c1" "/live/obs"); (cooperative, PostPublish "c1" "/live/obs")]
       s2_only).2
  = [RTMPServer.EmitStatusChange RTMPServer.CONNECTING;
     RTMPServer.Callback "s2" RTMPServer.STREAMING;
     RTMPServer.EmitStreaming "/live/obs"; RTMPServer.EmitStatusChange RTMPServer.STREAMING] /\
  Forall (spares "s1")
    (run [(cooperative, PrePublish "c1" "/live/obs"); (cooperative, PostPublish "c1" "/live/obs")]
         (unsubscribe "s1" s2_only).1.2).2.
Proof.
  split; [vm_compute; reflexivity |]. split; [vm_compute; reflexivity |].
  apply (unsubscribed_never_called "s1" s2_only).
  repeat constructor; discriminate.
Defined.

(** *** Restart *)

(** The hooks are attached while a media server is held. *)
Lemma held_server_has_hooks (cfg : RTMPServer.RTMPServerConfig)
    (evs : list (MediaServer * event)) :
  let i := (run evs (new cfg)).1 in
  nms i = true -> hooks i <> 0.
Proof.
  intros i. subst i.
  apply (run_respects (fun i => nms i = true -> hooks i <> 0) (fun _ => True)
           (fun _ => True)); [| apply Forall_forall; auto | discriminate].
  intros ms ev _.
  assert (Hstart : respects (fun i => nms i = true -> hooks i <> 0)
                     (fun _ : Heard => True) (startServer ms)).
  { intros i H. unfold startServer, mbind, Eff_bind, get, modify.
    destruct (nms i) eqn:E; cbn; [split; [intros _; exact (H eq_refl) | constructor] |].
    destruct (constructorThrows ms); cbn;
      [split; [rewrite E; discriminate | constructor] |].
    destruct (runThrows ms); cbn; (split; [discriminate | constructor]). }
  destruct ev; cbn [handle];
    unfold initialize, activate, deactivate, destroy, stopServer,
      whenAttached, prePublishHook, updateConfig, connect, disconnect, subscribe,
      unsubscribe;
    respects_with ltac:(intros ? H; cbn in *; first [exact H | discriminate | auto]);
    try exact Hstart;
    try (apply respects_mark; intros ? ? H; exact H);
    try (apply (respects_hook _ (fun _ => True)); intros ? H;
         split; [exact H | apply Forall_forall; auto]).
Qed.

(** The hooks that [stop()] sets off. *)
Lemma stop_fires (fires : list (string * string)) (i : Ingest) :
  hooks i <> 0 ->
  exists heard,
    for_each fires (fun fired =>
      whenAttached (hook (fun srv => RTMPServer.onDonePublish srv fired.1 fired.2))) i
    = (Ok tt, set_server i (ended fires (server i)), heard) /\
    heard.*1 = endings fires.
Proof.
  intros Hh. revert i Hh. induction fires as [| [id path] fires IH]; intros i Hh.
  - exists []. destruct i; split; reflexivity.
  - cbn [for_each]. unfold mbind at 1, Eff_bind at 1.
    assert (E : whenAttached (hook (fun srv => RTMPServer.onDonePublish srv id path)) i
                = (Ok tt, set_server i (RTMPServer.onDonePublish (server i) id path).1,
                   [(RTMPServer.EmitDonePublish path,
                     (RTMPServer.onDonePublish (server i) id path).1);
                    (RTMPServer.EmitStatusChange RTMPServer.IDLE,
                     (RTMPServer.onDonePublish (server i) id path).1)])).
    { unfold whenAttached, mbind, Eff_bind, get. cbn.
      destruct (hooks i) as [| n] eqn:E; [congruence |]. reflexivity. }
    cbn [fst snd]. rewrite E.
    destruct (IH (set_server i (RTMPServer.onDonePublish (server i) id path).1) Hh)
      as (heard & Hrun & Hheard).
    rewrite Hrun. eexists. split; [reflexivity |].
    cbn [fmap list_fmap app fst]. rewrite Hheard. reflexivity.
Qed.

(** The [donePublish] hook does the same to the object whatever it is
    passed, and nothing more when it runs again. *)
Lemma ended_once (fires : list (string * string)) (srv : RTMPServer.RTMPServer) :
  fires <> [] ->
  ended fires srv = (RTMPServer.onDonePublish srv EmptyString EmptyString).1.
Proof.
  assert (Hidem : forall srv' id path,
             (RTMPServer.onDonePublish
                (RTMPServer.onDonePublish srv' EmptyString EmptyString).1 id path).1
             = (RTMPServer.onDonePublish srv' EmptyString EmptyString).1).
  { intros srv' id path. cbn. f_equal.
    destruct (RTMPServer.streamInfo srv') as [[] |]; reflexivity. }
  assert (Hrest : forall l srv',
             ended l (RTMPServer.onDonePublish srv' EmptyString EmptyString).1
             = (RTMPServer.onDonePublish srv' EmptyString EmptyString).1).
  { induction l as [| [id path] l IH]; intros srv'; [reflexivity |].
    unfold ended in *. cbn [fold_left fst snd]. rewrite Hidem. apply IH. }
  destruct fires as [| [id path] fires]; [congruence |]. intros _.
  unfold ended. cbn [fold_left fst snd]. exact (Hrest fires srv).
Qed.

Lemma ended_keeps_subscriptions (fires : list (string * string))
    (srv : RTMPServer.RTMPServer) :
  RTMPServer.subscriptionCallbacks (ended fires srv) = RTMPServer.subscriptionCallbacks srv.
Proof.
  revert srv. unfold ended. induction fires as [| f l IH]; intros srv; [reflexivity |].
  cbn [fold_left]. rewrite IH. reflexivity.
Qed.

(** X8.  Deactivating an active ingest and activating it again, as the
    configuration endpoint does to apply new settings, restarts the
    media server (its calls not throwing) but does not reset the
    object.  [deactivate()] runs the [donePublish] hook for the
    publishes that [stop()] ends, emitting [donePublish] and
    [statusChange] for each run and nothing else; after it the module
    is DEACTIVATED, holds no media server, is not connected, and
    [connect()] throws.  After [activate()] it is ACTIVE with a media
    server again and the hooks are attached once more than before; the
    object is as [deactivate()] left it, with the subscriptions from
    before the restart.  The relay path after the restart is the
    configured path if [stop()] ended a publish, and the one from
    before the restart if it ended none. *)
Theorem restart_ends_publish (ms ms' : MediaServer) (i : Ingest) :
  Lifecycle.state (lifecycle i) = Lifecycle.ACTIVE ->
  nms i = true -> hooks i <> 0 ->
  stopThrows ms = None -> constructorThrows ms' = None -> runThrows ms' = None ->
  let i1 := (deactivate ms i).1.2 in
  let i2 := (activate ms' i1).1.2 in
  ((deactivate ms i).2.*1 = endings (stopFires ms) /\
   Lifecycle.state (lifecycle i1) = Lifecycle.DEACTIVATED /\ nms i1 = false /\
   RTMPServer.connected (server i1) = false /\
   (connect i1).1.1 = Throw (Error notRunningMessage)) /\
  ((activate ms' i1).1.1 = Ok tt /\ (activate ms' i1).2 = [] /\
   Lifecycle.state (lifecycle i2) = Lifecycle.ACTIVE /\ nms i2 = true /\
   hooks i2 = S (hooks i)) /\
  server i2 = server i1 /\
  server i1 = (let srv := ended (stopFires ms) (server i) in
               if RTMPServer.connected srv then disconnected_server srv else srv) /\
  RTMPServer.subscriptionCallbacks (server i2) = RTMPServer.subscriptionCallbacks (server i) /\
  RTMPServer.getStreamPath (server i2)
  = (if bool_decide (stopFires ms = []) then RTMPServer.getStreamPath (server i)
     else configuredPath (RTMPServer.config (server i))).
Proof.
  intros Hst Hnms Hh Hstop Hcon Hrun.
  destruct (stop_fires (stopFires ms) (set_lifecycle i
              {| Lifecycle.state := Lifecycle.DEACTIVATING;
                 Lifecycle.moduleName := Lifecycle.moduleName (lifecycle i) |}) Hh)
    as (heard & Hfires & Hheard).
  assert (Hde : deactivate ms i
                = (Ok tt,
                   {| server := (let srv := ended (stopFires ms) (server i) in
                                 if RTMPServer.connected srv then disconnected_server srv
                                 else srv);
                      lifecycle := {| Lifecycle.state := Lifecycle.DEACTIVATED;
                                      Lifecycle.moduleName :=
                                        Lifecycle.moduleName (lifecycle i) |};
                      nms := false; hooks := hooks i |}, heard)).
  { unfold deactivate, stopServer, disconnect, mark, mbind, Eff_bind, get, modify.
    destruct i as [srv [st name] n k]. cbn in Hst, Hnms, Hh. subst st n.
    cbv -[for_each whenAttached hook ended stopFires stopThrows disconnected_server
          RTMPServer.connected app] in Hfires |- *.
    rewrite Hfires, Hstop.
    destruct (RTMPServer.connected (ended (stopFires ms) srv)) eqn:E;
      cbv -[ended stopFires disconnected_server RTMPServer.connected app];
      rewrite ?E, ?app_nil_r; reflexivity. }
  intros i1 i2. subst i1 i2. rewrite Hde. cbn [fst snd].
  set (srv1 := let srv := ended (stopFires ms) (server i) in
               if RTMPServer.connected srv then disconnected_server srv else srv).
  assert (Hconn : RTMPServer.connected srv1 = false).
  { subst srv1. cbn. destruct (RTMPServer.connected (ended _ _)) eqn:E; [reflexivity | exact E]. }
  assert (Hact : forall srv name k,
             activate ms'
               {| server := srv;
                  lifecycle := {| Lifecycle.state := Lifecycle.DEACTIVATED;
                                  Lifecycle.moduleName := name |};
                  nms := false; hooks := k |}
             = (Ok tt,
                {| server := srv;
                   lifecycle := {| Lifecycle.state := Lifecycle.ACTIVE;
                                   Lifecycle.moduleName := name |};
                   nms := true; hooks := S k |}, [])).
  { intros srv name k.
    unfold activate, startServer, try_catch, mark, mbind, Eff_bind, get, modify.
    cbv -[constructorThrows runThrows]. rewrite Hcon, Hrun. reflexivity. }
  rewrite Hact. cbn [fst snd server lifecycle nms hooks Lifecycle.state].
  split; [| split; [| split; [| split; [| split]]]].
  - repeat split; try assumption.
    unfold connect, mbind, Eff_bind, get. cbn. rewrite Hconn. reflexivity.
  - repeat split.
  - reflexivity.
  - reflexivity.
  - subst srv1. cbn.
    pose proof (ended_keeps_subscriptions (stopFires ms) (server i)) as Hsubs.
    destruct (RTMPServer.connected (ended _ _)); cbn; exact Hsubs.
  - case_bool_decide as E.
    + subst srv1. rewrite E. cbn.
      destruct (RTMPServer.connected (server i)); reflexivity.
    + subst srv1. rewrite (ended_once _ _ E). cbn.
      destruct (RTMPServer.connected (server i)); reflexivity.
Qed.

Lemma restart_ends_publish_witness :
  RTMPServer.status (server on_air) = RTMPServer.STREAMING /\
  RTMPServer.getStreamPath (server on_air) = "/studio/obs" /\
  hooks on_air = 1 /\
  let stopped := (deactivate (ending "c1" "/studio/obs" 1) on_air).1.2 in
  let restarted := (activate cooperative stopped).1.2 in
  (deactivate (ending "c1" "/studio/obs" 1) on_air).2.*1
  = [RTMPServer.EmitDonePublish "/studio/obs"; RTMPServer.EmitStatusChange RTMPServer.IDLE] /\
  RTMPServer.status (server restarted) = RTMPServer.DISCONNECTED /\
  RTMPServer.getStreamPath (server restarted) = "/live/obs" /\
  hooks restarted = 2.
Proof.
  split; [reflexivity |]. split; [vm_compute; reflexivity |]. split; [reflexivity |].
  destruct (restart_ends_publish (ending "c1" "/studio/obs" 1) cooperative on_air)
    as ((Hheard & _) & (_ & _ & _ & _ & Hhooks) & _ & _ & _ & Hpath);
    try reflexivity; [vm_compute; discriminate |].
  split; [rewrite Hheard; reflexivity |].
  split; [vm_compute; reflexivity |]. split; [rewrite Hpath; vm_compute; reflexivity |].
  rewrite Hhooks. reflexivity.
Defined.

End IngestProps.

Module SupervisorProps.
Import Exec ExecProps Relay StreamManager StreamManagerProps Supervisor.

(** *** The rules of [respects] for the methods of [StreamManager] *)

Section ManagerRespects.
Variable I : StreamManager -> Prop.
Variable P : effect -> Prop.

Lemma m_respects_ret {A} (a : A) : respects I P (mret a : M A).
Proof. intros s H. split; [exact H | constructor]. Qed.

Lemma m_respects_get : respects I P get.
Proof. intros s H. split; [exact H | constructor]. Qed.

Lemma m_respects_throw {A} (msg : string) : respects I P (throw msg : M A).
Proof. intros s H. split; [exact H | constructor]. Qed.

Lemma m_respects_rethrow {A} (e : exn) : respects I P (rethrow e : M A).
Proof. intros s H. split; [exact H | constructor]. Qed.

Lemma m_respects_modify (f : StreamManager -> StreamManager) :
  (forall m, I m -> I (f m)) -> respects I P (modify f).
Proof. intros Hf s H. split; [apply Hf, H | constructor]. Qed.

Lemma m_respects_perform (e : effect) : P e -> respects I P (perform e).
Proof. intros He s H. split; [exact H | repeat constructor; exact He]. Qed.

Lemma m_respects_bind {A B} (c : M A) (f : A -> M B) :
  respects I P c -> (forall a, respects I P (f a)) -> respects I P (c ≫= f).
Proof.
  intros Hc Hf s H. destruct (Hc s H) as [H1 H2]. unfold mbind, M_bind.
  destruct (c s) as [[[a | e] s1] effs1]; cbn in *; [| auto].
  destruct (Hf a s1 H1) as [H3 H4]. destruct (f a s1) as [[r s2] effs2]; cbn in *.
  split; [exact H3 | apply Forall_app; auto].
Qed.

Lemma m_respects_try_catch {A} (c : M A) (handler : exn -> M A) :
  respects I P c -> (forall e, respects I P (handler e)) -> respects I P (try_catch c handler).
Proof.
  intros Hc Hh s H. destruct (Hc s H) as [H1 H2]. unfold try_catch.
  destruct (c s) as [[[a | e] s1] effs1]; cbn in *; [auto |].
  destruct (Hh e s1 H1) as [H3 H4]. destruct (handler e s1) as [[r s2] effs2]; cbn in *.
  split; [exact H3 | apply Forall_app; auto].
Qed.

Lemma m_respects_when (b : bool) (c : M unit) : respects I P c -> respects I P (when b c).
Proof. destruct b; [auto | intros _; apply m_respects_ret]. Qed.

Lemma m_respects_for_each {A} (l : list A) (body : A -> M unit) :
  (forall x, respects I P (body x)) -> respects I P (for_each l body).
Proof.
  intros Hb. induction l as [| x l IH]; cbn.
  - apply m_respects_ret.
  - apply m_respects_bind; [apply Hb | intros _; exact IH].
Qed.

Lemma m_respects_liftLifecycle (f : Lifecycle.ModuleLifecycle -> Lifecycle.effect) :
  (forall m l, I m -> I (set_lifecycle m l)) -> respects I P (liftLifecycle f).
Proof.
  intros HI m H. unfold liftLifecycle. destruct (f (lifecycle m)) as [l [e |]]; cbn;
    (split; [apply HI, H | constructor]).
Qed.

End ManagerRespects.

(** One step, chosen by the head of the method's body; [side] proves
    the obligation of a state update, [eff] that of an effect. *)
Ltac m_respects_step side eff :=
  lazymatch goal with
  | |- respects _ _ (mret _) => apply m_respects_ret
  | |- respects _ _ get => apply m_respects_get
  | |- respects _ _ (throw _) => apply m_respects_throw
  | |- respects _ _ (rethrow _) => apply m_respects_rethrow
  | |- respects _ _ (modify _) => apply m_respects_modify; side
  | |- respects _ _ (perform _) => apply m_respects_perform; eff
  | |- respects _ _ (liftLifecycle _) => apply m_respects_liftLifecycle; side
  | |- respects _ _ (when _ _) => apply m_respects_when
  | |- respects _ _ (for_each _ _) => apply m_respects_for_each; intros ?
  | |- respects _ _ (try_catch _ _) => apply m_respects_try_catch; [| intros ?]
  | |- respects _ _ (mbind _ _) => apply m_respects_bind; [| intros ?]
  | |- respects _ _ (match ?x with _ => _ end) => destruct x eqn:?
  | |- respects _ _ (let 'Error _ := ?x in _) => destruct x
  end.

Ltac m_respects_with side eff := repeat (m_respects_step side eff).

Ltac unfold_methods :=
  unfold handle;
  unfold initialize, configure, startPlatformStream, stopPlatformStream, onStdoutData,
    onStderrData, onError, onClose, onDebounceTimeout, onStatisticsInterval;
  unfold startPlatformStreamInternal, onStderrLine, broadcastStatisticsUpdate,
    adapterConfigure, getPlatformConfig;
  unfold scheduleStatisticsBroadcast, setStreamState, clearStatistics, forgetProcess,
    broadcastStatus, logMessage, kill.

(** *** The bulk flag *)

Lemma streaming_rebuild (m : StreamManager) :
  streaming (rebuildPlatformConfigMap m) = streaming m.
Proof. destruct (rebuild_is_set m) as [pm ->]. reflexivity. Qed.

Ltac flag_side :=
  intros; unfold update_child; cbn; rewrite ?streaming_rebuild; assumption.

(** No method or handler of [StreamManager] sets the flag. *)
Lemma handle_keeps_flag (env : Env) (ev : StreamManager.event) :
  respects (fun m => streaming m = false) (fun _ => True) (handle env ev).
Proof.
  destruct ev; unfold_methods; m_respects_with ltac:(flag_side) ltac:(exact Logic.I).
Qed.

(** A method of [StreamManager] run on the extended object. *)
Lemma respects_lift (I : StreamManager -> Prop) (P : effect -> Prop) {A} (c : M A) :
  respects I P c -> respects (fun s => I (manager s)) P (lift c).
Proof.
  intros Hc s H. unfold lift. destruct (Hc (manager s) H) as [H1 H2].
  destruct (c (manager s)) as [[r m] effs]. exact (conj H1 H2).
Qed.

(** The bulk stop does nothing unless the bulk flag is set. *)
Lemma stopStream_idle (m : StreamManager) :
  streaming m = false -> stopStream m = (Ok tt, m, []).
Proof. intros H. unfold stopStream, mbind, M_bind, get. cbn. rewrite H. reflexivity. Qed.

(** The invariant of the theorem below: the flag is off, and session
    table and children are given ones. *)
Lemma quiet_stopStream (I : StreamManager -> Prop) (P : effect -> Prop) :
  (forall m, I m -> streaming m = false) -> respects I P stopStream.
Proof.
  intros HI m H. rewrite (stopStream_idle m (HI m H)). split; [exact H | constructor].
Qed.

Ltac s_side := intros; cbn; assumption.

Lemma call_keeps_flag (env : Env) (ev : event) :
  ev <> StartStream ->
  respects (fun s => streaming (manager s) = false) (fun _ => True) (call env ev).
Proof.
  intros Hev.
  destruct ev; [| | | | congruence | |]; cbn [call]; unfold activate, deactivate, destroy;
    respects_with ltac:(s_side);
    try apply (respects_lift (fun m => streaming m = false));
    try apply handle_keeps_flag;
    try (apply quiet_stopStream; auto);
    unfold startStatisticsBroadcast, stopStatisticsBroadcast;
    m_respects_with ltac:(flag_side) ltac:(exact Logic.I).
Qed.

Lemma deliver_keeps_flag (env : Env) (e : RTMPServer.effect) :
  respects (fun s => streaming (manager s) = false) (fun _ => True) (deliver env e).
Proof.
  unfold deliver, streamingListener, donePublishListener, statusChangeListener.
  respects_with ltac:(s_side);
    apply (respects_lift (fun m => streaming m = false));
    unfold broadcastStatus, logMessage;
    m_respects_with ltac:(flag_side) ltac:(exact Logic.I).
Qed.

Lemma step_keeps_flag (env : Env) (ev : event) (sys : System) :
  ev <> StartStream ->
  streaming (manager (supervisor sys)) = false ->
  streaming (manager (supervisor (step env ev sys).1)) = false.
Proof.
  intros Hev H.
  assert (Hcall : forall ev', ev' <> StartStream ->
             streaming (manager (call (envOf env (ingest sys)) ev'
                                      (supervisor sys)).1.2) = false)
    by (intros ev' Hev'; apply (call_keeps_flag _ ev' Hev' (supervisor sys) H)).
  destruct ev as [mev | | | | | | ms iev]; cbn [step]; [| | | | congruence | |].
  1: specialize (Hcall (OfManager mev) ltac:(discriminate)).
  2: specialize (Hcall Activate ltac:(discriminate)).
  3: specialize (Hcall Deactivate ltac:(discriminate)).
  4: specialize (Hcall Destroy ltac:(discriminate)).
  5: specialize (Hcall StopStream ltac:(discriminate)).
  1-5: destruct (call _ _ (supervisor sys)) as [[r s] effs]; exact Hcall.
  destruct (Ingest.handle ms iev (ingest sys)) as [[r i] emitted].
  assert (Hd : respects (fun s => streaming (manager s) = false) (fun _ => True)
                 (Exec.for_each emitted (fun told => deliver (envAt env told.2) told.1)))
    by (apply respects_for_each; intros told; apply deliver_keeps_flag).
  destruct (Hd (supervisor sys) H) as [H1 _].
  destruct (Exec.for_each emitted _ (supervisor sys)) as [[r' s] effs]. exact H1.
Qed.

Lemma run_keeps_flag (evs : list (Env * event)) (sys : System) :
  Forall (fun ev => ev.2 <> StartStream) evs ->
  streaming (manager (supervisor sys)) = false ->
  streaming (manager (supervisor (run evs sys).1)) = false.
Proof.
  intros Hevs. revert sys.
  induction Hevs as [| [env ev] evs Hev _ IH]; intros sys H; [exact H |].
  cbn [run]. pose proof (step_keeps_flag env ev sys Hev H) as H1.
  destruct (step env ev sys) as [sys1 effs1]. specialize (IH sys1 H1).
  destruct (run evs sys1) as [sys2 effs2]. exact IH.
Qed.

Ltac untouched_side :=
  let H := fresh "H" in
  intros ? ? H || intros ? H; exact H.

Lemma shutdown_untouched (processes : gmap string nat) (spawned : list ChildProcess) :
  respects (fun s => untouched processes spawned (manager s)) (fun e => is_kill e = false)
           deactivate /\
  respects (fun s => untouched processes spawned (manager s)) (fun e => is_kill e = false)
           destroy.
Proof.
  split; unfold deactivate, destroy;
    respects_with ltac:(untouched_side);
    apply (respects_lift (untouched processes spawned));
    try (apply quiet_stopStream; intros m [H _]; exact H);
    unfold stopStatisticsBroadcast;
    m_respects_with ltac:(untouched_side) ltac:(reflexivity).
Qed.

(** X9.  Only the bulk [startStream] sets the bulk flag [streaming]:
    in a run that does not call it the flag stays off; while it is
    off, [stopStream] does nothing, and shutting the module down,
    [deactivate] followed by [destroy], sends no kill signal and leaves
    the session table and the children as they are: sessions started
    one by one with [startPlatformStream] are not ended by the
    shutdown. *)
Theorem shutdown_spares_individual_sessions (evs : list (Env * event)) (sys : System) :
  Forall (fun ev => ev.2 <> StartStream) evs ->
  streaming (manager (supervisor sys)) = false ->
  let s := supervisor (run evs sys).1 in
  streaming (manager s) = false /\
  stopStream (manager s) = (Ok tt, manager s, []) /\
  ffmpegProcesses (manager (shutdown s)) = ffmpegProcesses (manager s) /\
  children (manager (shutdown s)) = children (manager s) /\
  Forall (fun e => is_kill e = false) (shutdown_effects s).
Proof.
  intros Hevs H s. pose proof (run_keeps_flag evs sys Hevs H) as Hs. fold s in Hs.
  split; [exact Hs |]. split; [apply stopStream_idle, Hs |].
  destruct (shutdown_untouched (ffmpegProcesses (manager s)) (children (manager s)))
    as [Hde Hdy].
  destruct (Hde s) as [H1 E1]; [repeat split; assumption |].
  destruct (Hdy _ H1) as [H2 E2].
  unfold shutdown, shutdown_effects. destruct H2 as (_ & H2 & H3).
  split; [exact H2 |]. split; [exact H3 |]. apply Forall_app. auto.
Qed.

Lemma shutdown_spares_individual_sessions_witness :
  let s := supervisor a_started in
  ffmpegProcesses (manager s) = {[ "a" := 0 ]} /\
  Lifecycle.state (lifecycle (manager (shutdown s))) = Lifecycle.DESTROYED /\
  ffmpegProcesses (manager (shutdown s)) = ffmpegProcesses (manager s) /\
  Forall (fun e => is_kill e = false) (shutdown_effects s).
Proof.
  intros s. split; [vm_compute; reflexivity |]. split; [vm_compute; reflexivity |].
  destruct (shutdown_spares_individual_sessions
              [(env0, OfManager (StartPlatformStream "a"))]
              (started (with_platforms [twitch "a" "X" true])))
    as (_ & _ & Hp & _ & Hk);
    [repeat constructor; discriminate | vm_compute; reflexivity |].
  split; [exact Hp | exact Hk].
Defined.

(** *** The bulk stop *)

Lemma fold_delete_lookup (l : list (string * nat)) (processes : gmap string nat) (k : string) :
  fold_left (fun acc kv => delete kv.1 acc) l processes !! k
  = if bool_decide (k ∈ l.*1) then None else processes !! k.
Proof.
  revert processes. induction l as [| [k0 h0] l IH]; intros processes; cbn.
  - reflexivity.
  - rewrite IH. destruct (decide (k = k0)) as [-> | Hne].
    + rewrite lookup_delete_eq. rewrite (bool_decide_eq_true_2 (k0 ∈ k0 :: l.*1)) by left.
      case_bool_decide; reflexivity.
    + rewrite lookup_delete_ne by congruence.
      case_bool_decide as H1; case_bool_decide as H2; try reflexivity.
      * exfalso. apply H2. right. exact H1.
      * exfalso. apply elem_of_cons in H2 as [H2 | H2]; [congruence | contradiction].
Qed.

Lemma fold_insert_lookup (l : list (string * nat)) (states : gmap string StreamState)
    (k : string) :
  fold_left (fun acc kv => <[kv.1 := disconnected]> acc) l states !! k
  = if bool_decide (k ∈ l.*1) then Some disconnected else states !! k.
Proof.
  revert states. induction l as [| [k0 h0] l IH]; intros states; cbn.
  - reflexivity.
  - rewrite IH. destruct (decide (k = k0)) as [-> | Hne].
    + rewrite lookup_insert_eq. rewrite (bool_decide_eq_true_2 (k0 ∈ k0 :: l.*1)) by left.
      case_bool_decide; reflexivity.
    + rewrite lookup_insert_ne by congruence.
      case_bool_decide as H1; case_bool_decide as H2; try reflexivity.
      * exfalso. apply H2. right. exact H1.
      * exfalso. apply elem_of_cons in H2 as [H2 | H2]; [congruence | contradiction].
Qed.

Lemma stopSession_run (kv : string * nat) (m : StreamManager) :
  stopSession kv m
  = (Ok tt,
     set_platformStreamStates
       (set_ffmpegProcesses
          (update_child kv.2 (fun c => match exitCode c with
                                       | None => with_killed c
                                       | Some _ => c
                                       end) m)
          (delete kv.1 (ffmpegProcesses m)))
       (<[kv.1 := disconnected]> (platformStreamStates m)),
     [Kill kv.2]).
Proof. reflexivity. Qed.

(** The loop of the bulk stop over a list of sessions. *)
Lemma stop_sessions (l : list (string * nat)) (m : StreamManager) :
  exists m',
    for_each l stopSession m = (Ok tt, m', map (fun kv => Kill kv.2) l) /\
    ffmpegProcesses m' = fold_left (fun acc kv => delete kv.1 acc) l (ffmpegProcesses m) /\
    platformStreamStates m'
    = fold_left (fun acc kv => <[kv.1 := disconnected]> acc) l (platformStreamStates m) /\
    config m' = config m /\ platformStatistics m' = platformStatistics m /\
    statisticsChanged m' = statisticsChanged m.
Proof.
  revert m. induction l as [| kv l IH]; intros m.
  - exists m. repeat split; reflexivity.
  - change (for_each (kv :: l) stopSession) with (stopSession kv ;; for_each l stopSession).
    unfold mbind, M_bind. rewrite stopSession_run.
    match goal with
    | |- context [for_each l stopSession ?m1] =>
        destruct (IH m1) as (m' & Hrun & Hp & Hs & Hc & Hst & Hch)
    end.
    exists m'. rewrite Hrun. repeat split; assumption.
Qed.

(** X10.  The bulk [stopStream], called with the bulk flag set, ends
    every session of the table, also those started one by one: it
    sends a kill signal for each entry and nothing else (no status
    snapshot), empties the table, clears the flag, and switches both
    flags of every destination that had a session off, so that each
    configured one of them is reported idle; destinations without a
    session keep their flags, and the stored statistics stay. *)
Theorem bulk_stop_ends_every_session (m : StreamManager) :
  streaming m = true ->
  exists m',
    stopStream m = (Ok tt, m', kills (ffmpegProcesses m)) /\
    streaming m' = false /\
    ffmpegProcesses m' = ∅ /\
    (forall id, is_Some (ffmpegProcesses m !! id) ->
       platformStreamStates m' !! id = Some disconnected) /\
    (forall id, ffmpegProcesses m !! id = None ->
       platformStreamStates m' !! id = platformStreamStates m !! id) /\
    platformStatistics m' = platformStatistics m /\
    (forall env cfg d,
       config m = Some cfg -> d ∈ platforms cfg ->
       is_Some (ffmpegProcesses m !! platformIdentifier d) ->
       exists ps, st_platforms (getStatus env m') !! platformIdentifier d = Some ps /\
                  ps_status ps = idle).
Proof.
  intros Hflag. unfold stopStream, mbind, M_bind, get, modify. cbn. rewrite Hflag. cbn.
  destruct (stop_sessions (map_to_list (ffmpegProcesses m)) m)
    as (m1 & Hrun & Hp & Hs & Hc & Hst & _).
  rewrite Hrun. cbn. rewrite app_nil_r.
  assert (Hkeys : forall id, id ∈ (map_to_list (ffmpegProcesses m)).*1 <->
                             is_Some (ffmpegProcesses m !! id)).
  { intros id. rewrite list_elem_of_fmap. split.
    - intros ([k h] & -> & Hin). apply elem_of_map_to_list in Hin. eauto.
    - intros [h Hh]. exists (id, h). split; [reflexivity |].
      apply elem_of_map_to_list. exact Hh. }
  assert (Hstates : forall id, is_Some (ffmpegProcesses m !! id) ->
                      platformStreamStates m1 !! id = Some disconnected).
  { intros id Hid. rewrite Hs, fold_insert_lookup.
    rewrite bool_decide_eq_true_2 by (apply Hkeys, Hid). reflexivity. }
  eexists. split; [reflexivity |]. cbn. split; [reflexivity |].
  split.
  { rewrite Hp. apply map_eq. intros k. rewrite fold_delete_lookup, lookup_empty.
    case_bool_decide as Hk; [reflexivity |].
    destruct (ffmpegProcesses m !! k) eqn:E; [| reflexivity].
    exfalso. apply Hk, Hkeys. eauto. }
  split; [exact Hstates |]. split.
  { intros id Hid. rewrite Hs, fold_insert_lookup.
    rewrite bool_decide_eq_false_2; [reflexivity |].
    intros Hin. apply Hkeys in Hin as [h Hh]. congruence. }
  split; [exact Hst |].
  intros env cfg d Hcfg Hd Hid. unfold platformStatuses. cbn. rewrite Hc, Hcfg.
  destruct (statuses_fold_lookup (set_streaming m1 false) (platforms cfg) ∅ d Hd)
    as (d' & _ & Hid' & Hl).
  eexists. split; [exact Hl |].
  apply disconnected_reported_idle. cbn. rewrite Hid'. apply Hstates, Hid.
Qed.

Lemma bulk_stop_ends_every_session_witness :
  let m := manager (supervisor all_started) in
  ffmpegProcesses m = {[ "a" := 0; "b" := 1 ]} /\
  exists m',
    stopStream m = (Ok tt, m', kills (ffmpegProcesses m)) /\
    ffmpegProcesses m' = ∅ /\
    platformStreamStates m' !! "a" = Some disconnected.
Proof.
  intros m. split; [vm_compute; reflexivity |].
  destruct (bulk_stop_ends_every_session m) as (m' & Hrun & _ & Hp & Hs & _);
    [vm_compute; reflexivity |].
  exists m'. split; [exact Hrun |]. split; [exact Hp |].
  apply Hs. exists 0. vm_compute. reflexivity.
Defined.

(** *** The bulk start *)

#[local] Arguments ffmpegArgs : simpl never.

Lemma adapterConfigure_run (key : string) (a : Adapter) (pc : PlatformConfig)
    (m : StreamManager) :
  exists m', (adapterConfigure key a pc m = (Ok (validateConfig a pc), m', [])) /\
             config m' = config m /\ streaming m' = streaming m.
Proof.
  unfold adapterConfigure. destruct (validateConfig a pc); cbn; eauto.
Qed.

(** Spawning one child, or failing to. *)
Lemma start_internal_run (env : Env) (pc : PlatformConfig) (id inputStream : string)
    (m : StreamManager) :
  exists r m' effs,
    (startPlatformStreamInternal env pc id inputStream;;
     setStreamState id live;; mret true) m = (r, m', effs) /\
    config m' = config m /\ streaming m' = streaming m /\
    ((r = Ok true /\ effs = [Spawn (length (children m)) (ffmpegArgs inputStream pc)]) \/
     ((exists e, r = Throw e) /\ Forall (fun e => is_log e = true) effs)).
Proof.
  unfold startPlatformStreamInternal, setStreamState, logMessage.
  destruct (ffmpegCheck env) as [err |].
  - destruct (wsService env); cbn; do 3 eexists;
      (split; [reflexivity |]); (split; [reflexivity |]); (split; [reflexivity |]);
      right; (split; [eauto | repeat constructor]).
  - cbn. do 3 eexists. split; [reflexivity |]. split; [reflexivity |].
    split; [reflexivity |]. left. split; reflexivity.
Qed.

Lemma startConfigs_spec (env : Env) (platform : Adapter) (inputStream : string)
    (cfg : StreamManagerConfig) (pcs : list PlatformConfig) :
  Forall (fun d => d ∈ platforms cfg /\ isEnabled d = true) pcs ->
  forall m, config m = Some cfg ->
    exists ids failed m' effs,
      startConfigs env platform inputStream pcs m = (Ok (ids, failed), m', effs) /\
      config m' = Some cfg /\ streaming m' = streaming m /\
      Forall (relays inputStream cfg) effs /\
      (ids <> [] -> Exists (fun e => is_spawn e = true) effs).
Proof.
  induction 1 as [| pc pcs [Hin Hen] _ IH]; intros m Hcfg.
  - exists [], false, m, []. repeat split; [exact Hcfg | constructor | congruence].
  - cbn [startConfigs]. unfold mbind at 1, M_bind at 1.
    destruct (adapterConfigure_run (platformName platform) platform pc m)
      as (m1 & -> & Hc1 & Hf1).
    destruct (validateConfig platform pc) as [err |].
    + destruct (IH m1) as (ids & failed & m' & effs & Hrun & Hc & Hf & Heffs & Hids);
        [congruence |].
      rewrite Hrun. exists ids, failed, m', effs. cbn.
      repeat split; try congruence; assumption.
    + unfold mbind at 1, M_bind at 1, try_catch.
      destruct (start_internal_run env pc (platformIdentifier pc) inputStream m1)
        as (r & m2 & effs2 & -> & Hc2 & Hf2 & [[-> ->] | [[e ->] Hlog]]).
      * destruct (IH m2) as (ids & failed & m' & effs & Hrun & Hc & Hf & Heffs & Hids);
          [congruence |].
        unfold mbind, M_bind. rewrite Hrun. cbn. rewrite app_nil_r.
        exists (platformIdentifier pc :: ids), failed, m',
          (Spawn (length (children m1)) (ffmpegArgs inputStream pc) :: effs).
        repeat split; try congruence.
        -- constructor; [| exact Heffs]. exists pc. auto.
        -- intros _. left. reflexivity.
      * cbn. rewrite !app_nil_r. exists [], true, m2, effs2.
        repeat split; try congruence.
        eapply Forall_impl; [exact Hlog |].
        intros [] Hx; try discriminate. exact Logic.I.
Qed.

Lemma enabledConfigs_spec (cfg : StreamManagerConfig) (platform : Adapter) :
  Forall (fun d => d ∈ platforms cfg /\ isEnabled d = true) (enabledConfigs cfg platform).
Proof.
  apply Forall_forall. intros d Hd. unfold enabledConfigs in Hd.
  apply list_elem_of_In, filter_In in Hd as [Hd Hb].
  apply andb_prop in Hb as [_ Hb]. split; [apply list_elem_of_In, Hd | exact Hb].
Qed.

Lemma startPlatforms_spec (env : Env) (inputStream : string) (cfg : StreamManagerConfig)
    (active : list Adapter) :
  forall m, config m = Some cfg ->
    exists ids failedNames m' effs,
      startPlatforms env inputStream active m = (Ok (ids, failedNames), m', effs) /\
      config m' = Some cfg /\ streaming m' = streaming m /\
      Forall (relays inputStream cfg) effs /\
      (ids <> [] -> Exists (fun e => is_spawn e = true) effs).
Proof.
  induction active as [| platform rest IH]; intros m Hcfg.
  - exists [], [], m, []. repeat split; [exact Hcfg | constructor | congruence].
  - cbn [startPlatforms]. unfold mbind, M_bind, get. cbn. rewrite Hcfg.
    destruct (startConfigs_spec env platform inputStream cfg _
                (enabledConfigs_spec cfg platform) m Hcfg)
      as (ids1 & failed & m1 & effs1 & -> & Hc1 & Hf1 & He1 & Hs1).
    destruct (IH m1 Hc1) as (ids2 & names & m2 & effs2 & -> & Hc2 & Hf2 & He2 & Hs2).
    cbn. do 4 eexists. split; [reflexivity |].
    split; [exact Hc2 |]. split; [congruence |].
    split; [rewrite app_nil_r; apply Forall_app; auto |].
    intros Hne. rewrite app_nil_r. apply Exists_app.
    destruct ids1 as [| i ids1]; [right; apply Hs2; exact Hne | left; apply Hs1; discriminate].
Qed.

(** X11.  The bulk [startStream] spawns relay children only for
    enabled destinations of the configuration, each reading from the
    ingest's current stream path on [rtmp://localhost:1935], and
    besides log entries sends nothing (no status snapshot).  It returns
    [true] only after at least one child was spawned, and then the bulk
    flag is set; when it throws, the flag is as before. *)
Theorem bulk_start_relays_enabled (env : Env) (m m' : StreamManager) (r : result bool)
    (effs : list effect) :
  startStream env m = (r, m', effs) ->
  (forall b, r = Ok b ->
     b = true /\ streaming m' = true /\ Exists (fun e => is_spawn e = true) effs) /\
  ((exists e, r = Throw e) -> streaming m' = streaming m) /\
  (forall cfg srv,
     config m = Some cfg -> rtmpServer env = Some srv ->
     Forall (relays ("rtmp://localhost:1935" ++ RTMPServer.getStreamPath srv) cfg) effs).
Proof.
  unfold startStream, mbind, M_bind, get, throw, modify. cbn.
  destruct (streamProvider m); cbn.
  2: { intros [= <- <- <-]. repeat split; [discriminate.. | constructor]. }
  destruct (config m) as [cfg |] eqn:Hcfg.
  2: { intros [= <- <- <-]. repeat split; [discriminate.. | constructor]. }
  case_bool_decide as Hactive.
  { intros [= <- <- <-]. repeat split; [discriminate.. | constructor]. }
  destruct (rtmpServer env) as [srv |] eqn:Hsrv.
  2: { intros [= <- <- <-]. repeat split; [discriminate.. | constructor]. }
  destruct (startPlatforms_spec env ("rtmp://localhost:1935" ++ RTMPServer.getStreamPath srv)
              cfg (List.filter (isActive cfg) (adapterValues env m)) m Hcfg)
    as (ids & names & m1 & effs1 & -> & Hc1 & Hf1 & He1 & Hs1).
  cbn. case_bool_decide as Hids; cbn.
  - intros [= <- <- <-]. rewrite app_nil_r.
    split; [discriminate |]. split; [intros _; exact Hf1 |].
    intros cfg' srv' [= <-] [= <-]. exact He1.
  - intros [= <- <- <-]. rewrite !app_nil_r.
    split; [intros b [= <-]; auto |]. split; [intros [e He]; discriminate |].
    intros cfg' srv' [= <-] [= <-]. exact He1.
Qed.

Lemma bulk_start_relays_enabled_witness :
  let sys := started two_twitch in
  exists m',
    startStream (envOf env0 (ingest sys)) (manager (supervisor sys))
    = (Ok true, m',
       [Spawn 0 (ffmpegArgs "rtmp://localhost:1935/live/obs" (twitch "a" "X" true));
        Spawn 1 (ffmpegArgs "rtmp://localhost:1935/live/obs" (twitch "b" "Y" true))]) /\
    streaming m' = true.
Proof.
  intros sys.
  destruct (startStream (envOf env0 (ingest sys)) (manager (supervisor sys)))
    as [[r m'] effs] eqn:E.
  exists m'.
  assert (Hr : r = Ok true /\
               effs = [Spawn 0 (ffmpegArgs "rtmp://localhost:1935/live/obs"
                                           (twitch "a" "X" true));
                       Spawn 1 (ffmpegArgs "rtmp://localhost:1935/live/obs"
                                           (twitch "b" "Y" true))])
    by (vm_compute in E; injection E as <- _ <-; split; reflexivity).
  destruct Hr as [-> ->].
  split; [reflexivity |].
  destruct (bulk_start_relays_enabled _ _ _ _ _ E) as (Hok & _ & _).
  destruct (Hok true eq_refl) as (_ & Hflag & _). exact Hflag.
Defined.

End SupervisorProps.

Module ListenerProps.
Import Exec ExecProps Relay StreamManager StreamManagerProps Supervisor SupervisorProps.

#[local] Arguments getStatus : simpl never.

(** *** What keeps the lifecycle of the supervisor *)

Lemma lifecycle_rebuild (m : StreamManager) :
  lifecycle (rebuildPlatformConfigMap m) = lifecycle m.
Proof. destruct (rebuild_is_set m) as [pm ->]. reflexivity. Qed.

Ltac lifecycle_side :=
  intros; unfold update_child; cbn; rewrite ?lifecycle_rebuild; assumption.

(** Once the module is activating or active, the methods and handlers
    of [StreamManager] leave the lifecycle alone: [initialize] throws. *)
Lemma handle_keeps_active (env : Env) (ev : StreamManager.event) :
  respects (fun m => Lifecycle.canDeactivate (lifecycle m) = true) (fun _ => True)
           (handle env ev).
Proof.
  destruct ev.
  1: { intros m H. unfold handle, initialize, mbind, M_bind, liftLifecycle.
       destruct (lifecycle m) as [st name] eqn:E. destruct st; try discriminate H;
         cbn; (split; [first [reflexivity | exact H] | constructor]). }
  all: unfold_methods; m_respects_with ltac:(lifecycle_side) ltac:(exact Logic.I).
Qed.

Lemma startConfigs_keeps_active (env : Env) (platform : Adapter) (inputStream : string)
    (pcs : list PlatformConfig) :
  respects (fun m => Lifecycle.canDeactivate (lifecycle m) = true) (fun _ => True)
           (startConfigs env platform inputStream pcs).
Proof.
  induction pcs as [| pc pcs IH]; cbn [startConfigs].
  - apply m_respects_ret.
  - unfold adapterConfigure, startPlatformStreamInternal, setStreamState, logMessage.
    m_respects_with ltac:(lifecycle_side) ltac:(exact Logic.I); exact IH.
Qed.

Lemma startPlatforms_keeps_active (env : Env) (inputStream : string) (active : list Adapter) :
  respects (fun m => Lifecycle.canDeactivate (lifecycle m) = true) (fun _ => True)
           (startPlatforms env inputStream active).
Proof.
  induction active as [| platform rest IH]; cbn [startPlatforms].
  - apply m_respects_ret.
  - apply m_respects_bind; [apply m_respects_get | intros m].
    apply m_respects_bind; [apply startConfigs_keeps_active | intros here].
    apply m_respects_bind; [exact IH | intros there]. apply m_respects_ret.
Qed.

Lemma bulk_keeps_active (env : Env) :
  respects (fun m => Lifecycle.canDeactivate (lifecycle m) = true) (fun _ => True)
           (startStream env) /\
  respects (fun m => Lifecycle.canDeactivate (lifecycle m) = true) (fun _ => True)
           stopStream.
Proof.
  split.
  - unfold startStream.
    m_respects_with ltac:(lifecycle_side) ltac:(exact Logic.I).
    apply startPlatforms_keeps_active.
  - unfold stopStream, stopSession, kill, forgetProcess, setStreamState.
    m_respects_with ltac:(lifecycle_side) ltac:(exact Logic.I).
Qed.

(** *** The listeners are attached only while the module is active *)

(** A method of [StreamManager] changes no listener. *)
Lemma lift_keeps_attached {A} (c : M A) :
  respects (fun m => Lifecycle.canDeactivate (lifecycle m) = true) (fun _ => True) c ->
  respects attached (fun _ => True) (lift c).
Proof.
  intros Hc s Hs. split; [| apply all_true]. unfold lift.
  destruct Hs as [H | [H1 H2]].
  - left. destruct (c (manager s)) as [[r m] effs]. exact H.
  - right. destruct (Hc (manager s) H2) as [H3 _].
    destruct (c (manager s)) as [[r m] effs]. split; assumption.
Qed.

Lemma lift_keeps_detached {A} (c : M A) :
  respects (fun s => eventListeners s = []) (fun _ => True) (lift c).
Proof.
  intros s Hs. split; [| apply all_true]. unfold lift.
  destruct (c (manager s)) as [[r m] effs]. exact Hs.
Qed.

Lemma markActive_keeps_active :
  respects (fun m => Lifecycle.canDeactivate (lifecycle m) = true) (fun _ => True)
           (liftLifecycle Lifecycle.markActive).
Proof.
  intros m H. unfold liftLifecycle, Lifecycle.markActive.
  destruct (lifecycle m) as [st name]. destruct st; try discriminate H;
    cbn; (split; [reflexivity | constructor]).
Qed.

Lemma activate_keeps_attached (env : Env) :
  respects attached (fun _ => True) (activate env).
Proof.
  intros s Hs. split; [| apply all_true]. unfold activate.
  eapply (after_bind attached); [reflexivity |].
  destruct (Lifecycle.canActivate (lifecycle (manager s))) eqn:Hcan; cbn [negb];
    [| exact Hs].
  assert (Hl : eventListeners s = []).
  { destruct Hs as [H | [_ H]]; [exact H |].
    destruct (lifecycle (manager s)) as [st name]. destruct st; discriminate. }
  destruct s as [m last ls]. cbn in Hl, Hcan. subst ls.
  eapply (after_bind attached);
    [unfold lift, liftLifecycle, Lifecycle.markActivating; cbn; rewrite Hcan; reflexivity |].
  assert (Hrest : respects attached (fun _ => True)
            (lift (for_each (adapters env) (fun a =>
                     modify (fun m => set_platformAdapters m
                                        (<[platformName a := a]> (platformAdapters m)))))
             ≫= fun _ => lift startStatisticsBroadcast
             ≫= fun _ => lift (liftLifecycle Lifecycle.markActive))).
  { apply respects_bind; [| intros _; apply respects_bind; [| intros _]];
      apply lift_keeps_attached; [| | apply markActive_keeps_active];
      unfold startStatisticsBroadcast;
      m_respects_with ltac:(lifecycle_side) ltac:(exact Logic.I). }
  destruct (rtmpServer env).
  - eapply (after_bind attached); [reflexivity |].
    apply Hrest. right. split; reflexivity.
  - eapply (after_bind attached); [reflexivity |].
    apply Hrest. left. reflexivity.
Qed.

Lemma detached_attached (c : S unit) :
  respects (fun s => eventListeners s = []) (fun _ => True) c ->
  forall s, eventListeners s = [] -> attached (c s).1.2.
Proof. intros Hc s Hs. left. apply Hc, Hs. Qed.

Lemma deactivate_keeps_attached : respects attached (fun _ => True) deactivate.
Proof.
  intros s Hs. split; [| apply all_true]. unfold deactivate.
  eapply (after_bind attached); [reflexivity |].
  destruct (Lifecycle.canDeactivate (lifecycle (manager s))) eqn:Hcan; cbn [negb];
    [| exact Hs].
  destruct (lift (liftLifecycle Lifecycle.markDeactivating) s) as [[[[] | e] s1] effs1] eqn:E1.
  2: { unfold lift, liftLifecycle, Lifecycle.markDeactivating in E1. rewrite Hcan in E1.
       discriminate E1. }
  eapply (after_bind attached); [exact E1 |].
  eapply (after_bind attached); [reflexivity |].
  apply detached_attached; [| reflexivity].
  repeat (apply respects_bind; [| intros _]); apply lift_keeps_detached.
Qed.

Lemma destroy_keeps_attached : respects attached (fun _ => True) destroy.
Proof.
  intros s Hs. split; [| apply all_true]. unfold destroy.
  eapply (after_bind attached); [reflexivity |].
  destruct (Lifecycle.canDestroy (lifecycle (manager s))) eqn:Hcan; cbn [negb];
    [| exact Hs].
  apply detached_attached.
  - repeat (apply respects_bind; [| intros _]); apply lift_keeps_detached.
  - destruct Hs as [H | [_ H]]; [exact H |].
    destruct (lifecycle (manager s)) as [st name]. destruct st; discriminate.
Qed.

Lemma call_keeps_attached (env : Env) (ev : event) :
  respects attached (fun _ => True) (call env ev).
Proof.
  destruct ev as [mev | | | | | | ms iev]; cbn [call].
  - apply lift_keeps_attached, handle_keeps_active.
  - apply activate_keeps_attached.
  - apply deactivate_keeps_attached.
  - apply destroy_keeps_attached.
  - apply respects_bind; [| intros _; apply respects_ret].
    apply lift_keeps_attached, (bulk_keeps_active env).
  - apply lift_keeps_attached, (bulk_keeps_active env).
  - apply respects_ret.
Qed.

Ltac attached_side := intros ? H; exact H.

Lemma deliver_keeps_attached (env : Env) (e : RTMPServer.effect) :
  respects attached (fun _ => True) (deliver env e).
Proof.
  unfold deliver, streamingListener, donePublishListener, statusChangeListener.
  respects_with ltac:(attached_side);
    apply lift_keeps_attached; unfold broadcastStatus, logMessage;
    m_respects_with ltac:(lifecycle_side) ltac:(exact Logic.I).
Qed.

Lemma step_keeps_attached (env : Env) (ev : event) (sys : System) :
  attached (supervisor sys) -> attached (supervisor (step env ev sys).1).
Proof.
  intros H.
  assert (Hcall : forall ev', attached (call (envOf env (ingest sys)) ev' (supervisor sys)).1.2)
    by (intros ev'; apply (call_keeps_attached _ ev' (supervisor sys) H)).
  destruct ev as [mev | | | | | | ms iev]; cbn [step].
  1: specialize (Hcall (OfManager mev)).
  2: specialize (Hcall Activate).
  3: specialize (Hcall Deactivate).
  4: specialize (Hcall Destroy).
  5: specialize (Hcall StartStream).
  6: specialize (Hcall StopStream).
  1-6: destruct (call _ _ (supervisor sys)) as [[r s] effs]; exact Hcall.
  destruct (Ingest.handle ms iev (ingest sys)) as [[r i] emitted].
  assert (Hd : respects attached (fun _ => True)
                 (Exec.for_each emitted (fun told => deliver (envAt env told.2) told.1)))
    by (apply respects_for_each; intros told; apply deliver_keeps_attached).
  destruct (Hd (supervisor sys) H) as [H1 _].
  destruct (Exec.for_each emitted _ (supervisor sys)) as [[r' s] effs]. exact H1.
Qed.

Lemma run_keeps_attached (evs : list (Env * event)) (sys : System) :
  attached (supervisor sys) -> attached (supervisor (run evs sys).1).
Proof.
  revert sys. induction evs as [| [env ev] evs IH]; intros sys H; [exact H |].
  cbn [run]. pose proof (step_keeps_attached env ev sys H) as H1.
  destruct (step env ev sys) as [sys1 effs1]. specialize (IH sys1 H1).
  destruct (run evs sys1) as [sys2 effs2]. exact IH.
Qed.

(** *** What the ingest tells in an event *)

Lemma for_each_idle {S E A : Type} (l : list A) (body : A -> Eff S E unit) (s : S) :
  (forall x, body x s = (Ok tt, s, [])) -> Exec.for_each l body s = (Ok tt, s, []).
Proof.
  intros Hb. induction l as [| x l IH]; [reflexivity |].
  cbn [Exec.for_each]. unfold mbind, Eff_bind. rewrite Hb, IH. reflexivity.
Qed.

Lemma silent_respects {A} (c : Ingest.M A) :
  respects (fun _ => True) (fun _ => False) c -> Ingest.silent c.
Proof.
  intros Hc i. destruct (Hc i Logic.I) as [_ H]. destruct (c i).2 as [| e l]; [reflexivity |].
  apply Forall_cons in H as [[] _].
Qed.

Ltac silent_call :=
  apply silent_respects;
  unfold Ingest.initialize, Ingest.activate, Ingest.startServer, Ingest.updateConfig,
    Ingest.connect, Ingest.disconnect, Ingest.subscribe, Ingest.unsubscribe;
  respects_with ltac:(auto);
  apply IngestProps.respects_mark; auto.

Lemma endings_silent {A} (n : nat) (c : Ingest.M A) :
  Ingest.silent c -> Ingest.tells_endings n c.
Proof. intros Hc i. exists []. rewrite Hc. split; [cbn; lia | reflexivity]. Qed.

Lemma endings_after {A B} (n : nat) (c : Ingest.M A) (f : A -> Ingest.M B) :
  Ingest.silent c -> (forall a, Ingest.tells_endings n (f a)) ->
  Ingest.tells_endings n (c ≫= f).
Proof.
  intros Hc Hf i. unfold mbind, Eff_bind. specialize (Hc i).
  destruct (c i) as [[[a | e] i1] heard1]; cbn in Hc; subst heard1.
  - destruct (Hf a i1) as (fires & Hn & Hh). destruct (f a i1) as [[r i2] heard2].
    exists fires. split; [exact Hn | exact Hh].
  - exists []. split; [cbn; lia | reflexivity].
Qed.

Lemma endings_before {A B} (n : nat) (c : Ingest.M A) (f : A -> Ingest.M B) :
  Ingest.tells_endings n c -> (forall a, Ingest.silent (f a)) ->
  Ingest.tells_endings n (c ≫= f).
Proof.
  intros Hc Hf i. unfold mbind, Eff_bind. destruct (Hc i) as (fires & Hn & Hh).
  destruct (c i) as [[[a | e] i1] heard1]; cbn in Hh.
  - specialize (Hf a i1). destruct (f a i1) as [[r i2] heard2]. cbn in Hf. subst heard2.
    exists fires. cbn. rewrite app_nil_r. split; [exact Hn | exact Hh].
  - exists fires. split; [exact Hn | exact Hh].
Qed.

(** The hooks that [stop()] sets off, whether attached or not. *)
Lemma stop_tells (fires : list (string * string)) :
  Ingest.tells_endings (length fires)
    (Exec.for_each fires (fun fired =>
       Ingest.whenAttached
         (Ingest.hook (fun srv => RTMPServer.onDonePublish srv fired.1 fired.2)))).
Proof.
  intros i. destruct (decide (Ingest.hooks i = 0)) as [E | E].
  - exists []. split; [cbn; lia |].
    rewrite for_each_idle; [reflexivity |]. intros fired.
    unfold Ingest.whenAttached, mbind, Eff_bind, Exec.get. cbn. rewrite E. reflexivity.
  - destruct (IngestProps.stop_fires fires i E) as (heard & Hrun & Hheard).
    exists fires. rewrite Hrun. split; [lia | exact Hheard].
Qed.

Lemma stopServer_tells (ms : Ingest.MediaServer) :
  Ingest.tells_endings (length (Ingest.stopFires ms)) (Ingest.stopServer ms).
Proof.
  unfold Ingest.stopServer.
  apply endings_after; [intros i; reflexivity | intros i].
  destruct (negb (Ingest.nms i)); [apply endings_silent; intros ?; reflexivity |].
  apply endings_before; [apply stop_tells | intros _].
  destruct (Ingest.stopThrows ms); intros ?; reflexivity.
Qed.

Lemma silent_mark (f : Lifecycle.ModuleLifecycle -> Lifecycle.effect) :
  Ingest.silent (Ingest.mark f).
Proof. apply silent_respects, IngestProps.respects_mark. auto. Qed.

Lemma shutdown_tells (ms : Ingest.MediaServer) :
  Ingest.tells_endings (length (Ingest.stopFires ms)) (Ingest.deactivate ms) /\
  Ingest.tells_endings (length (Ingest.stopFires ms)) (Ingest.destroy ms).
Proof.
  assert (Hrest : forall f, Ingest.silent (Ingest.disconnect ≫= fun _ => Ingest.mark f)).
  { intros f. apply silent_respects. unfold Ingest.disconnect.
    respects_with ltac:(auto). apply IngestProps.respects_mark. auto. }
  split; unfold Ingest.deactivate, Ingest.destroy.
  all: apply endings_after; [intros i; reflexivity | intros i].
  all: match goal with |- context [if ?b then _ else _] => destruct b end;
    [apply endings_silent; intros ?; reflexivity |].
  all: apply endings_after; [apply silent_mark | intros _].
  all: apply endings_before; [apply stopServer_tells | intros _; apply Hrest].
Qed.

(** One run of a hook tells nothing, or what the hook emits, each with
    the object as the hook leaves it. *)
Lemma run_tells (h : RTMPServer.RTMPServer -> RTMPServer.RTMPServer * list RTMPServer.effect)
    (i : Ingest.Ingest) :
  (Ingest.whenAttached (Ingest.hook h) i).2 = [] \/
  (Ingest.whenAttached (Ingest.hook h) i).2
  = map (fun e => (e, (h (Ingest.server i)).1)) (h (Ingest.server i)).2.
Proof.
  unfold Ingest.whenAttached, Ingest.hook, mbind, Eff_bind, Exec.get. cbn.
  destruct (Ingest.hooks i); cbn; [left; reflexivity | right].
  destruct (h (Ingest.server i)) as [srv effs]. reflexivity.
Qed.

Lemma prePublish_tells (ms : Ingest.MediaServer) (id path : string) (i : Ingest.Ingest) :
  (Ingest.handle ms (Ingest.PrePublish id path) i).2 = [] \/
  (Ingest.handle ms (Ingest.PrePublish id path) i).2
  = map (fun e => (e, (RTMPServer.onPrePublish (Ingest.server i) id path).1))
        (RTMPServer.onPrePublish (Ingest.server i) id path).2.
Proof.
  cbn [Ingest.handle].
  unfold Ingest.whenAttached, Ingest.prePublishHook, Ingest.hook, mbind, Eff_bind,
    Exec.get, Exec.throw. cbn.
  destruct (Ingest.hooks i); cbn; [left; reflexivity |].
  destruct (RTMPServer.rejected id _ && _); cbn; [left; reflexivity | right].
  destruct (RTMPServer.onPrePublish (Ingest.server i) id path) as [srv effs]. reflexivity.
Qed.

(** *** What the supervisor sends on an event of the ingest *)

Lemma deliver_detached (env : Env) (heard : list Ingest.Heard) (s : Supervisor) :
  eventListeners s = [] ->
  Exec.for_each heard (fun told => deliver (envAt env told.2) told.1) s = (Ok tt, s, []).
Proof.
  intros H. apply for_each_idle. intros told.
  unfold deliver, mbind, Eff_bind, Exec.get. rewrite H. reflexivity.
Qed.

(** The callbacks of the subscribers are not events: no listener runs. *)
Lemma skip_callbacks (env : Env) (srv : RTMPServer.RTMPServer) (subs : list string)
    (st : RTMPServer.StreamStatus) (rest : list RTMPServer.effect) (s : Supervisor) :
  Exec.for_each (map (fun e => (e, srv))
                     (map (fun sub => RTMPServer.Callback sub st) subs ++ rest))
                (fun told => deliver (envAt env told.2) told.1) s
  = Exec.for_each (map (fun e => (e, srv)) rest)
                  (fun told => deliver (envAt env told.2) told.1) s.
Proof.
  induction subs as [| sub subs IH]; [reflexivity |].
  cbn [map app Exec.for_each]. unfold mbind, Eff_bind at 1.
  assert (E : deliver (envAt env srv) (RTMPServer.Callback sub st) s = (Ok tt, s, [])).
  { unfold deliver, mbind, Eff_bind, Exec.get.
    rewrite for_each_idle; [reflexivity |]. intros []; reflexivity. }
  cbn [fst snd]. rewrite E, IH.
  destruct (Exec.for_each (map (fun e => (e, srv)) rest) _ s) as [[r s'] effs]. reflexivity.
Qed.

(** One run of the [donePublish] hook, heard by the three listeners:
    the first of the two emits sends the snapshot, and records the
    status that the second one compares with. *)
Lemma deliver_ending (env1 env2 : Env) (path : string) (s : Supervisor) :
  eventListeners s = [StreamingListener; DonePublishListener; StatusChangeListener] ->
  exists s1 s2 effs,
    deliver env1 (RTMPServer.EmitDonePublish path) s = (Ok tt, s1, effs) /\
    deliver env2 (RTMPServer.EmitStatusChange RTMPServer.IDLE) s1 = (Ok tt, s2, []) /\
    eventListeners s2 = [StreamingListener; DonePublishListener; StatusChangeListener] /\
    (effs = [] \/ exists snapshot, effs = [BroadcastStatus snapshot]).
Proof.
  intros H. destruct s as [m last ls]. cbn in H. subst ls.
  destruct env1 as [[] srv1 ads1 chk1 ins1 dev1], env2 as [[] srv2 ads2 chk2 ins2 dev2];
    cbv -[getStatus]; do 3 eexists; repeat split; eauto.
Qed.

Lemma deliver_endings (env : Env) (fires : list (string * string)) :
  forall (heard : list Ingest.Heard) (s : Supervisor),
    heard.*1 = Ingest.endings fires ->
    eventListeners s = [StreamingListener; DonePublishListener; StatusChangeListener] ->
    exists s' effs,
      Exec.for_each heard (fun told => deliver (envAt env told.2) told.1) s
      = (Ok tt, s', effs) /\
      Forall (fun e => is_snapshot e = true) effs /\ length effs <= length fires.
Proof.
  induction fires as [| [id path] fires IH]; intros heard s Hheard Hs.
  - destruct heard; [| discriminate]. exists s, []. repeat split; [constructor | cbn; lia].
  - destruct heard as [| [e1 srv1] [| [e2 srv2] heard]]; try discriminate.
    cbn in Hheard. injection Hheard as -> -> Hheard.
    destruct (deliver_ending (envAt env srv1) (envAt env srv2) path s Hs)
      as (s1 & s2 & effs & E1 & E2 & Hs2 & Heffs).
    destruct (IH heard s2 Hheard Hs2) as (s' & effs' & E3 & Hall & Hlen).
    exists s', (effs ++ effs')%list. split.
    + cbn [Exec.for_each fst snd]. unfold mbind, Eff_bind. rewrite E1, E2, E3. reflexivity.
    + split.
      * apply Forall_app. split; [| exact Hall].
        destruct Heffs as [-> | [snapshot ->]]; repeat constructor.
      * rewrite length_app. cbn [length].
        destruct Heffs as [-> | [snapshot ->]]; cbn; lia.
Qed.

(** X12.  Whatever happened before, one run of a publish hook makes
    the supervisor send nothing or one status snapshot; [deactivate]
    and [destroy] of the ingest make it send at most one snapshot for
    each run of the [donePublish] hook that [stop()] sets off, and the
    other methods of the ingest nothing.  (Once the ingest has been
    activated [n] times, an event of the media server runs each hook
    [n] times, and so may send [n] snapshots.)  No event of the ingest
    makes the supervisor send a log entry: the entries [OBS stream
    started] and [OBS stream stopped] of the [statusChange] listener
    are never sent, because the ingest emits [streaming] and
    [donePublish] before [statusChange], and the listeners of those,
    registered first, record the status the third one compares with. *)
Theorem hook_run_sends_at_most_one_snapshot (cfg : RTMPServer.RTMPServerConfig)
    (evs : list (Env * event)) (env : Env) (ms : Ingest.MediaServer) (iev : Ingest.event) :
  let sys := (run evs (fresh cfg)).1 in
  let effs := (step env (OfIngest ms iev) sys).2 in
  Forall (fun e => is_snapshot e = true) effs /\ length effs <= Ingest.hookRuns ms iev.
Proof.
  intros sys effs. subst effs.
  assert (Hatt : attached (supervisor sys))
    by (apply run_keeps_attached; left; reflexivity).
  assert (Hstep : (step env (OfIngest ms iev) sys).2
                  = (Exec.for_each (Ingest.handle ms iev (ingest sys)).2
                       (fun told => deliver (envAt env told.2) told.1) (supervisor sys)).2).
  { cbn [step]. destruct (Ingest.handle ms iev (ingest sys)) as [[r i] heard].
    cbn [snd]. destruct (Exec.for_each heard _ (supervisor sys)) as [[r' s'] effs'].
    reflexivity. }
  rewrite Hstep. clear Hstep.
  destruct Hatt as [H | [H _]].
  { rewrite (deliver_detached _ _ _ H). split; [constructor | cbn; lia]. }
  assert (Hnone : forall heard : list Ingest.Heard,
             heard = [] ->
             Forall (fun e => is_snapshot e = true)
               (Exec.for_each heard (fun told => deliver (envAt env told.2) told.1)
                              (supervisor sys)).2 /\
             length (Exec.for_each heard (fun told => deliver (envAt env told.2) told.1)
                                   (supervisor sys)).2 <= Ingest.hookRuns ms iev).
  { intros heard ->. split; [constructor | cbn; lia]. }
  assert (Hsilent : forall c : Ingest.M unit,
             Ingest.silent c ->
             Forall (fun e => is_snapshot e = true)
               (Exec.for_each (c (ingest sys)).2
                  (fun told => deliver (envAt env told.2) told.1) (supervisor sys)).2 /\
             length (Exec.for_each (c (ingest sys)).2
                       (fun told => deliver (envAt env told.2) told.1) (supervisor sys)).2
             <= Ingest.hookRuns ms iev).
  { intros c Hc. apply Hnone, Hc. }
  assert (Hshut : forall c : Ingest.M unit,
             Ingest.tells_endings (length (Ingest.stopFires ms)) c ->
             Forall (fun e => is_snapshot e = true)
               (Exec.for_each (c (ingest sys)).2
                  (fun told => deliver (envAt env told.2) told.1) (supervisor sys)).2 /\
             length (Exec.for_each (c (ingest sys)).2
                       (fun told => deliver (envAt env told.2) told.1) (supervisor sys)).2
             <= length (Ingest.stopFires ms)).
  { intros c Hc. destruct (Hc (ingest sys)) as (fires & Hn & Hh).
    destruct (deliver_endings env fires _ (supervisor sys) Hh H)
      as (s' & effs & E & Hall & Hlen).
    rewrite E. split; [exact Hall | cbn; lia]. }
  destruct (supervisor sys) as [m last ls] eqn:Es. cbn in H. subst ls.
  destruct iev as [| | | | newConfig | | | sub | sub | pid path | pid path | pid path];
    cbn [Ingest.hookRuns Ingest.handle].
  1, 2, 5, 6, 7, 8, 9: apply Hsilent; silent_call.
  - apply Hshut, shutdown_tells.
  - apply Hshut, shutdown_tells.
  - destruct (prePublish_tells ms pid path (ingest sys)) as [E | E];
      cbn [Ingest.handle] in E; rewrite E; [apply Hnone; reflexivity |].
    generalize (RTMPServer.onPrePublish (Ingest.server (ingest sys)) pid path).1.
    intros srv. unfold RTMPServer.onPrePublish.
    destruct (JsString.truthy _ && _); cbn [snd map];
      destruct env as [[] srv0 ads chk ins dev]; destruct last as [[] |];
      cbv -[getStatus]; (split; [repeat constructor | lia]).
  - destruct (run_tells (fun srv => RTMPServer.onPostPublish srv pid path) (ingest sys))
      as [E | E]; rewrite E; [apply Hnone; reflexivity |]. cbn beta.
    generalize (RTMPServer.onPostPublish (Ingest.server (ingest sys)) pid path).1.
    intros srv. cbn [RTMPServer.onPostPublish snd]. rewrite skip_callbacks.
    destruct env as [[] srv0 ads chk ins dev]; destruct last as [[] |];
      cbv -[getStatus]; (split; [repeat constructor | lia]).
  - destruct (run_tells (fun srv => RTMPServer.onDonePublish srv pid path) (ingest sys))
      as [E | E]; rewrite E; [apply Hnone; reflexivity |]. cbn beta.
    generalize (RTMPServer.onDonePublish (Ingest.server (ingest sys)) pid path).1.
    intros srv. cbn [RTMPServer.onDonePublish snd].
    destruct env as [[] srv0 ads chk ins dev]; destruct last as [[] |];
      cbv -[getStatus]; (split; [repeat constructor | lia]).
Qed.

(** After a restart one [deactivate] that ends one publish runs the
    [donePublish] hook twice, and the supervisor sends two snapshots. *)
Lemma restart_doubles_snapshots :
  Ingest.hooks (ingest restarted_on_air) = 2 /\
  exists first second,
    (step env0 (OfIngest (Ingest.ending "c1" "/live/obs" 2) Ingest.Deactivate)
          restarted_on_air).2
    = [BroadcastStatus first; BroadcastStatus second].
Proof. split; [reflexivity |]. vm_compute. eauto. Qed.

End ListenerProps.

Module SessionsProps.
Import Exec ExecProps Relay StreamManager StreamManagerProps SupervisorProps Sessions.

(** *** The close handler *)

(** X13.  The [close] handler of a child ends the session of the
    child's destination, whichever child the table holds for it: the
    entry of the destination is deleted, both its flags are switched
    off and its statistics dropped, while no child is killed and no
    other child is touched.  So when a destination was stopped and
    started again, the late [close] of the first child removes the
    entry of the second, which goes on relaying untracked. *)
Theorem close_ends_session_of_destination (env : Env) (h : nat) (code : option Z)
    (m : StreamManager) (c : ChildProcess) :
  children m !! h = Some c -> listening c = true ->
  let m' := (onClose env h code m).1.2 in
  ffmpegProcesses m' = delete (child_platform c) (ffmpegProcesses m) /\
  platformStreamStates m' !! child_platform c = Some disconnected /\
  platformStatistics m' !! child_platform c = None /\
  (forall h', h' <> h -> children m' !! h' = children m !! h') /\
  Forall (fun e => Supervisor.is_kill e = false) (onClose env h code m).2.
Proof.
  intros Hc Hl m'. subst m'.
  assert (E : children (update_child h (with_exitCode code) m) !! h
              = Some (with_exitCode code c))
    by (unfold update_child, set_children; cbn [children];
        rewrite list_lookup_alter_eq, Hc; reflexivity).
  unfold onClose, mbind, M_bind, modify, get. cbn -[update_child]. rewrite E.
  cbn -[update_child]. rewrite Hl.
  unfold logMessage, broadcastStatus, clearStatistics, forgetProcess, setStreamState,
    when, mbind, M_bind, get, perform, modify.
  destruct (wsService env), (bool_decide (code = Some 0%Z)); cbn;
    (split; [reflexivity |]); (split; [apply lookup_insert_eq |]);
    (split; [apply lookup_delete_eq |]);
    (split; [intros h' Hh'; rewrite !list_lookup_alter_ne by congruence; reflexivity |]);
    repeat constructor.
Qed.

Lemma close_ends_session_of_destination_witness :
  ffmpegProcesses restarted = {[ "a" := 1 ]} /\
  let m' := (onClose env0 0 None restarted).1.2 in
  ffmpegProcesses m' = ∅ /\
  (killed <$> children m' !! 1) = Some false /\
  (exitCode <$> children m' !! 1) = Some None /\
  platformStreamStates m' !! "a" = Some disconnected.
Proof.
  split; [vm_compute; reflexivity |].
  destruct (close_ends_session_of_destination env0 0 None restarted
              {| child_platform := "a"; child_rtmps := false;
                 child_args := ffmpegArgs "rtmp://localhost:1935/live/obs" (twitch "a" "X" true);
                 killed := true; exitCode := None; listening := true;
                 stdoutBufferSize := 0; stderrBufferSize := 0 |})
    as (Hp & Hs & _ & Hch & _); [vm_compute; reflexivity | reflexivity |].
  cbn zeta. split; [rewrite Hp; vm_compute; reflexivity |].
  rewrite (Hch 1) by discriminate.
  split; [vm_compute; reflexivity |]. split; [vm_compute; reflexivity |]. exact Hs.
Defined.

(** *** After [close] or [error] *)

Lemma children_rebuild (m : StreamManager) :
  children (rebuildPlatformConfigMap m) = children m.
Proof. destruct (rebuild_is_set m) as [pm ->]. reflexivity. Qed.

Lemma detached_alter (h h' : nat) (f : ChildProcess -> ChildProcess) (m : StreamManager) :
  (forall c, listening c = false -> listening (f c) = false) ->
  detached h m -> detached h (update_child h' f m).
Proof.
  intros Hf (c & Hc & Hl). unfold detached, update_child, set_children. cbn [children].
  destruct (decide (h' = h)) as [-> | Hne].
  - rewrite list_lookup_alter_eq, Hc. eexists. split; [reflexivity | apply Hf, Hl].
  - rewrite list_lookup_alter_ne by exact Hne. eauto.
Qed.

Ltac detached_side :=
  let H := fresh "H" in
  (intros ? ? H || intros ? H);
  first
    [ apply detached_alter;
      [ let c := fresh "c" in
        let Hc := fresh "Hc" in
        intros c Hc; cbn; try destruct (exitCode c); first [exact Hc | reflexivity]
      | exact H ]
    | let c := fresh "c" in
      let Hc := fresh "Hc" in
      let Hl := fresh "Hl" in
      destruct H as (c & Hc & Hl); exists c; split; [| exact Hl];
      cbn; rewrite ?children_rebuild;
      first [ exact Hc | apply lookup_app_l_Some; exact Hc ] ].

(** Nothing attaches handlers to a child again, and no child is ever
    removed. *)
Lemma handle_keeps_detached (env : Env) (ev : event) (h : nat) :
  respects (detached h) (fun _ => True) (handle env ev).
Proof.
  destruct ev; unfold_methods;
    m_respects_with ltac:(detached_side) ltac:(exact Logic.I).
Qed.

Lemma run_keeps_detached (evs : list (Env * event)) (h : nat) (m : StreamManager) :
  detached h m -> detached h (run evs m).1.
Proof.
  revert m. induction evs as [| [env ev] evs IH]; intros m H; [exact H |].
  cbn [run]. unfold step.
  destruct (handle_keeps_detached env ev h m H) as [H1 _].
  destruct (handle env ev m) as [[r m1] effs1]. specialize (IH m1 H1).
  destruct (run evs m1) as [m2 effs2]. exact IH.
Qed.

(** The [error] and the [close] handler detach the handlers of their
    child. *)
Lemma end_detaches (env : Env) (ev : event) (h : nat) (m : StreamManager) :
  h < length (children m) -> ends_child h ev = true -> detached h (step env ev m).1.
Proof.
  intros Hlt Hev. apply lookup_lt_is_Some in Hlt as [c Hc].
  assert (Hdone : forall (f : ChildProcess -> ChildProcess) (c' : ChildProcess) m',
             children m' !! h = Some c' -> listening (f c') = false ->
             detached h (update_child h f m')).
  { intros f c' m' Hc' Hf. unfold detached, update_child, set_children. cbn [children].
    rewrite list_lookup_alter_eq, Hc'. eauto. }
  destruct ev; try discriminate Hev; apply Nat.eqb_eq in Hev; subst h0.
  - unfold step, handle, onError, mbind, M_bind, get. rewrite Hc.
    destruct (listening c) eqn:Hl; [| exists c; auto].
    assert (H1 : detached h (update_child h without_listeners m))
      by (apply (Hdone _ c); [exact Hc | reflexivity]).
    assert (Hrest : respects (detached h) (fun _ => True)
              (forgetProcess (child_platform c);; clearStatistics (child_platform c);;
               setStreamState (child_platform c) disconnected;;
               logMessage env error (tag (child_platform c) ++ "Error: " ++ message)
                          (Some (child_platform c));;
               broadcastStatus env)).
    { unfold forgetProcess, clearStatistics, setStreamState, logMessage, broadcastStatus.
      m_respects_with ltac:(detached_side) ltac:(exact Logic.I). }
    destruct (Hrest _ H1) as [H2 _]. unfold when, modify, mbind, M_bind in *. cbn in *.
    repeat case_match; simplify_eq; assumption.
  - assert (E : children (update_child h (with_exitCode code) m) !! h
                = Some (with_exitCode code c))
      by (unfold update_child, set_children; cbn [children];
          rewrite list_lookup_alter_eq, Hc; reflexivity).
    unfold step, handle, onClose, mbind, M_bind, modify, get. cbn -[update_child]. rewrite E.
    cbn -[update_child].
    destruct (listening c) eqn:Hl;
      [| cbn -[update_child]; apply (Hdone _ c); [exact Hc | exact Hl]].
    assert (H1 : detached h (update_child h without_listeners
                               (update_child h (with_exitCode code) m)))
      by (apply (Hdone _ (with_exitCode code c)); [exact E | reflexivity]).
    assert (Hrest : respects (detached h) (fun _ => True)
              (forgetProcess (child_platform c);; clearStatistics (child_platform c);;
               setStreamState (child_platform c) disconnected;;
               (if bool_decide (code = Some 0%Z) then
                  logMessage env info ("Stream stopped for platform " ++ child_platform c)
                             (Some (child_platform c))
                else
                  logMessage env error
                             ("Stream process exited with code " ++ show_code code
                              ++ " for platform " ++ child_platform c)
                             (Some (child_platform c)));;
               broadcastStatus env)).
    { unfold forgetProcess, clearStatistics, setStreamState, logMessage, broadcastStatus.
      m_respects_with ltac:(detached_side) ltac:(exact Logic.I). }
    destruct (Hrest _ H1) as [H2 _]. unfold when, modify, mbind, M_bind in *. cbn in *.
    repeat case_match; simplify_eq; assumption.
Qed.

(** An event of a child whose handlers are detached. *)
Lemma detached_silent (env : Env) (ev : event) (h : nat) (m : StreamManager) :
  detached h m -> of_child h ev = true ->
  (step env ev m).2 = [] /\ tables (step env ev m).1 = tables m.
Proof.
  intros (c & Hc & Hl) Hev.
  destruct ev; try discriminate Hev; apply Nat.eqb_eq in Hev; subst h0;
    unfold step, handle.
  - unfold onStdoutData, mbind, M_bind, get. rewrite Hc, Hl. split; reflexivity.
  - unfold onStderrData, mbind, M_bind, get. rewrite Hc, Hl. split; reflexivity.
  - unfold onError, mbind, M_bind, get. rewrite Hc, Hl. split; reflexivity.
  - assert (E : children (update_child h (with_exitCode code) m) !! h
                = Some (with_exitCode code c))
      by (unfold update_child, set_children; cbn [children];
          rewrite list_lookup_alter_eq, Hc; reflexivity).
    unfold onClose, mbind, M_bind, modify, get. cbn -[update_child]. rewrite E.
    cbn -[update_child]. rewrite Hl. split; reflexivity.
Qed.

(** X14.  Once the [error] or the [close] handler of a child has run,
    that child is never heard again: whatever happens in between,
    including a restart of its destination, a later chunk of its
    output, a later [error] or a later [close] of it sends nothing and
    leaves the session table, the flags of the destinations and the
    statistics as they are. *)
Theorem ended_child_stays_silent (env env' : Env) (ev0 ev : event) (h : nat)
    (evs : list (Env * event)) (m : StreamManager) :
  h < length (children m) -> ends_child h ev0 = true -> of_child h ev = true ->
  let m1 := (run ((env, ev0) :: evs) m).1 in
  (step env' ev m1).2 = [] /\ tables (step env' ev m1).1 = tables m1.
Proof.
  intros Hlt Hev0 Hev m1. apply (detached_silent env' ev h); [| exact Hev].
  subst m1. cbn [run]. pose proof (end_detaches env ev0 h m Hlt Hev0) as H0.
  destruct (step env ev0 m) as [m0 effs0].
  pose proof (run_keeps_detached evs h m0 H0) as H1.
  destruct (run evs m0) as [m2 effs2]. exact H1.
Qed.

Lemma ended_child_stays_silent_witness :
  let m1 := (run [(env0, ChildClose 0 (Some 1%Z)); (env0, StartPlatformStream "a")]
                 a_running).1 in
  ffmpegProcesses m1 = {[ "a" := 1 ]} /\
  (step env0 (StderrData 0 stats_line) m1).2 = [] /\
  (step env0 (StderrData 1 stats_line) m1).2 <> [].
Proof.
  intros m1. split; [vm_compute; reflexivity |].
  split; [| vm_compute; discriminate].
  apply (ended_child_stays_silent env0 env0 (ChildClose 0 (Some 1%Z))
           (StderrData 0 stats_line) 0 [(env0, StartPlatformStream "a")] a_running);
    [vm_compute; lia | reflexivity | reflexivity].
Defined.

End SessionsProps.

Module ConfigEdgeProps.
Import JsValue Config ConfigEdge.

(** X15.  A configuration file that is missing, that does not parse,
    or whose document has no properties never makes [loadConfig]
    throw: with nothing cached and no overriding environment variable
    set, the result is the default configuration, and it is cached
    with the modification time of the file (0 when there is none). *)
Theorem unusable_file_gives_defaults (w : World) (configPath : option string) :
  configCache w = None -> no_overrides (env w) ->
  without_settings (files w !! configFileOf w configPath) ->
  loadConfig w configPath
  = (Ok (sample_config []),
     set_cache w (Some {| data := sample_config []; timestamp := now w;
                          mtime := mtime_of (files w !! configFileOf w configPath) |})).
Proof.
  intros Hcache (H1 & H2 & H3 & H4 & H5 & H6) Hfile.
  unfold loadConfig, cacheHit. rewrite Hcache.
  assert (Hread : readAndMerge w (configFileOf w configPath)
                  = (defaultConfig, mtime_of (files w !! configFileOf w configPath))).
  { unfold readAndMerge, without_settings in *.
    destruct (files w !! configFileOf w configPath) as [[[doc | raw] mt] |]; cbn in *;
      [rewrite Hfile | |]; reflexivity. }
  unfold readConfig. rewrite Hread.
  unfold applyEnv, override. rewrite H1, H2, H3, H4, H5, H6.
  reflexivity.
Qed.

Lemma unusable_file_gives_defaults_witness :
  (loadConfig broken_world None).1 = Ok (sample_config []) /\
  configCache (loadConfig broken_world None).2
  = Some {| data := sample_config []; timestamp := 1700000000000; mtime := 1699999999000 |}.
Proof.
  rewrite (unusable_file_gives_defaults broken_world None);
    [split; reflexivity | reflexivity | repeat split | vm_compute; exact Logic.I].
Defined.

(** *** The override of the UI port *)

Lemma lookup_set_eq (k : string) (v : jsval) (l : list (string * jsval)) :
  lookup k (set k v l) = Some v.
Proof.
  induction l as [| [k' v'] l IH]; cbn.
  - rewrite String.eqb_refl. reflexivity.
  - destruct (String.eqb k k') eqn:E; cbn; [rewrite String.eqb_refl; reflexivity |].
    rewrite E. exact IH.
Qed.

Lemma lookup_set_ne (k k' : string) (v : jsval) (l : list (string * jsval)) :
  k <> k' -> lookup k (set k' v l) = lookup k l.
Proof.
  intros Hne. apply String.eqb_neq in Hne.
  induction l as [| [k0 v0] l IH]; cbn.
  - rewrite Hne. reflexivity.
  - destruct (String.eqb k' k0) eqn:E; cbn.
    + apply String.eqb_eq in E. subst k0. rewrite Hne. reflexivity.
    + destruct (String.eqb k k0); [reflexivity | exact IH].
Qed.

(** After the overrides, [ui.port] is what [UI_PORT] parses to. *)
Lemma applyEnv_ui_port (e : ProcessEnv) (s : string) (configData : list (string * jsval)) :
  nonempty (UI_PORT e) = Some s ->
  exists uiFields,
    field (applyEnv e configData) "ui" = JObj uiFields /\
    field uiFields "port" = number_of (JsNumber.parseInt s).
Proof.
  intros Hs. unfold applyEnv. unfold override at 1 2. rewrite Hs.
  set (c4 := override (UI_HOST e) _ _).
  set (v := number_of (JsNumber.parseInt s)).
  assert (H5 : field (setInner "ui" "port" v c4) "ui"
               = JObj (set "port" v (fields_of (or (field c4 "ui") (JObj []))))).
  { unfold setInner, field. rewrite lookup_set_eq. reflexivity. }
  unfold override. destruct (nonempty (UI_DEBUG e)) as [dbg |].
  - eexists. split.
    + unfold setInner at 1. unfold field at 1. rewrite lookup_set_eq. reflexivity.
    + rewrite H5. cbn [or truthy fields_of]. unfold field.
      rewrite lookup_set_ne by discriminate. rewrite lookup_set_eq. reflexivity.
  - eexists. split; [exact H5 |]. unfold field. rewrite lookup_set_eq. reflexivity.
Qed.

Lemma schema_ui_port (o uiFields : list (string * jsval)) (parsed : option Z) :
  field o "ui" = JObj uiFields ->
  field uiFields "port" = number_of parsed ->
  match parsed with
  | Some z => forall config, ConfigSchema (JObj o) = Some config -> ui_port (ui config) = z
  | None => ConfigSchema (JObj o) = None
  end.
Proof.
  intros Hui Hport. unfold ConfigSchema. cbn [z_object mbind option_bind].
  destruct (StreamManagerConfigSchema _) as [sm |]; cbn;
    [| destruct parsed; [discriminate | reflexivity]].
  rewrite Hui. unfold UIConfigSchema. cbn [z_object mbind option_bind]. rewrite Hport.
  destruct (z_default z_string "0.0.0.0" _) as [h |]; cbn;
    [| destruct parsed; [discriminate | reflexivity]].
  destruct parsed as [z |]; cbn; [| reflexivity].
  destruct (z_default z_boolean false _); cbn; [| discriminate].
  destruct (z_default z_string "1.0.0" _); cbn; [| discriminate].
  intros config [= <-]. reflexivity.
Qed.

(** X16.  When [loadConfig] reads the file (no cached answer) and the
    environment variable [UI_PORT] is set and not empty, the port of
    the file does not count: if the variable parses as an integer,
    every configuration that [loadConfig] returns has that integer as
    the UI port; if it does not, [loadConfig] throws, whatever the
    file holds. *)
Theorem ui_port_from_environment (w : World) (configPath : option string) (s : string) :
  cacheHit w (configFileOf w configPath) = None ->
  nonempty (UI_PORT (env w)) = Some s ->
  match JsNumber.parseInt s with
  | Some z => forall config, (loadConfig w configPath).1 = Ok config -> ui_port (ui config) = z
  | None => exists e, (loadConfig w configPath).1 = Throw e
  end.
Proof.
  intros Hmiss Hs. unfold loadConfig. rewrite Hmiss. unfold readConfig.
  destruct (readAndMerge w (configFileOf w configPath)) as [merged fileMtime].
  assert (Hthrow : forall e : exn,
             match JsNumber.parseInt s with
             | Some z => forall config,
                 (@Throw Config e, w).1 = Ok config -> ui_port (ui config) = z
             | None => exists e', (@Throw Config e, w).1 = Throw e'
             end)
    by (intros e; destruct (JsNumber.parseInt s);
        [intros config H; discriminate H | eexists; reflexivity]).
  destruct (convertSnakeCase (now w) merged) as [converted | e];
    cbn -[ConfigSchema applyEnv]; [| apply Hthrow].
  destruct (ensureRequired converted) as [ensured | e];
    cbn -[ConfigSchema applyEnv]; [| apply Hthrow].
  destruct (applyEnv_ui_port (env w) s ensured Hs) as (uiFields & Hui & Hport).
  pose proof (schema_ui_port _ _ _ Hui Hport) as Hschema.
  destruct (JsNumber.parseInt s) as [z |].
  - intros config. destruct (ConfigSchema _) as [config' |] eqn:E; [| discriminate].
    intros [= <-]. apply Hschema. reflexivity.
  - rewrite Hschema. eauto.
Qed.

Lemma ui_port_from_environment_witness :
  (ui_port ∘ ui <$> (loadConfig (port_world "9000") None).1) = Ok 9000%Z /\
  (exists e, (loadConfig (port_world "auto") None).1 = Throw e).
Proof.
  split; [vm_compute; reflexivity |].
  apply (ui_port_from_environment (port_world "auto") None "auto"); reflexivity.
Defined.

End ConfigEdgeProps.

Module RegistryProps.
Import Exec ExecProps Registry.

(** *** The module table *)

Lemma get_set_instance (n k : string) (i : IModule) (l : list (string * ModuleRegistration)) :
  is_Some_bool (get_module n (set_instance k i l)) = is_Some_bool (get_module n l).
Proof.
  induction l as [| [k' reg] l IH]; [reflexivity |]. cbn.
  destruct (String.eqb k k') eqn:E; cbn.
  - destruct (String.eqb n k'); reflexivity.
  - destruct (String.eqb n k'); [reflexivity | exact IH].
Qed.

Lemma get_module_app (n : string) (l l' : list (string * ModuleRegistration)) :
  get_module n (l ++ l') = match get_module n l with
                           | Some reg => Some reg
                           | None => get_module n l'
                           end.
Proof.
  induction l as [| [k reg] l IH]; [reflexivity |]. cbn.
  destruct (String.eqb n k); [reflexivity | exact IH].
Qed.

Lemma is_Some_bool_spec {A} (o : option A) : is_Some_bool o = true <-> is_Some o.
Proof. destruct o; cbn; split; intros H; eauto; try discriminate. destruct H; discriminate. Qed.

(** What [instantiate] can do. *)
Lemma instantiate_outcome (registration : ModuleRegistration) (r : ModuleRegistry) :
  (exists i r' effs, instantiate registration r = (Ok i, r', effs)) \/
  (exists msg, factoryThrows registration = Some msg /\
               instantiate registration r
               = (Throw (Error msg), r, [FactoryCall (name registration)])).
Proof.
  unfold instantiate, callFactory.
  destruct (singleton registration); [destruct (instance registration) |];
    destruct (factoryThrows registration) eqn:E;
    first [ left; do 3 eexists; reflexivity | right; eexists; split; reflexivity ].
Qed.

(** *** What the calls keep *)

Lemma respects_instantiate (I : ModuleRegistry -> Prop) (registration : ModuleRegistration) :
  (forall r n, I r -> I (set_constructed r n)) ->
  (forall r k i, I r -> I (set_modules r (set_instance k i (modules r)))) ->
  respects I (fun _ => True) (instantiate registration).
Proof.
  intros Hc Hm. unfold instantiate, callFactory.
  respects_with ltac:(intros; first [apply Hc | apply Hm]; assumption);
    apply respects_perform; exact Logic.I.
Qed.

Lemma has_set_instance (n k : string) (i : IModule) (r : ModuleRegistry) :
  has n (set_modules r (set_instance k i (modules r))) = has n r.
Proof. unfold has. cbn. rewrite get_set_instance. reflexivity. Qed.

Lemma consistent_set_constructed (r : ModuleRegistry) (n : nat) :
  consistent r -> consistent (set_constructed r n).
Proof. intros H. exact H. Qed.

Lemma consistent_set_instance (r : ModuleRegistry) (k : string) (i : IModule) :
  consistent r -> consistent (set_modules r (set_instance k i (modules r))).
Proof.
  intros [H1 H2]. split.
  - intros e l n He Hn. cbn in *. apply is_Some_bool_spec. rewrite get_set_instance.
    apply is_Some_bool_spec. eauto.
  - intros n i' Hc. rewrite has_set_instance. eauto.
Qed.

Lemma consistent_cache (r : ModuleRegistry) (n : string) (i : IModule) :
  consistent r -> has n r = true ->
  consistent (set_resolutionCache r (<[n := i]> (resolutionCache r))).
Proof.
  intros [H1 H2] Hn. split; [exact H1 |].
  intros n' i' Hc. cbn in Hc. change (has n' r = true).
  destruct (decide (n' = n)) as [-> | Hne]; [exact Hn |].
  rewrite lookup_insert_ne in Hc by congruence. eauto.
Qed.

(** The tail of [resolve], once the name is known to be there. *)
Lemma tail_keeps_consistent (name : string) (registration : ModuleRegistration) :
  respects (fun r => consistent r /\ has name r = true) (fun _ => True)
           (i ← instantiate registration; cacheResolution name i;; mret i).
Proof.
  apply respects_bind; [| intros i; apply respects_bind; [| intros _; apply respects_ret]].
  - apply respects_instantiate.
    + intros r n [H1 H2]. split; [apply consistent_set_constructed, H1 | exact H2].
    + intros r k i [H1 H2]. split; [apply consistent_set_instance, H1 |].
      rewrite has_set_instance. exact H2.
  - apply respects_modify. intros r [H1 H2]. split; [apply consistent_cache; assumption |].
    exact H2.
Qed.

Lemma resolveModule_keeps_consistent (name : string) :
  respects consistent (fun _ => True) (resolveModule name).
Proof.
  intros r Hr. split; [| apply all_true]. unfold resolveModule.
  eapply (after_bind consistent); [reflexivity |].
  destruct (get_module name (modules r)) as [registration |] eqn:E; [| exact Hr].
  apply (tail_keeps_consistent name registration r). split; [exact Hr |].
  unfold has. rewrite E. reflexivity.
Qed.

Lemma resolve_keeps_consistent (name : string) :
  respects consistent (fun _ => True) (resolve name).
Proof.
  intros r Hr. split; [| apply all_true]. unfold resolve.
  eapply (after_bind consistent); [reflexivity |].
  destruct (resolutionCache r !! name); [exact Hr |].
  destruct (exports r !! name) as [[| first rest] |] eqn:E;
    try apply (resolveModule_keeps_consistent name r Hr).
  destruct (get_module _ (modules r)) as [registration |];
    [| apply (resolveModule_keeps_consistent name r Hr)].
  apply (tail_keeps_consistent name registration r). split; [exact Hr |].
  unfold has. rewrite E. apply orb_true_r.
Qed.

Lemma collect_keeps_consistent (moduleNames : list string) :
  respects consistent (fun _ => True) (collect moduleNames).
Proof.
  induction moduleNames as [| moduleName rest IH]; cbn [collect].
  - apply respects_ret.
  - apply respects_bind; [apply respects_get | intros r].
    apply respects_bind; [| intros here; apply respects_bind;
                                          [exact IH | intros there; apply respects_ret]].
    destruct (get_module moduleName (modules r)); [| apply respects_ret].
    apply respects_try_catch.
    + apply respects_bind; [| intros i; apply respects_ret].
      apply respects_instantiate.
      * intros; apply consistent_set_constructed; assumption.
      * intros; apply consistent_set_instance; assumption.
    + intros e. apply respects_bind; [| intros _; apply respects_ret].
      apply respects_perform. exact Logic.I.
Qed.

Lemma resolveAll_keeps_consistent (interfaceName : option string) :
  respects consistent (fun _ => True) (resolveAll interfaceName).
Proof.
  unfold resolveAll.
  apply respects_bind; [apply respects_get | intros r].
  destruct (resolveAllCache r !! _); [apply respects_ret |].
  apply respects_bind; [apply collect_keeps_consistent | intros instances].
  apply respects_bind; [| intros _; apply respects_ret].
  apply respects_modify. intros r' H. exact H.
Qed.

Lemma addExport_members (name : string) (exports_ : list string)
    (ex : gmap string (list string)) (e : string) (l : list string) (n : string) :
  fold_left (fun ex exportName => addExport name exportName ex) exports_ ex !! e = Some l ->
  n ∈ l -> n = name \/ exists l0, ex !! e = Some l0 /\ n ∈ l0.
Proof.
  revert ex. induction exports_ as [| x xs IH]; intros ex Hl Hn; cbn in Hl.
  - right. eauto.
  - destruct (IH _ Hl Hn) as [-> | (l0 & Hl0 & Hn0)]; [left; reflexivity |].
    unfold addExport in Hl0. destruct (decide (e = x)) as [-> | Hne].
    + rewrite lookup_insert_eq in Hl0. injection Hl0 as <-.
      case_bool_decide.
      * right. destruct (ex !! x) as [l1 |]; cbn in *; [eauto | inversion Hn0].
      * apply elem_of_app in Hn0 as [Hn0 | Hn0].
        -- right. destruct (ex !! x) as [l1 |]; cbn in *; [eauto | inversion Hn0].
        -- left. apply list_elem_of_singleton in Hn0. exact Hn0.
    + rewrite lookup_insert_ne in Hl0 by congruence. right. eauto.
Qed.

Lemma register_keeps_consistent (name : string) (factoryThrows : option string)
    (dependencies exports_ : list string) (singleton : bool) :
  respects consistent (fun _ => True)
           (register name factoryThrows dependencies exports_ singleton).
Proof.
  intros r [H1 H2]. split; [| apply all_true]. unfold register.
  eapply (after_bind consistent); [reflexivity |].
  destruct (is_Some_bool (get_module name (modules r))); [split; assumption |].
  split.
  - intros e l n Hl Hn. cbn in *. rewrite get_module_app.
    destruct (addExport_members _ _ _ _ _ _ Hl Hn) as [-> | (l0 & Hl0 & Hn0)].
    + destruct (get_module name (modules r)); [eauto |]. cbn.
      rewrite String.eqb_refl. eauto.
    + destruct (H1 _ _ _ Hl0 Hn0) as [reg ->]. eauto.
  - intros n i Hc. cbn in Hc. rewrite lookup_empty in Hc. discriminate.
Qed.

Lemma run_consistent (calls : list call) (r : ModuleRegistry) :
  consistent r -> consistent (run calls r).1.
Proof.
  revert r. induction calls as [| c calls IH]; intros r H; [exact H |].
  cbn [run].
  assert (H1 : consistent (handle c r).1.2).
  { destruct c; cbn [handle].
    - apply register_keeps_consistent, H.
    - apply (respects_bind consistent (fun _ => True));
        [apply resolve_keeps_consistent | intros; apply respects_ret | exact H].
    - apply (respects_bind consistent (fun _ => True));
        [apply resolveAll_keeps_consistent | intros; apply respects_ret | exact H]. }
  destruct (handle c r) as [[res r1] effs1]. specialize (IH r1 H1).
  destruct (run calls r1) as [r2 effs2]. exact IH.
Qed.

(** *** The paths of [resolve] *)

Lemma registry_bind_get {A} (f : ModuleRegistry -> M A) (r : ModuleRegistry) :
  (get ≫= f) r = f r r.
Proof.
  unfold mbind, Eff_bind, get. destruct (f r r) as [[res r'] effs]. reflexivity.
Qed.

Lemma resolveModule_run (name : string) (r : ModuleRegistry) :
  resolveModule name r
  = match get_module name (modules r) with
    | None => (Throw (Error ("Module " ++ name ++ " not found")), r, [])
    | Some registration =>
        (i ← instantiate registration; cacheResolution name i;; mret i) r
    end.
Proof.
  unfold resolveModule. rewrite registry_bind_get. destruct (get_module name (modules r)); reflexivity.
Qed.

Lemma resolve_run (name : string) (r : ModuleRegistry) :
  resolve name r
  = match resolutionCache r !! name with
    | Some i => (Ok i, r, [])
    | None =>
        match exports r !! name with
        | Some (first :: rest) =>
            match get_module (preferred r (first :: rest) first) (modules r) with
            | Some registration =>
                (i ← instantiate registration; cacheResolution name i;; mret i) r
            | None => resolveModule name r
            end
        | _ => resolveModule name r
        end
    end.
Proof.
  unfold resolve. rewrite registry_bind_get. destruct (resolutionCache r !! name); [reflexivity |].
  destruct (exports r !! name) as [[| first rest] |]; try reflexivity.
  destruct (get_module _ (modules r)); reflexivity.
Qed.

(** X17.  In every registry reached from the empty one by
    registrations and resolutions, [resolve] and [has] agree: when
    [has(name)] is false, [resolve(name)] throws [Module name not
    found], runs no factory and changes nothing; when it is true,
    [resolve(name)] returns an instance, or else throws what the
    factory of a registered module threw, the registry unchanged. *)
Theorem resolve_agrees_with_has (calls : list call) (name : string) :
  let r := (run calls new).1 in
  if has name r then
    (exists i r' effs, resolve name r = (Ok i, r', effs)) \/
    (exists registration msg,
        factoryThrows registration = Some msg /\
        resolve name r = (Throw (Error msg), r, [FactoryCall (Registry.name registration)]))
  else
    resolve name r = (Throw (Error ("Module " ++ name ++ " not found")), r, []).
Proof.
  intros r.
  assert (Hr : consistent r).
  { apply run_consistent. split; intros *; cbn; rewrite lookup_empty; discriminate. }
  destruct Hr as [H1 H2].
  assert (Htail : forall registration,
             (exists i r' effs,
                 (i ← instantiate registration; cacheResolution name i;; mret i) r
                 = (Ok i, r', effs)) \/
             (exists reg' msg,
                 factoryThrows reg' = Some msg /\
                 (i ← instantiate registration; cacheResolution name i;; mret i) r
                 = (Throw (Error msg), r, [FactoryCall (Registry.name reg')]))).
  { intros registration.
    destruct (instantiate_outcome registration r) as [(i & r' & effs & E) | (msg & Hm & E)].
    - left. unfold mbind, Eff_bind. rewrite E. cbn. eauto.
    - right. exists registration, msg. split; [exact Hm |].
      unfold mbind, Eff_bind. rewrite E. reflexivity. }
  rewrite resolve_run, resolveModule_run.
  destruct (has name r) eqn:Hhas.
  - destruct (resolutionCache r !! name) as [i |]; [left; eauto |].
    unfold has in Hhas.
    destruct (exports r !! name) as [[| first rest] |] eqn:E; cbn in Hhas.
    + rewrite orb_false_r in Hhas.
      apply is_Some_bool_spec in Hhas as [registration ->]. apply Htail.
    + destruct (get_module (preferred r (first :: rest) first) (modules r))
        as [registration |] eqn:Epref; [apply Htail |].
      exfalso. assert (Hin : preferred r (first :: rest) first ∈ first :: rest).
      { unfold preferred. destruct (List.find _ _) eqn:Ef; [| left].
        apply find_some in Ef as [Ef _]. apply list_elem_of_In, Ef. }
      destruct (H1 _ _ _ E Hin) as [reg Hreg]. congruence.
    + rewrite orb_false_r in Hhas.
      apply is_Some_bool_spec in Hhas as [registration ->]. apply Htail.
  - destruct (resolutionCache r !! name) as [i |] eqn:Ec;
      [rewrite (H2 _ _ Ec) in Hhas; discriminate |].
    unfold has in Hhas. apply orb_false_iff in Hhas as [Hm He].
    destruct (get_module name (modules r)); [discriminate |].
    destruct (exports r !! name) as [[| first rest] |]; try reflexivity.
    discriminate.
Qed.

(** *** The resolution cache *)

(** A successful [resolve] leaves its answer in the cache. *)
Lemma resolve_caches (name : string) (r r1 : ModuleRegistry) (i : IModule)
    (effs : list effect) :
  resolve name r = (Ok i, r1, effs) -> resolutionCache r1 !! name = Some i.
Proof.
  assert (Htail : forall registration,
             (i ← instantiate registration; cacheResolution name i;; mret i) r
             = (Ok i, r1, effs) -> resolutionCache r1 !! name = Some i).
  { intros registration. unfold mbind, Eff_bind, cacheResolution, modify.
    destruct (instantiate registration r) as [[[i' | e] r'] effs']; [| discriminate].
    cbn. intros [= <- <- <-]. cbn. apply lookup_insert_eq. }
  rewrite resolve_run, resolveModule_run.
  destruct (resolutionCache r !! name) as [i' |] eqn:Ec; [intros [= <- <- <-]; exact Ec |].
  destruct (exports r !! name) as [[| first rest] |];
    repeat case_match; try discriminate; apply Htail.
Qed.

(** Calls other than [register] keep a cached answer. *)
Lemma handle_keeps_cached (name : string) (i : IModule) (c : call) :
  is_register c = false ->
  respects (fun r => resolutionCache r !! name = Some i) (fun _ => True) (handle c).
Proof.
  intros Hc. destruct c as [| name' | interfaceName]; [discriminate | |]; cbn [handle].
  - apply respects_bind; [| intros; apply respects_ret].
    destruct (decide (name' = name)) as [-> | Hne].
    + intros r H. rewrite resolve_run, H. split; [exact H | constructor].
    + assert (Htail : forall registration,
                 respects (fun r => resolutionCache r !! name = Some i) (fun _ => True)
                   (i ← instantiate registration; cacheResolution name' i;; mret i)).
      { intros registration.
        apply respects_bind; [| intros i'; apply respects_bind; [| intros; apply respects_ret]].
        - apply respects_instantiate; intros; assumption.
        - apply respects_modify. intros r H. cbn. rewrite lookup_insert_ne by congruence.
          exact H. }
      intros r H. rewrite resolve_run, resolveModule_run.
      destruct (resolutionCache r !! name'); [split; [exact H | constructor] |].
      destruct (exports r !! name') as [[| first rest] |]; repeat case_match;
        first [apply Htail; exact H | split; [exact H | constructor]].
  - apply respects_bind; [| intros; apply respects_ret].
    unfold resolveAll.
    apply respects_bind; [apply respects_get | intros r].
    destruct (resolveAllCache r !! _); [apply respects_ret |].
    apply respects_bind; [| intros instances; apply respects_bind;
                                                [| intros; apply respects_ret]].
    + generalize (match match interfaceName with
                        | Some s => if JsString.truthy s then Some s else None
                        | None => None
                        end with
                  | Some s => default [] (exports r !! s)
                  | None => (modules r).*1
                  end).
      intros moduleNames. induction moduleNames as [| moduleName rest IH]; cbn [collect].
      * apply respects_ret.
      * apply respects_bind; [apply respects_get | intros r0].
        apply respects_bind; [| intros here; apply respects_bind;
                                              [exact IH | intros there; apply respects_ret]].
        destruct (get_module moduleName (modules r0)); [| apply respects_ret].
        apply respects_try_catch.
        -- apply respects_bind; [| intros i'; apply respects_ret].
           apply respects_instantiate; intros; assumption.
        -- intros e. apply respects_bind; [| intros _; apply respects_ret].
           apply respects_perform. exact Logic.I.
    + apply respects_modify. intros r' H. exact H.
Qed.

(** X18.  Between two registrations every name is resolved to one
    module object: once [resolve(name)] has returned an instance, then
    after any further calls of [resolve] and [resolveAll] it returns
    that instance again, running no factory and changing nothing,
    also when the module was registered as not a singleton. *)
Theorem resolve_is_stable_until_register (name : string) (r r1 : ModuleRegistry)
    (i : IModule) (effs : list effect) (calls : list call) :
  resolve name r = (Ok i, r1, effs) ->
  forallb (fun c => negb (is_register c)) calls = true ->
  let r2 := (run calls r1).1 in
  resolve name r2 = (Ok i, r2, []).
Proof.
  intros Hres Hcalls r2.
  assert (H2 : resolutionCache r2 !! name = Some i).
  { subst r2. apply resolve_caches in Hres. clear r effs.
    revert r1 Hres. induction calls as [| c calls IH]; intros r1 H1; [exact H1 |].
    cbn in Hcalls. apply andb_prop in Hcalls as [Hc Hcalls]. apply negb_true_iff in Hc.
    cbn [run]. destruct (handle_keeps_cached name i c Hc r1 H1) as [H _].
    destruct (handle c r1) as [[res r'] effs1]. specialize (IH Hcalls r' H).
    destruct (run calls r') as [r'' effs2]. exact IH. }
  rewrite resolve_run, H2. reflexivity.
Qed.

Lemma resolve_is_stable_until_register_witness :
  singleton <$> get_module "probe" (modules with_transient) = Some false /\
  let first := resolve "probe" with_transient in
  first.1.1 = Ok {| of_module := "probe"; serial := 0 |} /\
  (resolve "probe" (run [ResolveAll None; Resolve "IProbe"] first.1.2).1).1.1
  = Ok {| of_module := "probe"; serial := 0 |} /\
  (resolve "probe" (run [Register "other" None [] [] true] first.1.2).1).1.1
  = Ok {| of_module := "probe"; serial := 1 |}.
Proof.
  split; [reflexivity |]. cbn zeta. split; [vm_compute; reflexivity |].
  split; [| vm_compute; reflexivity].
  rewrite (resolve_is_stable_until_register "probe" with_transient
             (resolve "probe" with_transient).1.2
             {| of_module := "probe"; serial := 0 |}
             (resolve "probe" with_transient).2
             [ResolveAll None; Resolve "IProbe"]);
    [reflexivity | vm_compute; reflexivity | reflexivity].
Defined.

End RegistryProps.

Module WebSocketServiceProps.
Import Exec ExecProps WebSocketService.

(** *** What one client is sent *)

Lemma sent_to_app (c : string) (a b : list effect) :
  sent_to c (a ++ b) = (sent_to c a ++ sent_to c b)%list.
Proof. apply omap_app. Qed.

Lemma filter_without_client (c c' : string) (l : list (string * Socket)) :
  c' <> c ->
  List.filter (fun kv => String.eqb kv.1 c) (without_client c' l)
  = List.filter (fun kv => String.eqb kv.1 c) l.
Proof.
  intros Hne. unfold without_client. induction l as [| [k ws] l IH]; [reflexivity |]. cbn.
  destruct (String.eqb k c') eqn:E1; cbn.
  - apply String.eqb_eq in E1. subst k.
    rewrite (proj2 (String.eqb_neq c' c) Hne). exact IH.
  - destruct (String.eqb k c); [rewrite IH |]; auto.
Qed.

Lemma sent_to_send (c k : string) (message : WebSocketMessage) (effs : list effect) :
  sent_to c (Send k message :: effs)
  = if String.eqb k c then content message :: sent_to c effs else sent_to c effs.
Proof. unfold sent_to. cbn. destruct (String.eqb k c); reflexivity. Qed.

#[local] Arguments sent_to : simpl never.

(** The queue, the flag and the entry of the client are what the
    statements below follow. *)
Lemma sendToAll_sends (c : string) (messageStr : WebSocketMessage)
    (entries : list (string * Socket)) (s : WebSocketService) :
  Forall (fun kv => kv.1 = c -> isOpen kv.2 = true /\ sendThrows kv.2 = None) entries ->
  exists n s' effs,
    sendToAll messageStr entries s = (Ok n, s', effs) /\
    sent_to c effs
    = map (fun _ => content messageStr) (List.filter (fun kv => String.eqb kv.1 c) entries) /\
    List.filter (fun kv => String.eqb kv.1 c) (clients s')
    = List.filter (fun kv => String.eqb kv.1 c) (clients s) /\
    messageQueue s' = messageQueue s /\ isProcessingQueue s' = isProcessingQueue s.
Proof.
  intros Hentries. revert s.
  induction Hentries as [| [k ws] entries Hk _ IH]; intros s.
  - exists 0, s, []. repeat split; reflexivity.
  - cbn [sendToAll]. unfold mbind, Eff_bind, perform, modify, mret, Eff_ret.
    destruct (String.eqb k c) eqn:Ekc.
    + apply String.eqb_eq in Ekc. subst k. destruct (Hk eq_refl) as [Ho Ht]. cbn in Ho, Ht.
      rewrite Ho, Ht. cbn.
      destruct (IH s) as (n & s' & effs & -> & Hs & Hc & Hq & Hp).
      cbn. do 3 eexists. split; [reflexivity |].
      rewrite app_nil_r, sent_to_send, !String.eqb_refl, Hs. cbn.
      repeat split; assumption.
    + destruct (isOpen ws); [destruct (sendThrows ws) |]; cbn.
      * destruct (IH (set_clients s (without_client k (clients s))))
          as (n & s' & effs & -> & Hs & Hc & Hq & Hp).
        cbn. do 3 eexists. split; [reflexivity |]. rewrite ?app_nil_r, Ekc.
        repeat split; [exact Hs | | exact Hq | exact Hp].
        rewrite Hc. cbn. apply filter_without_client, String.eqb_neq, Ekc.
      * destruct (IH s) as (n & s' & effs & -> & Hs & Hc & Hq & Hp).
        cbn. do 3 eexists. split; [reflexivity |].
        rewrite app_nil_r, sent_to_send, !Ekc.
        repeat split; assumption.
      * destruct (IH s) as (n & s' & effs & -> & Hs & Hc & Hq & Hp).
        cbn. do 3 eexists. split; [reflexivity |]. rewrite ?app_nil_r, Ekc.
        repeat split; assumption.
Qed.

Lemma receiving_entries (c : string) (s : WebSocketService) :
  receiving c s ->
  Forall (fun kv => kv.1 = c -> isOpen kv.2 = true /\ sendThrows kv.2 = None) (clients s).
Proof.
  intros (ws & Hf & Ho & Ht). apply Forall_forall. intros [k ws'] Hin Hk. cbn in *. subst k.
  assert (Hin' : In (c, ws') (List.filter (fun kv => String.eqb kv.1 c) (clients s))).
  { apply filter_In. split; [apply list_elem_of_In, Hin | apply String.eqb_refl]. }
  rewrite Hf in Hin'. destruct Hin' as [[= <-] | []]. auto.
Qed.

Lemma receiving_same (c : string) (s s' : WebSocketService) :
  List.filter (fun kv => String.eqb kv.1 c) (clients s')
  = List.filter (fun kv => String.eqb kv.1 c) (clients s) ->
  receiving c s -> receiving c s'.
Proof. intros H (ws & Hf & Ho & Ht). exists ws. rewrite H. auto. Qed.

Lemma broadcastOne_sends (c : string) (now : Z) (message : WebSocketMessage)
    (s : WebSocketService) :
  receiving c s ->
  exists s' effs,
    broadcastOne now message s = (Ok tt, s', effs) /\
    sent_to c effs = [content message] /\
    receiving c s' /\
    messageQueue s' = messageQueue s /\ isProcessingQueue s' = isProcessingQueue s.
Proof.
  intros Hr. unfold broadcastOne. unfold mbind at 1, Eff_bind at 1, get.
  destruct (sendToAll_sends c (stamped now message) (clients s) s (receiving_entries c s Hr))
    as (n & s' & effs & Hrun & Hs & Hc & Hq & Hp).
  unfold mbind, Eff_bind. rewrite Hrun.
  destruct Hr as (ws & Hf & Ho & Ht). rewrite Hf in Hs. cbn in Hs.
  assert (Hr' : receiving c s') by (exists ws; rewrite Hc; auto).
  unfold when, perform, mret, Eff_ret. destruct (0 <? n)%nat; cbn;
    do 2 eexists; (split; [reflexivity |]); rewrite ?app_nil_r, ?sent_to_app, Hs;
    repeat split; assumption.
Qed.

Lemma batch_sends (c : string) (now : Z) (batch : list WebSocketMessage)
    (s : WebSocketService) :
  receiving c s ->
  exists s' effs,
    for_each batch (broadcastOne now) s = (Ok tt, s', effs) /\
    sent_to c effs = map content batch /\
    receiving c s' /\
    messageQueue s' = messageQueue s /\ isProcessingQueue s' = isProcessingQueue s.
Proof.
  revert s. induction batch as [| message batch IH]; intros s Hr.
  - exists s, []. repeat split; auto.
  - cbn [for_each]. unfold mbind, Eff_bind.
    destruct (broadcastOne_sends c now message s Hr) as (s1 & effs1 & -> & Hs1 & Hr1 & Hq1 & Hp1).
    destruct (IH s1 Hr1) as (s2 & effs2 & -> & Hs2 & Hr2 & Hq2 & Hp2).
    do 2 eexists. split; [reflexivity |]. rewrite sent_to_app, Hs1, Hs2.
    repeat split; [exact Hr2 | congruence | congruence].
Qed.

(** *** Events that leave the queue and the client alone *)

Lemma respects_ws_mark (I : WebSocketService -> Prop) (P : effect -> Prop)
    (f : Lifecycle.ModuleLifecycle -> Lifecycle.effect) :
  (forall s l, I s -> I (set_lifecycle s l)) -> respects I P (mark f).
Proof.
  intros HI s H. unfold mark. destruct (f (lifecycle s)) as [l [e |]]; cbn;
    (split; [apply HI, H | constructor]).
Qed.

Lemma filter_socket_change (c c' : string) (ws : Socket) (l : list (string * Socket)) :
  c' <> c ->
  List.filter (fun kv => String.eqb kv.1 c)
              (map (fun kv => if String.eqb kv.1 c' then (kv.1, ws) else kv) l)
  = List.filter (fun kv => String.eqb kv.1 c) l.
Proof.
  intros Hne. induction l as [| [k ws'] l IH]; [reflexivity |]. cbn.
  destruct (String.eqb k c') eqn:E1; cbn.
  - apply String.eqb_eq in E1. subst k.
    rewrite (proj2 (String.eqb_neq c' c) Hne). exact IH.
  - destruct (String.eqb k c); [rewrite IH |]; auto.
Qed.

Lemma not_to_forall (c : string) (effs : list effect) :
  Forall (not_to c) effs -> sent_to c effs = [].
Proof.
  induction 1 as [| e effs He _ IH]; [reflexivity |].
  change (e :: effs) with ([e] ++ effs)%list. rewrite sent_to_app, He, IH. reflexivity.
Qed.

Lemma quiet_events (c : string) (q : list WebSocketMessage) (ev : event) :
  match ev with
  | Initialize | Activate _ | Immediate => True
  | SendToClient _ c' _ | ClientClose c' | ClientError c' | SocketChange c' _ => c' <> c
  | _ => False
  end ->
  respects (holding c q) (not_to c) (handle ev).
Proof.
  assert (Hclients : forall s l,
             List.filter (fun kv => String.eqb kv.1 c) l
             = List.filter (fun kv => String.eqb kv.1 c) (clients s) ->
             holding c q s -> holding c q (set_clients s l)).
  { intros s l Hl (Hr & Hp & Hq). split; [| split; assumption].
    apply (receiving_same c s); [exact Hl | exact Hr]. }
  destruct ev; intros Hev; try contradiction; cbn [handle];
    unfold initialize, activate, onImmediate, processQueue, sendToClient, onClientClose,
      onClientError, onSocketChange;
    respects_with
      ltac:(let w := fresh "w" in
            let Hw := fresh "Hw" in
            intros w Hw;
            first [ exact Hw
                  | apply Hclients;
                    [first [apply filter_without_client, Hev
                           | apply filter_socket_change, Hev]
                    | exact Hw] ]);
    try (apply respects_ws_mark; let Hx := fresh "Hx" in intros ? ? Hx; exact Hx);
    try (apply respects_perform; unfold not_to;
         rewrite ?sent_to_send, ?(proj2 (String.eqb_neq _ _) Hev); reflexivity).
Qed.

(** *** One event *)

Lemma ws_bind_get {A} (f : WebSocketService -> M A) (s : WebSocketService) :
  (get ≫= f) s = f s s.
Proof.
  unfold mbind, Eff_bind, get. destruct (f s s) as [[res s'] effs]. reflexivity.
Qed.

(** The timeout takes up to ten messages off the queue and sends
    them. *)
Lemma onQueueTimeout_run (c : string) (now : Z) (s : WebSocketService) :
  receiving c s ->
  exists s' effs,
    onQueueTimeout now s = (Ok tt, s', effs) /\
    sent_to c effs = map content (take 10 (messageQueue s)) /\
    receiving c s' /\
    messageQueue s' = drop 10 (messageQueue s) /\ isProcessingQueue s' = false.
Proof.
  intros Hr. unfold onQueueTimeout, mbind, Eff_bind, get, modify.
  destruct (batch_sends c now (take 10 (messageQueue s))
              (set_messageQueue (set_isProcessingQueue s true) (drop 10 (messageQueue s))) Hr)
    as (s1 & effs1 & Hrun & Hs1 & Hr1 & Hq1 & Hp1).
  cbn. rewrite Hrun. cbn. cbn in Hq1.
  destruct (bool_decide (messageQueue s1 = [])); cbn;
    do 2 eexists; (split; [reflexivity |]); rewrite ?app_nil_r, Hs1;
    repeat split; assumption.
Qed.

Lemma filter_with_client (c c' : string) (ws : Socket) (l : list (string * Socket)) :
  c' <> c ->
  List.filter (fun kv => String.eqb kv.1 c) (with_client c' ws l)
  = List.filter (fun kv => String.eqb kv.1 c) l.
Proof.
  intros Hne. unfold with_client. destruct (existsb _ l).
  - apply filter_socket_change, Hne.
  - rewrite List.filter_app. cbn. rewrite (proj2 (String.eqb_neq c' c) Hne).
    apply app_nil_r.
Qed.

Lemma step_conserves (c : string) (ev : event) (s : WebSocketService) :
  receiving c s -> isProcessingQueue s = false -> spares c ev s ->
  receiving c (step ev s).1 /\ isProcessingQueue (step ev s).1 = false /\
  (sent_to c (step ev s).2 ++ map content (messageQueue (step ev s).1))%list
  = (map content (messageQueue s) ++ map content (accepted [ev] s))%list.
Proof.
  intros Hr Hp Hev.
  assert (Hquiet : respects (holding c (messageQueue s)) (not_to c) (handle ev) ->
            (match ev with Broadcast _ => False | _ => True end) ->
            receiving c (step ev s).1 /\ isProcessingQueue (step ev s).1 = false /\
            (sent_to c (step ev s).2 ++ map content (messageQueue (step ev s).1))%list
            = (map content (messageQueue s) ++ map content (accepted [ev] s))%list).
  { intros Hres Hnb. destruct (Hres s) as [(Hr' & Hp' & Hq') Heffs]; [repeat split; auto |].
    unfold step. destruct (handle ev s) as [[res s'] effs]. cbn in *.
    rewrite (not_to_forall c effs Heffs), Hq'.
    split; [exact Hr' |]. split; [exact Hp' |].
    destruct ev; try contradiction; cbn; rewrite app_nil_r; reflexivity. }
  destruct ev; cbn [spares] in Hev;
    try (apply Hquiet; [apply quiet_events; exact Hev | exact Logic.I]).
  - (* destroy *)
    unfold step, handle, destroy, deactivate, mark, mbind, Eff_bind, get.
    destruct s as [[st nm] w cl cnt q p t im]. cbn in Hp. subst p.
    destruct st; cbn; rewrite ?app_nil_r; repeat split; exact Hr.
  - (* broadcast *)
    unfold step, handle, broadcast, processQueue, mbind, Eff_bind, get, modify. cbn.
    destruct (wss s); cbn; [| rewrite app_nil_r; auto].
    rewrite Hp. cbn. destruct (bool_decide _); cbn;
      rewrite ?map_app, ?app_nil_r; repeat split; auto.
  - (* the timeout *)
    unfold step, handle. rewrite ws_bind_get.
    destruct (queueTimer s); cbn [when]; [| cbn; rewrite app_nil_r; auto].
    destruct (onQueueTimeout_run c now s Hr) as (s' & effs & -> & Hs & Hr' & Hq & Hp').
    cbn. rewrite Hs, Hq, <- map_app, take_drop, app_nil_r. auto.
  - (* a connection *)
    unfold step, handle. rewrite ws_bind_get.
    destruct (wss s); cbn [when]; [| cbn; rewrite app_nil_r; auto].
    unfold onConnection. rewrite ws_bind_get.
    unfold mbind, Eff_bind, get, modify, perform, throw. cbn.
    assert (Hr' : receiving c (set_clients (set_clientCounter s (clientCounter s + 1))
                                 (with_client (nextClientId now s) ws (clients s)))).
    { apply (receiving_same c s); [| exact Hr]. cbn. apply filter_with_client, Hev. }
    destruct (sendThrows ws); cbn; rewrite ?app_nil_r, ?sent_to_send;
      rewrite ?(proj2 (String.eqb_neq _ _) Hev); cbn; rewrite ?app_nil_r;
      repeat split; auto.
Qed.

(** X19.  A client that stays connected, with its socket open and
    its [send] not throwing, is sent every message that [broadcast]
    put on the queue exactly once and in the order of the calls: at
    any moment of a run without [deactivate], what the client was sent
    so far followed by what waits in the queue is what waited at the
    start followed by the messages broadcast since (those broadcast
    while there is no server are dropped).  Other clients connecting,
    failing or leaving, and the timers firing in any order, do not
    change this. *)
Theorem open_client_is_sent_every_broadcast_once (c : string) (evs : list event)
    (s : WebSocketService) :
  receiving c s -> isProcessingQueue s = false -> undisturbed c evs s ->
  (sent_to c (run evs s).2 ++ map content (messageQueue (run evs s).1))%list
  = (map content (messageQueue s) ++ map content (accepted evs s))%list.
Proof.
  revert s. induction evs as [| ev evs IH]; intros s Hr Hp Hevs.
  - cbn. rewrite app_nil_r. reflexivity.
  - destruct Hevs as [Hev Hevs].
    destruct (step_conserves c ev s Hr Hp Hev) as (Hr1 & Hp1 & Hstep).
    specialize (IH (step ev s).1 Hr1 Hp1 Hevs).
    cbn [run accepted]. cbn [accepted] in Hstep. rewrite app_nil_r in Hstep.
    destruct (step ev s) as [s1 effs1]. cbn [fst snd] in *.
    destruct (run evs s1) as [s2 effs2]. cbn [fst snd] in *.
    rewrite sent_to_app, <- app_assoc, IH, app_assoc, Hstep, map_app, app_assoc.
    reflexivity.
Qed.

Lemma open_client_is_sent_every_broadcast_once_witness :
  let c := "client_1_1700000000000" in
  let evs := (twelve ++ [QueueTimeout 1700000000100; Immediate])%list in
  sent_to c (run evs serving).2
  = map (fun n => ("status", pretty n)) (seq 1 10) /\
  map content (messageQueue (run evs serving).1) = [("status", "11"); ("status", "12")] /\
  queueTimer (run evs serving).1 = true.
Proof.
  intros c evs.
  assert (H : (sent_to c (run evs serving).2
               ++ map content (messageQueue (run evs serving).1))%list
              = (map content (messageQueue serving) ++ map content (accepted evs serving))%list).
  { apply open_client_is_sent_every_broadcast_once.
    - exists {| isOpen := true; sendThrows := None |}. repeat split; reflexivity.
    - reflexivity.
    - vm_compute. repeat split; discriminate. }
  assert (Hq : map content (messageQueue (run evs serving).1)
               = [("status", "11"); ("status", "12")]) by (vm_compute; reflexivity).
  split; [| split; [exact Hq | vm_compute; reflexivity]].
  rewrite Hq in H. apply (app_inv_tail [("status", "11"); ("status", "12")]).
  rewrite H. vm_compute. reflexivity.
Defined.

(** *** Batches and timers *)

Lemma shrunk_refl (s : WebSocketService) : shrunk s s.
Proof. repeat split; auto. Qed.

Lemma shrunk_trans (s1 s2 s3 : WebSocketService) :
  shrunk s1 s2 -> shrunk s2 s3 -> shrunk s1 s3.
Proof.
  intros (A1 & A2 & A3 & A4 & A5 & A6 & A7 & A8) (B1 & B2 & B3 & B4 & B5 & B6 & B7 & B8).
  repeat split; try congruence. intros c. specialize (A8 c). specialize (B8 c). lia.
Qed.

Lemma entries_without (c c' : string) (l : list (string * Socket)) :
  length (entries_of c (without_client c' l)) <= length (entries_of c l).
Proof.
  unfold entries_of, without_client. induction l as [| [k ws] l IH]; [reflexivity |]. cbn.
  destruct (String.eqb k c'); cbn; destruct (String.eqb k c); cbn; lia.
Qed.

Lemma shrunk_without (s : WebSocketService) (c : string) :
  shrunk s (set_clients s (without_client c (clients s))).
Proof. repeat split; auto. intros c'. apply entries_without. Qed.

Lemma sendToAll_frame (messageStr : WebSocketMessage) (entries : list (string * Socket))
    (s : WebSocketService) :
  exists n s' effs,
    sendToAll messageStr entries s = (Ok n, s', effs) /\ shrunk s s' /\
    forall c, length (sent_to c effs) <= length (entries_of c entries).
Proof.
  revert s. induction entries as [| [k ws] entries IH]; intros s.
  - exists 0, s, []. split; [reflexivity |]. split; [apply shrunk_refl | intros; unfold sent_to; cbn; lia].
  - cbn [sendToAll]. unfold mbind, Eff_bind, perform, modify, mret, Eff_ret.
    destruct (isOpen ws); [destruct (sendThrows ws) |]; cbn.
    + destruct (IH (set_clients s (without_client k (clients s))))
        as (n & s' & effs & -> & Hs & Hc).
      cbn. do 3 eexists. split; [reflexivity |].
      split; [eapply shrunk_trans; [apply shrunk_without | exact Hs] |].
      intros c. rewrite ?app_nil_r. specialize (Hc c). unfold entries_of in *. cbn.
      destruct (String.eqb k c); cbn; lia.
    + destruct (IH s) as (n & s' & effs & -> & Hs & Hc).
      cbn. do 3 eexists. split; [reflexivity |]. split; [exact Hs |].
      intros c. rewrite ?app_nil_r, sent_to_send. specialize (Hc c).
      unfold entries_of in *. cbn. destruct (String.eqb k c); cbn; lia.
    + destruct (IH s) as (n & s' & effs & -> & Hs & Hc).
      cbn. do 3 eexists. split; [reflexivity |]. split; [exact Hs |].
      intros c. rewrite ?app_nil_r. specialize (Hc c). unfold entries_of in *. cbn.
      destruct (String.eqb k c); cbn; lia.
Qed.

Lemma broadcastOne_frame (now : Z) (message : WebSocketMessage) (s : WebSocketService) :
  exists s' effs,
    broadcastOne now message s = (Ok tt, s', effs) /\ shrunk s s' /\
    forall c, length (sent_to c effs) <= length (entries_of c (clients s)).
Proof.
  unfold broadcastOne. rewrite ws_bind_get.
  destruct (sendToAll_frame (stamped now message) (clients s) s)
    as (n & s1 & effs1 & Hrun & Hs1 & Hc1).
  unfold mbind, Eff_bind. rewrite Hrun.
  unfold when, perform, mret, Eff_ret. destruct (0 <? n)%nat; cbn;
    do 2 eexists; (split; [reflexivity |]); (split; [exact Hs1 |]);
    intros c; rewrite ?app_nil_r, ?sent_to_app, ?length_app; specialize (Hc1 c);
    unfold sent_to at 2 || idtac; cbn; lia.
Qed.

Lemma batch_frame (now : Z) (batch : list WebSocketMessage) (s : WebSocketService) :
  (forall c, length (entries_of c (clients s)) <= 1) ->
  exists s' effs,
    for_each batch (broadcastOne now) s = (Ok tt, s', effs) /\ shrunk s s' /\
    forall c, length (sent_to c effs) <= length batch.
Proof.
  revert s. induction batch as [| message batch IH]; intros s Hd.
  - exists s, []. split; [reflexivity |].
    split; [apply shrunk_refl | intros; unfold sent_to; cbn; lia].
  - cbn [for_each]. unfold mbind, Eff_bind.
    destruct (broadcastOne_frame now message s) as (s1 & effs1 & -> & Hs1 & Hc1).
    assert (Hd1 : forall c, length (entries_of c (clients s1)) <= 1).
    { intros c. destruct Hs1 as (_ & _ & _ & _ & _ & _ & _ & H8).
      specialize (H8 c). specialize (Hd c). lia. }
    destruct (IH s1 Hd1) as (s2 & effs2 & -> & Hs2 & Hc2).
    do 2 eexists. split; [reflexivity |].
    split; [eapply shrunk_trans; eassumption |].
    intros c. rewrite sent_to_app, length_app.
    specialize (Hc1 c). specialize (Hc2 c). specialize (Hd c). cbn. lia.
Qed.

Lemma entries_with (c c' : string) (ws : Socket) (l : list (string * Socket)) :
  length (entries_of c l) <= 1 -> length (entries_of c (with_client c' ws l)) <= 1.
Proof.
  intros H. unfold with_client. destruct (existsb _ l) eqn:Ex.
  - assert (E : length (entries_of c (map (fun kv => if String.eqb kv.1 c' then (kv.1, ws)
                                                       else kv) l))
                = length (entries_of c l)).
    { unfold entries_of. clear. induction l as [| [k ws'] l IH]; [reflexivity |]. cbn.
      destruct (String.eqb k c'); cbn; destruct (String.eqb k c); cbn; lia. }
    lia.
  - unfold entries_of in *. rewrite List.filter_app, length_app. cbn.
    destruct (String.eqb c' c) eqn:E; cbn; [| lia].
    apply String.eqb_eq in E. subst c'.
    assert (E0 : List.filter (fun kv => String.eqb kv.1 c) l = []).
    { clear H. induction l as [| [k ws'] l IH]; [reflexivity |]. cbn in *.
      apply orb_false_iff in Ex as [Ek Ex]. rewrite Ek. auto. }
    rewrite E0. cbn. lia.
Qed.

Lemma entries_change (c c' : string) (ws : Socket) (l : list (string * Socket)) :
  length (entries_of c (map (fun kv => if String.eqb kv.1 c' then (kv.1, ws) else kv) l))
  = length (entries_of c l).
Proof.
  unfold entries_of. induction l as [| [k ws'] l IH]; [reflexivity |]. cbn.
  destruct (String.eqb k c'); cbn; destruct (String.eqb k c); cbn; lia.
Qed.

(** Loops that only perform effects. *)
Lemma for_each_pure {A} (l : list A) (body : A -> M unit) (s : WebSocketService) :
  (forall x, exists effs, body x s = (Ok tt, s, effs)) ->
  exists effs, for_each l body s = (Ok tt, s, effs).
Proof.
  intros Hb. induction l as [| x l IH]; [exists []; reflexivity |].
  cbn [for_each]. unfold mbind, Eff_bind. destruct (Hb x) as [effs1 ->].
  destruct IH as [effs2 ->]. eexists. reflexivity.
Qed.

Lemma flushOne_pure (now : Z) (message : WebSocketMessage) (s : WebSocketService) :
  exists effs, flushOne now message s = (Ok tt, s, effs).
Proof.
  unfold flushOne. rewrite ws_bind_get. apply for_each_pure. intros [k ws].
  unfold when, perform, mret, Eff_ret. destruct (_ && _); eexists; reflexivity.
Qed.

Ltac settled_side :=
  let w := fresh "w" in
  let Hw := fresh "Hw" in
  (intros w ? Hw || intros w Hw);
  first
    [ exact Hw
    | destruct Hw as (Hw1 & Hw2 & Hw3 & Hw4);
      split; [exact Hw1 |]; split; [exact Hw2 |];
      split; [first [exact Hw3 | let Hx := fresh "Hx" in intros Hx; discriminate Hx] |];
      intros c';
      cbn [clients set_clients set_clientCounter set_wss set_lifecycle set_queueTimer
           set_immediates set_messageQueue set_isProcessingQueue];
      first [ apply Hw4
            | apply entries_with, Hw4
            | rewrite entries_change; apply Hw4
            | etransitivity; [apply entries_without | apply Hw4] ] ].

(** The queue is empty and nothing is being processed. *)
Lemma emptied_settled (s : WebSocketService) :
  messageQueue s = [] -> isProcessingQueue s = false ->
  (forall c, length (entries_of c (clients s)) <= 1) -> settled s.
Proof.
  intros Hq Hp Hd. split; [exact Hp |]. split; [rewrite Hq; intros H; contradiction |].
  split; [intros _; exact Hq | exact Hd].
Qed.

Lemma deactivate_settled (now : Z) : respects settled (fun _ => True) (deactivate now).
Proof.
  intros s Hs. split; [| apply all_true]. unfold deactivate.
  eapply (after_bind settled); [reflexivity |].
  destruct (Lifecycle.canDeactivate (lifecycle s)) eqn:Hcan; cbn [negb]; [| exact Hs].
  destruct Hs as (Hp & Ht & Hw & Hd).
  eapply (after_bind settled);
    [unfold mark, Lifecycle.markDeactivating; rewrite Hcan; reflexivity |].
  eapply (after_bind settled); [reflexivity |].
  eapply (after_bind settled); [reflexivity |].
  assert (Hrest : respects (fun w => messageQueue w = [] /\ isProcessingQueue w = false /\
                                     forall c, length (entries_of c (clients w)) <= 1)
                           (fun _ => True)
            (w ← get;
             for_each (clients w) (fun kv => perform (Close kv.1));;
             modify (fun w => set_clients w []);;
             modify (fun w => set_wss w false);;
             mark Lifecycle.markDeactivated)).
  { respects_with ltac:(let x := fresh "x" in
                        let Hx := fresh "Hx" in
                        intros x Hx;
                        first [exact Hx
                              | destruct Hx as (? & ? & ?); repeat split; auto;
                                intros; cbn; lia]);
      first [ apply respects_perform; exact Logic.I
            | apply respects_ws_mark; let Hx := fresh "Hx" in intros ? ? Hx; exact Hx ]. }
  assert (Hfin : forall w, messageQueue w = [] -> isProcessingQueue w = false ->
            (forall c, length (entries_of c (clients w)) <= 1) ->
            settled ((w ← get;
                      for_each (clients w) (fun kv => perform (Close kv.1));;
                      modify (fun w => set_clients w []);;
                      modify (fun w => set_wss w false);;
                      mark Lifecycle.markDeactivated) w).1.2).
  { intros w Hq' Hp' Hd'. destruct (Hrest w) as [(H1 & H2 & H3) _]; [auto |].
    apply emptied_settled; assumption. }
  cbn [messageQueue set_queueTimer set_lifecycle].
  case_bool_decide as Eq; cbn [negb when].
  - eapply (after_bind settled); [reflexivity |].
    apply Hfin; cbn; [exact Eq | exact Hp | exact Hd].
  - destruct (for_each_pure (messageQueue s) (flushOne now)
                (set_messageQueue
                   (set_isProcessingQueue
                      (set_queueTimer
                         (set_lifecycle s (Lifecycle.set_state (lifecycle s)
                                             Lifecycle.DEACTIVATING)) false) true) [])
                (fun x => flushOne_pure now x _)) as [effs Hflush].
    eapply (after_bind settled).
    + unfold mbind, Eff_bind, modify. cbn. rewrite Hflush. reflexivity.
    + apply Hfin; cbn; auto.
Qed.

Lemma timeout_frame (now : Z) (s : WebSocketService) :
  settled s ->
  settled (onQueueTimeout now s).1.2 /\
  forall c, length (sent_to c (onQueueTimeout now s).2) <= 10.
Proof.
  intros (Hp & Ht & Hw & Hd). unfold onQueueTimeout, mbind, Eff_bind, get, modify.
  destruct (batch_frame now (take 10 (messageQueue s))
              (set_messageQueue (set_isProcessingQueue s true) (drop 10 (messageQueue s))) Hd)
    as (s1 & effs1 & Hrun & (F1 & F2 & F3 & F4 & F5 & F6 & F7 & F8) & Hc).
  cbn. rewrite Hrun. cbn. cbn in F2, F4, F8.
  assert (Hlen : forall c, length (sent_to c effs1) <= 10).
  { intros c. specialize (Hc c).
    pose proof (firstn_le_length 10 (messageQueue s)) as Hten.
    etransitivity; [exact Hc | exact Hten]. }
  assert (Hd1 : forall c, length (entries_of c (clients s1)) <= 1).
  { intros c. etransitivity; [exact (F8 c) | exact (Hd c)]. }
  assert (Hw1 : wss s1 = false -> messageQueue s1 = []).
  { rewrite F2, F4. intros H. rewrite (Hw H). reflexivity. }
  case_bool_decide as Eq; cbn; rewrite ?app_nil_r.
  - split; [| exact Hlen]. apply emptied_settled; [exact Eq | reflexivity | exact Hd1].
  - split; [| exact Hlen]. split; [reflexivity |]. split; [intros _; right; cbn; lia |].
    split; [exact Hw1 | exact Hd1].
Qed.

Lemma handle_settled (ev : event) : respects settled (fun _ => True) (handle ev).
Proof.
  destruct ev; cbn [handle];
    unfold initialize, activate, destroy, sendToClient, onConnection, onClientClose,
      onClientError, onSocketChange;
    try (respects_with ltac:(settled_side);
         first [ apply respects_perform; exact Logic.I
               | apply respects_ws_mark; settled_side
               | apply deactivate_settled ]).
  - (* broadcast *)
    intros s (Hp & Ht & Hw & Hd). split; [| apply all_true].
    unfold broadcast, processQueue, mbind, Eff_bind, get, modify. cbn.
    destruct (wss s) eqn:Ews; cbn; [| repeat split; auto].
    rewrite Hp. cbn. case_bool_decide as Eq; cbn.
    + destruct (messageQueue s); discriminate Eq.
    + split; [exact Hp |]. split; [intros _; left; reflexivity |].
      split; [cbn; rewrite Ews; discriminate | exact Hd].
  - (* the timeout *)
    intros s Hs. split; [| apply all_true]. rewrite ws_bind_get.
    destruct (queueTimer s); cbn [when]; [| exact Hs]. apply timeout_frame, Hs.
  - (* a callback of setImmediate *)
    intros s (Hp & Ht & Hw & Hd). split; [| apply all_true]. rewrite ws_bind_get.
    case_bool_decide as Eim; cbn [when]; [| repeat split; assumption].
    unfold onImmediate, processQueue, mbind, Eff_bind, get, modify. cbn. rewrite Hp. cbn.
    case_bool_decide as Eq; cbn.
    + apply emptied_settled; [exact Eq | exact Hp | exact Hd].
    + split; [exact Hp |]. split; [intros _; left; reflexivity |].
      split; [exact Hw | exact Hd].
Qed.

(** X20.  No message is stranded on the queue, and the timeout sends
    in batches: in every run from the construction of the service,
    between two events nothing is marked as being processed, no
    message waits unless the 50 ms timeout or a callback of
    [setImmediate] is pending to send it, none waits while there is no
    server, and no client id is held twice; and whenever the timeout
    fires, it sends each client at most ten messages. *)
Theorem queue_is_never_stranded (evs : list event) :
  let s := (run evs new).1 in
  settled s /\
  forall now c, length (sent_to c (step (QueueTimeout now) s).2) <= 10.
Proof.
  intros s.
  assert (Hs : settled s).
  { subst s. assert (H0 : settled new).
    { repeat split; try reflexivity; try discriminate. intros H. contradiction.
      intros c. cbn. lia. }
    revert H0. generalize new. induction evs as [| ev evs IH]; intros s0 H0; [exact H0 |].
    cbn [run]. unfold step. destruct (handle_settled ev s0 H0) as [H1 _].
    destruct (handle ev s0) as [[res s1] effs1]. specialize (IH s1 H1).
    destruct (run evs s1) as [s2 effs2]. exact IH. }
  split; [exact Hs |]. intros now c. unfold step, handle. rewrite ws_bind_get.
  destruct (queueTimer s); cbn [when].
  - destruct (timeout_frame now s Hs) as [_ H]. specialize (H c).
    destruct (onQueueTimeout now s) as [[res s'] effs]. exact H.
  - unfold sent_to. cbn. lia.
Qed.

End WebSocketServiceProps.

Module ConfigCacheProps.
Import JsValue Config ConfigEdge.

(** [fileMtime] is the modification time of the file, 0 without one. *)
Lemma readConfig_mtime (w : World) (configFile : string) (config : Config) (m : Z) :
  readConfig w configFile = Ok (config, m) -> m = mtime_of (files w !! configFile).
Proof.
  unfold readConfig. destruct (readAndMerge w configFile) as [merged fileMtime] eqn:E.
  assert (Hm : fileMtime = mtime_of (files w !! configFile)).
  { unfold readAndMerge, mtime_of in *.
    destruct (files w !! configFile) as [f |]; [destruct (parse (content f)) |];
      injection E as _ <-; reflexivity. }
  destruct (convertSnakeCase (now w) merged) as [converted | e1]; cbn; [| discriminate].
  destruct (ensureRequired converted) as [ensured | e2]; cbn; [| discriminate].
  case_match; [| discriminate]. intros [= _ <-]. exact Hm.
Qed.

(** A load that reads the file caches what it returns. *)
Lemma load_caches (w : World) (configPath : option string) (config : Config) :
  cacheHit w (configFileOf w configPath) = None ->
  (loadConfig w configPath).1 = Ok config ->
  configCache (loadConfig w configPath).2
  = Some {| data := config; timestamp := now w;
            mtime := mtime_of (files w !! configFileOf w configPath) |}.
Proof.
  intros Hmiss. unfold loadConfig. rewrite Hmiss.
  destruct (readConfig w (configFileOf w configPath)) as [[c m] | e] eqn:E; [| discriminate].
  cbn. intros [= ->]. rewrite (readConfig_mtime _ _ _ _ E). reflexivity.
Qed.

(** X21.  The cached configuration is not tied to the file it was read
    from: for one second after a load that read the file, [loadConfig]
    returns that configuration again, and changes nothing, for every
    path it is asked for and whatever the environment variables and
    the working directory have become, as long as the file it is asked
    for is missing or has the modification time of the file read;
    contents are not compared.  Once the second has passed the answer
    is that of a load after [invalidateConfigCache()]. *)
Theorem cached_answer_ignores_path_and_environment (w w' : World)
    (configPath configPath' : option string) (config : Config) :
  cacheHit w (configFileOf w configPath) = None ->
  (loadConfig w configPath).1 = Ok config ->
  configCache w' = configCache (loadConfig w configPath).2 ->
  ((now w' - now w < CACHE_TTL)%Z ->
   match files w' !! configFileOf w' configPath' with
   | Some f => mtimeMs f = mtime_of (files w !! configFileOf w configPath)
   | None => True
   end ->
   loadConfig w' configPath' = (Ok config, w')) /\
  ((CACHE_TTL <= now w' - now w)%Z ->
   (loadConfig w' configPath').1 = (loadConfig (invalidateConfigCache w') configPath').1).
Proof.
  intros Hmiss Hok Hcache. rewrite (load_caches w configPath config Hmiss Hok) in Hcache.
  split.
  - intros Hfresh Hfile. unfold loadConfig, cacheHit. rewrite Hcache. cbn.
    apply Z.ltb_lt in Hfresh. rewrite Hfresh.
    destruct (files w' !! configFileOf w' configPath') as [f |]; [| reflexivity].
    rewrite Hfile, Z.eqb_refl. reflexivity.
  - intros Hold. apply Z.ltb_ge in Hold.
    assert (E : configFileOf (invalidateConfigCache w') configPath' = configFileOf w' configPath')
      by reflexivity.
    unfold loadConfig. rewrite E. unfold cacheHit at 1 2. rewrite Hcache. cbn.
    rewrite Hold.
    assert (R : readConfig (invalidateConfigCache w') (configFileOf w' configPath')
                = readConfig w' (configFileOf w' configPath')) by reflexivity.
    rewrite R.
    destruct (files w' !! configFileOf w' configPath') as [f |];
      [destruct (mtimeMs f =? _)%Z |];
      destruct (readConfig w' (configFileOf w' configPath')) as [[c m] | e]; reflexivity.
Qed.

Lemma cached_answer_ignores_path_and_environment_witness :
  (ui_port ∘ ui <$> (loadConfig (port_world "9000") None).1) = Ok 9000%Z /\
  configFileOf moved_world (Some "/etc/streamhub/other.yaml") = "/etc/streamhub/other.yaml" /\
  (ui_port ∘ ui <$> (loadConfig moved_world (Some "/etc/streamhub/other.yaml")).1)
  = Ok 9000%Z /\
  (ui_port ∘ ui <$>
     (loadConfig (invalidateConfigCache moved_world) (Some "/etc/streamhub/other.yaml")).1)
  = Ok 7000%Z.
Proof.
  split; [vm_compute; reflexivity |]. split; [reflexivity |].
  split; [| vm_compute; reflexivity].
  destruct (loadConfig (port_world "9000") None) as [[config | e] w1] eqn:E;
    [| vm_compute in E; discriminate].
  assert (Hc : ui_port (ui config) = 9000%Z) by (vm_compute in E; injection E as <- _; reflexivity).
  destruct (cached_answer_ignores_path_and_environment (port_world "9000") moved_world None
              (Some "/etc/streamhub/other.yaml") config) as [Hserved _].
  - reflexivity.
  - rewrite E. reflexivity.
  - reflexivity.
  - rewrite Hserved; [cbn; rewrite Hc; reflexivity | vm_compute; reflexivity | exact Logic.I].
Defined.

End ConfigCacheProps.

Module WebSocketShutdownProps.
Import Exec ExecProps WebSocketService WebSocketServiceProps.

#[local] Arguments sent_to : simpl never.

(** What the flush of one message sends to the clients of a list. *)
Lemma flush_loop (c : string) (now : Z) (message : WebSocketMessage)
    (l : list (string * Socket)) (s : WebSocketService) :
  exists effs,
    for_each l (fun kv =>
      when (isOpen kv.2 && negb (is_Some_bool (sendThrows kv.2)))
           (perform (Send kv.1 (stamped now message)))) s
    = (Ok tt, s, effs) /\
    Forall (fun e => is_send e = true) effs /\
    sent_to c effs
    = map (fun _ => content message)
          (List.filter (fun kv => isOpen kv.2 && negb (is_Some_bool (sendThrows kv.2)))
                       (entries_of c l)).
Proof.
  set (body := fun kv : string * Socket =>
         when (isOpen kv.2 && negb (is_Some_bool (sendThrows kv.2)))
              (perform (Send kv.1 (stamped now message)))).
  induction l as [| [k ws] l IH].
  - exists []. repeat split. constructor.
  - destruct IH as (effs & Hrun & Hsend & Hsent).
    assert (Hh : body (k, ws) s
                 = (Ok tt, s,
                    if isOpen ws && negb (is_Some_bool (sendThrows ws))
                    then [Send k (stamped now message)] else []))
      by (unfold body; cbn [fst snd]; destruct (_ && _); reflexivity).
    cbn [for_each]. unfold mbind, Eff_bind. rewrite Hh, Hrun.
    unfold entries_of in *. cbn [List.filter fst snd].
    destruct (isOpen ws && negb (is_Some_bool (sendThrows ws))) eqn:E.
    + eexists. split; [reflexivity |]. split; [constructor; [reflexivity | exact Hsend] |].
      cbn [app]. rewrite sent_to_send.
      destruct (String.eqb k c); cbn [List.filter snd map]; rewrite ?E; cbn [map];
        rewrite Hsent; reflexivity.
    + eexists. split; [reflexivity |]. split; [exact Hsend |].
      cbn [app]. rewrite Hsent.
      destruct (String.eqb k c); cbn [List.filter snd]; rewrite ?E; reflexivity.
Qed.

(** The flush of one message sends it once to every receiving client. *)
Lemma flushOne_sends (now : Z) (message : WebSocketMessage) (s : WebSocketService) :
  exists effs,
    flushOne now message s = (Ok tt, s, effs) /\
    Forall (fun e => is_send e = true) effs /\
    forall c, receiving c s -> sent_to c effs = [content message].
Proof.
  unfold flushOne. rewrite ws_bind_get.
  destruct (flush_loop EmptyString now message (clients s) s) as (effs & Hrun & Hsend & _).
  exists effs. split; [exact Hrun |]. split; [exact Hsend |].
  intros c (ws & Hc & Hopen & Hthrow).
  destruct (flush_loop c now message (clients s) s) as (effs' & Hrun' & _ & Hsent).
  rewrite Hrun in Hrun'. injection Hrun' as <-.
  rewrite Hsent. unfold entries_of. rewrite Hc. cbn. rewrite Hopen, Hthrow. reflexivity.
Qed.

(** The flush of the queue. *)
Lemma flush_queue (now : Z) (queue : list WebSocketMessage) (s : WebSocketService) :
  exists effs,
    for_each queue (flushOne now) s = (Ok tt, s, effs) /\
    Forall (fun e => is_send e = true) effs /\
    forall c, receiving c s -> sent_to c effs = map content queue.
Proof.
  induction queue as [| message queue IH].
  - exists []. repeat split. constructor.
  - destruct IH as (effs & Hrun & Hsend & Hsent).
    destruct (flushOne_sends now message s) as (effs1 & Hrun1 & Hsend1 & Hsent1).
    cbn [for_each]. unfold mbind, Eff_bind. rewrite Hrun1, Hrun.
    eexists. split; [reflexivity |]. split; [apply Forall_app; split; assumption |].
    intros c Hc. rewrite sent_to_app, (Hsent1 c Hc), (Hsent c Hc). reflexivity.
Qed.

(** The loop closing the clients. *)
Lemma close_loop (l : list (string * Socket)) (s : WebSocketService) :
  for_each l (fun kv => perform (Close kv.1)) s = (Ok tt, s, map (fun kv => Close kv.1) l).
Proof.
  set (body := fun kv : string * Socket => perform (Close kv.1)).
  induction l as [| kv l IH]; [reflexivity |].
  cbn [for_each]. unfold mbind, Eff_bind.
  change (body kv s) with (Ok tt, s, [Close kv.1]). cbv beta iota. rewrite IH. reflexivity.
Qed.

Ltac shutdown_empty :=
  exists []; eexists; split;
  [ cbv -[for_each flushOne app map fst]; rewrite close_loop;
    cbn [app]; rewrite ?app_nil_r; reflexivity |];
  split; [constructor |]; split; [intros ? _; reflexivity |];
  repeat (split; [reflexivity |]);
  eexists; split; [reflexivity |]; split; reflexivity.

Ltac shutdown_flush :=
  match goal with
  | |- exists sends s1,
         deactivate ?now {| lifecycle := {| Lifecycle.state := _; Lifecycle.moduleName := ?name |};
                            wss := ?w; clients := ?cl; clientCounter := ?cc;
                            messageQueue := ?q; isProcessingQueue := _; queueTimer := _;
                            immediates := ?im |} = _ /\ _ =>
      let effsF := fresh "effsF" in
      let HrunF := fresh "HrunF" in
      let HsendF := fresh "HsendF" in
      let HsentF := fresh "HsentF" in
      destruct (flush_queue now q
                  {| lifecycle := {| Lifecycle.state := Lifecycle.DEACTIVATING;
                                     Lifecycle.moduleName := name |};
                     wss := w; clients := cl; clientCounter := cc; messageQueue := [];
                     isProcessingQueue := true; queueTimer := false; immediates := im |})
        as (effsF & HrunF & HsendF & HsentF);
      exists effsF; eexists; split;
      [ cbv -[for_each flushOne app map fst]; rewrite HrunF, close_loop;
        cbn [app]; rewrite ?app_nil_r; reflexivity |];
      split; [exact HsendF |];
      split; [let c := fresh "c" in let Hc := fresh "Hc" in
              intros c Hc; apply HsentF; revert Hc; apply receiving_same; reflexivity |];
      repeat (split; [reflexivity |]);
      eexists; split; [reflexivity |]; split; reflexivity
  end.

(** X22.  A graceful shutdown loses no message.  While the service is
    active, [destroy()] alone does nothing at all: the server, the
    clients and the queue stay.  [deactivate()] first sends every
    message still waiting on the queue, in order, to every client that
    is receiving, then closes every client once, in the order of the
    table, and sends nothing else; afterwards there is no client, no
    server, no message waiting and no timeout pending, and
    [destroy()] then ends in DESTROYED without sending or closing
    anything. *)
Theorem shutdown_flushes_then_closes (now now' : Z) (s : WebSocketService) :
  Lifecycle.canDeactivate (lifecycle s) = true ->
  destroy now s = (Ok tt, s, []) /\
  exists sends s1,
    deactivate now s
    = (Ok tt, s1, (sends ++ map (fun kv => Close kv.1) (clients s))%list) /\
    Forall (fun e => is_send e = true) sends /\
    (forall c, receiving c s -> sent_to c sends = map content (messageQueue s)) /\
    clients s1 = [] /\ wss s1 = false /\ messageQueue s1 = [] /\ queueTimer s1 = false /\
    Lifecycle.state (lifecycle s1) = Lifecycle.DEACTIVATED /\
    exists s2, destroy now' s1 = (Ok tt, s2, []) /\
               Lifecycle.state (lifecycle s2) = Lifecycle.DESTROYED /\
               set_lifecycle s2 (lifecycle s1) = s1.
Proof.
  intros Hcan. destruct s as [[st name] w cl cc q p t im]. cbn in Hcan.
  split; [destruct st; try discriminate Hcan; reflexivity |].
  destruct st; try discriminate Hcan; (destruct q as [| m q]; [shutdown_empty | shutdown_flush]).
Qed.

Lemma shutdown_flushes_then_closes_witness :
  let c := "client_1_1700000000000" in
  (length (messageQueue backlog) = 12%nat) /\
  (sent_to c (deactivate 1700000000100 backlog).2
   = map (fun n => ("status", pretty n)) (seq 1 12)) /\
  Exists (fun e => e = Close c) (deactivate 1700000000100 backlog).2 /\
  (destroy 1700000000100 backlog = (Ok tt, backlog, [])).
Proof.
  intros c. split; [vm_compute; reflexivity |].
  destruct (shutdown_flushes_then_closes 1700000000100 1700000000200 backlog)
    as (Hdestroy & sends & s1 & Hrun & _ & Hsent & _); [vm_compute; reflexivity |].
  split; [| split; [| exact Hdestroy]].
  - rewrite Hrun. cbn [snd]. rewrite sent_to_app.
    rewrite (Hsent c)
      by (exists {| isOpen := true; sendThrows := None |}; repeat split; reflexivity).
    vm_compute. reflexivity.
  - rewrite Hrun. cbn [snd]. apply Exists_app. right. vm_compute. constructor. reflexivity.
Defined.

End WebSocketShutdownProps.

Module SingletonProps.
Import Exec ExecProps Registry RegistryProps.

Lemma factoryCalls_app (n : string) (a b : list effect) :
  factoryCalls n (a ++ b) = (factoryCalls n a + factoryCalls n b)%nat.
Proof. unfold factoryCalls. rewrite List.filter_app, length_app. reflexivity. Qed.

Lemma advances_refl (n : string) (r : ModuleRegistry) : advances n r r 0.
Proof.
  unfold advances. destruct (get_module n (modules r)) as [reg |]; [| auto].
  exists reg. repeat split. intros _ _. destruct (instance reg); auto.
Qed.

Lemma advances_trans (n : string) (r r1 r2 : ModuleRegistry) (k1 k2 : nat) :
  advances n r r1 k1 -> advances n r1 r2 k2 -> advances n r r2 (k1 + k2).
Proof.
  unfold advances. destruct (get_module n (modules r)) as [reg |].
  - intros (reg1 & -> & Hs1 & Ht1 & H1) (reg2 & -> & Hs2 & Ht2 & H2).
    exists reg2. split; [reflexivity |]. split; [congruence |]. split; [congruence |].
    intros Hs Ht. specialize (H1 Hs Ht).
    assert (Hs' : singleton reg1 = true) by congruence.
    assert (Ht' : factoryThrows reg1 = None) by congruence.
    specialize (H2 Hs' Ht').
    destruct (instance reg) as [i |].
    + destruct H1 as [-> E1]. rewrite E1 in H2. exact H2.
    + destruct H1 as [[-> E1] | [-> [i E1]]]; rewrite E1 in H2.
      * exact H2.
      * right. destruct H2 as [-> E2]. split; [reflexivity | eauto].
  - intros [-> ->] [-> H2]. auto.
Qed.

(** *** The rules of [tracks] *)

Lemma tracks_ret {A} (n : string) (a : A) (r : ModuleRegistry) : tracks n (mret a : M A) r.
Proof. intros H. split; [exact H | apply advances_refl]. Qed.

Lemma tracks_throw {A} (n : string) (msg : string) (r : ModuleRegistry) :
  tracks n (throw msg : M A) r.
Proof. intros H. split; [exact H | apply advances_refl]. Qed.

Lemma tracks_bind {A B} (n : string) (c : M A) (f : A -> M B) (r : ModuleRegistry) :
  tracks n c r ->
  (forall a r1 effs1, c r = (Ok a, r1, effs1) -> tracks n (f a) r1) ->
  tracks n (c ≫= f) r.
Proof.
  intros Hc Hf Hr. specialize (Hc Hr). unfold mbind, Eff_bind.
  destruct (c r) as [[[a | e] r1] effs1] eqn:E; cbn [fst snd] in Hc; [| exact Hc].
  destruct Hc as [H1 Ha]. specialize (Hf a r1 effs1 eq_refl H1).
  destruct (f a r1) as [[res r2] effs2]. cbn [fst snd] in *.
  destruct Hf as [H2 Hb]. split; [exact H2 |].
  rewrite factoryCalls_app. exact (advances_trans n r r1 r2 _ _ Ha Hb).
Qed.

Lemma tracks_get {A} (n : string) (f : ModuleRegistry -> M A) (r : ModuleRegistry) :
  tracks n (f r) r -> tracks n (get ≫= f) r.
Proof. unfold tracks. rewrite registry_bind_get. auto. Qed.

Lemma tracks_try_catch {A} (n : string) (c : M A) (h : exn -> M A) (r : ModuleRegistry) :
  tracks n c r ->
  (forall e r1 effs1, c r = (Throw e, r1, effs1) -> tracks n (h e) r1) ->
  tracks n (try_catch c h) r.
Proof.
  intros Hc Hh Hr. specialize (Hc Hr). unfold try_catch.
  destruct (c r) as [[[a | e] r1] effs1] eqn:E; cbn [fst snd] in Hc; [exact Hc |].
  destruct Hc as [H1 Ha]. specialize (Hh e r1 effs1 eq_refl H1).
  destruct (h e r1) as [[res r2] effs2]. cbn [fst snd] in *.
  destruct Hh as [H2 Hb]. split; [exact H2 |].
  rewrite factoryCalls_app. exact (advances_trans n r r1 r2 _ _ Ha Hb).
Qed.

Lemma tracks_cache {A} (n name : string) (i : IModule) (a : A) (r : ModuleRegistry) :
  tracks n (cacheResolution name i;; mret a) r.
Proof. intros H. split; [exact H | exact (advances_refl n r)]. Qed.

(** *** [instantiate] *)

Lemma get_set_instance_ne (n k : string) (i : IModule) (l : list (string * ModuleRegistration)) :
  n <> k -> get_module n (set_instance k i l) = get_module n l.
Proof.
  intros Hne. induction l as [| [k' reg] l IH]; [reflexivity |]. cbn.
  destruct (String.eqb k k') eqn:E; cbn.
  - apply String.eqb_eq in E. subst k'.
    destruct (String.eqb n k) eqn:E'; [apply String.eqb_eq in E'; congruence | reflexivity].
  - destruct (String.eqb n k'); [reflexivity | exact IH].
Qed.

Lemma get_set_instance_eq (k : string) (i : IModule) (l : list (string * ModuleRegistration))
    (reg : ModuleRegistration) :
  get_module k l = Some reg -> get_module k (set_instance k i l) = Some (with_instance reg i).
Proof.
  induction l as [| [k' reg'] l IH]; [discriminate |]. cbn.
  destruct (String.eqb k k') eqn:E; cbn; rewrite E; [intros [= ->]; reflexivity | exact IH].
Qed.

Lemma filed_set_instance (r : ModuleRegistry) (k : string) (i : IModule) (c : nat) :
  filed r -> of_module i = k ->
  (forall reg, get_module k (modules r) = Some reg -> factoryThrows reg = None) ->
  filed (set_modules (set_constructed r c) (set_instance k i (modules r))).
Proof.
  intros H Hi Ht k' reg'. cbn. destruct (decide (k' = k)) as [-> | Hne].
  - destruct (get_module k (modules r)) as [reg |] eqn:E.
    + rewrite (get_set_instance_eq k i _ reg E). intros [= <-]. cbn.
      split; [apply (H k reg E) | intros i' [= <-]; split; [exact Hi | exact (Ht reg eq_refl)]].
    + intros Hget. exfalso.
      assert (Hs : is_Some_bool (get_module k (set_instance k i (modules r))) = true)
        by (rewrite Hget; reflexivity).
      rewrite get_set_instance, E in Hs. discriminate.
  - rewrite get_set_instance_ne by exact Hne. apply H.
Qed.

Lemma advances_other (n : string) (r r' : ModuleRegistry) :
  get_module n (modules r') = get_module n (modules r) -> advances n r r' 0.
Proof.
  intros E. unfold advances. rewrite E.
  destruct (get_module n (modules r)) as [reg |]; [| auto].
  exists reg. repeat split. intros _ _. destruct (instance reg); auto.
Qed.

Lemma advances_bad (n : string) (r r' : ModuleRegistry) (k : nat) (reg : ModuleRegistration) :
  get_module n (modules r) = Some reg -> get_module n (modules r') = Some reg ->
  singleton reg = false \/ is_Some (factoryThrows reg) ->
  advances n r r' k.
Proof.
  intros E E' Hbad. unfold advances. rewrite E. exists reg. repeat split; [exact E' |].
  intros Hs Ht. destruct Hbad as [Hb | [msg Hb]]; congruence.
Qed.

Lemma factoryCalls_one (n m : string) :
  factoryCalls n [FactoryCall m] = if String.eqb m n then 1%nat else 0%nat.
Proof. unfold factoryCalls. cbn. destruct (String.eqb m n); reflexivity. Qed.

Lemma tracks_instantiate (n m : string) (reg : ModuleRegistration) (r : ModuleRegistry) :
  get_module m (modules r) = Some reg -> tracks n (instantiate reg) r.
Proof.
  intros Hget Hr. destruct (Hr m reg Hget) as [Hname Hinst].
  unfold instantiate, callFactory.
  destruct (singleton reg) eqn:Hs; [destruct (instance reg) as [i |] eqn:Hi |];
    [split; [exact Hr | apply advances_refl] | |];
    destruct (factoryThrows reg) as [msg |] eqn:Ht; rewrite ?Hname; clear Hname Hinst;
    unfold mbind, Eff_bind, perform, throw, get, modify, mret, Eff_ret; cbn -[factoryCalls].
  - split; [exact Hr |]. rewrite factoryCalls_one.
    destruct (String.eqb m n) eqn:E; [| apply advances_refl].
    apply String.eqb_eq in E. subst m. apply (advances_bad n r r 1 reg); eauto.
  - split; [apply (filed_set_instance r m _ (S (constructed r)) Hr);
            [reflexivity | intros reg0 E0; congruence] |].
    rewrite factoryCalls_one.
    destruct (String.eqb m n) eqn:E.
    + apply String.eqb_eq in E. subst m. unfold advances. rewrite Hget. cbn.
      rewrite (get_set_instance_eq n _ _ reg Hget). eexists. split; [reflexivity |].
      cbn. repeat split. intros _ _. rewrite Hi. right. split; [reflexivity | eauto].
    + apply advances_other. cbn. apply get_set_instance_ne.
      intros ->. rewrite String.eqb_refl in E. discriminate.
  - split; [exact Hr |]. rewrite factoryCalls_one.
    destruct (String.eqb m n) eqn:E; [| apply advances_refl].
    apply String.eqb_eq in E. subst m. apply (advances_bad n r r 1 reg); eauto.
  - split; [exact Hr |]. rewrite factoryCalls_one.
    destruct (String.eqb m n) eqn:E; [| exact (advances_refl n r)].
    apply String.eqb_eq in E. subst m.
    apply (advances_bad n r _ 1 reg); [exact Hget | exact Hget | auto].
Qed.

(** *** The calls *)

Lemma tracks_tail (n m name : string) (reg : ModuleRegistration) (r : ModuleRegistry) :
  get_module m (modules r) = Some reg ->
  tracks n (i ← instantiate reg; cacheResolution name i;; mret i) r.
Proof.
  intros Hget. apply tracks_bind; [exact (tracks_instantiate n m reg r Hget) |].
  intros i r1 effs1 _. apply tracks_cache.
Qed.

Lemma tracks_resolveModule (n name : string) (r : ModuleRegistry) :
  tracks n (resolveModule name) r.
Proof.
  unfold resolveModule. apply tracks_get.
  destruct (get_module name (modules r)) as [reg |] eqn:E; [| apply tracks_throw].
  exact (tracks_tail n name name reg r E).
Qed.

Lemma tracks_resolve (n name : string) (r : ModuleRegistry) : tracks n (resolve name) r.
Proof.
  unfold resolve. apply tracks_get.
  destruct (resolutionCache r !! name); [apply tracks_ret |].
  destruct (exports r !! name) as [[| first rest] |]; try apply tracks_resolveModule.
  destruct (get_module _ (modules r)) as [reg |] eqn:E; [| apply tracks_resolveModule].
  exact (tracks_tail n _ name reg r E).
Qed.

Lemma tracks_collect (n : string) (moduleNames : list string) (r : ModuleRegistry) :
  tracks n (collect moduleNames) r.
Proof.
  revert r. induction moduleNames as [| moduleName rest IH]; intros r; cbn [collect].
  - apply tracks_ret.
  - apply tracks_get. apply tracks_bind.
    + destruct (get_module moduleName (modules r)) as [reg |] eqn:E; [| apply tracks_ret].
      apply tracks_try_catch.
      * apply tracks_bind; [exact (tracks_instantiate n moduleName reg r E) |].
        intros i r1 effs1 _. apply tracks_ret.
      * intros e r1 effs1 _ H1. split; [exact H1 | exact (advances_refl n r1)].
    + intros here r1 effs1 _. apply tracks_bind; [apply IH |].
      intros there r2 effs2 _. apply tracks_ret.
Qed.

Lemma tracks_resolveAll (n : string) (interfaceName : option string) (r : ModuleRegistry) :
  tracks n (resolveAll interfaceName) r.
Proof.
  unfold resolveAll. apply tracks_get. cbv zeta.
  destruct (resolveAllCache r !! _); [apply tracks_ret |].
  apply tracks_bind; [apply tracks_collect |].
  intros instances r1 effs1 _ H1. split; [exact H1 | exact (advances_refl n r1)].
Qed.

(** [register] calls no factory; it files the new registration, without
    instance, behind those that are there. *)
Lemma register_accounted (n name : string) (factoryThrows : option string)
    (dependencies exports_ : list string) (singleton : bool) (r : ModuleRegistry) (k : nat) :
  accounted n r k ->
  accounted n (register name factoryThrows dependencies exports_ singleton r).1.2 k /\
  (register name factoryThrows dependencies exports_ singleton r).2 = [].
Proof.
  intros [Hf Hk]. unfold register. rewrite registry_bind_get.
  destruct (get_module name (modules r)) as [old |] eqn:E; cbn [is_Some_bool];
    [split; [split; assumption | reflexivity] |].
  split; [| reflexivity]. cbn. split.
  - intros k' reg'. cbn. rewrite get_module_app.
    destruct (get_module k' (modules r)) as [reg0 |] eqn:E0; [intros [= <-]; exact (Hf k' reg0 E0) |].
    cbn. destruct (String.eqb k' name) eqn:E1; [| discriminate].
    apply String.eqb_eq in E1. intros [= <-]. cbn. split; [congruence | discriminate].
  - cbn [modules]. rewrite get_module_app.
    destruct (get_module n (modules r)) as [reg0 |] eqn:E0; [exact Hk |].
    cbn. destruct (String.eqb n name); [intros _ _; exact Hk | exact Hk].
Qed.

Lemma accounted_advances (n : string) (r r' : ModuleRegistry) (k k' : nat) :
  accounted n r k -> filed r' -> advances n r r' k' -> accounted n r' (k + k').
Proof.
  intros [_ Hk] Hf Ha. split; [exact Hf |]. unfold advances in Ha.
  destruct (get_module n (modules r)) as [reg |].
  - destruct Ha as (reg' & -> & Hs & Ht & H). intros Hs' Ht'.
    rewrite Hs in Hs'. rewrite Ht in Ht'. specialize (Hk Hs' Ht'). specialize (H Hs' Ht').
    destruct (instance reg) as [i |].
    + destruct H as [-> ->]. lia.
    + destruct H as [[-> ->] | [-> [i ->]]]; lia.
  - destruct Ha as [-> ->]. lia.
Qed.

Lemma handle_accounted (n : string) (c : call) (r : ModuleRegistry) (k : nat) :
  accounted n r k ->
  accounted n (handle c r).1.2 (k + factoryCalls n (handle c r).2).
Proof.
  intros H. destruct c as [name ft deps exps sing | name | interfaceName]; cbn [handle].
  - destruct (register_accounted n name ft deps exps sing r k H) as [H1 ->].
    rewrite Nat.add_0_r. exact H1.
  - assert (Ht : tracks n (resolve name;; mret tt) r)
      by (apply tracks_bind; [apply tracks_resolve | intros; apply tracks_ret]).
    destruct (Ht (proj1 H)) as [Hf Ha]. exact (accounted_advances n r _ k _ H Hf Ha).
  - assert (Ht : tracks n (resolveAll interfaceName;; mret tt) r)
      by (apply tracks_bind; [apply tracks_resolveAll | intros; apply tracks_ret]).
    destruct (Ht (proj1 H)) as [Hf Ha]. exact (accounted_advances n r _ k _ H Hf Ha).
Qed.

Lemma run_accounted (n : string) (calls : list call) (r : ModuleRegistry) (k : nat) :
  accounted n r k ->
  accounted n (run calls r).1 (k + factoryCalls n (run calls r).2).
Proof.
  revert r k. induction calls as [| c calls IH]; intros r k H.
  - cbn. rewrite Nat.add_0_r. exact H.
  - cbn [run]. pose proof (handle_accounted n c r k H) as H1.
    destruct (handle c r) as [[res r1] effs1]. cbn [fst snd] in H1.
    specialize (IH r1 _ H1). destruct (run calls r1) as [r2 effs2]. cbn [fst snd] in *.
    rewrite factoryCalls_app, Nat.add_assoc. exact IH.
Qed.

(** X23.  A singleton is constructed at most once.  In every run of
    registrations and resolutions from the empty registry, the factory
    of a module registered as a singleton, and not throwing, has been
    called exactly once if the module holds an instance and not at all
    otherwise, however often and under whatever names (its own or an
    interface it exports, by [resolve] or [resolveAll]) the module was
    resolved, and whatever was registered in between. *)
Theorem singleton_is_constructed_once (calls : list call) (moduleName : string)
    (registration : ModuleRegistration) :
  get_module moduleName (modules (run calls new).1) = Some registration ->
  singleton registration = true -> factoryThrows registration = None ->
  factoryCalls moduleName (run calls new).2
  = match instance registration with Some _ => 1%nat | None => 0%nat end.
Proof.
  intros Hget Hs Ht.
  assert (H0 : accounted moduleName new 0) by (split; [intros k reg; discriminate | reflexivity]).
  destruct (run_accounted moduleName calls new 0 H0) as [_ H]. rewrite Hget in H.
  exact (H Hs Ht).
Qed.

Lemma singleton_is_constructed_once_witness :
  factoryCalls "rtmp_server" (run startup new).2 = 1%nat.
Proof.
  apply (singleton_is_constructed_once startup "rtmp_server"
           {| name := "rtmp_server"; factoryThrows := None; dependencies := [];
              reg_exports := ["IStreamProvider"]; singleton := true;
              instance := Some {| of_module := "rtmp_server"; serial := 0 |} |});
    vm_compute; reflexivity.
Defined.

End SingletonProps.

Module RegistryOrderProps.
Import Exec ExecProps Registry RegistryProps SingletonProps.

(** *** The table *)

Lemma table_set_instance (k : string) (i : IModule) (l : list (string * ModuleRegistration)) :
  map (fun kv => (kv.1, factoryThrows kv.2)) (set_instance k i l)
  = map (fun kv => (kv.1, factoryThrows kv.2)) l.
Proof.
  induction l as [| [k' reg] l IH]; [reflexivity |]. cbn.
  destruct (String.eqb k k'); cbn; [reflexivity | rewrite IH; reflexivity].
Qed.

(** Two tables that agree give a name the same factory. *)
Lemma table_flag (m : string) (l l' : list (string * ModuleRegistration)) :
  map (fun kv => (kv.1, factoryThrows kv.2)) l' = map (fun kv => (kv.1, factoryThrows kv.2)) l ->
  factoryThrows <$> get_module m l' = factoryThrows <$> get_module m l.
Proof.
  revert l'. induction l as [| [k reg] l IH]; intros [| [k' reg'] l']; try discriminate.
  - reflexivity.
  - cbn. intros [= -> Ht Hl]. destruct (String.eqb m k); cbn; [congruence | exact (IH l' Hl)].
Qed.

(** The name is registered with a factory that does not throw. *)
Lemma nothrow_table (m : string) (r r' : ModuleRegistry) :
  table r' = table r ->
  match get_module m (modules r') with
  | Some reg => negb (is_Some_bool (factoryThrows reg))
  | None => false
  end
  = match get_module m (modules r) with
    | Some reg => negb (is_Some_bool (factoryThrows reg))
    | None => false
    end.
Proof.
  intros H. pose proof (table_flag m _ _ H) as E.
  destruct (get_module m (modules r')) as [reg' |], (get_module m (modules r)) as [reg |];
    cbn in E; try discriminate; [| reflexivity].
  injection E as ->. reflexivity.
Qed.

(** *** [instantiate], run *)

Lemma instantiate_run (m : string) (reg : ModuleRegistration) (r : ModuleRegistry) :
  get_module m (modules r) = Some reg -> filed r ->
  (exists i r' effs,
      instantiate reg r = (Ok i, r', effs) /\ factoryThrows reg = None /\ of_module i = m /\
      filed r' /\ table r' = table r /\ resolveAllCache r' = resolveAllCache r /\
      exports r' = exports r) \/
  (exists msg,
      factoryThrows reg = Some msg /\
      instantiate reg r = (Throw (Error msg), r, [FactoryCall m])).
Proof.
  intros Hget Hr. destruct (Hr m reg Hget) as [Hname Hinst].
  pose proof (tracks_instantiate m m reg r Hget Hr) as [Hf _].
  revert Hf. unfold instantiate, callFactory.
  destruct (singleton reg) eqn:Hs; [destruct (instance reg) as [i |] eqn:Hi |].
  - intros _. destruct (Hinst i eq_refl) as [Hi1 Hi2].
    left. exists i, r, []. split; [reflexivity |]. do 3 (split; [assumption |]).
    split; [| split]; reflexivity.
  - destruct (factoryThrows reg) as [msg |] eqn:Ht; rewrite Hname;
      unfold mbind, Eff_bind, perform, throw, get, modify, mret, Eff_ret; cbn.
    + intros _. right. exists msg. split; reflexivity.
    + intros Hf. left. do 3 eexists. split; [reflexivity |].
      split; [reflexivity |]. split; [reflexivity |]. split; [exact Hf |].
      split; [| split; reflexivity].
      unfold table. cbn. apply table_set_instance.
  - destruct (factoryThrows reg) as [msg |] eqn:Ht; rewrite Hname;
      unfold mbind, Eff_bind, perform, throw, get, modify, mret, Eff_ret; cbn.
    + intros _. right. exists msg. split; reflexivity.
    + intros Hf. left. do 3 eexists. split; [reflexivity |].
      split; [reflexivity |]. split; [reflexivity |]. split; [exact Hf |].
      split; [| split]; reflexivity.
Qed.

(** *** [collect], run *)

Lemma registry_bind_ok {A B} (c : M A) (f : A -> M B) (r r1 : ModuleRegistry) (a : A)
    (effs1 : list effect) :
  c r = (Ok a, r1, effs1) ->
  (c ≫= f) r = ((f a r1).1.1, (f a r1).1.2, (effs1 ++ (f a r1).2)%list).
Proof.
  intros H. unfold mbind, Eff_bind. rewrite H. destruct (f a r1) as [[res r2] effs2].
  reflexivity.
Qed.

Lemma collect_run (moduleNames : list string) (r : ModuleRegistry) :
  filed r ->
  exists instances r' effs,
    collect moduleNames r = (Ok instances, r', effs) /\
    filed r' /\ table r' = table r /\ resolveAllCache r' = resolveAllCache r /\
    exports r' = exports r /\
    map of_module instances
    = List.filter (fun m => match get_module m (modules r) with
                            | Some reg => negb (is_Some_bool (factoryThrows reg))
                            | None => false
                            end) moduleNames.
Proof.
  revert r. induction moduleNames as [| m rest IH]; intros r Hr.
  - exists [], r, []. split; [reflexivity |]. split; [exact Hr |]. repeat split.
  - cbn [collect List.filter]. rewrite registry_bind_get.
    assert (Hhere : exists here r1 effs1,
               match get_module m (modules r) with
               | None => mret []
               | Some registration =>
                   try_catch (i ← instantiate registration; mret [i])
                             (fun _ => perform (Warn m);; mret [])
               end r = (Ok here, r1, effs1) /\
               filed r1 /\ table r1 = table r /\ resolveAllCache r1 = resolveAllCache r /\
               exports r1 = exports r /\
               map of_module here
               = if match get_module m (modules r) with
                    | Some reg => negb (is_Some_bool (factoryThrows reg))
                    | None => false
                    end then [m] else []).
    { destruct (get_module m (modules r)) as [reg |] eqn:E.
      - destruct (instantiate_run m reg r E Hr)
          as [(i & r1 & effs1 & Hrun & Ht & Hi & Hf & Htab & Hc & He) | (msg & Ht & Hrun)].
        + exists [i], r1, (effs1 ++ [])%list. rewrite Ht. cbn [is_Some_bool negb map].
          unfold try_catch, mbind, Eff_bind. rewrite Hrun. cbn.
          split; [reflexivity |]. do 4 (split; [assumption |]). rewrite Hi. reflexivity.
        + exists [], r, ([FactoryCall m] ++ [Warn m] ++ [])%list.
          rewrite Ht. cbn [is_Some_bool negb map].
          unfold try_catch, mbind, Eff_bind. rewrite Hrun. cbn.
          split; [reflexivity |]. split; [exact Hr |]. repeat split.
      - exists [], r, []. split; [reflexivity |]. split; [exact Hr |]. repeat split. }
    destruct Hhere as (here & r1 & effs1 & Hrun1 & Hf1 & Ht1 & Hc1 & He1 & Hm1).
    destruct (IH r1 Hf1) as (there & r2 & effs2 & Hrun2 & Hf2 & Ht2 & Hc2 & He2 & Hm2).
    rewrite (registry_bind_ok _ _ r r1 here effs1 Hrun1).
    rewrite (registry_bind_ok _ _ r1 r2 there effs2 Hrun2). cbn.
    do 3 eexists. split; [reflexivity |].
    split; [exact Hf2 |]. split; [congruence |]. split; [congruence |]. split; [congruence |].
    rewrite map_app, Hm1, Hm2.
    assert (Hfilter : List.filter (fun m0 => match get_module m0 (modules r1) with
                                             | Some reg => negb (is_Some_bool (factoryThrows reg))
                                             | None => false
                                             end) rest
                      = List.filter (fun m0 => match get_module m0 (modules r) with
                                               | Some reg => negb (is_Some_bool (factoryThrows reg))
                                               | None => false
                                               end) rest).
    { apply List.filter_ext. intros m0. apply nothrow_table. exact Ht1. }
    rewrite Hfilter.
    destruct (match get_module m (modules r) with
              | Some reg => negb (is_Some_bool (factoryThrows reg))
              | None => false
              end); reflexivity.
Qed.

(** *** Names and entries *)

Lemma table_keys (r : ModuleRegistry) : (table r).*1 = (modules r).*1.
Proof. unfold table. induction (modules r) as [| kv l IH]; [reflexivity |]. cbn. rewrite IH. reflexivity. Qed.

Lemma get_module_elem (k : string) (reg : ModuleRegistration)
    (l : list (string * ModuleRegistration)) :
  NoDup l.*1 -> (k, reg) ∈ l -> get_module k l = Some reg.
Proof.
  induction l as [| [k' reg'] l IH]; intros Hnd Hin; [inversion Hin |].
  cbn in Hnd. apply NoDup_cons in Hnd as [Hk' Hnd]. cbn.
  apply elem_of_cons in Hin as [[= -> ->] | Hin]; [rewrite String.eqb_refl; reflexivity |].
  destruct (String.eqb k k') eqn:E; [| exact (IH Hnd Hin)].
  apply String.eqb_eq in E. subst k'. exfalso. apply Hk'.
  apply list_elem_of_fmap. exists (k, reg). split; [reflexivity | exact Hin].
Qed.

Lemma names_of_entries (l l0 : list (string * ModuleRegistration)) :
  (forall k reg, (k, reg) ∈ l0 -> get_module k l = Some reg) ->
  List.filter (fun m => match get_module m l with
                        | Some reg => negb (is_Some_bool (factoryThrows reg))
                        | None => false
                        end) l0.*1
  = constructible (map (fun kv => (kv.1, factoryThrows kv.2)) l0).
Proof.
  unfold constructible. induction l0 as [| [k reg] l0 IH]; intros H; [reflexivity |].
  cbn [fmap list_fmap map List.filter fst snd].
  rewrite (H k reg) by apply list_elem_of_here.
  assert (IH' := IH (fun k' reg' Hin => H k' reg' (list_elem_of_further _ _ _ Hin))).
  cbn [fmap list_fmap] in IH'.
  destruct (negb (is_Some_bool (factoryThrows reg))); cbn [map fst]; rewrite IH'; reflexivity.
Qed.

Lemma names_constructible (r : ModuleRegistry) :
  NoDup (table r).*1 ->
  List.filter (fun m => match get_module m (modules r) with
                        | Some reg => negb (is_Some_bool (factoryThrows reg))
                        | None => false
                        end) (modules r).*1
  = constructible (table r).
Proof.
  rewrite table_keys. intros Hnd. apply names_of_entries.
  intros k reg. apply get_module_elem, Hnd.
Qed.

(** *** The calls keep the order *)

Ltac table_side :=
  let r := fresh "r" in
  let H1 := fresh "H" in
  let H2 := fresh "H" in
  intros r [H1 H2];
  split; [unfold table in *; cbn; rewrite ?table_set_instance; exact H1 | exact H2].

Lemma resolve_keeps_table (seen : list (string * option string))
    (cache : gmap string (list IModule)) (name : string) :
  respects (fun r => table r = seen /\ resolveAllCache r = cache) (fun _ => True)
           (resolve name).
Proof.
  unfold resolve, resolveModule, instantiate, callFactory, cacheResolution.
  respects_with ltac:(table_side); try (apply respects_perform; exact Logic.I).
Qed.

Lemma resolve_keeps_ordered (seen : list (string * option string)) (name : string)
    (r : ModuleRegistry) :
  ordered seen r -> ordered seen (resolve name r).1.2.
Proof.
  intros (Hf & Ht & Hnd & Hc).
  destruct (tracks_resolve name name r Hf) as [Hf' _].
  destruct (resolve_keeps_table seen (resolveAllCache r) name r (conj Ht eq_refl))
    as [[Ht' Hc'] _].
  split; [exact Hf' |]. split; [exact Ht' |]. split; [exact Hnd |].
  rewrite Hc'. exact Hc.
Qed.

(** [resolveAll], run: the answer comes from the cache, or is collected
    and cached. *)
Lemma resolveAll_run (interfaceName : option string) (r : ModuleRegistry) :
  filed r ->
  let given := match interfaceName with
               | Some s => if JsString.truthy s then Some s else None
               | None => None
               end in
  let cacheKey := match given with Some s => s | None => "__all__" end in
  exists instances r' effs,
    resolveAll interfaceName r = (Ok instances, r', effs) /\
    filed r' /\ table r' = table r /\
    match resolveAllCache r !! cacheKey with
    | Some cached => instances = cached /\ r' = r /\ effs = []
    | None =>
        resolveAllCache r' = <[cacheKey := instances]> (resolveAllCache r) /\
        map of_module instances
        = List.filter (fun m => match get_module m (modules r) with
                                | Some reg => negb (is_Some_bool (factoryThrows reg))
                                | None => false
                                end)
                      (match given with
                       | Some s => default [] (exports r !! s)
                       | None => (modules r).*1
                       end)
    end.
Proof.
  intros Hf given cacheKey. unfold resolveAll. rewrite registry_bind_get.
  fold given. fold cacheKey.
  destruct (resolveAllCache r !! cacheKey) as [cached |] eqn:E.
  - exists cached, r, []. split; [reflexivity |]. split; [exact Hf |]. repeat split.
  - destruct (collect_run (match given with
                           | Some s => default [] (exports r !! s)
                           | None => (modules r).*1
                           end) r Hf)
      as (instances & r1 & effs1 & Hrun & Hf1 & Ht1 & Hc1 & He1 & Hm1).
    rewrite (registry_bind_ok _ _ r r1 instances effs1 Hrun).
    unfold mbind, Eff_bind, modify, mret, Eff_ret. cbn.
    do 3 eexists. split; [reflexivity |]. split; [exact Hf1 |]. split; [exact Ht1 |].
    split; [rewrite Hc1; reflexivity | exact Hm1].
Qed.

Lemma resolveAll_keeps_ordered (seen : list (string * option string))
    (interfaceName : option string) (r : ModuleRegistry) :
  ordered seen r -> plain (ResolveAll interfaceName) = true ->
  ordered seen (resolveAll interfaceName r).1.2.
Proof.
  intros Hord Hplain. pose proof Hord as (Hf & Ht & Hnd & Hc).
  destruct (resolveAll_run interfaceName r Hf)
    as (instances & r' & effs & Hrun & Hf' & Ht' & Hcache).
  rewrite Hrun. cbn [fst snd].
  destruct interfaceName as [s |]; cbn [plain] in Hplain; cbv zeta in Hcache.
  - destruct (JsString.truthy s) eqn:Hs.
    + destruct (resolveAllCache r !! s) as [cached |] eqn:E.
      * destruct Hcache as (-> & -> & _). exact Hord.
      * destruct Hcache as [Hc' _]. split; [exact Hf' |]. split; [congruence |].
        split; [exact Hnd |]. intros l. rewrite Hc', lookup_insert_ne; [apply Hc |].
        intros ->. rewrite String.eqb_refl in Hplain. discriminate.
    + destruct (resolveAllCache r !! "__all__") as [cached |] eqn:E.
      * destruct Hcache as (-> & -> & _). exact Hord.
      * destruct Hcache as [Hc' Hm]. split; [exact Hf' |]. split; [congruence |].
        split; [exact Hnd |]. intros l. rewrite Hc', lookup_insert_eq. intros [= <-].
        rewrite Hm, names_constructible, Ht; [reflexivity | rewrite Ht; exact Hnd].
  - destruct (resolveAllCache r !! "__all__") as [cached |] eqn:E.
    + destruct Hcache as (-> & -> & _). exact Hord.
    + destruct Hcache as [Hc' Hm]. split; [exact Hf' |]. split; [congruence |].
      split; [exact Hnd |]. intros l. rewrite Hc', lookup_insert_eq. intros [= <-].
      rewrite Hm, names_constructible, Ht; [reflexivity | rewrite Ht; exact Hnd].
Qed.

Lemma registered_key (name : string) (l : list (string * ModuleRegistration)) :
  is_Some_bool (get_module name l)
  = existsb (String.eqb name) (map (fun kv => (kv.1, factoryThrows kv.2)) l).*1.
Proof.
  induction l as [| [k reg] l IH]; [reflexivity |]. cbn.
  destruct (String.eqb name k); [reflexivity | exact IH].
Qed.

Lemma register_keeps_ordered (seen : list (string * option string)) (name : string)
    (factoryThrows : option string) (dependencies exports_ : list string) (singleton : bool)
    (r : ModuleRegistry) :
  ordered seen r ->
  ordered (if existsb (String.eqb name) seen.*1 then seen
           else (seen ++ [(name, factoryThrows)])%list)
          (register name factoryThrows dependencies exports_ singleton r).1.2.
Proof.
  intros (Hf & Ht & Hnd & Hc).
  pose proof (registered_key name (modules r)) as Hk. fold (table r) in Hk. rewrite Ht in Hk.
  unfold register. rewrite registry_bind_get. rewrite Hk.
  destruct (existsb (String.eqb name) seen.*1) eqn:E.
  - exact (conj Hf (conj Ht (conj Hnd Hc))).
  - cbn. split; [| split; [| split]].
    + intros k' reg'. cbn. rewrite get_module_app.
      destruct (get_module k' (modules r)) as [reg0 |] eqn:E0;
        [intros [= <-]; exact (Hf k' reg0 E0) |].
      cbn. destruct (String.eqb k' name) eqn:E1; [| discriminate].
      apply String.eqb_eq in E1. intros [= <-]. cbn. split; [congruence | discriminate].
    + unfold table. cbn. rewrite map_app. fold (table r). rewrite Ht. reflexivity.
    + rewrite fmap_app. apply NoDup_app. split; [exact Hnd |]. split.
      * intros x Hx Hx'. apply list_elem_of_singleton in Hx'. cbn in Hx'. subst x.
        assert (Hex : existsb (String.eqb name) seen.*1 = true)
          by (apply existsb_exists; exists name; split;
              [apply list_elem_of_In; exact Hx | apply String.eqb_refl]).
        congruence.
      * apply NoDup_singleton.
    + intros l Hl. cbn in Hl. rewrite lookup_empty in Hl. discriminate.
Qed.

Lemma run_ordered (calls : list call) (seen : list (string * option string))
    (r : ModuleRegistry) :
  ordered seen r -> forallb plain calls = true ->
  ordered (registered calls seen) (run calls r).1.
Proof.
  revert seen r. induction calls as [| c calls IH]; intros seen r H Hp; [exact H |].
  cbn in Hp. apply andb_prop in Hp as [Hc Hp]. cbn [run registered].
  assert (H1 : ordered match c with
                       | Register name factoryThrows _ _ _ =>
                           if existsb (String.eqb name) seen.*1 then seen
                           else (seen ++ [(name, factoryThrows)])%list
                       | _ => seen
                       end (handle c r).1.2).
  { destruct c as [name ft deps exps sing | name | interfaceName]; cbn [handle].
    - apply register_keeps_ordered, H.
    - pose proof (resolve_keeps_ordered seen name r H) as H1.
      unfold mbind, Eff_bind, mret, Eff_ret.
      destruct (resolve name r) as [[[i | e] r1] effs1]; exact H1.
    - pose proof (resolveAll_keeps_ordered seen interfaceName r H Hc) as H1.
      unfold mbind, Eff_bind, mret, Eff_ret.
      destruct (resolveAll interfaceName r) as [[[i | e] r1] effs1]; exact H1. }
  destruct (handle c r) as [[res r1] effs1]. cbn [fst snd] in H1.
  specialize (IH _ r1 H1 Hp).
  destruct (run calls r1) as [r2 effs2]. cbn [fst].
  destruct c; exact IH.
Qed.

(** X24.  [resolveAll()] lists the modules in the order of their
    registration, whatever their declared dependencies: in every
    registry reached from the empty one by registrations and
    resolutions, none of them [resolveAll('__all__')], it returns one
    instance for each registered module whose factory does not throw,
    in the order in which the names were first registered.  So
    [initializeAll] and [activateAll] go through the modules in
    registration order. *)
Theorem resolveAll_in_registration_order (calls : list call) :
  forallb plain calls = true ->
  exists instances r' effs,
    resolveAll None (run calls new).1 = (Ok instances, r', effs) /\
    map of_module instances = constructible (registered calls []).
Proof.
  intros Hp.
  assert (H0 : ordered [] new).
  { split; [intros k reg; discriminate |]. split; [reflexivity |].
    split; [constructor |]. intros l Hl. cbn in Hl. rewrite lookup_empty in Hl. discriminate. }
  destruct (run_ordered calls [] new H0 Hp) as (Hf & Ht & Hnd & Hc).
  destruct (resolveAll_run None (run calls new).1 Hf)
    as (instances & r' & effs & Hrun & _ & _ & Hcache).
  exists instances, r', effs. split; [exact Hrun |]. cbv zeta in Hcache.
  destruct (resolveAllCache (run calls new).1 !! "__all__") as [cached |] eqn:E.
  - destruct Hcache as (-> & _). apply Hc. reflexivity.
  - destruct Hcache as [_ Hm]. rewrite Hm, names_constructible, Ht; [reflexivity |].
    rewrite Ht. exact Hnd.
Qed.

Lemma resolveAll_in_registration_order_witness :
  exists instances r' effs,
    resolveAll None (run startup new).1 = (Ok instances, r', effs) /\
    map of_module instances
    = ["rtmp_server"; "youtube_adapter"; "twitch_adapter"; "facebook_adapter";
       "kick_adapter"; "websocket_service"; "stream_manager"].
Proof.
  destruct (resolveAll_in_registration_order startup) as (instances & r' & effs & Hrun & Hm);
    [vm_compute; reflexivity |].
  exists instances, r', effs. split; [exact Hrun |]. rewrite Hm. vm_compute. reflexivity.
Defined.

(** *** The key of [resolveAll()] *)

Lemma run_filed (calls : list call) : filed (run calls new).1.
Proof.
  assert (H0 : accounted EmptyString new 0)
    by (split; [intros k reg; discriminate | reflexivity]).
  exact (proj1 (run_accounted EmptyString calls new 0 H0)).
Qed.

(** The cached answer of [resolveAll()] stays until the next
    registration. *)
Lemma handle_keeps_all (cached : list IModule) (c : call) (r : ModuleRegistry) :
  is_register c = false ->
  filed r /\ resolveAllCache r !! "__all__" = Some cached ->
  filed (handle c r).1.2 /\ resolveAllCache (handle c r).1.2 !! "__all__" = Some cached.
Proof.
  intros Hc [Hf Hall]. destruct c as [? ? ? ? ? | name | interfaceName]; [discriminate | |];
    cbn [handle].
  - destruct (tracks_resolve name name r Hf) as [Hf' _].
    destruct (resolve_keeps_table (table r) (resolveAllCache r) name r (conj eq_refl eq_refl))
      as [[_ Hc'] _].
    unfold mbind, Eff_bind, mret, Eff_ret.
    destruct (resolve name r) as [[[i | e] r1] effs1]; cbn [fst snd] in *;
      (split; [exact Hf' | rewrite Hc'; exact Hall]).
  - destruct (resolveAll_run interfaceName r Hf)
      as (instances & r' & effs & Hrun & Hf' & _ & Hcache).
    unfold mbind, Eff_bind, mret, Eff_ret. rewrite Hrun. cbn [fst snd].
    split; [exact Hf' |]. cbv zeta in Hcache.
    destruct (resolveAllCache r !! _) as [hit |] eqn:E in Hcache.
    + destruct Hcache as (_ & -> & _). exact Hall.
    + destruct Hcache as [-> _]. rewrite lookup_insert_ne; [exact Hall |].
      intros Hkey. rewrite Hkey in E. congruence.
Qed.

(** X25.  [resolveAll()] and [resolveAll('__all__')] share one cache
    entry.  In a registry reached by registrations and resolutions in
    which no module exports an interface called [__all__] and nothing
    is cached for that key, a call [resolveAll('__all__')] returns the
    empty list, and from then on, through any further resolutions and
    until the next registration, [resolveAll()] returns the empty list
    as well, without calling a factory, however many modules are
    registered. *)
Theorem resolveAll_shares_the_key_all (before later : list call) :
  resolveAllCache (run before new).1 !! "__all__" = None ->
  exports (run before new).1 !! "__all__" = None ->
  forallb (fun c => negb (is_register c)) later = true ->
  let r := (run (ResolveAll (Some "__all__") :: later) (run before new).1).1 in
  (resolveAll (Some "__all__") (run before new).1).1.1 = Ok [] /\
  resolveAll None r = (Ok [], r, []).
Proof.
  intros Hmiss Hexp Hlater r.
  pose proof (run_filed before) as Hf.
  destruct (resolveAll_run (Some "__all__") (run before new).1 Hf)
    as (instances & r0 & effs0 & Hrun & Hf0 & _ & Hcache).
  cbn in Hcache. rewrite Hmiss, Hexp in Hcache. cbn in Hcache.
  destruct Hcache as [Hc0 Hnil]. apply map_eq_nil in Hnil. subst instances.
  split; [rewrite Hrun; reflexivity |].
  assert (Hr : filed r /\ resolveAllCache r !! "__all__" = Some []).
  { subst r. cbn [run handle]. unfold mbind, Eff_bind, mret, Eff_ret. rewrite Hrun.
    assert (H0 : filed r0 /\ resolveAllCache r0 !! "__all__" = Some [])
      by (split; [exact Hf0 | rewrite Hc0; apply lookup_insert_eq]).
    clear Hrun Hc0 Hf0. revert r0 H0 Hlater.
    induction later as [| c later IH]; intros r0 H0 Hlater; [exact H0 |].
    cbn in Hlater. apply andb_prop in Hlater as [Hc Hlater]. apply negb_true_iff in Hc.
    cbn [run]. pose proof (handle_keeps_all [] c r0 Hc H0) as H1.
    destruct (handle c r0) as [[res r1] effs1]. cbn [fst snd] in H1.
    specialize (IH r1 H1 Hlater). destruct (run later r1) as [r2 effs2]. exact IH. }
  destruct Hr as [Hfr Hall].
  destruct (resolveAll_run None r Hfr) as (instances & r' & effs & Hrun' & _ & _ & Hcache).
  cbv zeta in Hcache. rewrite Hall in Hcache. destruct Hcache as (-> & -> & ->).
  exact Hrun'.
Qed.

Lemma resolveAll_shares_the_key_all_witness :
  length (modules (run setup new).1) = 7%nat /\
  (resolveAll None (run setup new).1).1.1
  = Ok (map (fun k => {| of_module := k.1; serial := k.2 |})
            [("rtmp_server", 0%nat); ("youtube_adapter", 1%nat); ("twitch_adapter", 2%nat);
             ("facebook_adapter", 3%nat); ("kick_adapter", 4%nat);
             ("websocket_service", 5%nat); ("stream_manager", 6%nat)]) /\
  (resolveAll None
     (run [ResolveAll (Some "__all__"); Resolve "IStreamProvider"] (run setup new).1).1).1.1
  = Ok [].
Proof.
  split; [reflexivity |]. split; [vm_compute; reflexivity |].
  destruct (resolveAll_shares_the_key_all setup [Resolve "IStreamProvider"])
    as [_ H]; [vm_compute; reflexivity | vm_compute; reflexivity | reflexivity |].
  cbv zeta in H. rewrite H. reflexivity.
Defined.

End RegistryOrderProps.

Module ChildrenProps.
Import Exec ExecProps Relay StreamManager StreamManagerProps Supervisor SupervisorProps
  SessionsProps Children.

#[local] Arguments getStatus : simpl never.
#[local] Arguments ffmpegArgs : simpl never.

(** *** What keeps the children tracked *)

Lemma tracked_frame (m m' : StreamManager) :
  children m' = children m -> ffmpegProcesses m' = ffmpegProcesses m ->
  tracked m -> tracked m'.
Proof. intros Hc Hp H h c. rewrite Hc, Hp. apply H. Qed.

Lemma processes_rebuild (m : StreamManager) :
  ffmpegProcesses (rebuildPlatformConfigMap m) = ffmpegProcesses m.
Proof. destruct (rebuild_is_set m) as [pm ->]. reflexivity. Qed.

(** A change of one child that does not make it relay. *)
Lemma tracked_alter (h : nat) (f : ChildProcess -> ChildProcess) (m : StreamManager) :
  (forall c, relaying (f c) = true -> relaying c = true) ->
  (forall c, child_platform (f c) = child_platform c) ->
  tracked m -> tracked (update_child h f m).
Proof.
  intros Hr Hp H h' c'. unfold update_child, set_children. cbn [children ffmpegProcesses].
  destruct (decide (h = h')) as [-> | Hne].
  - rewrite list_lookup_alter_eq. destruct (children m !! h') as [c |] eqn:E; [| discriminate].
    cbn. intros [= <-] Hrel. rewrite Hp. apply (H h' c E), Hr, Hrel.
  - rewrite list_lookup_alter_ne by exact Hne. apply H.
Qed.

Lemma vacant_alter (id : string) (h : nat) (f : ChildProcess -> ChildProcess)
    (m : StreamManager) :
  (forall c, relaying (f c) = true -> relaying c = true) ->
  (forall c, child_platform (f c) = child_platform c) ->
  vacant id m -> vacant id (update_child h f m).
Proof.
  intros Hr Hp H h' c'. unfold update_child, set_children. cbn [children].
  destruct (decide (h = h')) as [-> | Hne].
  - rewrite list_lookup_alter_eq. destruct (children m !! h') as [c |] eqn:E; [| discriminate].
    cbn. intros [= <-] Hrel. rewrite Hp. apply (H h' c E), Hr, Hrel.
  - rewrite list_lookup_alter_ne by exact Hne. apply H.
Qed.





Ltac benign :=
  let c := fresh "c" in
  intros c; destruct c as [? ? ? [] [] [] ? ?]; cbn; intros; first [reflexivity | discriminate | assumption].



(** *** Running a method step by step *)







(** *** [stopPlatformStream] *)



(** *** The [error] and [close] handlers *)





(** *** [startPlatformStream] *)






(** *** The supervisor as a module, and the ingest *)

Ltac settled_side :=
  let m := fresh "m" in
  let Hf := fresh "Hf" in
  let Ht := fresh "Ht" in
  cbv beta;
  lazymatch goal with
  | |- forall m, _ /\ _ -> _ => intros m [Hf Ht]
  | |- forall m l, _ /\ _ -> _ => intros m ? [Hf Ht]
  end;
  split;
  [ unfold update_child; cbn; rewrite ?streaming_rebuild; exact Hf
  | first
      [ apply tracked_alter; [benign | benign | exact Ht]
      | apply (tracked_frame m); [| | exact Ht];
        cbn; rewrite ?children_rebuild, ?processes_rebuild; reflexivity ] ].





(** *** Sessions need a stream provider and a configuration *)

















End ChildrenProps.

Module BulkStartProps.
Import Exec ExecProps Relay StreamManager StreamManagerProps Supervisor SupervisorProps
  Children.

#[local] Arguments ffmpegArgs : simpl never.

(** *** Calls that do not read the session table *)

Lemma same_table (m : StreamManager) : set_ffmpegProcesses m (ffmpegProcesses m) = m.
Proof. destruct m; reflexivity. Qed.

Lemma blind_ret {A} (a : A) : blind (mret a : M A).
Proof. intros m. exists (fun t => t). reflexivity. Qed.

Lemma blind_throw {A} (msg : string) : blind (throw msg : M A).
Proof. intros m. exists (fun t => t). reflexivity. Qed.

Lemma blind_perform (e : effect) : blind (perform e).
Proof. intros m. exists (fun t => t). reflexivity. Qed.

Lemma blind_modify (f : StreamManager -> StreamManager)
    (g : gmap string nat -> gmap string nat) :
  (forall m table, f (set_ffmpegProcesses m table) = set_ffmpegProcesses (f m) (g table)) ->
  blind (modify f).
Proof. intros Hf m. exists g. intros table. unfold modify. cbn. rewrite Hf. reflexivity. Qed.

Lemma blind_bind {A B} (c : M A) (f : A -> M B) :
  blind c -> (forall a, blind (f a)) -> blind (c ≫= f).
Proof.
  intros Hc Hf m. destruct (Hc m) as [g1 H1]. unfold mbind, M_bind.
  destruct (c m) as [[[a | e] m1] effs1] eqn:E; cbn in H1.
  - destruct (Hf a m1) as [g2 H2]. exists (fun t => g2 (g1 t)). intros table.
    rewrite H1, H2. destruct (f a m1) as [[r m2] effs2]. reflexivity.
  - exists g1. intros table. rewrite H1. reflexivity.
Qed.

Lemma blind_get {A} (f : StreamManager -> M A) :
  (forall m table, f (set_ffmpegProcesses m table) = f m) ->
  (forall m, blind (f m)) -> blind (get ≫= f).
Proof.
  intros Hsame Hf m. destruct (Hf m m) as [g H]. exists g. intros table.
  unfold mbind, M_bind, get. rewrite Hsame, H.
  destruct (f m m) as [[r m1] effs1]. reflexivity.
Qed.

Lemma blind_try_catch {A} (c : M A) (handler : exn -> M A) :
  blind c -> (forall e, blind (handler e)) -> blind (try_catch c handler).
Proof.
  intros Hc Hh m. destruct (Hc m) as [g1 H1]. unfold try_catch.
  destruct (c m) as [[[a | e] m1] effs1] eqn:E; cbn in H1.
  - exists g1. intros table. rewrite H1. reflexivity.
  - destruct (Hh e m1) as [g2 H2]. exists (fun t => g2 (g1 t)). intros table.
    rewrite H1, H2. destruct (handler e m1) as [[r m2] effs2]. reflexivity.
Qed.

Lemma blind_when (b : bool) (c : M unit) : blind c -> blind (when b c).
Proof. destruct b; [auto | intros _; apply blind_ret]. Qed.

Ltac blind_step :=
  lazymatch goal with
  | |- blind (mret _) => apply blind_ret
  | |- blind (throw _) => apply blind_throw
  | |- blind (perform _) => apply blind_perform
  | |- blind (modify (fun m => set_ffmpegProcesses m (<[?k := ?v]> (ffmpegProcesses m)))) =>
      apply (blind_modify _ (fun t => <[k := v]> t)); intros; reflexivity
  | |- blind (modify _) => apply (blind_modify _ (fun t => t)); intros; reflexivity
  | |- blind (when _ _) => apply blind_when
  | |- blind (try_catch _ _) => apply blind_try_catch; [| intros ?]
  | |- blind (get ≫= _) => apply blind_get; [intros; reflexivity | intros ?]
  | |- blind (mbind _ _) => apply blind_bind; [| intros ?]
  | |- blind (match ?x with _ => _ end) => destruct x eqn:?
  end.

Lemma blind_startConfigs (env : Env) (platform : Adapter) (inputStream : string)
    (pcs : list PlatformConfig) :
  blind (startConfigs env platform inputStream pcs).
Proof.
  induction pcs as [| pc pcs IH]; cbn [startConfigs].
  - apply blind_ret.
  - unfold adapterConfigure, startPlatformStreamInternal, setStreamState, logMessage.
    repeat blind_step; exact IH.
Qed.

Lemma blind_startPlatforms (env : Env) (inputStream : string) (active : list Adapter) :
  blind (startPlatforms env inputStream active).
Proof.
  induction active as [| platform rest IH]; cbn [startPlatforms].
  - apply blind_ret.
  - apply blind_get; [intros; reflexivity | intros m].
    apply blind_bind; [apply blind_startConfigs | intros here].
    apply blind_bind; [exact IH | intros there]. apply blind_ret.
Qed.

Lemma blind_startStream (env : Env) : blind (startStream env).
Proof.
  unfold startStream.
  apply blind_get; [intros; reflexivity | intros m].
  repeat blind_step. apply blind_startPlatforms.
Qed.

(** X26.  The bulk [startStream] does not read the session table:
    whatever sessions the table holds, it returns or throws the same,
    spawns the same children and sends the same, and leaves the same
    supervisor but for the table.  So it spawns a child for an enabled
    destination also when [startPlatformStream] has started one for
    it, where [startPlatformStream] itself returns at once. *)
Theorem bulk_start_ignores_sessions (env : Env) (m : StreamManager)
    (table : gmap string nat) :
  let there := startStream env (set_ffmpegProcesses m table) in
  let here := startStream env m in
  there.1.1 = here.1.1 /\
  there.2 = here.2 /\
  set_ffmpegProcesses there.1.2 (ffmpegProcesses here.1.2) = here.1.2.
Proof.
  intros there here. subst there here.
  destruct (blind_startStream env m) as [g H]. rewrite H. cbn [fst snd].
  split; [reflexivity |]. split; [reflexivity |].
  exact (same_table (startStream env m).1.2).
Qed.

End BulkStartProps.
